(** * OpenPSD: a shallow embedding of the decoder and its checked properties

    The development follows the C sources of the library:
    - [psd_error.h]          status codes
    - [psd_stream.c]         the buffer-backed byte source
    - [psd_rle.c]            PackBits scanline decoding (composite image)
    - [psd_layer_decode.c]   PackBits row decoding and lazy channel decoding
    - [psd_zip.c]            prediction reversal after inflation
    - [psd_context.c]        header parsing, feature detection, channel image
                             data, accessors
    - [psd_text_layer_parse.c] the derived text-layer table
    - [psd_render.c]         conversion of planar samples to RGBA8
    - [psd_unicode.c]        MacRoman and UTF-16BE to UTF-8
    - [psd_endian.c]         big-endian reads and writes on either host
    - [psd_parse.c]          status messages
    - [psd_context.c]        color mode data, image resources, composite image,
                             the length of the layer section, the
                             background-layer test
    - [psd_stream.c]         the loops of the exact read and of the skip
    - [psd_descriptor.c]     Unicode strings and class ids

    Conventions.  Bytes and fixed-width integers are values of [Z]; a cast to
    a w-bit unsigned type is written as a reduction modulo [2^w].  Buffers are
    [list Z]; positions inside an in-memory buffer are [nat] (they are bounded
    by the length of a real buffer, so [size_t] arithmetic on them cannot
    wrap).  A C loop that is not structurally recursive is run with fuel, and
    a lemma shows that the fuel given by the wrapper is enough (for the
    feature scan of a layer's extra data: on data as the layer parser stores
    it; for the text scan: on extra data laid out in whole blocks). *)

From Stdlib Require Import String Ascii ZArith List Lia Bool.
Import ListNotations.
Local Open Scope Z_scope.

(** ** Status codes ([psd_error.h]) *)

Inductive psd_status_t : Set :=
| PSD_OK
| PSD_ERR_INVALID_ARGUMENT
| PSD_ERR_OUT_OF_MEMORY
| PSD_ERR_NULL_POINTER
| PSD_ERR_NOT_INITIALIZED
| PSD_ERR_ALREADY_INITIALIZED
| PSD_ERR_INVALID_FORMAT
| PSD_ERR_STREAM_READ
| PSD_ERR_STREAM_WRITE
| PSD_ERR_STREAM_SEEK
| PSD_ERR_STREAM_INVALID
| PSD_ERR_STREAM_EOF
| PSD_ERR_INVALID_FILE_FORMAT
| PSD_ERR_INVALID_HEADER
| PSD_ERR_UNSUPPORTED_VERSION
| PSD_ERR_CORRUPT_DATA
| PSD_ERR_INVALID_STRUCTURE
| PSD_ERR_UNSUPPORTED_FEATURE
| PSD_ERR_UNSUPPORTED_COMPRESSION
| PSD_ERR_UNSUPPORTED_COLOR_MODE
| PSD_ERR_BUFFER_TOO_SMALL
| PSD_ERR_OUT_OF_RANGE.

Definition status_code (s : psd_status_t) : Z :=
  match s with
  | PSD_OK => 0
  | PSD_ERR_INVALID_ARGUMENT => -1
  | PSD_ERR_OUT_OF_MEMORY => -2
  | PSD_ERR_NULL_POINTER => -3
  | PSD_ERR_NOT_INITIALIZED => -4
  | PSD_ERR_ALREADY_INITIALIZED => -5
  | PSD_ERR_INVALID_FORMAT => -6
  | PSD_ERR_STREAM_READ => -100
  | PSD_ERR_STREAM_WRITE => -101
  | PSD_ERR_STREAM_SEEK => -102
  | PSD_ERR_STREAM_INVALID => -103
  | PSD_ERR_STREAM_EOF => -104
  | PSD_ERR_INVALID_FILE_FORMAT => -200
  | PSD_ERR_INVALID_HEADER => -201
  | PSD_ERR_UNSUPPORTED_VERSION => -202
  | PSD_ERR_CORRUPT_DATA => -203
  | PSD_ERR_INVALID_STRUCTURE => -204
  | PSD_ERR_UNSUPPORTED_FEATURE => -300
  | PSD_ERR_UNSUPPORTED_COMPRESSION => -301
  | PSD_ERR_UNSUPPORTED_COLOR_MODE => -302
  | PSD_ERR_BUFFER_TOO_SMALL => -400
  | PSD_ERR_OUT_OF_RANGE => -401
  end.

Definition status_eqb (a b : psd_status_t) : bool :=
  status_code a =? status_code b.

(** ** Fixed-width integers and byte buffers *)

Definition u8 (x : Z) : Z := x mod 256.
Definition u16 (x : Z) : Z := x mod 65536.
Definition u32 (x : Z) : Z := x mod 4294967296.
Definition u64 (x : Z) : Z := x mod 18446744073709551616.

(** [(int8_t)b] for a byte [b]. *)
Definition int8_cast (b : Z) : Z := if b <? 128 then b else b - 256.

(** [(int32_t)x] for a 32-bit pattern [x]. *)
Definition int32_cast (x : Z) : Z :=
  if x <? 2147483648 then x else x - 4294967296.

(** [p[i]]; the model reads 0 outside the buffer, where C has no defined
    behaviour.  Where the source can make such a read and its result
    depends on the value, the function gives no result instead (see
    [TextLayer.scan_blocks]). *)
Definition byte_at (p : list Z) (i : nat) : Z := nth i p 0.

(** [read_be_u16] and [read_be_u32] of [psd_layer_decode.c] (the same
    big-endian reads are [psd_read_be16] / [psd_read_be32] of
    [psd_endian.c]), applied to [p + off]. *)
Definition read_be_u16 (p : list Z) (off : nat) : Z :=
  Z.lor (u16 (Z.shiftl (byte_at p off) 8)) (byte_at p (off + 1)).

Definition read_be_u32 (p : list Z) (off : nat) : Z :=
  Z.lor (Z.lor (Z.lor (u32 (Z.shiftl (byte_at p off) 24))
                      (Z.shiftl (byte_at p (off + 1)) 16))
               (Z.shiftl (byte_at p (off + 2)) 8))
        (byte_at p (off + 3)).

Definition read_be_u64 (p : list Z) (off : nat) : Z :=
  Z.lor (Z.shiftl (read_be_u32 p off) 32) (read_be_u32 p (off + 4)).

(** [memcpy(dst, src + off, n)] seen from the destination. *)
Definition slice (src : list Z) (off n : nat) : list Z :=
  firstn n (skipn off src).

(** ** The byte source ([psd_stream.c]) *)

Module Stream.

(** [psd_buffer_stream_t]: the built-in source over a caller-owned byte
    slice.  [position <= length buffer] is kept by every operation. *)
Record psd_stream_t : Set := mk_stream {
  buffer : list Z;
  position : nat
}.

(** [psd_stream_create_buffer]: no stream for a null or empty buffer. *)
Definition psd_stream_create_buffer (buf : list Z) : option psd_stream_t :=
  match buf with
  | [] => None
  | _ => Some (mk_stream buf 0)
  end.

(** [psd_stream_read] through [psd_buffer_stream_read]: copies
    [min count remaining] bytes and returns them ([to_read] is their
    number). *)
Definition psd_stream_read (s : psd_stream_t) (count : Z)
  : list Z * psd_stream_t :=
  let remaining := (length (buffer s) - position s)%nat in
  let to_read := Z.to_nat (Z.min count (Z.of_nat remaining)) in
  (slice (buffer s) (position s) to_read,
   mk_stream (buffer s) (position s + to_read)).

(** [psd_stream_seek] through [psd_buffer_stream_seek]: the new stream, or
    [None] for the negative return value (out of range). *)
Definition psd_stream_seek (s : psd_stream_t) (offset : Z)
  : option psd_stream_t :=
  if (offset <? 0) || (offset >? Z.of_nat (length (buffer s))) then None
  else Some (mk_stream (buffer s) (Z.to_nat offset)).

Definition psd_stream_tell (s : psd_stream_t) : Z := Z.of_nat (position s).

(** [psd_stream_read_exact].  Over a buffer source the loop runs at most
    two rounds: the first [read] returns [min count remaining] bytes; when
    that is short, the source is exhausted and the second [read] returns 0,
    which is reported as end-of-stream.  The bytes copied so far and the
    advanced position stay as they are. *)
Definition psd_stream_read_exact (s : psd_stream_t) (count : Z)
  : psd_status_t * list Z * psd_stream_t :=
  if count <=? 0 then (PSD_OK, [], s)
  else
    let '(got, s1) := psd_stream_read s count in
    if Z.of_nat (length got) <? count
    then (PSD_ERR_STREAM_EOF, got, s1)
    else (PSD_OK, got, s1).

(** [psd_stream_skip]: reads and discards in chunks of at most 4096 bytes;
    over a buffer source this advances by [count], or stops at the end of
    the buffer with end-of-stream. *)
Definition psd_stream_skip (s : psd_stream_t) (count : Z)
  : psd_status_t * psd_stream_t :=
  let '(st, _, s1) := psd_stream_read_exact s count in (st, s1).

(** The typed big-endian reads: [Some v] when the bytes were there, and the
    status otherwise; the output variable is written only on success. *)
Definition read_value (width : Z) (decode : list Z -> Z) (s : psd_stream_t)
  : (psd_status_t + Z) * psd_stream_t :=
  match psd_stream_read_exact s width with
  | (PSD_OK, bytes, s1) => (inr (decode bytes), s1)
  | (st, _, s1) => (inl st, s1)
  end.

Definition psd_stream_read_be16 := read_value 2 (fun b => read_be_u16 b 0).
Definition psd_stream_read_be32 := read_value 4 (fun b => read_be_u32 b 0).
Definition psd_stream_read_be64 := read_value 8 (fun b => read_be_u64 b 0).
Definition psd_stream_read_be_i32 :=
  read_value 4 (fun b => int32_cast (read_be_u32 b 0)).

End Stream.

(** ** A state-and-error monad for the section parsers

    The C parsers thread a stream and a document through a sequence of
    fallible steps and return the first non-OK status.  [inl st] is an early
    [return st]; the state reached so far is kept, as the C code keeps the
    fields it had already written. *)

Definition M (St A : Type) : Type := St -> (psd_status_t + A) * St.

Definition ret {St A : Type} (a : A) : M St A := fun s => (inr a, s).

Definition fail {St A : Type} (e : psd_status_t) : M St A :=
  fun s => (inl e, s).

Definition bind {St A B : Type} (m : M St A) (k : A -> M St B) : M St B :=
  fun s =>
    match m s with
    | (inl e, s') => (inl e, s')
    | (inr a, s') => k a s'
    end.

Definition modify {St : Type} (f : St -> St) : M St unit :=
  fun s => (inr tt, f s).

Definition run_status {St : Type} (m : M St unit) (s : St)
  : psd_status_t * St :=
  match m s with
  | (inl e, s') => (e, s')
  | (inr _, s') => (PSD_OK, s')
  end.

Declare Scope psd_monad_scope.
Delimit Scope psd_monad_scope with psd.
Notation "x <- m ;; k" := (bind m (fun x => k))
  (at level 61, m at next level, right associativity) : psd_monad_scope.
Notation "m ;;; k" := (bind m (fun _ => k))
  (at level 61, right associativity) : psd_monad_scope.

(** ** The document ([psd_context.h], [psd_layer.h], [psd_layer_channel.h],
       [psd_text_layer.h], [psd_types.h])

    A nullable owned buffer is an [option (list Z)]. *)

Record psd_layer_bounds_t : Set := mk_bounds {
  bounds_top : Z;
  bounds_left : Z;
  bounds_bottom : Z;
  bounds_right : Z
}.

Record psd_layer_features_t : Set := mk_features {
  is_group_start : bool;
  is_group_end : bool;
  has_text : bool;
  has_vector_mask : bool;
  has_smart_object : bool;
  has_adjustment : bool;
  has_fill : bool;
  has_effects : bool;
  has_3d : bool;
  has_video : bool
}.

Definition no_features : psd_layer_features_t :=
  mk_features false false false false false false false false false false.

Inductive psd_layer_type_t : Set :=
| PSD_LAYER_TYPE_GROUP_END
| PSD_LAYER_TYPE_GROUP_START
| PSD_LAYER_TYPE_PIXEL
| PSD_LAYER_TYPE_TEXT
| PSD_LAYER_TYPE_SMART_OBJECT
| PSD_LAYER_TYPE_ADJUSTMENT
| PSD_LAYER_TYPE_FILL
| PSD_LAYER_TYPE_EFFECTS
| PSD_LAYER_TYPE_3D
| PSD_LAYER_TYPE_VIDEO
| PSD_LAYER_TYPE_EMPTY.

Record psd_layer_channel_data_t : Set := mk_channel {
  channel_id : Z;
  compression : Z;
  compressed_length : Z;
  compressed_data : option (list Z);
  decoded_data : option (list Z);
  decoded_length : Z;
  is_decoded : bool
}.

(** [channels] stands for the array and its length [channel_count]; an
    empty list is the null array of a layer without channels. *)
Record psd_layer_record_t : Set := mk_layer {
  bounds : psd_layer_bounds_t;
  channels : list psd_layer_channel_data_t;
  blend_sig : Z;
  blend_key : Z;
  opacity : Z;
  clipping : Z;
  flags : Z;
  name : option (list Z);
  additional_data : option (list Z);
  additional_length : Z;
  features : psd_layer_features_t
}.

Definition channel_count (l : psd_layer_record_t) : Z :=
  Z.of_nat (length (channels l)).

Record psd_layer_info_t : Set := mk_layer_info {
  layers : list psd_layer_record_t;
  layer_count : Z;
  has_transparency_layer : bool
}.

Record psd_color_mode_data_t : Set := mk_color_data {
  color_data_bytes : option (list Z);
  color_data_length : Z
}.

Record psd_resource_block_t : Set := mk_resource {
  resource_id : Z;
  resource_name : option (list Z);
  resource_data : option (list Z);
  resource_data_length : Z
}.

Record psd_composite_image_t : Set := mk_composite {
  composite_data : option (list Z);
  composite_data_length : Z;
  composite_compression : Z
}.

Inductive psd_text_source_t : Set :=
| PSD_TEXT_SOURCE_UNKNOWN
| PSD_TEXT_SOURCE_TYSH
| PSD_TEXT_SOURCE_TYSH_LEGACY.

(** The six doubles of the transform and the four of the text rectangle are
    kept as their 64-bit patterns: the parser only moves the bits. *)
Record psd_text_layer_t : Set := mk_text_layer {
  layer_index : Z;
  source : psd_text_source_t;
  tysh_version : Z;
  text_version : Z;
  text_desc_version : Z;
  transform : list Z;
  text_bounds : list Z;
  raw_tysh : option (list Z);
  raw_tysh_len : Z;
  has_rendered_pixels : bool
}.

Record psd_document_t : Set := mk_document {
  doc_is_psb : bool;
  doc_width : Z;
  doc_height : Z;
  doc_channels : Z;
  doc_depth : Z;
  doc_color_mode : Z;
  doc_color_data : psd_color_mode_data_t;
  doc_resources : list psd_resource_block_t;
  doc_layers : psd_layer_info_t;
  doc_composite : psd_composite_image_t;
  doc_text_layers : list psd_text_layer_t
}.

(** Color modes ([psd_color_mode_t]); unknown values are kept as numbers. *)
Definition PSD_COLOR_BITMAP : Z := 0.
Definition PSD_COLOR_GRAYSCALE : Z := 1.
Definition PSD_COLOR_INDEXED : Z := 2.
Definition PSD_COLOR_RGB : Z := 3.
Definition PSD_COLOR_CMYK : Z := 4.
Definition PSD_COLOR_MULTICHANNEL : Z := 7.
Definition PSD_COLOR_DUOTONE : Z := 8.
Definition PSD_COLOR_LAB : Z := 9.

(** ** The injected allocator ([psd_alloc.c])

    The allocator is supplied by the caller; the model keeps of it whether a
    request for a given number of bytes is granted.  The callback behind it
    may answer differently from one call of the library to the next, so an
    allocator stands for the answers during one call, and a statement about
    two calls takes two allocators.  Structure sizes depend on the platform
    and are parameters. *)

Record psd_allocator_t : Type := mk_allocator {
  malloc_ok : Z -> bool
}.

Record psd_sizeof_t : Set := mk_sizeof {
  sizeof_psd_stream_t : Z;
  sizeof_psd_buffer_stream_t : Z;
  sizeof_psd_text_layer_t : Z;
  sizeof_psd_document_t : Z
}.

(** ** The derived text-layer table ([psd_text_layer_parse.c]) *)

Module TextLayer.
Section WithAllocator.

Variable allocator : psd_allocator_t.
Variable sz : psd_sizeof_t.

(** [psd_stream_create_buffer] with its two allocations. *)
Definition create_buffer_stream (payload : list Z) (payload_len : Z)
  : option Stream.psd_stream_t :=
  if payload_len =? 0 then None
  else if negb (malloc_ok allocator (sizeof_psd_stream_t sz)) then None
  else if negb (malloc_ok allocator (sizeof_psd_buffer_stream_t sz)) then None
  else Some (Stream.mk_stream (firstn (Z.to_nat payload_len) payload) 0).

(** A read whose status is ignored: the destination keeps the zero that
    [memset] put there when the read fails. *)
Definition read_or_zero
           (rd : Stream.psd_stream_t -> (psd_status_t + Z) * Stream.psd_stream_t)
           (s : Stream.psd_stream_t) : Z * Stream.psd_stream_t :=
  match rd s with
  | (inr v, s') => (v, s')
  | (inl _, s') => (0, s')
  end.

Fixpoint read_doubles (n : nat) (s : Stream.psd_stream_t)
  : list Z * Stream.psd_stream_t :=
  match n with
  | O => ([], s)
  | S n' =>
    let '(v, s1) := read_or_zero Stream.psd_stream_read_be64 s in
    let '(vs, s2) := read_doubles n' s1 in
    (v :: vs, s2)
  end.

(** [a - b] for two [int32_t] operands.  The difference is an [int]; where
    it leaves the range of 32 bits C gives it no meaning, and the model
    wraps it as two's-complement hardware does. *)
Definition int32_sub (a b : Z) : Z := int32_cast (u32 (a - b)).

(** [(layer->channel_count > 0) && ((right - left) > 0) &&
    ((bottom - top) > 0)]. *)
Definition rendered_pixels (layer : psd_layer_record_t) : bool :=
  (0 <? channel_count layer) &&
  (0 <? int32_sub (bounds_right (bounds layer)) (bounds_left (bounds layer))) &&
  (0 <? int32_sub (bounds_bottom (bounds layer)) (bounds_top (bounds layer))).

(** The owned copy of a payload: [malloc] followed by [memcpy]. *)
Definition copy_payload (payload : list Z) (payload_len : Z)
  : option (list Z) * Z :=
  if malloc_ok allocator payload_len
  then (Some (firstn (Z.to_nat payload_len) payload), payload_len)
  else (None, 0).

(** [psd_parse_tysh_payload]. *)
Definition psd_parse_tysh_payload (layer_idx : Z) (layer : psd_layer_record_t)
           (payload : list Z) (payload_len : Z)
  : psd_status_t * option psd_text_layer_t :=
  match create_buffer_stream payload payload_len with
  | None => (PSD_ERR_OUT_OF_MEMORY, None)
  | Some s =>
    let '(v_tysh, s) := read_or_zero Stream.psd_stream_read_be16 s in
    let '(xform, s) := read_doubles 6 s in
    let '(v_text, s) := read_or_zero Stream.psd_stream_read_be16 s in
    let '(v_desc, s) := read_or_zero Stream.psd_stream_read_be32 s in
    let s :=
      if 70 <=? payload_len then
        let current := Stream.psd_stream_tell s in
        let bounds_start := payload_len - 32 in
        if bounds_start >? current
        then snd (Stream.psd_stream_skip s (bounds_start - current))
        else s
      else s in
    let '(rect, s) := read_doubles 4 s in
    let '(raw, raw_len) := copy_payload payload payload_len in
    (PSD_OK,
     Some (mk_text_layer layer_idx PSD_TEXT_SOURCE_TYSH v_tysh v_text v_desc
                         xform rect raw raw_len (rendered_pixels layer)))
  end.

(** [psd_text_layers_add]: the table grows by one record unless the
    allocator refuses the new array. *)
Definition psd_text_layers_add (items : list psd_text_layer_t)
           (item : psd_text_layer_t) : psd_status_t * list psd_text_layer_t :=
  let new_count := Z.of_nat (length items) + 1 in
  if malloc_ok allocator (new_count * sizeof_psd_text_layer_t sz)
  then (PSD_OK, items ++ [item])
  else (PSD_ERR_OUT_OF_MEMORY, items).

(** The record added when a block is kept without eager parsing (the
    legacy [tySh] branch, and the fallback of the [TySh] branch, whose
    other fields the C code leaves unset; they are zero here). *)
Definition raw_item (layer_idx : Z) (src : psd_text_source_t)
           (layer : psd_layer_record_t) (payload : list Z) (block_len : Z)
  : psd_text_layer_t :=
  let '(raw, raw_len) := copy_payload payload block_len in
  mk_text_layer layer_idx src 0 0 0 (repeat 0 6) (repeat 0 4)
                raw raw_len (rendered_pixels layer).

(** The [while (remaining >= 8)] loop over the tagged blocks of one layer.
    [off] is [data - layer->additional_data].  The loop is entered with
    eight bytes left and reads the length field at [data + 8], so with
    fewer than twelve bytes left in the array it reads past the end of the
    extra data.  C defines no result for that read, and what follows
    depends on it (the block may seem to fit, and a length of [0xFFFFFFF4]
    makes [12 + block_len] wrap to a step of zero bytes): the model gives
    no result there.  [None] is also the result of a scan that does not
    end within the fuel. *)
Fixpoint scan_blocks (fuel : nat) (layer_idx : Z) (layer : psd_layer_record_t)
         (data : list Z) (off : nat) (remaining : Z)
         (items : list psd_text_layer_t) : option (list psd_text_layer_t) :=
  match fuel with
  | O => None
  | S fuel' =>
    if 8 <=? remaining then
      if (length data <? off + 12)%nat then None
      else
        let block_len := read_be_u32 data (off + 8) in
        let block_total := u32 (12 + block_len) in
        if block_len >? u64 (remaining - 12) then Some items
        else
          let block_total :=
            if Z.odd block_len then block_total + 1 else block_total in
          if block_total >? remaining then Some items
          else
            let sig_val := read_be_u32 data off in
            if negb (sig_val =? 0x3842494D) && negb (sig_val =? 0x3842364D) then
              scan_blocks fuel' layer_idx layer data
                          (off + Z.to_nat block_total) (remaining - block_total)
                          items
            else
              let key_val := read_be_u32 data (off + 4) in
              let payload := slice data (off + 12) (Z.to_nat block_len) in
              let items :=
                if key_val =? 0x54795368 then
                  match psd_parse_tysh_payload layer_idx layer payload block_len with
                  | (PSD_OK, Some item) => snd (psd_text_layers_add items item)
                  | _ =>
                    snd (psd_text_layers_add items
                           (raw_item layer_idx PSD_TEXT_SOURCE_TYSH layer
                                     payload block_len))
                  end
                else if key_val =? 0x74795368 then
                  snd (psd_text_layers_add items
                         (raw_item layer_idx PSD_TEXT_SOURCE_TYSH_LEGACY layer
                                   payload block_len))
                else items in
              scan_blocks fuel' layer_idx layer data
                          (off + Z.to_nat block_total) (remaining - block_total)
                          items
    else Some items
  end.

(** Skipping a 4-byte length and the region it announces (layer mask data,
    blending ranges). *)
Definition skip_length_prefixed (data : list Z) (off : nat) (remaining : Z)
  : nat * Z :=
  if 4 <=? remaining then
    let len := read_be_u32 data off in
    let off := (off + 4)%nat in
    let remaining := remaining - 4 in
    if (0 <? len) && (len <=? remaining)
    then ((off + Z.to_nat len)%nat, remaining - len)
    else (off, remaining)
  else (off, remaining).

(** Skipping the Pascal name padded to a multiple of four. *)
Definition skip_layer_name (data : list Z) (off : nat) (remaining : Z)
  : nat * Z :=
  if 1 <=? remaining then
    let name_len := byte_at data off in
    let name_total := 1 + name_len in
    let name_total :=
      if negb (name_total mod 4 =? 0)
      then name_total + (4 - name_total mod 4) else name_total in
    if name_total <=? remaining
    then ((off + Z.to_nat name_total)%nat, remaining - name_total)
    else (off, remaining)
  else (off, remaining).

(** The body of the [for] loop of [psd_parse_text_layers] for layer [i]. *)
Definition scan_layer (layer_idx : Z) (layer : psd_layer_record_t)
           (items : list psd_text_layer_t) : option (list psd_text_layer_t) :=
  match additional_data layer with
  | None => Some items
  | Some data =>
    if negb (has_text (features layer)) || (additional_length layer <? 12)
    then Some items
    else
      let remaining := additional_length layer in
      let '(off, remaining) := skip_length_prefixed data 0 remaining in
      let '(off, remaining) := skip_length_prefixed data off remaining in
      let '(off, remaining) := skip_layer_name data off remaining in
      scan_blocks (S (Z.to_nat remaining)) layer_idx layer data off remaining
                  items
  end.

Fixpoint scan_layers (layer_idx : Z) (ls : list psd_layer_record_t)
         (items : list psd_text_layer_t) : option (list psd_text_layer_t) :=
  match ls with
  | [] => Some items
  | layer :: rest =>
    match scan_layer layer_idx layer items with
    | None => None
    | Some items' => scan_layers (layer_idx + 1) rest items'
    end
  end.

(** [psd_parse_text_layers(doc)] for a non-null document: the status and
    the new text-layer table.  With no layers the table is left as it
    was; otherwise it is rebuilt from scratch. *)
Definition psd_parse_text_layers (doc : psd_document_t)
  : option (psd_status_t * list psd_text_layer_t) :=
  let info := doc_layers doc in
  if layer_count info <=? 0 then Some (PSD_OK, doc_text_layers doc)
  else
    match scan_layers 0 (firstn (Z.to_nat (layer_count info)) (layers info)) []
    with
    | None => None
    | Some items => Some (PSD_OK, items)
    end.

End WithAllocator.
End TextLayer.

(** ** Header parsing and the top-level parser ([psd_context.c]) *)

Module Context.

Definition PSD_SIGNATURE : Z := 0x38425053.
Definition PSD_VERSION_PSD : Z := 1.
Definition PSD_VERSION_PSB : Z := 2.
Definition PSD_MAX_CHANNELS : Z := 56.
Definition PSD_MAX_DIMENSION_STANDARD : Z := 30000.
Definition PSD_MAX_DIMENSION_PSB : Z := 300000.

(** The state threaded by a section parser. *)
Definition pstate : Set := (Stream.psd_stream_t * psd_document_t)%type.

Definition on_stream {A : Type}
           (rd : Stream.psd_stream_t -> (psd_status_t + A) * Stream.psd_stream_t)
  : M pstate A :=
  fun st => let '(r, s') := rd (fst st) in (r, (s', snd st)).

Definition on_doc (f : psd_document_t -> psd_document_t) : M pstate unit :=
  modify (fun st : pstate => (fst st, f (snd st))).

Definition get_doc : M pstate psd_document_t := fun st => (inr (snd st), st).

Definition set_is_psb (b : bool) (d : psd_document_t) : psd_document_t :=
  mk_document b (doc_width d) (doc_height d) (doc_channels d) (doc_depth d)
              (doc_color_mode d) (doc_color_data d) (doc_resources d)
              (doc_layers d) (doc_composite d) (doc_text_layers d).

Definition set_channels (v : Z) (d : psd_document_t) : psd_document_t :=
  mk_document (doc_is_psb d) (doc_width d) (doc_height d) v (doc_depth d)
              (doc_color_mode d) (doc_color_data d) (doc_resources d)
              (doc_layers d) (doc_composite d) (doc_text_layers d).

Definition set_height (v : Z) (d : psd_document_t) : psd_document_t :=
  mk_document (doc_is_psb d) (doc_width d) v (doc_channels d) (doc_depth d)
              (doc_color_mode d) (doc_color_data d) (doc_resources d)
              (doc_layers d) (doc_composite d) (doc_text_layers d).

Definition set_width (v : Z) (d : psd_document_t) : psd_document_t :=
  mk_document (doc_is_psb d) v (doc_height d) (doc_channels d) (doc_depth d)
              (doc_color_mode d) (doc_color_data d) (doc_resources d)
              (doc_layers d) (doc_composite d) (doc_text_layers d).

Definition set_depth (v : Z) (d : psd_document_t) : psd_document_t :=
  mk_document (doc_is_psb d) (doc_width d) (doc_height d) (doc_channels d) v
              (doc_color_mode d) (doc_color_data d) (doc_resources d)
              (doc_layers d) (doc_composite d) (doc_text_layers d).

Definition set_color_mode (v : Z) (d : psd_document_t) : psd_document_t :=
  mk_document (doc_is_psb d) (doc_width d) (doc_height d) (doc_channels d)
              (doc_depth d) v (doc_color_data d) (doc_resources d)
              (doc_layers d) (doc_composite d) (doc_text_layers d).

Definition set_color_data (v : psd_color_mode_data_t) (d : psd_document_t)
  : psd_document_t :=
  mk_document (doc_is_psb d) (doc_width d) (doc_height d) (doc_channels d)
              (doc_depth d) (doc_color_mode d) v (doc_resources d)
              (doc_layers d) (doc_composite d) (doc_text_layers d).

Definition set_resources (v : list psd_resource_block_t) (d : psd_document_t)
  : psd_document_t :=
  mk_document (doc_is_psb d) (doc_width d) (doc_height d) (doc_channels d)
              (doc_depth d) (doc_color_mode d) (doc_color_data d) v
              (doc_layers d) (doc_composite d) (doc_text_layers d).

Definition set_layers (v : psd_layer_info_t) (d : psd_document_t)
  : psd_document_t :=
  mk_document (doc_is_psb d) (doc_width d) (doc_height d) (doc_channels d)
              (doc_depth d) (doc_color_mode d) (doc_color_data d)
              (doc_resources d) v (doc_composite d) (doc_text_layers d).

Definition set_composite (v : psd_composite_image_t) (d : psd_document_t)
  : psd_document_t :=
  mk_document (doc_is_psb d) (doc_width d) (doc_height d) (doc_channels d)
              (doc_depth d) (doc_color_mode d) (doc_color_data d)
              (doc_resources d) (doc_layers d) v (doc_text_layers d).

Definition set_text_layers (v : list psd_text_layer_t) (d : psd_document_t)
  : psd_document_t :=
  mk_document (doc_is_psb d) (doc_width d) (doc_height d) (doc_channels d)
              (doc_depth d) (doc_color_mode d) (doc_color_data d)
              (doc_resources d) (doc_layers d) (doc_composite d) v.

Local Open Scope psd_monad_scope.

(** [psd_parse_header(stream, doc)], as a computation on the pair of the
    stream and the document. *)
Definition parse_header_steps : M pstate unit :=
  signature <- on_stream Stream.psd_stream_read_be32 ;;
  if negb (signature =? PSD_SIGNATURE) then fail PSD_ERR_INVALID_FILE_FORMAT
  else
  version <- on_stream Stream.psd_stream_read_be16 ;;
  if negb (version =? PSD_VERSION_PSD) && negb (version =? PSD_VERSION_PSB)
  then fail PSD_ERR_UNSUPPORTED_VERSION
  else
  on_doc (set_is_psb (version =? PSD_VERSION_PSB)) ;;;
  on_stream (fun s =>
               match Stream.psd_stream_read_exact s 6 with
               | (PSD_OK, _, s') => (inr tt, s')
               | (st, _, s') => (inl st, s')
               end) ;;;
  ch <- on_stream Stream.psd_stream_read_be16 ;;
  on_doc (set_channels ch) ;;;
  if (ch <? 1) || (ch >? PSD_MAX_CHANNELS) then fail PSD_ERR_INVALID_HEADER
  else
  h <- on_stream Stream.psd_stream_read_be32 ;;
  on_doc (set_height h) ;;;
  w <- on_stream Stream.psd_stream_read_be32 ;;
  on_doc (set_width w) ;;;
  d <- get_doc ;;
  let max_dim := if doc_is_psb d then PSD_MAX_DIMENSION_PSB
                 else PSD_MAX_DIMENSION_STANDARD in
  if (w <? 1) || (w >? max_dim) || (h <? 1) || (h >? max_dim)
  then fail PSD_ERR_INVALID_HEADER
  else
  depth <- on_stream Stream.psd_stream_read_be16 ;;
  on_doc (set_depth depth) ;;;
  if negb (depth =? 1) && negb (depth =? 8) && negb (depth =? 16)
     && negb (depth =? 32)
  then fail PSD_ERR_INVALID_HEADER
  else
  color_mode_raw <- on_stream Stream.psd_stream_read_be16 ;;
  on_doc (set_color_mode color_mode_raw) ;;;
  ret tt.

Definition psd_parse_header (stream : Stream.psd_stream_t)
           (doc : psd_document_t) : psd_status_t * pstate :=
  run_status parse_header_steps (stream, doc).

(** The document as [psd_parse_ex] initialises it after allocation. *)
Definition empty_document : psd_document_t :=
  mk_document false 0 0 0 0 0
              (mk_color_data None 0) []
              (mk_layer_info [] 0 false)
              (mk_composite None 0 0) [].

Section ParseEx.

Variable allocator : psd_allocator_t.
Variable sz : psd_sizeof_t.

(** The parsers of the sections after the header.  Each one receives the
    stream and the document built so far and hands back its status, the
    part of the document it owns and the stream; none of them assigns
    the header fields, which only [psd_parse_header] writes. *)
Variable psd_parse_color_mode_data :
  Stream.psd_stream_t -> psd_document_t ->
  psd_status_t * psd_color_mode_data_t * Stream.psd_stream_t.
Variable psd_parse_resources :
  Stream.psd_stream_t -> psd_document_t ->
  psd_status_t * list psd_resource_block_t * Stream.psd_stream_t.
Variable psd_parse_layer_info :
  Stream.psd_stream_t -> psd_document_t ->
  psd_status_t * psd_layer_info_t * Stream.psd_stream_t.
Variable psd_parse_text_layers :
  psd_document_t -> psd_status_t * list psd_text_layer_t.
Variable psd_parse_composite_image :
  Stream.psd_stream_t -> psd_document_t ->
  psd_status_t * psd_composite_image_t * Stream.psd_stream_t.

(** [psd_parse_ex(stream, allocator, out_status)]: the document (or
    [None] for the null pointer) and the value left in [*out_status]. *)
Definition psd_parse_ex (stream : option Stream.psd_stream_t)
  : option psd_document_t * psd_status_t :=
  match stream with
  | None => (None, PSD_ERR_NULL_POINTER)
  | Some stream =>
    if negb (malloc_ok allocator (sizeof_psd_document_t sz))
    then (None, PSD_ERR_OUT_OF_MEMORY)
    else
      let doc := empty_document in
      match psd_parse_header stream doc with
      | (PSD_OK, (stream, doc)) =>
        match psd_parse_color_mode_data stream doc with
        | (PSD_OK, cd, stream) =>
          let doc := set_color_data cd doc in
          match psd_parse_resources stream doc with
          | (PSD_OK, rs, stream) =>
            let doc := set_resources rs doc in
            match psd_parse_layer_info stream doc with
            | (PSD_OK, li, stream) =>
              let doc := set_layers li doc in
              let doc :=
                set_text_layers (snd (psd_parse_text_layers doc)) doc in
              match psd_parse_composite_image stream doc with
              | (status, comp, stream) =>
                let doc := set_composite comp doc in
                if negb (status_eqb status PSD_OK)
                   && negb (status_eqb status PSD_ERR_STREAM_EOF)
                   && negb (status_eqb status PSD_ERR_STREAM_INVALID)
                   && negb (status_eqb status PSD_ERR_UNSUPPORTED_COMPRESSION)
                then (None, status)
                else (Some doc, PSD_OK)
              end
            | (status, _, _) => (None, status)
            end
          | (status, _, _) => (None, status)
          end
        | (status, _, _) => (None, status)
        end
      | (status, _) => (None, status)
      end
  end.

(** [psd_parse(stream, allocator)]. *)
Definition psd_parse (stream : option Stream.psd_stream_t)
  : option psd_document_t :=
  fst (psd_parse_ex stream).

End ParseEx.

(** [psd_document_get_layer_bounds]: status and (top, left, bottom, right). *)
Definition psd_document_get_layer_bounds (doc : psd_document_t) (index : Z)
  : psd_status_t * option psd_layer_bounds_t :=
  if (index <? 0) || (index >=? layer_count (doc_layers doc))
  then (PSD_ERR_OUT_OF_RANGE, None)
  else
    match nth_error (layers (doc_layers doc)) (Z.to_nat index) with
    | Some layer => (PSD_OK, Some (bounds layer))
    | None => (PSD_ERR_OUT_OF_RANGE, None)
    end.

(** The classification of [psd_document_get_layer_type], on a layer. *)
Definition layer_type_of (layer : psd_layer_record_t) : psd_layer_type_t :=
  let f := features layer in
  if is_group_start f then PSD_LAYER_TYPE_GROUP_START
  else if is_group_end f then PSD_LAYER_TYPE_GROUP_END
  else if has_text f then PSD_LAYER_TYPE_TEXT
  else if has_smart_object f then PSD_LAYER_TYPE_SMART_OBJECT
  else if has_adjustment f then PSD_LAYER_TYPE_ADJUSTMENT
  else if has_fill f then PSD_LAYER_TYPE_FILL
  else if has_effects f then PSD_LAYER_TYPE_EFFECTS
  else if has_3d f then PSD_LAYER_TYPE_3D
  else if has_video f then PSD_LAYER_TYPE_VIDEO
  else if channel_count layer >? 0 then PSD_LAYER_TYPE_PIXEL
  else PSD_LAYER_TYPE_EMPTY.

(** [psd_document_get_layer_type(doc, layer_index, type)] for non-null
    pointers. *)
Definition psd_document_get_layer_type (doc : psd_document_t) (layer_idx : Z)
  : psd_status_t * option psd_layer_type_t :=
  if (layer_idx <? 0) || (layer_idx >=? layer_count (doc_layers doc))
  then (PSD_ERR_OUT_OF_RANGE, None)
  else
    match nth_error (layers (doc_layers doc)) (Z.to_nat layer_idx) with
    | Some layer => (PSD_OK, Some (layer_type_of layer))
    | None => (PSD_ERR_OUT_OF_RANGE, None)
    end.

End Context.

(** ** PackBits, scanline form ([psd_rle.c]) *)

(** What a row decoder leaves behind: the status, the number of input bytes
    consumed ([comp_pos] / [si]) and the bytes written to the output buffer
    ([decompressed[0 .. decomp_pos)] / [dst[0 .. di)]). *)
Record row_result : Set := mk_row_result {
  row_status : psd_status_t;
  row_consumed : nat;
  row_output : list Z
}.

Module Rle.

(** The [while] loop of [psd_rle_decode_scanline]; [out] holds the bytes
    written so far, so [decomp_pos = length out]. *)
Fixpoint scanline_loop (fuel : nat) (compressed : list Z) (width : nat)
         (comp_pos : nat) (out : list Z) : option row_result :=
  match fuel with
  | O => None
  | S fuel' =>
    let compressed_len := length compressed in
    let decomp_pos := length out in
    if (decomp_pos <? width)%nat && (comp_pos <? compressed_len)%nat then
      let header := byte_at compressed comp_pos in
      let comp_pos := S comp_pos in
      if header <? 128 then
        let literal_count := Z.to_nat (header + 1) in
        if (width <? decomp_pos + literal_count)%nat then
          Some (mk_row_result PSD_ERR_CORRUPT_DATA comp_pos out)
        else if (compressed_len <? comp_pos + literal_count)%nat then
          Some (mk_row_result PSD_ERR_CORRUPT_DATA comp_pos out)
        else
          scanline_loop fuel' compressed width (comp_pos + literal_count)
                        (out ++ slice compressed comp_pos literal_count)
      else if header =? 128 then
        scanline_loop fuel' compressed width comp_pos out
      else
        let repeat_count := Z.to_nat (257 - header) in
        if (compressed_len <=? comp_pos)%nat then
          Some (mk_row_result PSD_ERR_CORRUPT_DATA comp_pos out)
        else if (width <? decomp_pos + repeat_count)%nat then
          Some (mk_row_result PSD_ERR_CORRUPT_DATA comp_pos out)
        else
          let repeat_byte := byte_at compressed comp_pos in
          scanline_loop fuel' compressed width (S comp_pos)
                        (out ++ repeat repeat_byte repeat_count)
    else if negb (decomp_pos =? width)%nat then
      Some (mk_row_result PSD_ERR_CORRUPT_DATA comp_pos out)
    else
      Some (mk_row_result PSD_OK comp_pos out)
  end.

(** [psd_rle_decode_scanline(compressed, compressed_len, width,
    decompressed, out_len)] for non-null pointers.  Every iteration that
    continues has consumed a header byte, so [compressed_len + 1] rounds
    are enough. *)
Definition psd_rle_decode_scanline (compressed : list Z) (width : nat)
  : option row_result :=
  scanline_loop (S (length compressed)) compressed width 0%nat [].

(** The first [while] loop in the body of [psd_rle_decode]: it measures the
    compressed scanline that starts at [comp_pos] and returns the status,
    [scan_pos] and [decomp_scanned]. *)
Fixpoint scan_loop (fuel : nat) (compressed : list Z)
         (width comp_pos scan_pos decomp_scanned : nat)
  : option (psd_status_t * nat * nat) :=
  match fuel with
  | O => None
  | S fuel' =>
    let compressed_len := length compressed in
    if (decomp_scanned <? width)%nat
       && (comp_pos + scan_pos <? compressed_len)%nat then
      let header := byte_at compressed (comp_pos + scan_pos) in
      let scan_pos := S scan_pos in
      if header <? 128 then
        let literal_count := Z.to_nat (header + 1) in
        if (width <? decomp_scanned + literal_count)%nat
           || (compressed_len <? comp_pos + scan_pos + literal_count)%nat then
          Some (PSD_ERR_CORRUPT_DATA, scan_pos, decomp_scanned)
        else
          scan_loop fuel' compressed width comp_pos
                    (scan_pos + literal_count)
                    (decomp_scanned + literal_count)
      else if header =? 128 then
        scan_loop fuel' compressed width comp_pos scan_pos decomp_scanned
      else
        let repeat_count := Z.to_nat (257 - header) in
        if (compressed_len <=? comp_pos + scan_pos)%nat then
          Some (PSD_ERR_CORRUPT_DATA, scan_pos, decomp_scanned)
        else
          scan_loop fuel' compressed width comp_pos (S scan_pos)
                    (decomp_scanned + repeat_count)
    else Some (PSD_OK, scan_pos, decomp_scanned)
  end.

(** The [for] loop of [psd_rle_decode] over the scanlines still to decode;
    [out] holds the rows written so far, so
    [total_decompressed = length out]. *)
Fixpoint decode_scanlines (scanlines : nat) (compressed : list Z)
         (width comp_pos : nat) (out : list Z) : option row_result :=
  match scanlines with
  | O => Some (mk_row_result PSD_OK comp_pos out)
  | S scanlines' =>
    match scan_loop (S (length compressed)) compressed width comp_pos 0 0 with
    | None => None
    | Some (st, scan_pos, decomp_scanned) =>
      if negb (status_eqb st PSD_OK) then
        Some (mk_row_result st comp_pos out)
      else if negb (decomp_scanned =? width)%nat then
        Some (mk_row_result PSD_ERR_CORRUPT_DATA comp_pos out)
      else
        match psd_rle_decode_scanline (slice compressed comp_pos scan_pos)
                                      width with
        | None => None
        | Some row =>
          if negb (status_eqb (row_status row) PSD_OK) then
            Some (mk_row_result (row_status row) comp_pos
                                (out ++ row_output row))
          else
            let comp_pos := (comp_pos + scan_pos)%nat in
            let out := out ++ row_output row in
            if (length compressed <? comp_pos)%nat then
              Some (mk_row_result PSD_ERR_CORRUPT_DATA comp_pos out)
            else decode_scanlines scanlines' compressed width comp_pos out
        end
    end
  end.

(** [psd_rle_decode(compressed, compressed_len, scanline_count, width,
    decompressed, out_len)] for non-null pointers: the status, the final
    [comp_pos] and the bytes written ([out_len] is their number). *)
Definition psd_rle_decode (compressed : list Z) (scanline_count width : nat)
  : option row_result :=
  if (scanline_count =? 0)%nat || (width =? 0)%nat
  then Some (mk_row_result PSD_OK 0 [])
  else decode_scanlines scanline_count compressed width 0 [].

End Rle.

(** ** Inflation and prediction reversal ([psd_zip.c])

    The functions below are those of a build with [PSD_ENABLE_ZIP]; without
    it all three entry points are stubs that return
    [PSD_ERR_UNSUPPORTED_COMPRESSION].  zlib itself is a parameter: [None]
    stands for the build without it, [Some inflate] gives, for a window-bits
    value, an input and an output capacity, whether [inflate] ended with
    [Z_STREAM_END] and the bytes it produced. *)

Definition zlib_t : Type := option (Z -> list Z -> Z -> bool * list Z).

Module Zip.

Definition MAX_WBITS : Z := 15.

(** [psd_zip_decompress]: raw DEFLATE first, then zlib framing.  On
    failure the callers discard the output buffer, which is returned
    empty here. *)
Definition psd_zip_decompress (zlib : zlib_t) (compressed : list Z)
           (decompressed_len : Z) : psd_status_t * list Z :=
  match zlib with
  | None => (PSD_ERR_UNSUPPORTED_COMPRESSION, [])
  | Some inflate =>
    let '(end0, out0) := inflate (- MAX_WBITS) compressed decompressed_len in
    if end0 && (Z.of_nat (length out0) =? decompressed_len)
    then (PSD_OK, out0)
    else
      let '(end1, out1) := inflate MAX_WBITS compressed decompressed_len in
      if end1 && (Z.of_nat (length out1) =? decompressed_len)
      then (PSD_OK, out1)
      else (PSD_ERR_CORRUPT_DATA, [])
  end.

(** [paeth_predictor(a, b, c)]. *)
Definition paeth_predictor (a b c : Z) : Z :=
  let p := a + b - c in
  let pa := Z.abs (p - a) in
  let pb := Z.abs (p - b) in
  let pc := Z.abs (p - c) in
  if (pa <=? pb) && (pa <=? pc) then a
  else if pb <=? pc then b
  else c.

(** [data[i] = v]; a store outside the buffer is outside the model and
    leaves the list as it is. *)
Fixpoint poke (data : list Z) (i : nat) (v : Z) : list Z :=
  match data, i with
  | [], _ => []
  | _ :: t, O => v :: t
  | h :: t, S i' => h :: poke t i' v
  end.

(** [for (i = lo; i < hi; i++) data = body i data]. *)
Definition for_range (lo hi : nat) (body : nat -> list Z -> list Z)
           (data : list Z) : list Z :=
  fold_left (fun d i => body i d) (seq lo (hi - lo)) data.

(** The five filter cases, acting in place on [data = scanline_data + 1]. *)
Definition unfilter_sub (bpp : nat) (data : list Z) : list Z :=
  for_range bpp (length data)
    (fun i d => poke d i (u8 (byte_at d i + byte_at d (i - bpp)))) data.

Definition unfilter_average (bpp : nat) (data : list Z) : list Z :=
  let data :=
    for_range 0 bpp
      (fun i d => poke d i (u8 (byte_at d i + Z.quot (byte_at d i) 2))) data in
  for_range bpp (length data)
    (fun i d =>
       let left := byte_at d (i - bpp) in
       let above := 0 in
       let avg := Z.quot (left + above) 2 in
       poke d i (u8 (byte_at d i + avg))) data.

Definition unfilter_paeth (bpp : nat) (data : list Z) : list Z :=
  let data :=
    for_range 0 bpp
      (fun i d => poke d i (u8 (byte_at d i + paeth_predictor 0 0 0))) data in
  for_range bpp (length data)
    (fun i d =>
       let left := byte_at d (i - bpp) in
       let pred := paeth_predictor left 0 0 in
       poke d i (u8 (byte_at d i + pred))) data.

(** [memmove(scanline_data, data, data_len)] on a scanline whose data part
    is [data]: the data moves one byte down and the last byte of the
    scanline keeps its value. *)
Definition move_down (filter_type : Z) (data : list Z) : list Z :=
  data ++ [last data filter_type].

(** [psd_zip_reverse_prediction(scanline_data, scanline_length,
    bytes_per_pixel)]: the status and the [scanline_length] bytes of the
    buffer afterwards.  The reconstructed scanline is their first
    [scanline_length - 1] bytes. *)
Definition psd_zip_reverse_prediction (scanline : list Z)
           (bytes_per_pixel : Z) : psd_status_t * list Z :=
  match scanline with
  | [] => (PSD_ERR_INVALID_ARGUMENT, scanline)
  | filter_type :: data =>
    if (bytes_per_pixel =? 0) || (bytes_per_pixel >? 8)
    then (PSD_ERR_INVALID_ARGUMENT, scanline)
    else
      let bpp := Z.to_nat bytes_per_pixel in
      if filter_type =? 0 then (PSD_OK, move_down filter_type data)
      else if filter_type =? 1 then
        (PSD_OK, move_down filter_type (unfilter_sub bpp data))
      else if filter_type =? 2 then (PSD_OK, move_down filter_type data)
      else if filter_type =? 3 then
        (PSD_OK, move_down filter_type (unfilter_average bpp data))
      else if filter_type =? 4 then
        (PSD_OK, move_down filter_type (unfilter_paeth bpp data))
      else (PSD_ERR_CORRUPT_DATA, scanline)
  end.

(** The reconstructed scanline that [psd_zip_reverse_prediction] leaves at
    the start of the buffer. *)
Definition reversed_scanline (scanline : list Z) (bytes_per_pixel : Z)
  : psd_status_t * list Z :=
  let '(st, buf) := psd_zip_reverse_prediction scanline bytes_per_pixel in
  (st, firstn (length scanline - 1) buf).

(** The loop of [psd_zip_decompress_with_prediction] over the inflated
    buffer; it advances by [scanline_width] and hands each window of
    [scanline_width + 1] bytes to [psd_zip_reverse_prediction]. *)
Fixpoint reverse_rows (fuel : nat) (buf : list Z) (offset : nat)
         (scanline_width : nat) (bytes_per_pixel : Z)
  : option (psd_status_t * list Z) :=
  match fuel with
  | O => None
  | S fuel' =>
    let scanline_length := (scanline_width + 1)%nat in
    if (offset <? length buf)%nat then
      if (length buf <? offset + scanline_length)%nat then Some (PSD_OK, buf)
      else
        match psd_zip_reverse_prediction (slice buf offset scanline_length)
                                         bytes_per_pixel with
        | (PSD_OK, row) =>
          reverse_rows fuel'
                       (firstn offset buf ++ row ++
                        skipn (offset + scanline_length) buf)
                       (offset + scanline_width) scanline_width
                       bytes_per_pixel
        | (st, _) => Some (st, buf)
        end
    else Some (PSD_OK, buf)
  end.

(** [psd_zip_decompress_with_prediction]. *)
Definition psd_zip_decompress_with_prediction (zlib : zlib_t)
           (compressed : list Z) (decompressed_len : Z)
           (scanline_width : Z) (bytes_per_pixel : Z)
  : option (psd_status_t * list Z) :=
  match zlib with
  | None => Some (PSD_ERR_UNSUPPORTED_COMPRESSION, [])
  | Some _ =>
    if scanline_width =? 0 then Some (PSD_ERR_INVALID_ARGUMENT, [])
    else
      match psd_zip_decompress zlib compressed decompressed_len with
      | (PSD_OK, buf) =>
        reverse_rows (S (length buf)) buf 0 (Z.to_nat scanline_width)
                     bytes_per_pixel
      | (st, buf) => Some (st, buf)
      end
  end.

End Zip.

(** ** PackBits, layer-channel form ([psd_layer_decode.c]) *)

Module LayerDecode.

(** The [while] loop of [psd_packbits_decode_row]; [dst] holds the bytes
    written so far, so [di = length dst]. *)
Fixpoint packbits_loop (fuel : nat) (src : list Z) (dst_len : nat)
         (si : nat) (dst : list Z) : option row_result :=
  match fuel with
  | O => None
  | S fuel' =>
    let src_len := length src in
    let di := length dst in
    if (si <? src_len)%nat && (di <? dst_len)%nat then
      let n := int8_cast (byte_at src si) in
      let si := S si in
      if 0 <=? n then
        let count := Z.to_nat (n + 1) in
        if (src_len <? si + count)%nat then
          Some (mk_row_result PSD_ERR_CORRUPT_DATA si dst)
        else if (dst_len <? di + count)%nat then
          Some (mk_row_result PSD_ERR_CORRUPT_DATA si dst)
        else
          packbits_loop fuel' src dst_len (si + count)
                        (dst ++ slice src si count)
      else if -127 <=? n then
        if (src_len <=? si)%nat then
          Some (mk_row_result PSD_ERR_CORRUPT_DATA si dst)
        else
          let v := byte_at src si in
          let si := S si in
          let count := Z.to_nat (1 - n) in
          if (dst_len <? di + count)%nat then
            Some (mk_row_result PSD_ERR_CORRUPT_DATA si dst)
          else
            packbits_loop fuel' src dst_len si (dst ++ repeat v count)
      else
        packbits_loop fuel' src dst_len si dst
    else if negb (si =? src_len)%nat || negb (di =? dst_len)%nat then
      Some (mk_row_result PSD_ERR_CORRUPT_DATA si dst)
    else
      Some (mk_row_result PSD_OK si dst)
  end.

(** [psd_packbits_decode_row(src, src_len, dst, dst_len)]. *)
Definition psd_packbits_decode_row (src : list Z) (dst_len : nat)
  : option row_result :=
  packbits_loop (S (length src)) src dst_len 0%nat [].

(** [parse_rle_row_counts]: [inr (counts_size, total)] on success. *)
Fixpoint sum_row_counts (rows : nat) (y : nat) (compressed : list Z)
         (row_bytes : nat) (total limit : Z) : option Z :=
  match rows with
  | O => Some total
  | S rows' =>
    let v := if (row_bytes =? 2)%nat
             then read_be_u16 compressed (y * row_bytes)
             else read_be_u32 compressed (y * row_bytes) in
    let total := u64 (total + v) in
    if total >? limit then None
    else sum_row_counts rows' (S y) compressed row_bytes total limit
  end.

Definition parse_rle_row_counts (compressed : list Z) (compressed_len : Z)
           (height : Z) (row_bytes : nat) : psd_status_t + (Z * Z) :=
  let counts_size := height * Z.of_nat row_bytes in
  if compressed_len <? counts_size then inl PSD_ERR_CORRUPT_DATA
  else
    match sum_row_counts (Z.to_nat height) 0 compressed row_bytes 0
                         (compressed_len - counts_size) with
    | None => inl PSD_ERR_CORRUPT_DATA
    | Some total =>
      if compressed_len <? u64 (counts_size + total)
      then inl PSD_ERR_CORRUPT_DATA
      else inr (counts_size, total)
    end.

(** The choice of the row-count width in the RLE case of
    [psd_layer_channel_decode]:
    [inr (row_count_bytes, counts_size, total_rle_bytes)], or the status
    returned when neither table can be read. *)
Definition select_row_count_width (compressed : list Z) (compressed_len : Z)
           (height : Z) : psd_status_t + (nat * Z * Z) :=
  let st2 := parse_rle_row_counts compressed compressed_len height 2 in
  let st4 := parse_rle_row_counts compressed compressed_len height 4 in
  match st2, st4 with
  | inr (counts_size2, total2), inr (counts_size4, total4) =>
    let end2 := u64 (counts_size2 + total2) in
    let end4 := u64 (counts_size4 + total4) in
    if (end4 =? compressed_len) && negb (end2 =? compressed_len)
    then inr (4%nat, counts_size4, total4)
    else if (end2 =? compressed_len) && negb (end4 =? compressed_len)
    then inr (2%nat, counts_size2, total2)
    else inr (2%nat, counts_size2, total2)
  | inr (counts_size2, total2), inl _ => inr (2%nat, counts_size2, total2)
  | inl _, inr (counts_size4, total4) => inr (4%nat, counts_size4, total4)
  | inl _, inl _ => inl PSD_ERR_CORRUPT_DATA
  end.

(** The row-by-row loop of the RLE case; [decoded] collects the rows
    written so far. *)
Fixpoint decode_rle_rows (rows : nat) (y : nat) (compressed : list Z)
         (row_count_bytes : nat) (counts_size total_rle_bytes : Z)
         (scanline_width : Z) (rle_off : Z) (decoded : list Z)
  : option (psd_status_t * list Z) :=
  match rows with
  | O => Some (PSD_OK, decoded)
  | S rows' =>
    let row_len := if (row_count_bytes =? 2)%nat
                   then read_be_u16 compressed (y * row_count_bytes)
                   else read_be_u32 compressed (y * row_count_bytes) in
    if u64 (rle_off + row_len) >? total_rle_bytes
    then Some (PSD_ERR_CORRUPT_DATA, decoded)
    else
      match psd_packbits_decode_row
              (slice compressed (Z.to_nat (counts_size + rle_off))
                     (Z.to_nat row_len))
              (Z.to_nat scanline_width) with
      | None => None
      | Some r =>
        match row_status r with
        | PSD_OK =>
          decode_rle_rows rows' (S y) compressed row_count_bytes counts_size
                          total_rle_bytes scanline_width
                          (u64 (rle_off + row_len))
                          (decoded ++ row_output r)
        | row_st => Some (row_st, decoded ++ row_output r)
        end
      end
  end.

Section Decode.

Variable allocator : psd_allocator_t.
Variable zlib : zlib_t.

Definition set_decoded (channel : psd_layer_channel_data_t)
           (data : option (list Z)) (len : Z) (flag : bool)
  : psd_layer_channel_data_t :=
  mk_channel (channel_id channel) (compression channel)
             (compressed_length channel) (compressed_data channel)
             data len flag.

(** The bytes behind [channel->compressed_data]; the parser always
    allocates this buffer, a null one is read as empty. *)
Definition compressed_bytes (channel : psd_layer_channel_data_t) : list Z :=
  match compressed_data channel with
  | Some d => d
  | None => []
  end.

(** [psd_layer_channel_decode(channel, width, height, depth, allocator)]
    for a non-null channel: the status and the channel afterwards. *)
Definition psd_layer_channel_decode (channel : psd_layer_channel_data_t)
           (width height depth : Z)
  : option (psd_status_t * psd_layer_channel_data_t) :=
  if is_decoded channel &&
     match decoded_data channel with Some _ => true | None => false end
  then Some (PSD_OK, channel)
  else
    let bytes_per_sample := if depth >=? 8 then Z.quot depth 8 else 1 in
    let scanline_width :=
      if depth =? 1 then Z.quot (width + 7) 8
      else u64 (width * bytes_per_sample) in
    let expected_decoded_size := u64 (scanline_width * height) in
    if negb (depth =? 1) && (bytes_per_sample =? 0)
    then Some (PSD_ERR_UNSUPPORTED_FEATURE, channel)
    else
      let compressed := compressed_bytes channel in
      let compressed_len := compressed_length channel in
      if compression channel =? 0 then
        if compressed_len <? expected_decoded_size
        then Some (PSD_ERR_CORRUPT_DATA, channel)
        else if negb (malloc_ok allocator expected_decoded_size)
        then Some (PSD_ERR_OUT_OF_MEMORY, channel)
        else
          Some (PSD_OK,
                set_decoded channel
                  (Some (firstn (Z.to_nat expected_decoded_size) compressed))
                  expected_decoded_size true)
      else if compression channel =? 1 then
        match select_row_count_width compressed compressed_len height with
        | inl st => Some (st, channel)
        | inr (row_count_bytes, counts_size, total_rle_bytes) =>
          if negb (malloc_ok allocator expected_decoded_size)
          then Some (PSD_ERR_OUT_OF_MEMORY, channel)
          else
            match decode_rle_rows (Z.to_nat height) 0 compressed
                                  row_count_bytes counts_size
                                  total_rle_bytes scanline_width 0 [] with
            | None => None
            | Some (PSD_OK, decoded) =>
              Some (PSD_OK,
                    set_decoded channel (Some decoded)
                                expected_decoded_size true)
            | Some (st, _) => Some (st, channel)
            end
        end
      else if compression channel =? 2 then
        if negb (malloc_ok allocator expected_decoded_size)
        then Some (PSD_ERR_OUT_OF_MEMORY, channel)
        else
          match Zip.psd_zip_decompress zlib compressed
                                       expected_decoded_size with
          | (PSD_OK, decoded) =>
            Some (PSD_OK,
                  set_decoded channel (Some decoded)
                              expected_decoded_size true)
          | (PSD_ERR_UNSUPPORTED_COMPRESSION, _) =>
            Some (PSD_OK, set_decoded channel None 0 false)
          | (st, _) => Some (st, channel)
          end
      else if compression channel =? 3 then
        if negb (malloc_ok allocator expected_decoded_size)
        then Some (PSD_ERR_OUT_OF_MEMORY, channel)
        else
          match Zip.psd_zip_decompress_with_prediction
                  zlib compressed expected_decoded_size scanline_width
                  (if depth =? 1 then 1 else Z.quot depth 8) with
          | None => None
          | Some (PSD_OK, decoded) =>
            Some (PSD_OK,
                  set_decoded channel (Some decoded)
                              expected_decoded_size true)
          | Some (PSD_ERR_UNSUPPORTED_COMPRESSION, _) =>
            Some (PSD_OK, set_decoded channel None 0 false)
          | Some (st, _) => Some (st, channel)
          end
      else Some (PSD_ERR_UNSUPPORTED_COMPRESSION, channel).

End Decode.

End LayerDecode.

(** ** Lazy channel access ([psd_context.c]) *)

Module Document.
Section Access.

Variable allocator : psd_allocator_t.
Variable zlib : zlib_t.

(** What [psd_document_get_layer_channel_data] writes to its four output
    parameters. *)
Record channel_view : Set := mk_channel_view {
  view_channel_id : Z;
  view_data : option (list Z);
  view_length : Z;
  view_compression : Z
}.

Definition empty_view : channel_view := mk_channel_view 0 None 0 0.

(** [list[i] = v] for a list of records. *)
Fixpoint replace_nth {A : Type} (l : list A) (i : nat) (v : A) : list A :=
  match l, i with
  | [], _ => []
  | _ :: t, O => v :: t
  | h :: t, S i' => h :: replace_nth t i' v
  end.

Definition set_channel (doc : psd_document_t) (layer_idx channel_idx : nat)
           (layer : psd_layer_record_t) (channel : psd_layer_channel_data_t)
  : psd_document_t :=
  let layer' :=
    mk_layer (bounds layer) (replace_nth (channels layer) channel_idx channel)
             (blend_sig layer) (blend_key layer) (opacity layer)
             (clipping layer) (flags layer) (name layer)
             (additional_data layer) (additional_length layer)
             (features layer) in
  let info := doc_layers doc in
  Context.set_layers
    (mk_layer_info (replace_nth (layers info) layer_idx layer')
                   (layer_count info) (has_transparency_layer info))
    doc.

(** [psd_document_get_layer_channel_data(doc, layer_index, channel_index,
    ...)] with all output parameters present: the status, the values left
    in the output parameters, and the document, whose channel may have been
    decoded on the way. *)
Definition psd_document_get_layer_channel_data (doc : psd_document_t)
           (layer_idx : Z) (channel_idx : nat)
  : option (psd_status_t * channel_view * psd_document_t) :=
  if (layer_idx <? 0) || (layer_idx >=? layer_count (doc_layers doc))
  then Some (PSD_ERR_OUT_OF_RANGE, empty_view, doc)
  else
    match nth_error (layers (doc_layers doc)) (Z.to_nat layer_idx) with
    | None => Some (PSD_ERR_OUT_OF_RANGE, empty_view, doc)
    | Some layer =>
      match nth_error (channels layer) channel_idx with
      | None => Some (PSD_ERR_OUT_OF_RANGE, empty_view, doc)
      | Some channel =>
        let b := bounds layer in
        let layer_width := u32 (bounds_right b - bounds_left b) in
        let layer_height := u32 (bounds_bottom b - bounds_top b) in
        if (layer_width =? 0) || (layer_height =? 0)
        then Some (PSD_OK, empty_view, doc)
        else
          let decoded :=
            if negb (is_decoded channel) then
              let channel_depth :=
                if channel_id channel =? -2 then 8
                else if channel_id channel =? -3 then 8
                else doc_depth doc in
              LayerDecode.psd_layer_channel_decode
                allocator zlib channel layer_width layer_height channel_depth
            else Some (PSD_OK, channel) in
          match decoded with
          | None => None
          | Some (status, channel) =>
            let doc := set_channel doc (Z.to_nat layer_idx) channel_idx
                                   layer channel in
            if negb (status_eqb status PSD_OK) &&
               negb (status_eqb status PSD_ERR_UNSUPPORTED_COMPRESSION)
            then Some (status, empty_view, doc)
            else
              match decoded_data channel, compressed_data channel with
              | None, None =>
                Some (PSD_ERR_CORRUPT_DATA,
                      mk_channel_view (channel_id channel) None 0 0, doc)
              | Some d, _ =>
                let v := mk_channel_view (channel_id channel) (Some d)
                                         (decoded_length channel)
                                         (compression channel) in
                if compression channel >? 3
                then Some (PSD_ERR_CORRUPT_DATA, v, doc)
                else Some (PSD_OK, v, doc)
              | None, Some c =>
                let v := mk_channel_view (channel_id channel) (Some c)
                                         (compressed_length channel)
                                         (compression channel) in
                if compression channel >? 3
                then Some (PSD_ERR_CORRUPT_DATA, v, doc)
                else Some (PSD_OK, v, doc)
              end
          end
      end
    end.

End Access.
End Document.

(** ** Rendering to RGBA8 ([psd_render.c])

    The conversion of a Lab sample to sRGB is floating-point code; it is a
    parameter that maps the depth and the three integer samples to the three
    output bytes. *)

Definition lab_converter : Type := Z -> Z -> Z -> Z -> Z * Z * Z.

Module Render.

(** [bytes_per_sample(depth_bits)]. *)
Definition bytes_per_sample (depth_bits : Z) : Z :=
  if depth_bits =? 8 then 1
  else if depth_bits =? 16 then 2
  else if depth_bits =? 32 then 4
  else if depth_bits =? 1 then 0
  else 1.

(** A pointer into a plane: the plane and the offset of the sample. *)
Definition sample_ptr : Set := (list Z * nat)%type.

(** [sample_to_u8(p, depth_bits)]: the byte under the pointer, whatever the
    depth. *)
Definition sample_to_u8 (p : sample_ptr) (depth_bits : Z) : Z :=
  if depth_bits =? 8 then byte_at (fst p) (snd p)
  else if depth_bits =? 16 then byte_at (fst p) (snd p)
  else if depth_bits =? 32 then byte_at (fst p) (snd p)
  else byte_at (fst p) (snd p).

(** [planes[k]], a null pointer beyond the five slots. *)
Definition plane_at (planes : list (option (list Z))) (k : nat)
  : option (list Z) :=
  match nth_error planes k with
  | Some p => p
  | None => None
  end.

(** [(plane_count > k && planes[k]) ? planes[k] + idx * bps : NULL]; the
    test on [plane_count] is absent for plane 0. *)
Definition plane_ptr (planes : list (option (list Z))) (plane_count : Z)
           (k : nat) (off : Z) : option sample_ptr :=
  if (k =? 0)%nat || (plane_count >? Z.of_nat k) then
    match plane_at planes k with
    | Some p => Some (p, Z.to_nat off)
    | None => None
    end
  else None.

Definition sample_or (p : option sample_ptr) (depth_bits default : Z) : Z :=
  match p with
  | Some q => sample_to_u8 q depth_bits
  | None => default
  end.

Section Pixels.

Variable lab_d50_to_srgb_u8 : lab_converter.

Variable mode : Z.
Variable depth_bits : Z.
Variable width : Z.
Variable planes : list (option (list Z)).
Variable plane_count : Z.
Variable color_mode_data : option (list Z).
Variable color_mode_data_len : Z.

(** The body of the two loops: the four bytes of pixel [(x, y)], or the
    status of an early return. *)
Definition render_pixel (x y : Z) : psd_status_t + list Z :=
  let bps := bytes_per_sample depth_bits in
  let row_bytes := if depth_bits =? 1 then Z.quot (width + 7) 8 else 0 in
  if depth_bits =? 1 then
    match plane_at planes 0 with
    | None => inl PSD_ERR_CORRUPT_DATA
    | Some p =>
      let off := u64 (u64 (y * row_bytes) + Z.quot x 8) in
      let bit := u8 (7 - Z.land x 7) in
      let v := if Z.testbit (byte_at p (Z.to_nat off)) bit then 255 else 0 in
      inr [v; v; v; 255]
    end
  else
    let idx := u64 (u64 (y * width) + x) in
    let off := u64 (idx * bps) in
    let p0 := plane_ptr planes plane_count 0 off in
    let p1 := plane_ptr planes plane_count 1 off in
    let p2 := plane_ptr planes plane_count 2 off in
    let p3 := plane_ptr planes plane_count 3 off in
    let p4 := plane_ptr planes plane_count 4 off in
    if mode =? PSD_COLOR_RGB then
      let r := sample_or p0 depth_bits 0 in
      let g := sample_or p1 depth_bits r in
      let b := sample_or p2 depth_bits r in
      let a := sample_or p3 depth_bits 255 in
      inr [r; g; b; a]
    else if (mode =? PSD_COLOR_GRAYSCALE) || (mode =? PSD_COLOR_DUOTONE) then
      let r := sample_or p0 depth_bits 0 in
      let a := sample_or p1 depth_bits 255 in
      inr [r; r; r; a]
    else if mode =? PSD_COLOR_INDEXED then
      let idx8 := sample_or p0 depth_bits 0 in
      let a := sample_or p1 depth_bits 255 in
      match color_mode_data with
      | Some table =>
        if color_mode_data_len >=? 768 then
          inr [byte_at table (Z.to_nat idx8);
               byte_at table (Z.to_nat (256 + idx8));
               byte_at table (Z.to_nat (512 + idx8)); a]
        else inr [idx8; idx8; idx8; a]
      | None => inr [idx8; idx8; idx8; a]
      end
    else if mode =? PSD_COLOR_CMYK then
      let c := sample_or p0 depth_bits 0 in
      let m := sample_or p1 depth_bits 0 in
      let yy := sample_or p2 depth_bits 0 in
      let k := sample_or p3 depth_bits 0 in
      let rk := u16 (c + k) in
      let gk := u16 (m + k) in
      let bk := u16 (yy + k) in
      let r := u8 (255 - (if rk >? 255 then 255 else rk)) in
      let g := u8 (255 - (if gk >? 255 then 255 else gk)) in
      let b := u8 (255 - (if bk >? 255 then 255 else bk)) in
      let a := sample_or p4 depth_bits 255 in
      inr [r; g; b; a]
    else if mode =? PSD_COLOR_LAB then
      match p0, p1, p2 with
      | Some q0, Some q1, Some q2 =>
        let '(lv, av, bv) :=
          if depth_bits =? 8
          then (byte_at (fst q0) (snd q0), byte_at (fst q1) (snd q1),
                byte_at (fst q2) (snd q2))
          else (read_be_u16 (fst q0) (snd q0), read_be_u16 (fst q1) (snd q1),
                read_be_u16 (fst q2) (snd q2)) in
        let '(r, g, b) := lab_d50_to_srgb_u8 depth_bits lv av bv in
        let a := sample_or p3 depth_bits 255 in
        inr [r; g; b; a]
      | _, _, _ => inl PSD_ERR_CORRUPT_DATA
      end
    else inl PSD_ERR_UNSUPPORTED_COLOR_MODE.

(** The inner loop: [n] pixels of row [y] from column [x] on; [out] holds
    the bytes stored so far. *)
Fixpoint render_row (n : nat) (x y : Z) (out : list Z)
  : psd_status_t * list Z :=
  match n with
  | O => (PSD_OK, out)
  | S n' =>
    match render_pixel x y with
    | inl st => (st, out)
    | inr px => render_row n' (x + 1) y (out ++ px)
    end
  end.

(** The outer loop: [n] rows from row [y] on. *)
Fixpoint render_rows (n : nat) (y : Z) (out : list Z)
  : psd_status_t * list Z :=
  match n with
  | O => (PSD_OK, out)
  | S n' =>
    match render_row (Z.to_nat width) 0 y out with
    | (PSD_OK, out') => render_rows n' (y + 1) out'
    | failed => failed
    end
  end.

End Pixels.

(** What a render call leaves behind: the status, the value stored through
    [out_required_size] (when it was stored) and the bytes stored at the
    start of [out_rgba]; the rest of the buffer is not touched. *)
Record render_result : Set := mk_render_result {
  render_status : psd_status_t;
  render_required : option Z;
  render_written : list Z
}.

(** [render_planar_to_rgba8]; [out_rgba] is [Some] of the caller's buffer or
    [None] for a null pointer, [size_max] is the platform's [SIZE_MAX]. *)
Definition render_planar_to_rgba8 (lab : lab_converter) (size_max : Z)
           (mode depth_bits width height : Z)
           (planes : list (option (list Z))) (plane_count : Z)
           (color_mode_data : option (list Z)) (color_mode_data_len : Z)
           (out_rgba : option (list Z)) (out_rgba_size : Z)
  : render_result :=
  let required := u64 (u64 (width * height) * 4) in
  if required >? size_max then mk_render_result PSD_ERR_OUT_OF_RANGE None []
  else
    let buffer_missing :=
      match out_rgba with Some _ => false | None => true end in
    if buffer_missing || (out_rgba_size <? required)
    then mk_render_result PSD_ERR_BUFFER_TOO_SMALL (Some required) []
    else if (width =? 0) || (height =? 0)
    then mk_render_result PSD_OK (Some required) []
    else if negb ((depth_bits =? 1) || (depth_bits =? 8) || (depth_bits =? 16))
    then mk_render_result PSD_ERR_UNSUPPORTED_FEATURE (Some required) []
    else
      let '(st, out) :=
        render_rows lab mode depth_bits width planes plane_count
                    color_mode_data color_mode_data_len
                    (Z.to_nat height) 0 [] in
      mk_render_result st (Some required) out.

Section Layer.

Variable allocator : psd_allocator_t.
Variable zlib : zlib_t.
Variable lab : lab_converter.
Variable size_max : Z.

(** The loop that looks the planes up by channel id; slot 4 holds the
    alpha plane for the time being. *)
Fixpoint collect_planes (n : nat) (i : nat) (doc : psd_document_t)
         (layer_idx : Z) (planes : list (option (list Z)))
  : option (list (option (list Z)) * psd_document_t) :=
  match n with
  | O => Some (planes, doc)
  | S n' =>
    match Document.psd_document_get_layer_channel_data
            allocator zlib doc layer_idx i with
    | None => None
    | Some (st, view, doc') =>
      let planes' :=
        if negb (status_eqb st PSD_OK) then planes
        else
          match Document.view_data view with
          | None => planes
          | Some data =>
            if Document.view_length view =? 0 then planes
            else
              let id := Document.view_channel_id view in
              if (0 <=? id) && (id <? 4)
              then Document.replace_nth planes (Z.to_nat id) (Some data)
              else if id =? -1
              then Document.replace_nth planes 4 (Some data)
              else planes
          end in
      collect_planes n' (S i) doc' layer_idx planes'
    end
  end.

(** The plane order expected by [render_planar_to_rgba8] and the plane
    count, or [None] for a color mode the layer renderer does not know. *)
Definition order_planes (mode : Z) (planes : list (option (list Z)))
  : option (list (option (list Z)) * Z) :=
  let p := Render.plane_at planes in
  let alpha := p 4%nat in
  let has_alpha := match alpha with Some _ => true | None => false end in
  if mode =? PSD_COLOR_RGB then
    Some ([p 0%nat; p 1%nat; p 2%nat; alpha; None],
          if has_alpha then 4 else 3)
  else if (mode =? PSD_COLOR_GRAYSCALE) || (mode =? PSD_COLOR_DUOTONE)
          || (mode =? PSD_COLOR_INDEXED) then
    Some ([p 0%nat; alpha; None; None; None], if has_alpha then 2 else 1)
  else if mode =? PSD_COLOR_CMYK then
    Some ([p 0%nat; p 1%nat; p 2%nat; p 3%nat; alpha],
          if has_alpha then 5 else 4)
  else if mode =? PSD_COLOR_LAB then
    Some ([p 0%nat; p 1%nat; p 2%nat; alpha; None],
          if has_alpha then 4 else 3)
  else None.

(** [psd_document_render_layer_rgba8(doc, layer_index, out_rgba,
    out_rgba_size, out_required_size)] for a non-null document and a
    non-null [out_required_size]: the render result and the document, whose
    channels may have been decoded. *)
Definition psd_document_render_layer_rgba8 (doc : psd_document_t)
           (layer_idx : Z) (out_rgba : option (list Z)) (out_rgba_size : Z)
  : option (render_result * psd_document_t) :=
  match Context.psd_document_get_layer_bounds doc layer_idx with
  | (PSD_OK, Some b) =>
    let width := if bounds_right b >? bounds_left b
                 then u32 (bounds_right b - bounds_left b) else 0 in
    let height := if bounds_bottom b >? bounds_top b
                  then u32 (bounds_bottom b - bounds_top b) else 0 in
    let required := u64 (u64 (width * height) * 4) in
    if required >? size_max
    then Some (mk_render_result PSD_ERR_OUT_OF_RANGE None [], doc)
    else
      let buffer_missing :=
        match out_rgba with Some _ => false | None => true end in
      if buffer_missing || (out_rgba_size <? required)
      then Some (mk_render_result PSD_ERR_BUFFER_TOO_SMALL (Some required) [],
                 doc)
      else if (width =? 0) || (height =? 0)
      then Some (mk_render_result PSD_OK (Some required) [], doc)
      else
        let mode := doc_color_mode doc in
        let depth_bits := doc_depth doc in
        let cm := doc_color_data doc in
        match nth_error (layers (doc_layers doc)) (Z.to_nat layer_idx) with
        | None =>
          Some (mk_render_result PSD_ERR_OUT_OF_RANGE (Some required) [], doc)
        | Some layer =>
          match collect_planes (length (channels layer)) 0 doc layer_idx
                               [None; None; None; None; None] with
          | None => None
          | Some (planes, doc') =>
            match order_planes mode planes with
            | None =>
              Some (mk_render_result PSD_ERR_UNSUPPORTED_COLOR_MODE
                                     (Some required) [], doc')
            | Some (ordered, plane_count) =>
              if negb (depth_bits =? 1) && (bytes_per_sample depth_bits =? 0)
              then Some (mk_render_result PSD_ERR_INVALID_ARGUMENT
                                          (Some required) [], doc')
              else
                Some (render_planar_to_rgba8
                        lab size_max mode depth_bits width height ordered
                        plane_count (color_data_bytes cm)
                        (color_data_length cm) out_rgba out_rgba_size,
                      doc')
            end
          end
        end
  | (st, _) => Some (mk_render_result st None [], doc)
  end.

End Layer.

(** [psd_document_render_composite_rgba8_ex] for a non-null document (the
    optional [out_info] only copies document fields and is left out). *)
Definition psd_document_render_composite_rgba8_ex (lab : lab_converter)
           (size_max : Z) (doc : psd_document_t)
           (out_rgba : option (list Z)) (out_rgba_size : Z)
  : render_result :=
  let width := doc_width doc in
  let height := doc_height doc in
  let mode := doc_color_mode doc in
  let depth_bits := doc_depth doc in
  let channels := doc_channels doc in
  let composite_len := composite_data_length (doc_composite doc) in
  match composite_data (doc_composite doc) with
  | None => mk_render_result PSD_ERR_INVALID_ARGUMENT None []
  | Some composite =>
    if composite_len =? 0
    then mk_render_result PSD_ERR_INVALID_ARGUMENT None []
    else
      let bps := bytes_per_sample depth_bits in
      if negb (depth_bits =? 1) && (bps =? 0)
      then mk_render_result PSD_ERR_INVALID_ARGUMENT None []
      else
        let plane_bytes :=
          if depth_bits =? 1 then u64 (Z.quot (width + 7) 8 * height)
          else u64 (u64 (width * height) * bps) in
        if (channels =? 0) || (plane_bytes =? 0)
        then mk_render_result PSD_ERR_CORRUPT_DATA None []
        else if composite_len <? u64 (channels * plane_bytes)
        then mk_render_result PSD_ERR_CORRUPT_DATA None []
        else
          let plane_count := if channels >? 5 then 5 else channels in
          let plane (i : Z) :=
            if i <? plane_count
            then Some (skipn (Z.to_nat (u64 (i * plane_bytes))) composite)
            else None in
          render_planar_to_rgba8
            lab size_max mode depth_bits width height
            [plane 0; plane 1; plane 2; plane 3; plane 4] plane_count
            (color_data_bytes (doc_color_data doc))
            (color_data_length (doc_color_data doc))
            out_rgba out_rgba_size
    end.

(** [psd_document_render_composite_rgba8]. *)
Definition psd_document_render_composite_rgba8 :=
  psd_document_render_composite_rgba8_ex.

End Render.

(** ** The layer-info subsection ([psd_context.c])

    Two parts of [psd_parse_layer_info]: the scan of a layer's extra data
    that sets its feature flags, and the pass over the channel image data
    that follows the layer records. *)

Module LayerInfo.

(** *** Feature detection

    The scan of a layer's extra data in [psd_parse_layer_info] that sets
    the feature flags.  The layer name, which the same scan converts to
    UTF-8, is not part of this model. *)

(** [key[0] == c0 && key[1] == c1 && ...] for the characters of [s]. *)
Fixpoint key_is (data : list Z) (off : nat) (s : string) : bool :=
  match s with
  | EmptyString => true
  | String c s' =>
    (byte_at data off =? Z.of_N (N_of_ascii c)) && key_is data (S off) s'
  end.

Definition set_is_group_start (f : psd_layer_features_t)
  : psd_layer_features_t :=
  mk_features true (is_group_end f) (has_text f) (has_vector_mask f)
              (has_smart_object f) (has_adjustment f) (has_fill f)
              (has_effects f) (has_3d f) (has_video f).

Definition set_is_group_end (f : psd_layer_features_t)
  : psd_layer_features_t :=
  mk_features (is_group_start f) true (has_text f) (has_vector_mask f)
              (has_smart_object f) (has_adjustment f) (has_fill f)
              (has_effects f) (has_3d f) (has_video f).

Definition set_has_text (f : psd_layer_features_t) : psd_layer_features_t :=
  mk_features (is_group_start f) (is_group_end f) true (has_vector_mask f)
              (has_smart_object f) (has_adjustment f) (has_fill f)
              (has_effects f) (has_3d f) (has_video f).

Definition set_has_vector_mask (f : psd_layer_features_t)
  : psd_layer_features_t :=
  mk_features (is_group_start f) (is_group_end f) (has_text f) true
              (has_smart_object f) (has_adjustment f) (has_fill f)
              (has_effects f) (has_3d f) (has_video f).

Definition set_has_smart_object (f : psd_layer_features_t)
  : psd_layer_features_t :=
  mk_features (is_group_start f) (is_group_end f) (has_text f)
              (has_vector_mask f) true (has_adjustment f) (has_fill f)
              (has_effects f) (has_3d f) (has_video f).

Definition set_has_adjustment (f : psd_layer_features_t)
  : psd_layer_features_t :=
  mk_features (is_group_start f) (is_group_end f) (has_text f)
              (has_vector_mask f) (has_smart_object f) true (has_fill f)
              (has_effects f) (has_3d f) (has_video f).

Definition set_has_fill (f : psd_layer_features_t) : psd_layer_features_t :=
  mk_features (is_group_start f) (is_group_end f) (has_text f)
              (has_vector_mask f) (has_smart_object f) (has_adjustment f)
              true (has_effects f) (has_3d f) (has_video f).

Definition set_has_effects (f : psd_layer_features_t)
  : psd_layer_features_t :=
  mk_features (is_group_start f) (is_group_end f) (has_text f)
              (has_vector_mask f) (has_smart_object f) (has_adjustment f)
              (has_fill f) true (has_3d f) (has_video f).

Definition set_has_3d (f : psd_layer_features_t) : psd_layer_features_t :=
  mk_features (is_group_start f) (is_group_end f) (has_text f)
              (has_vector_mask f) (has_smart_object f) (has_adjustment f)
              (has_fill f) (has_effects f) true (has_video f).

Definition set_has_video (f : psd_layer_features_t) : psd_layer_features_t :=
  mk_features (is_group_start f) (is_group_end f) (has_text f)
              (has_vector_mask f) (has_smart_object f) (has_adjustment f)
              (has_fill f) (has_effects f) (has_3d f) true.

(** The keys of the second adjustment test. *)
Definition adjustment_keys : list string :=
  ["brit"; "brtC"; "levl"; "curv"; "hue "; "hue2"; "blnc"; "vibA"; "expA";
   "mixr"; "selc"; "thrs"; "post"; "phfl"; "grdm"; "clrL"]%string.

(** The [if / else if] chain over the key of one block.  [off] is the
    offset of the block ([data] in the source), [data_end] the offset one
    past the extra data. *)
Definition detect_key (data : list Z) (off : nat) (data_end remaining : Z)
           (block_len : Z) (f : psd_layer_features_t)
  : psd_layer_features_t :=
  let key := (off + 4)%nat in
  if key_is data key "TySh" then set_has_text f
  else if key_is data key "SoLd" || key_is data key "SoLE"
  then set_has_smart_object f
  else if key_is data key "lfx2" then set_has_effects f
  else if key_is data key "vmsk" then set_has_vector_mask f
  else if key_is data key "vmns" then set_has_vector_mask f
  else if key_is data key "adj" then set_has_adjustment f
  else if existsb (key_is data key) adjustment_keys then set_has_adjustment f
  else if key_is data key "3dL" then set_has_3d f
  else if key_is data key "lsct" then
    if (4 <=? block_len)
       && (u32 (12 + block_len) <=? remaining)
       && (Z.of_nat off + 12 + block_len <=? data_end)
    then
      let section_type := read_be_u32 data (off + 12) in
      if (section_type =? 1) || (section_type =? 2) then set_is_group_start f
      else if section_type =? 3 then set_is_group_end f
      else f
    else f
  else if key_is data key "SoCo" || key_is data key "GdFl"
          || key_is data key "PtFl"
  then set_has_fill f
  else if key_is data key "vtrk" then set_has_video f
  else f.

(** The [while (remaining >= 12)] loop over the tagged blocks. *)
Fixpoint detect_blocks (fuel : nat) (data : list Z) (off : nat)
         (data_end remaining : Z) (f : psd_layer_features_t)
  : option psd_layer_features_t :=
  match fuel with
  | O => None
  | S fuel' =>
    if 12 <=? remaining then
      if Z.of_nat off + 12 >? data_end then Some f
      else
        let sig := read_be_u32 data off in
        if negb (sig =? 0x3842494D) && negb (sig =? 0x38423634) then Some f
        else
          let block_len := read_be_u32 data (off + 8) in
          if block_len >? remaining - 12 then Some f
          else
            let f := detect_key data off data_end remaining block_len f in
            let padded_len :=
              if negb (block_len mod 2 =? 0) then u32 (block_len + 1)
              else block_len in
            let block_total := u32 (12 + padded_len) in
            if (block_total <=? remaining)
               && (Z.of_nat off + block_total <=? data_end)
            then detect_blocks fuel' data (off + Z.to_nat block_total)
                               data_end (remaining - block_total) f
            else Some f
    else Some f
  end.

(** Skipping a 4-byte length and the region it announces; [None] stands
    for [goto skip_extra_parsing]. *)
Definition skip_region (data : list Z) (off : nat) (data_end remaining : Z)
  : option (nat * Z) :=
  if 4 <=? remaining then
    let len := read_be_u32 data off in
    let off := (off + 4)%nat in
    let remaining := remaining - 4 in
    if (0 <? len) && (len <=? remaining)
       && (Z.of_nat off + len <=? data_end)
    then Some ((off + Z.to_nat len)%nat, remaining - len)
    else if len >? remaining then None
    else Some (off, remaining)
  else Some (off, remaining).

(** The Pascal name padded to a multiple of four. *)
Definition skip_name (data : list Z) (off : nat) (data_end remaining : Z)
  : option (nat * Z) :=
  if 1 <=? remaining then
    let name_len := byte_at data off in
    let name_total := 1 + name_len in
    let name_total :=
      if negb (name_total mod 4 =? 0)
      then name_total + (4 - name_total mod 4) else name_total in
    if (name_total <=? remaining)
       && (Z.of_nat off + name_total <=? data_end)
    then Some ((off + Z.to_nat name_total)%nat, remaining - name_total)
    else None
  else Some (off, remaining).

(** The whole scan for a layer whose [additional_length] bytes of extra
    data are [data], starting from the flags [f] (all false in the
    parser).  The parser keeps the extra data, and runs this scan, only
    for a length of at most 1000000 bytes. *)
Definition detect_features (data : list Z) (additional_length : Z)
           (f : psd_layer_features_t) : option psd_layer_features_t :=
  if additional_length >? 0 then
    let data_end := additional_length in
    match skip_region data 0 data_end additional_length with
    | None => Some f
    | Some (off, remaining) =>
      match skip_region data off data_end remaining with
      | None => Some f
      | Some (off, remaining) =>
        match skip_name data off data_end remaining with
        | None => Some f
        | Some (off, remaining) =>
          detect_blocks (S (Z.to_nat remaining)) data off data_end remaining f
        end
      end
    end
  else Some f.

(** *** Channel image data

    The stream stands at the first compression field, [layer_info_end] is
    the end of the subsection, and [layer_count] records of the layer array
    have been read. *)

(** [(int64_t)x] for a 64-bit pattern [x]. *)
Definition int64_cast (x : Z) : Z :=
  if x <? 9223372036854775808 then x else x - 18446744073709551616.

(** The two sums of the accounting loop, in 64-bit arithmetic. *)
Definition sum_channel_lengths (ls : list psd_layer_record_t) : Z :=
  fold_left
    (fun acc layer =>
       fold_left (fun acc ch => u64 (acc + compressed_length ch))
                 (channels layer) acc)
    ls 0.

Definition total_channels (ls : list psd_layer_record_t) : Z :=
  fold_left (fun acc layer => u64 (acc + channel_count layer)) ls 0.

(** [lengths_exclude_compression]. *)
Definition lengths_exclude_compression (ls : list psd_layer_record_t)
           (remaining_channel_bytes : Z) : bool :=
  u64 (sum_channel_lengths ls + u64 (2 * total_channels ls))
  =? remaining_channel_bytes.

Section ChannelData.

Variable allocator : psd_allocator_t.
Variable exclude : bool.

Definition set_compression (ch : psd_layer_channel_data_t) (v : Z)
  : psd_layer_channel_data_t :=
  mk_channel (channel_id ch) v (compressed_length ch) (compressed_data ch)
             (decoded_data ch) (decoded_length ch) (is_decoded ch).

Definition set_compressed_length (ch : psd_layer_channel_data_t) (v : Z)
  : psd_layer_channel_data_t :=
  mk_channel (channel_id ch) (compression ch) v (compressed_data ch)
             (decoded_data ch) (decoded_length ch) (is_decoded ch).

Definition set_compressed_data (ch : psd_layer_channel_data_t)
           (v : option (list Z)) : psd_layer_channel_data_t :=
  mk_channel (channel_id ch) (compression ch) (compressed_length ch) v
             (decoded_data ch) (decoded_length ch) (is_decoded ch).

(** The body of the inner loop, for one channel. *)
Definition read_channel (stream : Stream.psd_stream_t)
           (channel : psd_layer_channel_data_t)
  : psd_status_t * Stream.psd_stream_t * psd_layer_channel_data_t :=
  match Stream.psd_stream_read_be16 stream with
  | (inl st, stream) => (st, stream, channel)
  | (inr compression, stream) =>
    if compression >? 3 then (PSD_ERR_CORRUPT_DATA, stream, channel)
    else
      let channel := set_compression channel (u8 compression) in
      if negb exclude && (compressed_length channel <? 2)
      then (PSD_ERR_CORRUPT_DATA, stream, channel)
      else
        let data_length :=
          if exclude then compressed_length channel
          else compressed_length channel - 2 in
        let channel :=
          if exclude then channel
          else set_compressed_length channel data_length in
        if negb (malloc_ok allocator data_length)
        then (PSD_ERR_OUT_OF_MEMORY, stream, channel)
        else
          let '(got, stream) := Stream.psd_stream_read stream data_length in
          let channel := set_compressed_data channel (Some got) in
          if negb (Z.of_nat (length got) =? int64_cast data_length)
          then (PSD_ERR_STREAM_EOF, stream, channel)
          else (PSD_OK, stream, channel)
  end.

Fixpoint read_channels (stream : Stream.psd_stream_t)
         (chs : list psd_layer_channel_data_t)
  : psd_status_t * Stream.psd_stream_t * list psd_layer_channel_data_t :=
  match chs with
  | [] => (PSD_OK, stream, [])
  | ch :: rest =>
    match read_channel stream ch with
    | (PSD_OK, stream, ch') =>
      let '(st, stream, rest') := read_channels stream rest in
      (st, stream, ch' :: rest')
    | (st, stream, ch') => (st, stream, ch' :: rest)
    end
  end.

Definition set_channels (layer : psd_layer_record_t)
           (chs : list psd_layer_channel_data_t) : psd_layer_record_t :=
  mk_layer (bounds layer) chs (blend_sig layer) (blend_key layer)
           (opacity layer) (clipping layer) (flags layer) (name layer)
           (additional_data layer) (additional_length layer) (features layer).

Fixpoint read_layers (stream : Stream.psd_stream_t)
         (ls : list psd_layer_record_t)
  : psd_status_t * Stream.psd_stream_t * list psd_layer_record_t :=
  match ls with
  | [] => (PSD_OK, stream, [])
  | layer :: rest =>
    match read_channels stream (channels layer) with
    | (PSD_OK, stream, chs) =>
      let '(st, stream, rest') := read_layers stream rest in
      (st, stream, set_channels layer chs :: rest')
    | (st, stream, chs) => (st, stream, set_channels layer chs :: rest)
    end
  end.

End ChannelData.

(** From [psd_stream_tell] to the end of the two loops.  On failure the
    error path frees the layer array, which is returned empty. *)
Definition read_channel_image_data (allocator : psd_allocator_t)
           (stream : Stream.psd_stream_t) (layer_info_end : Z)
           (info : psd_layer_info_t)
  : psd_status_t * Stream.psd_stream_t * psd_layer_info_t :=
  let freed := mk_layer_info [] (layer_count info)
                             (has_transparency_layer info) in
  let channel_data_start := Stream.psd_stream_tell stream in
  let remaining_channel_bytes := layer_info_end - channel_data_start in
  if remaining_channel_bytes <? 0 then (PSD_ERR_CORRUPT_DATA, stream, freed)
  else
    let n := Z.to_nat (layer_count info) in
    let parsed := firstn n (layers info) in
    let exclude := lengths_exclude_compression parsed remaining_channel_bytes in
    match read_layers allocator exclude stream parsed with
    | (PSD_OK, stream, parsed') =>
      (PSD_OK, stream,
       mk_layer_info (parsed' ++ skipn n (layers info)) (layer_count info)
                     (has_transparency_layer info))
    | (st, stream, _) => (st, stream, freed)
    end.

End LayerInfo.

(** ** Text conversion ([psd_unicode.c]) *)

Module Unicode.

(** [psd_macroman_map]: MacRoman 0x80-0xFF to Unicode. *)
Definition psd_macroman_map : list Z :=
  [0x00C4; 0x00C5; 0x00C7; 0x00C9; 0x00D1; 0x00D6; 0x00DC; 0x00E1;
   0x00E0; 0x00E2; 0x00E4; 0x00E3; 0x00E5; 0x00E7; 0x00E9; 0x00E8;
   0x00EA; 0x00EB; 0x00ED; 0x00EC; 0x00EE; 0x00EF; 0x00F1; 0x00F3;
   0x00F2; 0x00F4; 0x00F6; 0x00F5; 0x00FA; 0x00F9; 0x00FB; 0x00FC;
   0x2020; 0x00B0; 0x00A2; 0x00A3; 0x00A7; 0x2022; 0x00B6; 0x00DF;
   0x00AE; 0x00A9; 0x2122; 0x00B4; 0x00A8; 0x2260; 0x00C6; 0x00D8;
   0x221E; 0x00B1; 0x2264; 0x2265; 0x00A5; 0x00B5; 0x2202; 0x2211;
   0x220F; 0x03C0; 0x222B; 0x00AA; 0x00BA; 0x03A9; 0x00E6; 0x00F8;
   0x00BF; 0x00A1; 0x00AC; 0x221A; 0x0192; 0x2248; 0x2206; 0x00AB;
   0x00BB; 0x2026; 0x00A0; 0x00C0; 0x00C3; 0x00D5; 0x0152; 0x0153;
   0x2013; 0x2014; 0x201C; 0x201D; 0x2018; 0x2019; 0x00F7; 0x25CA;
   0x00FF; 0x0178; 0x2044; 0x20AC; 0x2039; 0x203A; 0xFB01; 0xFB02;
   0x2021; 0x00B7; 0x201A; 0x201E; 0x2030; 0x00C2; 0x00CA; 0x00C1;
   0x00CB; 0x00C8; 0x00CD; 0x00CE; 0x00CF; 0x00CC; 0x00D3; 0x00D4;
   0xF8FF; 0x00D2; 0x00DA; 0x00DB; 0x00D9; 0x0131; 0x02C6; 0x02DC;
   0x00AF; 0x02D8; 0x02D9; 0x02DA; 0x00B8; 0x02DD; 0x02DB; 0x02C7].

(** [psd_utf8_encode(cp, out)] for a 32-bit [cp]: the bytes stored in
    [out]; the return value is their number. *)
Definition psd_utf8_encode (cp : Z) : list Z :=
  if cp <=? 0x7F then [u8 cp]
  else if cp <=? 0x7FF then
    [u8 (Z.lor 0xC0 (Z.shiftr cp 6));
     u8 (Z.lor 0x80 (Z.land cp 0x3F))]
  else if cp <=? 0xFFFF then
    [u8 (Z.lor 0xE0 (Z.shiftr cp 12));
     u8 (Z.lor 0x80 (Z.land (Z.shiftr cp 6) 0x3F));
     u8 (Z.lor 0x80 (Z.land cp 0x3F))]
  else
    [u8 (Z.lor 0xF0 (Z.shiftr cp 18));
     u8 (Z.lor 0x80 (Z.land (Z.shiftr cp 12) 0x3F));
     u8 (Z.lor 0x80 (Z.land (Z.shiftr cp 6) 0x3F));
     u8 (Z.lor 0x80 (Z.land cp 0x3F))].

(** [(b < 0x80) ? b : psd_macroman_map[b - 0x80]]. *)
Definition macroman_code_point (b : Z) : Z :=
  if b <? 0x80 then b else nth (Z.to_nat (b - 0x80)) psd_macroman_map 0.

Section Conversions.

Variable alloc : psd_allocator_t.

(** The platform's [SIZE_MAX]: the capacities are computed in [size_t]. *)
Variable size_max : Z.

Definition size_t_cast (x : Z) : Z := x mod (size_max + 1).

(** The [for] loop of [psd_macroman_to_utf8] from index [i] on, for [n]
    more bytes; [out] holds the bytes stored so far, so [o = length out].
    The loop is left early when the next character would not fit. *)
Fixpoint macroman_loop (n : nat) (input : list Z) (i : nat) (cap : Z)
         (out : list Z) : list Z :=
  match n with
  | O => out
  | S n' =>
    let b := byte_at input i in
    let cp := macroman_code_point b in
    let tmp := psd_utf8_encode cp in
    if Z.of_nat (length out) + Z.of_nat (length tmp) + 1 >? cap then out
    else macroman_loop n' input (S i) cap (out ++ tmp)
  end.

(** [psd_macroman_to_utf8(alloc, in, in_len, out_len)]: the returned
    buffer up to and including its terminating NUL (or [None] for the
    null pointer), and the value stored in [*out_len]. *)
Definition psd_macroman_to_utf8 (input : option (list Z)) (in_len : Z)
  : option (list Z) * Z :=
  match input with
  | None => (None, 0)
  | Some bytes =>
    if in_len =? 0 then (None, 0)
    else
      let cap := size_t_cast (in_len * 3 + 1) in
      if negb (malloc_ok alloc cap) then (None, 0)
      else
        let out := macroman_loop (Z.to_nat in_len) bytes 0 cap [] in
        (Some (out ++ [0]), Z.of_nat (length out))
  end.

(** The loop of [psd_utf16be_to_utf8]; [i] is the read offset and [out]
    holds the bytes stored so far.  The stores are not checked against the
    capacity. *)
Fixpoint utf16_loop (fuel : nat) (input : list Z) (in_bytes : Z) (i : Z)
         (out : list Z) : option (list Z) :=
  match fuel with
  | O => None
  | S fuel' =>
    if i + 1 <? in_bytes then
      let w1 := read_be_u16 input (Z.to_nat i) in
      let i := i + 2 in
      if (w1 >=? 0xD800) && (w1 <=? 0xDBFF) && (i + 1 <? in_bytes) then
        let w2 := read_be_u16 input (Z.to_nat i) in
        if (w2 >=? 0xDC00) && (w2 <=? 0xDFFF) then
          let cp := u32 (0x10000 +
                         Z.lor (u32 (Z.shiftl (w1 - 0xD800) 10))
                               (w2 - 0xDC00)) in
          utf16_loop fuel' input in_bytes (i + 2)
                     (out ++ psd_utf8_encode cp)
        else
          utf16_loop fuel' input in_bytes i (out ++ psd_utf8_encode 0xFFFD)
      else if (w1 <? 0xD800) || (w1 >? 0xDFFF) then
        utf16_loop fuel' input in_bytes i (out ++ psd_utf8_encode w1)
      else
        utf16_loop fuel' input in_bytes i (out ++ psd_utf8_encode 0xFFFD)
    else Some out
  end.

(** [psd_utf16be_to_utf8(alloc, in, in_bytes, out_len)]: the returned
    buffer up to and including its terminating NUL and the value stored in
    [*out_len], which is left alone ([None]) when the allocation fails.
    Every round consumes two bytes at least. *)
Definition psd_utf16be_to_utf8 (input : list Z) (in_bytes : Z)
  : option (option (list Z) * option Z) :=
  let cap := size_t_cast (size_t_cast (Z.quot in_bytes 2 * 4) + 1) in
  if negb (malloc_ok alloc cap) then Some (None, None)
  else
    match utf16_loop (S (Z.to_nat in_bytes)) input in_bytes 0 [] with
    | None => None
    | Some out => Some (Some (out ++ [0]), Some (Z.of_nat (length out)))
    end.

End Conversions.

End Unicode.

(** ** Byte order ([psd_endian.c])

    [memcpy] between a byte buffer and an unsigned integer lays the value
    out in the byte order of the host: least significant byte first on a
    little-endian host, most significant byte first on a big-endian one. *)

Module Endian.

Fixpoint load_le (bytes : list Z) : Z :=
  match bytes with
  | [] => 0
  | b :: rest => b + 256 * load_le rest
  end.

Fixpoint store_le (n : nat) (value : Z) : list Z :=
  match n with
  | O => []
  | S n' => value mod 256 :: store_le n' (value / 256)
  end.

(** [memcpy(&value, buffer, n)] and [memcpy(buffer, &value, n)] on a host
    that is little-endian or not. *)
Definition host_load (little : bool) (buffer : list Z) (n : nat) : Z :=
  if little then load_le (firstn n buffer) else load_le (rev (firstn n buffer)).

Definition host_store (little : bool) (n : nat) (value : Z) : list Z :=
  if little then store_le n value else rev (store_le n value).

Definition psd_swap16 (value : Z) : Z :=
  u16 (Z.lor (Z.shiftl (Z.land value 0xFF) 8)
             (Z.land (Z.shiftr value 8) 0xFF)).

Definition psd_swap32 (value : Z) : Z :=
  Z.lor (Z.lor (Z.lor (u32 (Z.shiftl (Z.land value 0xFF) 24))
                      (u32 (Z.shiftl (Z.land value 0xFF00) 8)))
               (Z.shiftr (Z.land value 0xFF0000) 8))
        (Z.land (Z.shiftr value 24) 0xFF).

Definition psd_swap64 (value : Z) : Z :=
  Z.lor (Z.lor (Z.lor (Z.lor (Z.lor (Z.lor (Z.lor
    (u64 (Z.shiftl (Z.land value 0x00000000000000FF) 56))
    (u64 (Z.shiftl (Z.land value 0x000000000000FF00) 40)))
    (u64 (Z.shiftl (Z.land value 0x0000000000FF0000) 24)))
    (u64 (Z.shiftl (Z.land value 0x00000000FF000000) 8)))
    (Z.shiftr (Z.land value 0x000000FF00000000) 8))
    (Z.shiftr (Z.land value 0x0000FF0000000000) 24))
    (Z.shiftr (Z.land value 0x00FF000000000000) 40))
    (Z.shiftr (Z.land value 0xFF00000000000000) 56).

Section Host.

(** [psd_is_little_endian()]. *)
Variable psd_is_little_endian : bool.

Definition psd_read_be16 (buffer : list Z) : Z :=
  let value := host_load psd_is_little_endian buffer 2 in
  if psd_is_little_endian then psd_swap16 value else value.

Definition psd_read_be32 (buffer : list Z) : Z :=
  let value := host_load psd_is_little_endian buffer 4 in
  if psd_is_little_endian then psd_swap32 value else value.

Definition psd_read_be64 (buffer : list Z) : Z :=
  let value := host_load psd_is_little_endian buffer 8 in
  if psd_is_little_endian then psd_swap64 value else value.

(** The writers: the bytes stored at [buffer]. *)
Definition psd_write_be16 (value : Z) : list Z :=
  let value := if psd_is_little_endian then psd_swap16 value else value in
  host_store psd_is_little_endian 2 value.

Definition psd_write_be32 (value : Z) : list Z :=
  let value := if psd_is_little_endian then psd_swap32 value else value in
  host_store psd_is_little_endian 4 value.

Definition psd_write_be64 (value : Z) : list Z :=
  let value := if psd_is_little_endian then psd_swap64 value else value in
  host_store psd_is_little_endian 8 value.

(** [psd_read_be_i32]. *)
Definition psd_read_be_i32 (buffer : list Z) : Z :=
  int32_cast (psd_read_be32 buffer).

End Host.

(** [psd_u64_to_size(value64, out_size)] for a non-null [out_size]: the
    value stored, or [None] for the return value -1.  [size_t_bits] is the
    width of [size_t]. *)
Definition psd_u64_to_size (size_t_bits : Z) (value64 : Z) : option Z :=
  if size_t_bits <? 64 then
    let max_size := 2 ^ size_t_bits - 1 in
    if value64 >? max_size then None else Some (value64 mod 2 ^ size_t_bits)
  else Some value64.

End Endian.

(** ** Status messages ([psd_parse.c]) *)

Module Parse.

(** [psd_error_messages]: the designated initialisers, each at the index
    that is the negated status code.  The array ends after the highest
    index; an index that no initialiser names holds a null pointer. *)
Definition psd_error_messages : list (Z * string) :=
  [(status_code PSD_OK, "Operation successful");
   (- status_code PSD_ERR_INVALID_ARGUMENT, "Invalid argument to function");
   (- status_code PSD_ERR_OUT_OF_MEMORY, "Memory allocation failed");
   (- status_code PSD_ERR_NULL_POINTER, "Unexpected NULL pointer");
   (- status_code PSD_ERR_NOT_INITIALIZED, "Object not properly initialized");
   (- status_code PSD_ERR_ALREADY_INITIALIZED, "Object already initialized");
   (- status_code PSD_ERR_STREAM_READ, "Failed to read from stream");
   (- status_code PSD_ERR_STREAM_WRITE, "Failed to write to stream");
   (- status_code PSD_ERR_STREAM_SEEK, "Failed to seek in stream");
   (- status_code PSD_ERR_STREAM_INVALID, "Invalid stream state");
   (- status_code PSD_ERR_STREAM_EOF, "Unexpected end of stream");
   (- status_code PSD_ERR_INVALID_FILE_FORMAT, "File is not a valid PSD");
   (- status_code PSD_ERR_INVALID_HEADER, "Invalid PSD header");
   (- status_code PSD_ERR_UNSUPPORTED_VERSION, "PSD version not supported");
   (- status_code PSD_ERR_CORRUPT_DATA, "Corrupted data encountered");
   (- status_code PSD_ERR_INVALID_STRUCTURE, "Invalid data structure");
   (- status_code PSD_ERR_UNSUPPORTED_FEATURE, "Feature not yet implemented");
   (- status_code PSD_ERR_UNSUPPORTED_COMPRESSION,
    "Compression not supported");
   (- status_code PSD_ERR_UNSUPPORTED_COLOR_MODE, "Color mode not supported");
   (- status_code PSD_ERR_BUFFER_TOO_SMALL, "Buffer too small for operation");
   (- status_code PSD_ERR_OUT_OF_RANGE, "Value out of valid range")]%string.

(** [sizeof(psd_error_messages) / sizeof(psd_error_messages[0])]. *)
Definition psd_error_messages_count : Z :=
  fold_right Z.max 0 (map fst psd_error_messages) + 1.

(** [psd_error_messages[index]], [None] for a null entry. *)
Fixpoint message_at (table : list (Z * string)) (index : Z) : option string :=
  match table with
  | [] => None
  | (i, msg) :: rest => if index =? i then Some msg else message_at rest index
  end.

(** [psd_error_string(status)] for any value of the enumeration type. *)
Definition psd_error_string (status : Z) : string :=
  if status =? status_code PSD_OK then "Operation successful"%string
  else
    if status <? 0 then
      let index := - status in
      if (index >=? 0) && (index <? psd_error_messages_count) then
        match message_at psd_error_messages index with
        | Some msg => msg
        | None => "Unknown error"%string
        end
      else "Unknown error"%string
    else "Unknown error"%string.

(** [psd_get_version] and [psd_version]. *)
Definition psd_get_version : string := "0.1.0"%string.
Definition psd_version : string := psd_get_version.

End Parse.

(** ** The color mode data and image resources sections
       ([psd_context.c]) *)

Module Sections.

Local Open Scope psd_monad_scope.

Section Parsers.

Variable allocator : psd_allocator_t.

(** Whether the allocator's [realloc] callback grants a request. *)
Variable realloc_ok : Z -> bool.

(** The width of [size_t] and the size of a resource block record. *)
Variable size_t_bits : Z.
Variable sizeof_psd_resource_block_t : Z.

(** [psd_parse_color_mode_data(stream, doc)]: the status, the color mode
    data left in the document, and the stream. *)
Definition psd_parse_color_mode_data (stream : Stream.psd_stream_t)
           (doc : psd_document_t)
  : psd_status_t * psd_color_mode_data_t * Stream.psd_stream_t :=
  let empty := mk_color_data None 0 in
  match Stream.psd_stream_read_be32 stream with
  | (inl status, stream) => (status, empty, stream)
  | (inr data_length32, stream) =>
    let data_length := data_length32 in
    if data_length =? 0 then (PSD_OK, empty, stream)
    else
      match Endian.psd_u64_to_size size_t_bits data_length with
      | None => (PSD_ERR_OUT_OF_RANGE, empty, stream)
      | Some data_size =>
        if negb (malloc_ok allocator data_size)
        then (PSD_ERR_OUT_OF_MEMORY, empty, stream)
        else
          match Stream.psd_stream_read_exact stream data_size with
          | (PSD_OK, bytes, stream) =>
            (PSD_OK, mk_color_data (Some bytes) data_length, stream)
          | (status, _, stream) => (status, empty, stream)
          end
      end
  end.

(** Steps of the resource loop, on the stream. *)
Definition read_bytes (count : Z) : M Stream.psd_stream_t (list Z) :=
  fun s =>
    match Stream.psd_stream_read_exact s count with
    | (PSD_OK, bytes, s') => (inr bytes, s')
    | (status, _, s') => (inl status, s')
    end.

Definition skip (count : Z) : M Stream.psd_stream_t unit :=
  fun s =>
    match Stream.psd_stream_skip s count with
    | (PSD_OK, s') => (inr tt, s')
    | (status, s') => (inl status, s')
    end.

Definition allocate (size : Z) : M Stream.psd_stream_t unit :=
  if malloc_ok allocator size then ret tt else fail PSD_ERR_OUT_OF_MEMORY.

(** A seek whose result is ignored. *)
Definition try_seek (offset : Z) : M Stream.psd_stream_t unit :=
  fun s =>
    match Stream.psd_stream_seek s offset with
    | Some s' => (inr tt, s')
    | None => (inr tt, s)
    end.

(** One round of the [while] loop up to the point where the block is
    stored: [Some block] for a block that was read, [None] for the [break]
    after a foreign signature.  A failure is the [goto error]. *)
Definition read_resource_block (section_end : Z)
  : M Stream.psd_stream_t (option psd_resource_block_t) :=
  signature <- Stream.psd_stream_read_be32 ;;
  if negb (signature =? 0x3842494D) && negb (signature =? 0x38423634) then
    try_seek section_end ;;; ret None
  else
    resource_id <- Stream.psd_stream_read_be16 ;;
    length_byte <- read_bytes 1 ;;
    let pascal_length := byte_at length_byte 0 in
    name <- (if pascal_length >? 0 then
               allocate pascal_length ;;;
               bytes <- read_bytes pascal_length ;;
               ret (Some bytes)
             else ret None) ;;
    (if negb (Z.land (u32 (1 + pascal_length)) 1 =? 0) then skip 1
     else ret tt) ;;;
    data_length32 <- Stream.psd_stream_read_be32 ;;
    let data_length := data_length32 in
    data <- (if data_length >? 0 then
               match Endian.psd_u64_to_size size_t_bits data_length with
               | None => fail PSD_ERR_OUT_OF_RANGE
               | Some data_size =>
                 allocate data_size ;;;
                 bytes <- read_bytes data_size ;;
                 ret (Some bytes)
               end
             else ret None) ;;
    (if negb (data_length mod 2 =? 0) then skip 1 else ret tt) ;;;
    ret (Some (mk_resource resource_id name data data_length)).

(** The [while (psd_stream_tell(stream) < section_end)] loop; [blocks]
    holds the records stored so far and [block_capacity] the size of the
    array.  On failure the error path frees every block. *)
Fixpoint resource_loop (fuel : nat) (section_end : Z)
         (blocks : list psd_resource_block_t) (block_capacity : Z)
         (stream : Stream.psd_stream_t)
  : option (psd_status_t * list psd_resource_block_t * Stream.psd_stream_t) :=
  match fuel with
  | O => None
  | S fuel' =>
    if Stream.psd_stream_tell stream <? section_end then
      match read_resource_block section_end stream with
      | (inl status, stream) => Some (status, [], stream)
      | (inr None, stream) => Some (PSD_OK, blocks, stream)
      | (inr (Some block), stream) =>
        if Z.of_nat (length blocks) >=? block_capacity then
          let block_capacity := block_capacity * 2 in
          if negb (realloc_ok (block_capacity * sizeof_psd_resource_block_t))
          then Some (PSD_ERR_OUT_OF_MEMORY, [], stream)
          else resource_loop fuel' section_end (blocks ++ [block])
                             block_capacity stream
        else resource_loop fuel' section_end (blocks ++ [block])
                           block_capacity stream
      end
    else Some (PSD_OK, blocks, stream)
  end.

(** [psd_parse_resources(stream, doc)]: the status, the resource blocks
    left in the document, and the stream.  A round of the loop that goes on
    has consumed eleven bytes at least, so one round per byte left in the
    buffer is enough. *)
Definition psd_parse_resources (stream : Stream.psd_stream_t)
           (doc : psd_document_t)
  : option (psd_status_t * list psd_resource_block_t * Stream.psd_stream_t) :=
  match Stream.psd_stream_read_be32 stream with
  | (inl status, stream) => Some (status, [], stream)
  | (inr section_length32, stream) =>
    let section_length := section_length32 in
    if section_length =? 0 then Some (PSD_OK, [], stream)
    else
      let section_start := Stream.psd_stream_tell stream in
      let section_end := section_start + section_length in
      let block_capacity := 16 in
      if negb (malloc_ok allocator
                         (block_capacity * sizeof_psd_resource_block_t))
      then Some (PSD_ERR_OUT_OF_MEMORY, [], stream)
      else
        match resource_loop
                (S (length (Stream.buffer stream) - Stream.position stream))
                section_end [] block_capacity stream with
        | None => None
        | Some (PSD_OK, blocks, stream) =>
          let final_pos := Stream.psd_stream_tell stream in
          if negb (final_pos =? section_end) then
            match Stream.psd_stream_seek stream section_end with
            | None => Some (PSD_ERR_OUT_OF_RANGE, blocks, stream)
            | Some stream => Some (PSD_OK, blocks, stream)
            end
          else Some (PSD_OK, blocks, stream)
        | Some failed => Some failed
        end
  end.

End Parsers.

(** [psd_document_get_resource_count]. *)
Definition psd_document_get_resource_count (doc : psd_document_t) : Z :=
  Z.of_nat (length (doc_resources doc)).

(** [psd_document_get_resource(doc, index, id, data, length)] for non-null
    pointers: the status and the values stored through [id], [data] and
    [length]. *)
Definition psd_document_get_resource (doc : psd_document_t) (index : Z)
  : psd_status_t * option (Z * option (list Z) * Z) :=
  if index >=? psd_document_get_resource_count doc
  then (PSD_ERR_OUT_OF_RANGE, None)
  else
    match nth_error (doc_resources doc) (Z.to_nat index) with
    | Some block =>
      (PSD_OK,
       Some (resource_id block, resource_data block,
             resource_data_length block))
    | None => (PSD_ERR_OUT_OF_RANGE, None)
    end.

(** The loop of [psd_document_find_resource] from index [i] on. *)
Fixpoint find_from (blocks : list psd_resource_block_t) (id : Z) (i : Z)
  : psd_status_t * option Z :=
  match blocks with
  | [] => (PSD_ERR_INVALID_ARGUMENT, None)
  | block :: rest =>
    if resource_id block =? id then (PSD_OK, Some i)
    else find_from rest id (i + 1)
  end.

(** [psd_document_find_resource(doc, id, index)] for non-null pointers. *)
Definition psd_document_find_resource (doc : psd_document_t) (id : Z)
  : psd_status_t * option Z :=
  find_from (doc_resources doc) id 0.

End Sections.

(** ** The loops of the byte source ([psd_stream.c])

    [Stream] gives [psd_stream_read_exact] and [psd_stream_skip] in closed
    form.  Here the two loops are written out as they stand in the source,
    over the [read] callback of the buffer source; the properties relate
    the two. *)

Module StreamLoops.

(** The [while (read_total < count)] loop of [psd_stream_read_exact];
    [buffer] holds the bytes stored so far.  The callback of a buffer source
    never returns a negative value. *)
Fixpoint read_exact_loop (fuel : nat) (s : Stream.psd_stream_t)
         (count read_total : Z) (buffer : list Z)
  : option (psd_status_t * list Z * Stream.psd_stream_t) :=
  match fuel with
  | O => None
  | S fuel' =>
    if read_total <? count then
      let '(got, s) := Stream.psd_stream_read s (count - read_total) in
      let result := Z.of_nat (length got) in
      if result =? 0 then Some (PSD_ERR_STREAM_EOF, buffer, s)
      else read_exact_loop fuel' s count (read_total + result) (buffer ++ got)
    else Some (PSD_OK, buffer, s)
  end.

(** [psd_stream_read_exact(stream, buffer, count)], run for at most [fuel]
    rounds. *)
Definition psd_stream_read_exact (fuel : nat) (s : Stream.psd_stream_t)
           (count : Z)
  : option (psd_status_t * list Z * Stream.psd_stream_t) :=
  read_exact_loop fuel s count 0 [].

Definition SKIP_BUFFER_SIZE : Z := 4096.

(** The [while (skipped < count)] loop of [psd_stream_skip]. *)
Fixpoint skip_loop (fuel : nat) (s : Stream.psd_stream_t)
         (count skipped : Z)
  : option (psd_status_t * Stream.psd_stream_t) :=
  match fuel with
  | O => None
  | S fuel' =>
    if skipped <? count then
      let to_skip := count - skipped in
      let to_skip :=
        if to_skip >? SKIP_BUFFER_SIZE then SKIP_BUFFER_SIZE else to_skip in
      match psd_stream_read_exact fuel s to_skip with
      | None => None
      | Some (PSD_OK, _, s) => skip_loop fuel' s count (skipped + to_skip)
      | Some (status, _, s) => Some (status, s)
      end
    else Some (PSD_OK, s)
  end.

(** [psd_stream_skip(stream, count)], run for at most [fuel] rounds. *)
Definition psd_stream_skip (fuel : nat) (s : Stream.psd_stream_t) (count : Z)
  : option (psd_status_t * Stream.psd_stream_t) :=
  if count =? 0 then Some (PSD_OK, s) else skip_loop fuel s count 0.

(** [psd_stream_read_length(stream, is_psb, out)]: a 64-bit length that
    must fit [size_t] for a PSB file, a 32-bit length otherwise. *)
Definition psd_stream_read_length (size_t_bits : Z) (is_psb : bool)
  : M Stream.psd_stream_t Z :=
  fun s =>
    if is_psb then
      match Stream.psd_stream_read_be64 s with
      | (inl status, s) => (inl status, s)
      | (inr value64, s) =>
        match Endian.psd_u64_to_size size_t_bits value64 with
        | None => (inl PSD_ERR_OUT_OF_RANGE, s)
        | Some _ => (inr value64, s)
        end
      end
    else
      match Stream.psd_stream_read_be32 s with
      | (inl status, s) => (inl status, s)
      | (inr value32, s) => (inr value32, s)
      end.

End StreamLoops.

(** ** The length of the layer and mask section ([psd_context.c]) *)

Module LayerSection.

(** The first step of [psd_parse_layer_info]: reading the section length
    and fixing [section_end].  A PSB file usually stores the length in
    eight bytes; when the end computed from eight bytes cannot be reached
    with a seek, the length is read again from four.  The result is
    [inl status] for an early [return status], [inr None] for the empty
    section (an early [return PSD_OK]), and [inr (Some section_end)] when
    parsing goes on.  [section_start + (int64_t)section_length] is taken
    without wrap-around (C leaves an overflow of this sum undefined). *)
Definition read_section_end (size_t_bits : Z) (is_psb : bool)
  : M Stream.psd_stream_t (option Z) :=
  fun stream =>
    let section_len_pos := Stream.psd_stream_tell stream in
    match StreamLoops.psd_stream_read_length size_t_bits is_psb stream with
    | (inl status, stream) => (inl status, stream)
    | (inr section_length, stream) =>
      if section_length =? 0 then (inr None, stream)
      else
        let section_start := Stream.psd_stream_tell stream in
        let section_end :=
          section_start + LayerInfo.int64_cast section_length in
        if is_psb then
          match Stream.psd_stream_seek stream section_end with
          | None =>
            match Stream.psd_stream_seek stream section_len_pos with
            | None => (inl PSD_ERR_STREAM_INVALID, stream)
            | Some stream =>
              match Stream.psd_stream_read_be32 stream with
              | (inl status, stream) => (inl status, stream)
              | (inr section_len32, stream) =>
                let section_start := Stream.psd_stream_tell stream in
                (inr (Some (section_start
                            + LayerInfo.int64_cast section_len32)),
                 stream)
              end
            end
          | Some probed =>
            match Stream.psd_stream_seek probed section_start with
            | None => (inl PSD_ERR_STREAM_INVALID, probed)
            | Some stream => (inr (Some section_end), stream)
            end
          end
        else (inr (Some section_end), stream)
    end.

End LayerSection.

(** ** The background-layer test ([psd_context.c]) *)

Module Background.

(** The loop over the channels that looks for the transparency channel. *)
Definition has_transparency_channel (layer : psd_layer_record_t) : bool :=
  existsb (fun ch => channel_id ch =? -1) (channels layer).

(** The [while (remaining >= 8)] loop: it reads a key at [data] and a
    4-byte length at [data + 4], and answers whether it met the key
    ["vmsk"] or ["vmns"].  [8 + block_len] is an [unsigned int] sum, so it
    wraps at 32 bits before it is widened to [block_total]. *)
Fixpoint vector_mask_scan (fuel : nat) (data : list Z) (off : nat)
         (remaining : Z) : option bool :=
  match fuel with
  | O => None
  | S fuel' =>
    if remaining >=? 8 then
      let key := off in
      let block_len := read_be_u32 data (off + 4) in
      if LayerInfo.key_is data key "vmsk" || LayerInfo.key_is data key "vmns"
      then Some true
      else
        let block_total := u32 (8 + block_len) in
        if block_total >? remaining then Some false
        else vector_mask_scan fuel' data (off + Z.to_nat block_total)
                              (remaining - block_total)
    else Some false
  end.

(** Criterion 5: the three skips (layer mask data, blending ranges, name),
    which are those of the text-layer scan, and then the loop. *)
Definition has_vector_mask_block (data : list Z) (additional_length : Z)
  : option bool :=
  let remaining := additional_length in
  let '(off, remaining) := TextLayer.skip_length_prefixed data 0 remaining in
  let '(off, remaining) := TextLayer.skip_length_prefixed data off remaining in
  let '(off, remaining) := TextLayer.skip_layer_name data off remaining in
  vector_mask_scan (S (Z.to_nat remaining)) data off remaining.

(** [psd_document_is_background_layer(doc, layer_index,
    base_channel_count)] for a non-null document.  The source indexes the
    layer array without a range check; [None] stands for an index outside
    the array, and for a scan of the tagged blocks that does not end. *)
Definition psd_document_is_background_layer (doc : psd_document_t)
           (layer_index : Z) (base_channel_count : Z) : option bool :=
  if negb (layer_index =? layer_count (doc_layers doc) - 1) then Some false
  else
    match (if layer_index <? 0 then None
           else nth_error (layers (doc_layers doc)) (Z.to_nat layer_index))
    with
    | None => None
    | Some layer =>
      if Z.land (flags layer) 0x04 =? 0 then Some false
      else if has_transparency_channel layer then Some false
      else
        let has_mask :=
          match additional_data layer with
          | Some data =>
            (additional_length layer >? 0) && (additional_length layer >=? 4)
            && (read_be_u32 data 0 >? 0)
          | None => false
          end in
        if has_mask then Some false
        else
          let vector_mask :=
            match additional_data layer with
            | Some data =>
              if additional_length layer >? 0
              then has_vector_mask_block data (additional_length layer)
              else Some false
            | None => Some false
            end in
          match vector_mask with
          | None => None
          | Some true => Some false
          | Some false =>
            if negb (channel_count layer =? base_channel_count)
            then Some false
            else Some true
          end
    end.

End Background.

(** ** The composite image section ([psd_context.c]) *)

Module Composite.

Section Parser.

Variable alloc : psd_allocator_t.
Variable zlib : zlib_t.

(** The width of [size_t]; a 64-bit value passed as a [size_t] argument is
    reduced to it. *)
Variable size_t_bits : Z.

Definition size_t_cast (x : Z) : Z := x mod 2 ^ size_t_bits.

(** The loops of [psd_try_decode_composite_rle] that add up the scanline
    byte counts. *)
Fixpoint read_counts (n : nat) (count_bytes : Z)
         (stream : Stream.psd_stream_t) (compressed_size64 : Z)
  : (psd_status_t + Z) * Stream.psd_stream_t :=
  match n with
  | O => (inr compressed_size64, stream)
  | S n' =>
    match (if count_bytes =? 2 then Stream.psd_stream_read_be16 stream
           else Stream.psd_stream_read_be32 stream) with
    | (inl st, stream) => (inl st, stream)
    | (inr v, stream) =>
      read_counts n' count_bytes stream (u64 (compressed_size64 + v))
    end
  end.

(** [psd_try_decode_composite_rle]: the status, the bytes that the decoder
    stored at the start of [dst], and the stream. *)
Definition psd_try_decode_composite_rle (stream : Stream.psd_stream_t)
           (counts_pos : Z) (num_scanlines : Z) (bytes_per_scanline : Z)
           (expected_uncompressed_size : Z) (count_bytes : Z)
  : option (psd_status_t * list Z * Stream.psd_stream_t) :=
  match Stream.psd_stream_seek stream counts_pos with
  | None => Some (PSD_ERR_STREAM_INVALID, [], stream)
  | Some stream =>
    if negb (count_bytes =? 2) && negb (count_bytes =? 4)
    then Some (PSD_ERR_INVALID_ARGUMENT, [], stream)
    else
      match read_counts (Z.to_nat num_scanlines) count_bytes stream 0 with
      | (inl st, stream) => Some (st, [], stream)
      | (inr compressed_size64, stream) =>
        match Endian.psd_u64_to_size size_t_bits compressed_size64 with
        | None => Some (PSD_ERR_OUT_OF_RANGE, [], stream)
        | Some compressed_size =>
          if negb (malloc_ok alloc compressed_size)
          then Some (PSD_ERR_OUT_OF_MEMORY, [], stream)
          else
            let '(compressed_data, stream) :=
              Stream.psd_stream_read stream compressed_size in
            if negb (Z.of_nat (length compressed_data) =? compressed_size)
            then Some (PSD_ERR_STREAM_EOF, [], stream)
            else
              match Endian.psd_u64_to_size size_t_bits bytes_per_scanline with
              | None => Some (PSD_ERR_OUT_OF_RANGE, [], stream)
              | Some scanline_w =>
                match Rle.psd_rle_decode compressed_data
                                         (Z.to_nat (size_t_cast num_scanlines))
                                         (Z.to_nat scanline_w) with
                | None => None
                | Some r =>
                  if negb (status_eqb (row_status r) PSD_OK)
                  then Some (row_status r, row_output r, stream)
                  else if negb (Z.of_nat (length (row_output r))
                                =? expected_uncompressed_size)
                  then Some (PSD_ERR_CORRUPT_DATA, row_output r, stream)
                  else Some (PSD_OK, row_output r, stream)
                end
              end
        end
      end
  end.

(** The two attempts of the RLE case: the row-count width that the format
    suggests first, the other one when that fails.  The result is the
    status kept in [status], the bytes of the successful attempt and the
    stream. *)
Definition decode_composite_rle (is_psb : bool) (stream : Stream.psd_stream_t)
           (counts_pos num_scanlines bytes_per_scanline uncompressed_size : Z)
  : option (psd_status_t * list Z * Stream.psd_stream_t) :=
  let attempt := fun stream count_bytes =>
    psd_try_decode_composite_rle stream counts_pos num_scanlines
                                 bytes_per_scanline uncompressed_size
                                 count_bytes in
  let preferred := if is_psb then 4 else 2 in
  let other := if is_psb then 2 else 4 in
  match attempt stream preferred with
  | None => None
  | Some (st_preferred, out, stream) =>
    if status_eqb st_preferred PSD_OK then Some (PSD_OK, out, stream)
    else attempt stream other
  end.

(** [psd_parse_composite_image(stream, doc)]: the status, the composite
    image left in the document, and the stream. *)
Definition psd_parse_composite_image (stream : Stream.psd_stream_t)
           (doc : psd_document_t)
  : option (psd_status_t * psd_composite_image_t * Stream.psd_stream_t) :=
  let old := doc_composite doc in
  match Stream.psd_stream_read_be16 stream with
  | (inl _, stream) => Some (PSD_OK, mk_composite None 0 0, stream)
  | (inr compression, stream) =>
    if compression >? 3
    then Some (PSD_ERR_UNSUPPORTED_COMPRESSION, old, stream)
    else
      let bytes_per_sample :=
        if doc_depth doc =? 1 then 1 else Z.quot (doc_depth doc) 8 in
      let bytes_per_scanline :=
        if doc_depth doc =? 1 then Z.quot (u64 (doc_width doc + 7)) 8
        else u64 (doc_width doc * bytes_per_sample) in
      let uncompressed_size :=
        u64 (u64 (doc_channels doc * doc_height doc) * bytes_per_scanline) in
      if negb (malloc_ok alloc (size_t_cast uncompressed_size))
      then Some (PSD_ERR_OUT_OF_MEMORY,
                 mk_composite None (composite_data_length old) compression,
                 stream)
      else
        let freed := mk_composite None uncompressed_size compression in
        let kept := fun data =>
          mk_composite (Some data) uncompressed_size compression in
        if compression =? 0 then
          let '(got, stream) :=
            Stream.psd_stream_read stream (size_t_cast uncompressed_size) in
          if negb (Z.of_nat (length got) =? uncompressed_size)
          then Some (PSD_ERR_STREAM_EOF, freed, stream)
          else Some (PSD_OK, kept got, stream)
        else if compression =? 1 then
          let num_scanlines := u32 (doc_height doc * doc_channels doc) in
          let counts_pos := Stream.psd_stream_tell stream in
          match decode_composite_rle (doc_is_psb doc) stream counts_pos
                                     num_scanlines bytes_per_scanline
                                     uncompressed_size with
          | None => None
          | Some (status, out, stream) =>
            if negb (status_eqb status PSD_OK)
            then Some (PSD_ERR_CORRUPT_DATA, freed, stream)
            else Some (PSD_OK, kept out, stream)
          end
        else
          let capacity := size_t_cast (u64 (uncompressed_size * 2)) in
          if negb (malloc_ok alloc capacity)
          then Some (PSD_ERR_OUT_OF_MEMORY, freed, stream)
          else
            let '(compressed_data, stream) :=
              Stream.psd_stream_read stream capacity in
            if Z.of_nat (length compressed_data) <=? 0
            then Some (PSD_ERR_STREAM_EOF, freed, stream)
            else if compression =? 2 then
              match Zip.psd_zip_decompress
                      zlib compressed_data
                      (size_t_cast uncompressed_size) with
              | (PSD_OK, out) => Some (PSD_OK, kept out, stream)
              | (zip_status, _) => Some (zip_status, freed, stream)
              end
            else
              let bytes_per_pixel :=
                if doc_depth doc =? 1 then 1 else bytes_per_sample in
              match Zip.psd_zip_decompress_with_prediction
                      zlib compressed_data (size_t_cast uncompressed_size)
                      (size_t_cast bytes_per_scanline)
                      (size_t_cast bytes_per_pixel) with
              | None => None
              | Some (PSD_OK, out) => Some (PSD_OK, kept out, stream)
              | Some (zip_status, _) => Some (zip_status, freed, stream)
              end
  end.

End Parser.

(** [psd_document_get_composite_image]: the values stored through [data],
    [length] and [compression]. *)
Definition psd_document_get_composite_image (doc : psd_document_t)
  : psd_status_t * (option (list Z) * Z * Z) :=
  (PSD_OK,
   (composite_data (doc_composite doc),
    composite_data_length (doc_composite doc),
    u32 (composite_compression (doc_composite doc)))).

End Composite.

(** ** Strings of the descriptor format ([psd_descriptor.c])

    The value stored through [out_string] is [None] when the function
    leaves it alone, [Some None] for the null pointer and [Some (Some
    bytes)] for a buffer, given up to and including its terminating NUL. *)

Module Descriptor.

Section Strings.

Variable allocator : psd_allocator_t.

(** The platform's [SIZE_MAX]. *)
Variable size_max : Z.

Definition size_t_cast (x : Z) : Z := x mod (size_max + 1).

(** [psd_parse_unicode_string(stream, allocator, out_string)]: a 4-byte
    count of UTF-16 code units, then the units. *)
Definition psd_parse_unicode_string (stream : Stream.psd_stream_t)
  : option (psd_status_t * option (option (list Z)) * Stream.psd_stream_t) :=
  match Stream.psd_stream_read_be32 stream with
  | (inl status, stream) => Some (status, None, stream)
  | (inr char_count, stream) =>
    if char_count =? 0 then
      if malloc_ok allocator 1
      then Some (PSD_OK, Some (Some [0]), stream)
      else Some (PSD_ERR_OUT_OF_MEMORY, Some None, stream)
    else
      let utf16_bytes := size_t_cast (size_t_cast char_count * 2) in
      if negb (malloc_ok allocator utf16_bytes)
      then Some (PSD_ERR_OUT_OF_MEMORY, None, stream)
      else
        let '(utf16, stream) := Stream.psd_stream_read stream utf16_bytes in
        if negb (Z.of_nat (length utf16) =? utf16_bytes)
        then Some (PSD_ERR_STREAM_EOF, None, stream)
        else
          match Unicode.psd_utf16be_to_utf8 allocator size_max utf16
                                            utf16_bytes with
          | None => None
          | Some (None, _) => Some (PSD_ERR_OUT_OF_MEMORY, None, stream)
          | Some (Some utf8, _) => Some (PSD_OK, Some (Some utf8), stream)
          end
  end.

(** [psd_skip_unicode_string(stream)]. *)
Definition psd_skip_unicode_string (stream : Stream.psd_stream_t)
  : psd_status_t * Stream.psd_stream_t :=
  match Stream.psd_stream_read_be32 stream with
  | (inl status, stream) => (status, stream)
  | (inr char_count, stream) =>
    if char_count =? 0 then (PSD_OK, stream)
    else if char_count >? 1000000 then (PSD_ERR_CORRUPT_DATA, stream)
    else
      let bytes := size_t_cast (size_t_cast char_count * 2) in
      Stream.psd_stream_skip stream bytes
  end.

(** [psd_parse_class_id(stream, allocator, out_string)] for a non-null
    [out_string], which is set to the null pointer first: a 4-byte length,
    then a 4-byte OSType for the length 0 and that many characters
    otherwise. *)
Definition psd_parse_class_id (stream : Stream.psd_stream_t)
  : psd_status_t * option (list Z) * Stream.psd_stream_t :=
  match Stream.psd_stream_read_be32 stream with
  | (inl status, stream) => (status, None, stream)
  | (inr length, stream) =>
    if length =? 0 then
      match Stream.psd_stream_read_exact stream 4 with
      | (PSD_OK, ostype, stream) =>
        if negb (malloc_ok allocator 5)
        then (PSD_ERR_OUT_OF_MEMORY, None, stream)
        else
          (PSD_OK,
           Some [byte_at ostype 0; byte_at ostype 1; byte_at ostype 2;
                 byte_at ostype 3; 0],
           stream)
      | (status, _, stream) => (status, None, stream)
      end
    else
      if negb (malloc_ok allocator (size_t_cast (size_t_cast length + 1)))
      then (PSD_ERR_OUT_OF_MEMORY, None, stream)
      else
        let '(buffer, stream) :=
          Stream.psd_stream_read stream (size_t_cast length) in
        if negb (u32 (Z.of_nat (List.length buffer)) =? length)
        then (PSD_ERR_STREAM_EOF, None, stream)
        else (PSD_OK, Some (buffer ++ [0]), stream)
  end.

End Strings.

End Descriptor.

(** * Reference definitions and sample inputs *)

(** *** PackBits packets

    The three kinds of packet of the PackBits rules, how each is written
    (a header byte, then its data) and what it stands for. *)
Inductive packet : Set :=
| Literal (bytes : list Z)
| NoOp
| Run (count : nat) (byte : Z).

Definition encode_packet (p : packet) : list Z :=
  match p with
  | Literal bytes => Z.of_nat (length bytes) - 1 :: bytes
  | NoOp => [128]
  | Run count byte => [257 - Z.of_nat count; byte]
  end.

Definition expand_packet (p : packet) : list Z :=
  match p with
  | Literal bytes => bytes
  | NoOp => []
  | Run count byte => repeat byte count
  end.

(** A literal packet carries 1 to 128 bytes, a run repeats 2 to 128 times. *)
Definition legal_packet (p : packet) : bool :=
  match p with
  | Literal bytes => (1 <=? length bytes)%nat && (length bytes <=? 128)%nat
  | NoOp => true
  | Run count _ => (2 <=? count)%nat && (count <=? 128)%nat
  end.

Definition encode_row (ps : list packet) : list Z :=
  flat_map encode_packet ps.

Definition expand_row (ps : list packet) : list Z :=
  flat_map expand_packet ps.

(** A row that does not end in a no-op packet. *)
Definition ends_with_data (ps : list packet) : bool :=
  match last ps (Literal []) with
  | NoOp => false
  | _ => true
  end.

(** *** The PackBits example row *)

Definition packbits_example_row : list Z :=
  [0x02; 0xAA; 0xBB; 0xCC; 0x81; 0xDD; 0x00; 0xEE].

Definition packbits_example_row_fe : list Z :=
  [0x02; 0xAA; 0xBB; 0xCC; 0xFE; 0xDD; 0x00; 0xEE].

(** *** The header invariant *)

(** The header fields as they lie in the file, [p] being the offset of the
    signature. *)
Definition hdr_signature (b : list Z) (p : nat) : Z := read_be_u32 b p.
Definition hdr_version (b : list Z) (p : nat) : Z := read_be_u16 b (p + 4).
Definition hdr_channels (b : list Z) (p : nat) : Z := read_be_u16 b (p + 12).
Definition hdr_height (b : list Z) (p : nat) : Z := read_be_u32 b (p + 14).
Definition hdr_width (b : list Z) (p : nat) : Z := read_be_u32 b (p + 18).
Definition hdr_depth (b : list Z) (p : nat) : Z := read_be_u16 b (p + 22).
Definition hdr_color_mode (b : list Z) (p : nat) : Z := read_be_u16 b (p + 24).

Definition format_max (version : Z) : Z :=
  if version =? 2 then 300000 else 30000.

(** A well-formed header: all 26 bytes present, signature ["8BPS"], version
    1 or 2, and every field inside its range. *)
Definition header_valid (b : list Z) (p : nat) : bool :=
  (p + 26 <=? length b)%nat &&
  (hdr_signature b p =? 0x38425053) &&
  ((hdr_version b p =? 1) || (hdr_version b p =? 2)) &&
  ((1 <=? hdr_channels b p) && (hdr_channels b p <=? 56)) &&
  ((1 <=? hdr_width b p) && (hdr_width b p <=? format_max (hdr_version b p))) &&
  ((1 <=? hdr_height b p) && (hdr_height b p <=? format_max (hdr_version b p))) &&
  ((hdr_depth b p =? 1) || (hdr_depth b p =? 8) ||
   (hdr_depth b p =? 16) || (hdr_depth b p =? 32)).

Definition header_invariant (d : psd_document_t) : Prop :=
  1 <= doc_channels d <= 56 /\
  (doc_depth d = 1 \/ doc_depth d = 8 \/ doc_depth d = 16 \/ doc_depth d = 32) /\
  1 <= doc_width d <= (if doc_is_psb d then 300000 else 30000) /\
  1 <= doc_height d <= (if doc_is_psb d then 300000 else 30000).

(** The minimal RGB document of the standard format: signature, version 1,
    reserved bytes, 3 channels, height 256, width 512, depth 8, mode 3. *)
Definition minimal_rgb_header : list Z :=
  [0x38; 0x42; 0x50; 0x53;  0x00; 0x01;  0; 0; 0; 0; 0; 0;
   0x00; 0x03;  0x00; 0x00; 0x01; 0x00;  0x00; 0x00; 0x02; 0x00;
   0x00; 0x08;  0x00; 0x03].

(** The same header with a bit depth of 12. *)
Definition depth12_header : list Z :=
  [0x38; 0x42; 0x50; 0x53;  0x00; 0x01;  0; 0; 0; 0; 0; 0;
   0x00; 0x03;  0x00; 0x00; 0x01; 0x00;  0x00; 0x00; 0x02; 0x00;
   0x00; 0x0C;  0x00; 0x03].

Definition always_grant : psd_allocator_t := mk_allocator (fun _ => true).
Definition lp64_sizes : psd_sizeof_t := mk_sizeof 56 24 168 176.

(** Section parsers that find their sections empty. *)
Definition no_color_data (s : Stream.psd_stream_t) (_ : psd_document_t) :=
  (PSD_OK, mk_color_data None 0, s).
Definition no_resources (s : Stream.psd_stream_t) (_ : psd_document_t) :=
  (PSD_OK, @nil psd_resource_block_t, s).
Definition no_layer_info (s : Stream.psd_stream_t) (_ : psd_document_t) :=
  (PSD_OK, mk_layer_info [] 0 false, s).
Definition no_text_layers (d : psd_document_t) :=
  (PSD_OK, doc_text_layers d).
Definition no_composite (s : Stream.psd_stream_t) (_ : psd_document_t) :=
  (PSD_OK, mk_composite None 0 0, s).

(** *** The derived layer type *)

(** Extra data of a layer: empty mask data, empty blending ranges, an
    empty name, and two section-divider blocks ([8BIM], [lsct], length 4),
    the first of type 1 (open folder), the second of type 3 (bounding
    section divider). *)
Definition both_markers_extra_data : list Z :=
  [0; 0; 0; 0] ++ [0; 0; 0; 0] ++ [0; 0; 0; 0] ++
  [0x38; 0x42; 0x49; 0x4D] ++ [0x6C; 0x73; 0x63; 0x74] ++ [0; 0; 0; 4] ++
  [0; 0; 0; 1] ++
  [0x38; 0x42; 0x49; 0x4D] ++ [0x6C; 0x73; 0x63; 0x74] ++ [0; 0; 0; 4] ++
  [0; 0; 0; 3].

(** A layer that carries both section-divider markers. *)
Definition layer_with_both_markers : psd_layer_record_t :=
  mk_layer (mk_bounds 0 0 0 0) [] 0x3842494D 0x6E6F726D 255 0 0 None
           (Some both_markers_extra_data) 44
           (mk_features true true false false false false false false false false).

Definition doc_with_both_markers : psd_document_t :=
  mk_document false 512 256 3 8 3 (mk_color_data None 0) []
              (mk_layer_info [layer_with_both_markers] 1 false)
              (mk_composite None 0 0) [].

(** The priority order as the specification words it, with the group-end
    marker first; the source tests the group-start marker first. *)
Definition specified_layer_type (layer : psd_layer_record_t)
  : psd_layer_type_t :=
  let f := features layer in
  if is_group_end f then PSD_LAYER_TYPE_GROUP_END
  else if is_group_start f then PSD_LAYER_TYPE_GROUP_START
  else if has_text f then PSD_LAYER_TYPE_TEXT
  else if has_smart_object f then PSD_LAYER_TYPE_SMART_OBJECT
  else if has_adjustment f then PSD_LAYER_TYPE_ADJUSTMENT
  else if has_fill f then PSD_LAYER_TYPE_FILL
  else if has_effects f then PSD_LAYER_TYPE_EFFECTS
  else if has_3d f then PSD_LAYER_TYPE_3D
  else if has_video f then PSD_LAYER_TYPE_VIDEO
  else if channel_count layer >? 0 then PSD_LAYER_TYPE_PIXEL
  else PSD_LAYER_TYPE_EMPTY.

(** *** Prediction reversal *)

(** The filter definitions in the words of the PNG specification, with the
    byte above ([b]) and the byte above-left ([c]) taken as zero:
    reconstruction adds to each filtered byte the prediction made from the
    reconstructed byte [bpp] positions to its left ([a], zero inside the
    first pixel), modulo 256. *)
Definition png_paeth (a b c : Z) : Z :=
  let p := a + b - c in
  let pa := Z.abs (p - a) in
  let pb := Z.abs (p - b) in
  let pc := Z.abs (p - c) in
  if (pa <=? pb) && (pa <=? pc) then a else if pb <=? pc then b else c.

Definition png_predict (filter_type a b c : Z) : Z :=
  if filter_type =? 1 then a
  else if filter_type =? 2 then b
  else if filter_type =? 3 then (a + b) / 2
  else if filter_type =? 4 then png_paeth a b c
  else 0.

Fixpoint png_reconstruct_from (filter_type : Z) (bpp : nat)
         (filtered recon : list Z) : list Z :=
  match filtered with
  | [] => recon
  | x :: rest =>
    let i := length recon in
    let a := if (i <? bpp)%nat then 0 else byte_at recon (i - bpp) in
    png_reconstruct_from filter_type bpp rest
                         (recon ++ [u8 (x + png_predict filter_type a 0 0)])
  end.

Definition png_reconstruct (filter_type : Z) (bpp : nat) (filtered : list Z)
  : list Z :=
  png_reconstruct_from filter_type bpp filtered [].

(** The in-place loop that treats every position alike: the byte to the
    left counts as zero inside the first pixel. *)
Definition uniform_step (ft : Z) (bpp : nat) (i : nat) (d : list Z) : list Z :=
  Zip.poke d i
    (u8 (byte_at d i
         + png_predict ft (if (i <? bpp)%nat then 0 else byte_at d (i - bpp))
                       0 0)).

(** The scanline with its first pixel as the first loop of the Average case
    leaves it: half of each byte added to the byte itself. *)
Definition average_first_pixel (bpp : nat) (data : list Z) : list Z :=
  map (fun x => u8 (x + Z.quot x 2)) (firstn bpp data) ++ skipn bpp data.

(** *** Big-endian reads as numbers *)

Definition is_byte (x : Z) : Prop := 0 <= x < 256.

(** The decidable form: every element of a buffer is a byte. *)
Definition all_bytes (p : list Z) : bool :=
  forallb (fun x => (0 <=? x) && (x <? 256)) p.

(** *** Row-count width of RLE layer channels *)

(** The row-count table read with entries of [rb] bytes, and the candidate
    total [rb * rows + sum of the row counts]. *)
Definition row_count_at (compressed : list Z) (rb y : nat) : Z :=
  if (rb =? 2)%nat then read_be_u16 compressed (y * rb)
  else read_be_u32 compressed (y * rb).

Fixpoint sum_counts_from (compressed : list Z) (rb rows y : nat) : Z :=
  match rows with
  | O => 0
  | S rows' =>
    row_count_at compressed rb y + sum_counts_from compressed rb rows' (S y)
  end.

Definition sum_counts (compressed : list Z) (rb : nat) (height : Z) : Z :=
  sum_counts_from compressed rb (Z.to_nat height) 0.

Definition rle_total (compressed : list Z) (rb : nat) (height : Z) : Z :=
  Z.of_nat rb * height + sum_counts compressed rb height.

(** A one-row RLE channel whose payload carries one byte more than its
    row-count table announces: [00 02] (one row of two bytes), the row
    [00 AA], and a trailing byte. *)
Definition rle_channel_with_padding : psd_layer_channel_data_t :=
  mk_channel 0 1 5 (Some [0x00; 0x02; 0x00; 0xAA; 0xFF]) None 0 false.

(** *** The text-layer table *)

(** The extra-data of a text layer: empty mask data, empty blending ranges,
    an empty name padded to four bytes, and one tagged block with the given
    signature, key ["TySh"] and the payload [01 02 03 04]. *)
Definition text_extra_data (sig : list Z) : list Z :=
  [0; 0; 0; 0] ++ [0; 0; 0; 0] ++ [0; 0; 0; 0] ++
  sig ++ [0x54; 0x79; 0x53; 0x68] ++ [0; 0; 0; 4] ++ [1; 2; 3; 4].

Definition sig_8BIM : list Z := [0x38; 0x42; 0x49; 0x4D].
Definition sig_8B64 : list Z := [0x38; 0x42; 0x36; 0x34].

Definition text_layer_record (sig : list Z) : psd_layer_record_t :=
  mk_layer (mk_bounds 0 0 10 10) [] 0x3842494D 0x6E6F726D 255 0 0 None
           (Some (text_extra_data sig)) 28
           (mk_features false false true false false false false false false
                        false).

Definition text_document (sig : list Z) : psd_document_t :=
  mk_document false 512 256 3 8 3 (mk_color_data None 0) []
              (mk_layer_info [text_layer_record sig] 1 false)
              (mk_composite None 0 0) [].

(** *** Rendering *)

(** A document with one layer whose bounds are inverted (right < left). *)
Definition inverted_layer : psd_layer_record_t :=
  mk_layer (mk_bounds 0 100 50 20)
           [mk_channel 0 0 4 (Some [1; 2; 3; 4]) None 0 false]
           0x3842494D 0x6E6F726D 255 0 0 None None 0 no_features.

Definition doc_with_inverted_layer : psd_document_t :=
  mk_document false 512 256 3 8 3 (mk_color_data None 0) []
              (mk_layer_info [inverted_layer] 1 false)
              (mk_composite None 0 0) [].

Definition no_lab : lab_converter := fun _ _ _ _ => (0, 0, 0).
Definition SIZE_MAX_64 : Z := 18446744073709551615.


(** Consecutive integers. *)
Definition zrange (start : Z) (n : nat) : list Z :=
  map (fun k => start + Z.of_nat k) (seq 0 n).

(** The most significant byte of sample [i] of a plane of big-endian
    samples of [depth_bits] bits. *)
Definition msb (depth_bits : Z) (plane : list Z) (i : Z) : Z :=
  byte_at plane (Z.to_nat (i * (depth_bits / 8))).

Definition rgb_pixel (depth_bits : Z) (pr pg pb : list Z) (i : Z) : list Z :=
  [msb depth_bits pr i; msb depth_bits pg i; msb depth_bits pb i; 255].







(** *** Channel lengths and the compression field *)

(** All channels of the layers whose records were read, in file order. *)
Definition all_channels (ls : list psd_layer_record_t)
  : list psd_layer_channel_data_t :=
  flat_map channels ls.

Definition zsum (l : list Z) : Z := fold_right Z.add 0 l.

(** The sum of the stored channel lengths and the number of channels. *)
Definition stored_length_sum (ls : list psd_layer_record_t) : Z :=
  zsum (map compressed_length (all_channels ls)).

Definition stored_channel_count (ls : list psd_layer_record_t) : Z :=
  Z.of_nat (length (all_channels ls)).

(** Every stored length is a 64-bit unsigned value. *)
Definition lengths_in_range (ls : list psd_layer_record_t) : bool :=
  forallb (fun ch => (0 <=? compressed_length ch) &&
                     (compressed_length ch <? 2 ^ 64))
          (all_channels ls).

(** What the second pass does to one channel, in terms of the file: at
    [pos] lies the 2-byte compression kind, directly followed by the
    payload, whose length is the stored length (payload-only lengths) or the
    stored length minus 2; the channel keeps that payload and its length. *)
Definition channel_read (exclude : bool) (buf : list Z) (pos : nat)
           (old new : psd_layer_channel_data_t) : Prop :=
  let len := if exclude then compressed_length old
             else compressed_length old - 2 in
  0 <= len /\
  read_be_u16 buf pos <= 3 /\
  (pos + 2 + Z.to_nat len <= length buf)%nat /\
  new = mk_channel (channel_id old) (u8 (read_be_u16 buf pos)) len
                   (Some (slice buf (pos + 2) (Z.to_nat len)))
                   (decoded_data old) (decoded_length old) (is_decoded old).

Definition payload_end (exclude : bool) (pos : nat)
           (old : psd_layer_channel_data_t) : nat :=
  (pos + 2 + Z.to_nat (if exclude then compressed_length old
                       else compressed_length old - 2))%nat.

Fixpoint channels_read (exclude : bool) (buf : list Z) (pos : nat)
         (olds news : list psd_layer_channel_data_t) (pos_end : nat) : Prop :=
  match olds, news with
  | [], [] => pos_end = pos
  | old :: olds', new :: news' =>
    channel_read exclude buf pos old new /\
    channels_read exclude buf (payload_end exclude pos old) olds' news' pos_end
  | _, _ => False
  end.

Fixpoint layers_read (exclude : bool) (buf : list Z) (pos : nat)
         (olds news : list psd_layer_record_t) (pos_end : nat) : Prop :=
  match olds, news with
  | [], [] => pos_end = pos
  | old :: olds', new :: news' =>
    exists mid,
      new = LayerInfo.set_channels old (channels new) /\
      channels_read exclude buf pos (channels old) (channels new) mid /\
      layers_read exclude buf mid olds' news' pos_end
  | _, _ => False
  end.

(** After the pass a channel's length is its payload length: the stored
    length (payload-only lengths) or the stored length minus 2, and the
    retained payload has exactly that many bytes. *)
Definition length_denotes_payload (payload_only : bool)
           (old new : psd_layer_channel_data_t) : Prop :=
  compressed_length new =
    (if payload_only then compressed_length old
     else compressed_length old - 2) /\
  exists payload,
    compressed_data new = Some payload /\
    Z.of_nat (length payload) = compressed_length new.

(** Two layer-info tails for one layer with two channels of payloads
    [AA BB] and [CC]: in the first the records store the payload lengths 2
    and 1, in the second the lengths 4 and 3 that count the compression
    field. *)
Definition channel_image_data : list Z :=
  [0x00; 0x00; 0xAA; 0xBB;  0x00; 0x01; 0xCC].

Definition two_channel_layer (len0 len1 : Z) : psd_layer_record_t :=
  mk_layer (mk_bounds 0 0 1 2)
           [mk_channel 0 0 len0 None None 0 false;
            mk_channel 1 0 len1 None None 0 false]
           0x3842494D 0x6E6F726D 255 0 0 None None 0 no_features.

Definition two_channel_result : list psd_layer_record_t :=
  [mk_layer (mk_bounds 0 0 1 2)
            [mk_channel 0 0 2 (Some [0xAA; 0xBB]) None 0 false;
             mk_channel 1 1 1 (Some [0xCC]) None 0 false]
            0x3842494D 0x6E6F726D 255 0 0 None None 0 no_features].

(** *** UTF-8 and UTF-16 in the words of the Unicode standard *)

(** A Unicode scalar value: a code point up to U+10FFFF outside the
    surrogate range. *)
Definition is_scalar_value (cp : Z) : bool :=
  (0 <=? cp) && (cp <=? 0x10FFFF) &&
  negb ((0xD800 <=? cp) && (cp <=? 0xDFFF)).

Definition is_continuation (b : Z) : bool := (0x80 <=? b) && (b <=? 0xBF).

(** Strict decoding of well-formed UTF-8: one to four bytes per code
    point, shortest form only, no surrogates, nothing above U+10FFFF.
    [None] for any other byte sequence. *)
Fixpoint utf8_decode (bytes : list Z) : option (list Z) :=
  match bytes with
  | [] => Some []
  | b0 :: rest =>
    if (0 <=? b0) && (b0 <=? 0x7F) then
      option_map (cons b0) (utf8_decode rest)
    else if (0xC2 <=? b0) && (b0 <=? 0xDF) then
      match rest with
      | b1 :: rest1 =>
        if is_continuation b1 then
          option_map (cons ((b0 - 0xC0) * 64 + (b1 - 0x80)))
                     (utf8_decode rest1)
        else None
      | _ => None
      end
    else if (0xE0 <=? b0) && (b0 <=? 0xEF) then
      match rest with
      | b1 :: b2 :: rest2 =>
        let cp := (b0 - 0xE0) * 4096 + (b1 - 0x80) * 64 + (b2 - 0x80) in
        if is_continuation b1 && is_continuation b2
           && (0x800 <=? cp) && is_scalar_value cp
        then option_map (cons cp) (utf8_decode rest2)
        else None
      | _ => None
      end
    else if (0xF0 <=? b0) && (b0 <=? 0xF4) then
      match rest with
      | b1 :: b2 :: b3 :: rest3 =>
        let cp := (b0 - 0xF0) * 262144 + (b1 - 0x80) * 4096
                  + (b2 - 0x80) * 64 + (b3 - 0x80) in
        if is_continuation b1 && is_continuation b2 && is_continuation b3
           && (0x10000 <=? cp) && is_scalar_value cp
        then option_map (cons cp) (utf8_decode rest3)
        else None
      | _ => None
      end
    else None
  end.

(** UTF-16BE: a code point below U+10000 is one 16-bit unit, any other a
    high surrogate followed by a low surrogate; every unit is stored high
    byte first. *)
Definition be16_bytes (w : Z) : list Z := [w / 256; w mod 256].

Definition utf16be_encode_one (cp : Z) : list Z :=
  if cp <? 0x10000 then be16_bytes cp
  else
    be16_bytes (0xD800 + (cp - 0x10000) / 1024) ++
    be16_bytes (0xDC00 + (cp - 0x10000) mod 1024).

Definition utf16be_encode (cps : list Z) : list Z :=
  flat_map utf16be_encode_one cps.

(** *** Big-endian numbers *)

(** The number that a sequence of bytes denotes when the most significant
    byte comes first. *)
Definition be_value (bytes : list Z) : Z :=
  fold_left (fun acc b => acc * 256 + b) bytes 0.

(** The [n] low bytes of [value], most significant first: those of
    [value / 256] followed by the lowest byte. *)
Fixpoint be_bytes (n : nat) (value : Z) : list Z :=
  match n with
  | O => []
  | S n' => be_bytes n' (value / 256) ++ [value mod 256]
  end.

(** *** Streams and sections as they lie in the file *)

(** A buffer stream whose position lies inside its buffer. *)
Definition stream_wf (s : Stream.psd_stream_t) : Prop :=
  (Stream.position s <= length (Stream.buffer s))%nat.

(** A step that leaves the buffer alone and does not move backwards. *)
Definition stream_step (s s' : Stream.psd_stream_t) : Prop :=
  Stream.buffer s' = Stream.buffer s /\
  (Stream.position s <= Stream.position s')%nat /\
  stream_wf s'.

(** Computations on the stream that only move it forward. *)
Definition forward {A : Type} (m : M Stream.psd_stream_t A) : Prop :=
  forall s r s', stream_wf s -> m s = (r, s') -> stream_step s s'.

(** The stream over [pre ++ rest] that stands just behind [pre]. *)
Definition stream_at (pre rest : list Z) : Stream.psd_stream_t :=
  Stream.mk_stream (pre ++ rest) (length pre).

(** An image resource block in the file: the signature ["8BIM"], the
    2-byte id, the name as a Pascal string padded to an even size, the
    4-byte data length and the data padded to an even size. *)
Definition bytes_of (field : option (list Z)) : list Z :=
  match field with
  | Some bytes => bytes
  | None => []
  end.

Definition even_padding (n : nat) : list Z :=
  if Nat.even n then [] else [0].

Definition encode_resource (block : psd_resource_block_t) : list Z :=
  let name := bytes_of (resource_name block) in
  let data := bytes_of (resource_data block) in
  [0x38; 0x42; 0x49; 0x4D] ++ be_bytes 2 (resource_id block) ++
  (Z.of_nat (length name) :: name ++ even_padding (S (length name))) ++
  be_bytes 4 (Z.of_nat (length data)) ++
  data ++ even_padding (length data).

(** The whole section: the 4-byte length of the blocks, then the blocks. *)
Definition encode_resources (blocks : list psd_resource_block_t) : list Z :=
  let body := flat_map encode_resource blocks in
  be_bytes 4 (Z.of_nat (length body)) ++ body.

(** A block as the parser stores one: a 16-bit id; a name of 1 to 255 bytes
    or none; data of at least one byte with its length, or none with length
    zero. *)
Definition stored_field (field : option (list Z)) (max : Z) : bool :=
  match field with
  | Some bytes =>
    all_bytes bytes && (1 <=? Z.of_nat (length bytes))
    && (Z.of_nat (length bytes) <=? max)
  | None => true
  end.

Definition stored_resource (block : psd_resource_block_t) : bool :=
  (0 <=? resource_id block) && (resource_id block <? 65536)
  && stored_field (resource_name block) 255
  && stored_field (resource_data block) 4294967295
  && (resource_data_length block
      =? Z.of_nat (length (bytes_of (resource_data block)))).

(** *** A background layer *)

(** A document whose only layer is a flattened background: flag bit 2 set,
    the three color channels, no extra data. *)
Definition background_layer : psd_layer_record_t :=
  mk_layer (mk_bounds 0 0 2 2)
           [mk_channel 0 0 4 (Some [1; 2; 3; 4]) None 0 false;
            mk_channel 1 0 4 (Some [1; 2; 3; 4]) None 0 false;
            mk_channel 2 0 4 (Some [1; 2; 3; 4]) None 0 false]
           0x3842494D 0x6E6F726D 255 0 0x0C None None 0 no_features.

Definition doc_with_background : psd_document_t :=
  mk_document false 2 2 3 8 3 (mk_color_data None 0) []
              (mk_layer_info [background_layer] 1 false)
              (mk_composite None 0 0) [].

(** A last layer whose extra data hold an empty mask field, empty blending
    ranges, an empty name and one block ["abcd"] with the length field
    [0xFFFFFFF8]. *)
Definition wrapping_block_data : list Z :=
  [0; 0; 0; 0; 0; 0; 0; 0; 0; 0; 0; 0;
   0x61; 0x62; 0x63; 0x64; 0xFF; 0xFF; 0xFF; 0xF8].

Definition doc_with_wrapping_block : psd_document_t :=
  mk_document false 2 2 3 8 3 (mk_color_data None 0) []
              (mk_layer_info
                 [mk_layer (mk_bounds 0 0 2 2) (channels background_layer)
                           0x3842494D 0x6E6F726D 255 0 0x0C None
                           (Some wrapping_block_data) 20 no_features]
                 1 false)
              (mk_composite None 0 0) [].

(** *** The text-layer table *)

(** A list of numbers that never goes down. *)
Fixpoint nondecreasing (l : list Z) : Prop :=
  match l with
  | x :: ((y :: _) as rest) => x <= y /\ nondecreasing rest
  | _ => True
  end.

(** An entry of the table that belongs to a layer of the document: its
    index names a layer of the array that has the text feature, its source
    is one of the two text blocks, and its pixel flag is that of the
    layer. *)
Definition text_entry_of (doc : psd_document_t) (item : psd_text_layer_t)
  : Prop :=
  0 <= layer_index item < layer_count (doc_layers doc) /\
  (source item = PSD_TEXT_SOURCE_TYSH \/
   source item = PSD_TEXT_SOURCE_TYSH_LEGACY) /\
  exists layer,
    nth_error (layers (doc_layers doc)) (Z.to_nat (layer_index item))
      = Some layer /\
    has_text (features layer) = true /\
    has_rendered_pixels item = TextLayer.rendered_pixels layer.

(** A tagged block of the extra data as the text scan steps over it: a
    signature and a key of four bytes each, the four-byte length of the
    payload, the payload, and a pad byte after a payload of odd length. *)
Record tagged_block_t : Set := mk_tagged_block {
  block_signature : list Z;
  block_key : list Z;
  block_payload : list Z
}.

Definition encode_tagged_block (b : tagged_block_t) : list Z :=
  block_signature b ++ block_key b ++
  be_bytes 4 (Z.of_nat (length (block_payload b))) ++
  block_payload b ++ even_padding (length (block_payload b)).

(** The layer name: a length byte, the name, and zero bytes up to a
    multiple of four. *)
Definition encode_layer_name (name : list Z) : list Z :=
  Z.of_nat (length name) :: name ++
  repeat 0 ((4 - (1 + length name) mod 4) mod 4)%nat.

(** The extra data of a layer record: the layer mask data and the blending
    ranges, each behind its four-byte length, the padded name, the tagged
    blocks, and what may follow the last block. *)
Definition encode_extra_data (mask ranges name : list Z)
           (blocks : list tagged_block_t) (tail : list Z) : list Z :=
  be_bytes 4 (Z.of_nat (length mask)) ++ mask ++
  be_bytes 4 (Z.of_nat (length ranges)) ++ ranges ++
  encode_layer_name name ++
  flat_map encode_tagged_block blocks ++ tail.

(** A layer whose extra data is stored whole, as the layer parser stores
    it (as many bytes as [additional_length] says, at most 10000000), and is
    laid out in whole blocks: fewer than eight bytes follow the last
    block. *)
Definition extra_data_in_blocks (layer : psd_layer_record_t) : Prop :=
  exists mask ranges name blocks tail,
    additional_data layer
      = Some (encode_extra_data mask ranges name blocks tail) /\
    additional_length layer
      = Z.of_nat (length (encode_extra_data mask ranges name blocks tail)) /\
    additional_length layer <= 10000000 /\
    (length name <= 255)%nat /\
    Forall (fun b => length (block_signature b) = 4%nat /\
                     length (block_key b) = 4%nat) blocks /\
    (length tail < 8)%nat.

(** *** The size of a composite image *)

(** The bytes of one scanline of one channel, and of the whole planar
    image, for a document header. *)
Definition scanline_bytes (doc : psd_document_t) : Z :=
  if doc_depth doc =? 1 then (doc_width doc + 7) / 8
  else doc_width doc * (doc_depth doc / 8).

Definition planar_image_bytes (doc : psd_document_t) : Z :=
  doc_channels doc * doc_height doc * scanline_bytes doc.

(** A 2 x 1 RGB document of depth 8 before its composite image is read. *)
Definition rgb_2x1_document : psd_document_t :=
  mk_document false 2 1 3 8 PSD_COLOR_RGB (mk_color_data None 0) []
              (mk_layer_info [] 0 false) (mk_composite None 0 0) [].

(** Its image data section, uncompressed: the compression field, then the
    red, green and blue planes. *)
Definition rgb_2x1_image_data : list Z :=
  [0; 0;  0x10; 0x11;  0x20; 0x21;  0x30; 0x31].

(** *** Decoded layer channels *)

(** The bytes of one decoded plane of a layer channel. *)
Definition channel_plane_bytes (width height depth : Z) : Z :=
  (if depth =? 1 then (width + 7) / 8
   else width * (if depth >=? 8 then depth / 8 else 1)) * height.

(** A layer of 2 x 1 pixels with one uncompressed 8-bit channel, not yet
    decoded. *)
Definition raw_channel : psd_layer_channel_data_t :=
  mk_channel 0 0 2 (Some [0x40; 0x80]) None 0 false.

Definition doc_with_raw_channel : psd_document_t :=
  mk_document false 2 1 3 8 3 (mk_color_data None 0) []
              (mk_layer_info
                 [mk_layer (mk_bounds 0 0 1 2) [raw_channel]
                           0x3842494D 0x6E6F726D 255 0 0 None None 0
                           no_features]
                 1 false)
              (mk_composite None 0 0) [].

(** An allocator that refuses every request. *)
Definition never_grant : psd_allocator_t := mk_allocator (fun _ => false).

(** *** Scanlines of an RLE image *)

(** A scanline of [width] bytes written as legal packets, the last of which
    carries data. *)
Definition scanline_packets (width : nat) (ps : list packet) : bool :=
  forallb legal_packet ps && ends_with_data ps
  && (length (expand_row ps) =? width)%nat.

(** *** An RLE-compressed composite image in the file *)

(** The table of 2-byte scanline byte counts that precedes the PackBits
    data of the rows. *)
Definition rle_row_counts (rows : list (list packet)) : list Z :=
  flat_map (fun ps => be_bytes 2 (Z.of_nat (length (encode_row ps)))) rows.

(** The image data section for the rows: compression 1, the table, the
    rows. *)
Definition rle_image_data (rows : list (list packet)) : list Z :=
  [0; 1] ++ rle_row_counts rows ++ flat_map encode_row rows.

(** A 2 x 1 RGB image of depth 8 as three PackBits rows. *)
Definition rgb_2x1_rows : list (list packet) :=
  [[Literal [0x10; 0x11]]; [Run 2 0x20]; [Literal [0x30]; Literal [0x31]]].

(** * Properties *)

(** *** Termination of the row decoders *)

Lemma packbits_loop_total :
  forall fuel src dst_len si dst,
    (length src - si < fuel)%nat ->
    exists r, LayerDecode.packbits_loop fuel src dst_len si dst = Some r.
Proof.
  induction fuel as [|fuel IH]; intros src dst_len si dst Hfuel; [lia|].
  cbn [LayerDecode.packbits_loop].
  destruct ((si <? length src)%nat && (length dst <? dst_len)%nat) eqn:Hc.
  - apply andb_true_iff in Hc. destruct Hc as [Hsi _].
    apply Nat.ltb_lt in Hsi.
    repeat match goal with
           | |- context [if ?b then _ else _] => destruct b
           end; eauto; apply IH; lia.
  - destruct (negb (si =? length src)%nat || negb (length dst =? dst_len)%nat); eauto.
Qed.

Lemma scanline_loop_total :
  forall fuel compressed width comp_pos out,
    (length compressed - comp_pos < fuel)%nat ->
    exists r, Rle.scanline_loop fuel compressed width comp_pos out = Some r.
Proof.
  induction fuel as [|fuel IH]; intros src width pos out Hfuel; [lia|].
  cbn [Rle.scanline_loop].
  destruct ((length out <? width)%nat && (pos <? length src)%nat) eqn:Hc.
  - apply andb_true_iff in Hc. destruct Hc as [_ Hpos].
    apply Nat.ltb_lt in Hpos.
    repeat match goal with
           | |- context [if ?b then _ else _] => destruct b
           end; eauto; apply IH; lia.
  - destruct (negb (length out =? width)%nat); eauto.
Qed.

Lemma psd_packbits_decode_row_total :
  forall src dst_len,
    exists r, LayerDecode.psd_packbits_decode_row src dst_len = Some r.
Proof.
  intros. unfold LayerDecode.psd_packbits_decode_row.
  apply packbits_loop_total. lia.
Qed.

Lemma psd_rle_decode_scanline_total :
  forall compressed width,
    exists r, Rle.psd_rle_decode_scanline compressed width = Some r.
Proof.
  intros. unfold Rle.psd_rle_decode_scanline.
  apply scanline_loop_total. lia.
Qed.

Lemma scan_loop_total :
  forall fuel compressed width comp_pos scan_pos decomp_scanned,
    (length compressed - (comp_pos + scan_pos) < fuel)%nat ->
    exists r,
      Rle.scan_loop fuel compressed width comp_pos scan_pos decomp_scanned
      = Some r.
Proof.
  induction fuel as [|fuel IH]; intros src width pos sp ds Hfuel; [lia|].
  cbn [Rle.scan_loop].
  destruct ((ds <? width)%nat && (pos + sp <? length src)%nat) eqn:Hc.
  - apply andb_true_iff in Hc. destruct Hc as [_ Hpos].
    apply Nat.ltb_lt in Hpos.
    repeat match goal with
           | |- context [if ?b then _ else _] => destruct b
           end; eauto; apply IH; lia.
  - eauto.
Qed.

Lemma decode_scanlines_total :
  forall scanlines compressed width comp_pos out,
    exists r,
      Rle.decode_scanlines scanlines compressed width comp_pos out = Some r.
Proof.
  induction scanlines as [|n IH]; intros src width pos out;
    cbn [Rle.decode_scanlines]; [eauto|].
  destruct (scan_loop_total (S (length src)) src width pos 0 0)
    as [[[st sp] ds] ->]; [lia|].
  destruct (negb (status_eqb st PSD_OK)); [eauto|].
  destruct (negb (ds =? width)%nat); [eauto|].
  destruct (psd_rle_decode_scanline_total (slice src pos sp) width)
    as [row ->].
  destruct (negb (status_eqb (row_status row) PSD_OK)); [eauto|].
  cbv zeta. destruct (length src <? pos + sp)%nat; eauto.
Qed.

Lemma psd_rle_decode_total :
  forall compressed scanline_count width,
    exists r, Rle.psd_rle_decode compressed scanline_count width = Some r.
Proof.
  intros src n width. unfold Rle.psd_rle_decode.
  destruct ((n =? 0)%nat || (width =? 0)%nat); [eauto|].
  apply decode_scanlines_total.
Qed.

(** *** Exit conditions of the row decoders *)

(** Every exit of the layer-channel row decoder is either success or
    corrupt-data, and it is success exactly when the whole input was consumed
    and the whole row was filled. *)
Lemma packbits_loop_exit :
  forall fuel src dst_len si dst r,
    LayerDecode.packbits_loop fuel src dst_len si dst = Some r ->
    (row_status r = PSD_OK <->
     row_consumed r = length src /\ length (row_output r) = dst_len) /\
    (row_status r = PSD_OK \/ row_status r = PSD_ERR_CORRUPT_DATA).
Proof.
  induction fuel as [|fuel IH]; intros src dst_len si dst r H; [discriminate|].
  cbn [LayerDecode.packbits_loop] in H.
  destruct ((si <? length src)%nat && (length dst <? dst_len)%nat) eqn:Hc.
  - apply andb_true_iff in Hc. destruct Hc as [_ Hdi].
    apply Nat.ltb_lt in Hdi.
    repeat match type of H with
           | context [if ?b then _ else _] => destruct b
           end;
      try (apply IH in H; exact H);
      injection H as <-; cbn; (split; [split; [discriminate | lia] | auto]).
  - destruct (negb (si =? length src)%nat || negb (length dst =? dst_len)%nat) eqn:Hn;
      injection H as <-; cbn.
    + split; [split; [discriminate|] | auto].
      intros [-> <-].
      rewrite !Nat.eqb_refl in Hn. discriminate.
    + apply orb_false_iff in Hn. destruct Hn as [H1 H2].
      apply negb_false_iff, Nat.eqb_eq in H1.
      apply negb_false_iff, Nat.eqb_eq in H2.
      split; [split; auto | auto].
Qed.

(** The scanline decoder only looks at the number of bytes produced. *)
Lemma scanline_loop_exit :
  forall fuel compressed width comp_pos out r,
    Rle.scanline_loop fuel compressed width comp_pos out = Some r ->
    (row_status r = PSD_OK <-> length (row_output r) = width) /\
    (row_status r = PSD_OK \/ row_status r = PSD_ERR_CORRUPT_DATA).
Proof.
  induction fuel as [|fuel IH]; intros src width pos out r H; [discriminate|].
  cbn [Rle.scanline_loop] in H.
  destruct ((length out <? width)%nat && (pos <? length src)%nat) eqn:Hc.
  - apply andb_true_iff in Hc. destruct Hc as [Hdi _].
    apply Nat.ltb_lt in Hdi.
    repeat match type of H with
           | context [if ?b then _ else _] => destruct b
           end;
      try (apply IH in H; exact H);
      injection H as <-; cbn; (split; [split; [discriminate | lia] | auto]).
  - destruct (negb (length out =? width)%nat) eqn:Hn; injection H as <-; cbn.
    + apply negb_true_iff, Nat.eqb_neq in Hn.
      split; [split; [discriminate | contradiction] | auto].
    + apply negb_false_iff, Nat.eqb_eq in Hn.
      split; [split; auto | auto].
Qed.

(** [psd_packbits_decode_row] always returns, with success or corrupt-data,
    and succeeds exactly when [src_len] input bytes were consumed and
    [dst_len] output bytes were written. *)
Lemma psd_packbits_decode_row_exact :
  forall src dst_len,
    exists r,
      LayerDecode.psd_packbits_decode_row src dst_len = Some r /\
      (row_status r = PSD_OK <->
       row_consumed r = length src /\ length (row_output r) = dst_len) /\
      (row_status r = PSD_OK \/ row_status r = PSD_ERR_CORRUPT_DATA).
Proof.
  intros src dst_len.
  destruct (psd_packbits_decode_row_total src dst_len) as [r Hr].
  exists r. split; [exact Hr|].
  eapply packbits_loop_exit. exact Hr.
Qed.

(** [psd_rle_decode_scanline] always returns, with success or corrupt-data,
    and succeeds exactly when [width] output bytes were written. *)
Lemma psd_rle_decode_scanline_width_only :
  forall compressed width,
    exists r,
      Rle.psd_rle_decode_scanline compressed width = Some r /\
      (row_status r = PSD_OK <-> length (row_output r) = width) /\
      (row_status r = PSD_OK \/ row_status r = PSD_ERR_CORRUPT_DATA).
Proof.
  intros src width.
  destruct (psd_rle_decode_scanline_total src width) as [r Hr].
  exists r. split; [exact Hr|].
  eapply scanline_loop_exit. exact Hr.
Qed.

(** C4 (failing input).  On the four input bytes [00 AA 00 BB] with width 1,
    [psd_rle_decode_scanline] reports success after consuming only two of
    them, and so does [psd_rle_decode] for one scanline of that width: the
    leftover input is not detected, whereas [psd_packbits_decode_row]
    rejects the same row as corrupt. *)
Theorem psd_rle_decode_scanline_leftover_input :
  Rle.psd_rle_decode_scanline [0x00; 0xAA; 0x00; 0xBB] 1 =
    Some (mk_row_result PSD_OK 2 [0xAA]) /\
  Rle.psd_rle_decode [0x00; 0xAA; 0x00; 0xBB] 1 1 =
    Some (mk_row_result PSD_OK 2 [0xAA]) /\
  LayerDecode.psd_packbits_decode_row [0x00; 0xAA; 0x00; 0xBB] 1 =
    Some (mk_row_result PSD_ERR_CORRUPT_DATA 2 [0xAA]).
Proof. repeat split; reflexivity. Qed.

(** *** The PackBits example row *)

(** C5 (counterexample).  The row [02 AA BB CC 81 DD 00 EE] does not decode
    to seven bytes: header [0x81] asks for 257 - 129 = 128 copies of [DD],
    which overflows a row of width 7, and both decoders answer corrupt-data. *)
Theorem packbits_example_row_is_corrupt :
  ~ (exists n,
        LayerDecode.psd_packbits_decode_row packbits_example_row 7 =
          Some (mk_row_result PSD_OK n [0xAA; 0xBB; 0xCC; 0xDD; 0xDD; 0xDD; 0xEE])) /\
  ~ (exists n,
        Rle.psd_rle_decode_scanline packbits_example_row 7 =
          Some (mk_row_result PSD_OK n [0xAA; 0xBB; 0xCC; 0xDD; 0xDD; 0xDD; 0xEE])).
Proof.
  split; intros [n H]; vm_compute in H; discriminate.
Qed.

(** C5 (amended).  With expected width 7 the row [02 AA BB CC 81 DD 00 EE]
    is rejected as corrupt by both decoders; the row that decodes to
    [AA BB CC DD DD DD EE] is [02 AA BB CC FE DD 00 EE], whose run header
    [0xFE] replicates the next byte 257 - 254 = 3 times; and the original row
    decodes with width 132 to [AA BB CC], 128 times [DD], [EE]. *)
Theorem packbits_example_row_decoding :
  (LayerDecode.psd_packbits_decode_row packbits_example_row 7 =
     Some (mk_row_result PSD_ERR_CORRUPT_DATA 6 [0xAA; 0xBB; 0xCC]) /\
   Rle.psd_rle_decode_scanline packbits_example_row 7 =
     Some (mk_row_result PSD_ERR_CORRUPT_DATA 5 [0xAA; 0xBB; 0xCC])) /\
  (LayerDecode.psd_packbits_decode_row packbits_example_row_fe 7 =
     Some (mk_row_result PSD_OK 8 [0xAA; 0xBB; 0xCC; 0xDD; 0xDD; 0xDD; 0xEE]) /\
   Rle.psd_rle_decode_scanline packbits_example_row_fe 7 =
     Some (mk_row_result PSD_OK 8 [0xAA; 0xBB; 0xCC; 0xDD; 0xDD; 0xDD; 0xEE])) /\
  (LayerDecode.psd_packbits_decode_row packbits_example_row 132 =
     Some (mk_row_result PSD_OK 8
             ([0xAA; 0xBB; 0xCC] ++ repeat 0xDD 128 ++ [0xEE])) /\
   Rle.psd_rle_decode_scanline packbits_example_row 132 =
     Some (mk_row_result PSD_OK 8
             ([0xAA; 0xBB; 0xCC] ++ repeat 0xDD 128 ++ [0xEE]))).
Proof. repeat split; vm_compute; reflexivity. Qed.

(** *** The decoders on legal rows *)

Lemma byte_at_middle :
  forall pre x rest, byte_at (pre ++ x :: rest) (length pre) = x.
Proof.
  intros. unfold byte_at. rewrite app_nth2 by lia.
  now rewrite Nat.sub_diag.
Qed.

Lemma slice_middle :
  forall pre mid rest,
    slice (pre ++ mid ++ rest) (length pre) (length mid) = mid.
Proof.
  intros. unfold slice. rewrite skipn_app, skipn_all, Nat.sub_diag.
  cbn [skipn app]. rewrite firstn_app, firstn_all, Nat.sub_diag.
  cbn [firstn]. apply app_nil_r.
Qed.

Lemma expand_row_nonempty :
  forall p ps,
    forallb legal_packet (p :: ps) = true ->
    ends_with_data (p :: ps) = true ->
    (0 < length (expand_row (p :: ps)))%nat.
Proof.
  intros p ps. revert p. induction ps as [|q ps IH]; intros p Hl He.
  - unfold expand_row. cbn [flat_map]. rewrite app_nil_r.
    cbn [forallb] in Hl. rewrite andb_true_r in Hl.
    destruct p as [bs| |n v]; cbn [legal_packet expand_packet] in *.
    + apply andb_true_iff in Hl. destruct Hl as [H1 _].
      apply Nat.leb_le in H1. lia.
    + discriminate.
    + apply andb_true_iff in Hl. destruct Hl as [H1 _].
      apply Nat.leb_le in H1. rewrite repeat_length. lia.
  - unfold expand_row in *. cbn [flat_map]. rewrite length_app.
    cbn [forallb] in Hl. apply andb_true_iff in Hl. destruct Hl as [_ Hl].
    assert (He' : ends_with_data (q :: ps) = true) by exact He.
    specialize (IH q Hl He'). cbn [flat_map] in IH. lia.
Qed.

Lemma ends_with_data_tail :
  forall p q ps,
    ends_with_data (p :: q :: ps) = true -> ends_with_data (q :: ps) = true.
Proof. intros p q ps H. exact H. Qed.

Ltac length_facts :=
  repeat match goal with x := _ |- _ => subst x end;
  rewrite ?length_app, ?repeat_length in *; cbn [length] in *;
  rewrite ?length_app, ?repeat_length in *.

Ltac refute_test E :=
  exfalso;
  first [ apply Nat.ltb_lt in E | apply Nat.ltb_ge in E
        | apply Nat.leb_le in E | apply Nat.leb_gt in E
        | apply Z.leb_le in E | apply Z.leb_gt in E
        | apply Z.ltb_lt in E | apply Z.ltb_ge in E
        | apply Z.eqb_eq in E | apply Z.eqb_neq in E ];
  length_facts; lia.

(** Settles the outermost test of the goal, which the arithmetic context
    decides. *)
Ltac take_branch b :=
  match goal with
  | |- (if ?c then _ else _) = _ =>
    let E := fresh "E" in
    destruct c eqn:E;
    [ match b with true => idtac | false => refute_test E end
    | match b with false => idtac | true => refute_test E end ]
  end.

Lemma packbits_loop_packets :
  forall ps fuel pre dst,
    forallb legal_packet ps = true ->
    (ps = [] \/ ends_with_data ps = true) ->
    (length (encode_row ps) < fuel)%nat ->
    LayerDecode.packbits_loop fuel (pre ++ encode_row ps)
                              (length dst + length (expand_row ps))
                              (length pre) dst =
    Some (mk_row_result PSD_OK (length pre + length (encode_row ps))
                        (dst ++ expand_row ps)).
Proof.
  induction ps as [|p ps IH]; intros fuel pre dst Hl He Hfuel.
  - destruct fuel as [|fuel]; [cbn in Hfuel; lia|].
    cbn [encode_row expand_row flat_map length LayerDecode.packbits_loop].
    rewrite !app_nil_r, !Nat.add_0_r, Nat.ltb_irrefl. cbn [andb].
    rewrite !Nat.eqb_refl. reflexivity.
  - destruct He as [He | He]; [discriminate|].
    pose proof (expand_row_nonempty p ps Hl He) as Hne.
    assert (Hrest : ps = [] \/ ends_with_data ps = true).
    { destruct ps as [|q ps']; [now left | right].
      exact (ends_with_data_tail p q ps' He). }
    destruct fuel as [|fuel]; [lia|].
    cbn [forallb] in Hl. apply andb_true_iff in Hl. destruct Hl as [Hp Hps].
    unfold encode_row, expand_row in *. cbn [flat_map] in *.
    set (enc := flat_map encode_packet ps) in *.
    set (out := flat_map expand_packet ps) in *.
    cbn [LayerDecode.packbits_loop].
    assert (Hin : (length pre <? length (pre ++ encode_packet p ++ enc))%nat
                  = true)
      by (apply Nat.ltb_lt; rewrite !length_app; destruct p; cbn; lia).
    assert (Hroom : (length dst <? length dst
                                   + length (expand_packet p ++ out))%nat
                    = true) by (apply Nat.ltb_lt; lia).
    rewrite Hin, Hroom. cbn [andb]. clear Hin Hroom.
    destruct p as [bs| |n v]; cbn [legal_packet encode_packet expand_packet app]
      in *.
    + (* literal *)
      apply andb_true_iff in Hp. destruct Hp as [H1 H2].
      apply Nat.leb_le in H1. apply Nat.leb_le in H2.
      set (h := Z.of_nat (length bs) - 1) in *.
      rewrite byte_at_middle.
      assert (Hcast : int8_cast h = h).
      { unfold int8_cast. destruct (h <? 128) eqn:E; [reflexivity|].
        apply Z.ltb_ge in E. subst h. lia. }
      rewrite Hcast.
      replace (Z.to_nat (h + 1)) with (length bs) by (subst h; lia).
      take_branch true.
      take_branch false.
      take_branch false.
      replace (pre ++ h :: bs ++ enc) with ((pre ++ [h]) ++ bs ++ enc)
        by (rewrite <- app_assoc; reflexivity).
      replace (S (length pre)) with (length (pre ++ [h]))
        by (rewrite length_app; cbn; lia).
      rewrite slice_middle.
      replace ((pre ++ [h]) ++ bs ++ enc) with ((pre ++ h :: bs) ++ enc)
        by (rewrite <- !app_assoc; reflexivity).
      replace (length (pre ++ [h]) + length bs)%nat
        with (length (pre ++ h :: bs))
        by (rewrite !length_app; cbn; lia).
      replace (length dst + length (bs ++ out))%nat
        with (length (dst ++ bs) + length out)%nat
        by (rewrite !length_app; lia).
      rewrite (IH fuel (pre ++ h :: bs) (dst ++ bs) Hps Hrest)
        by (cbn [length] in Hfuel; rewrite ?length_app in Hfuel; lia).
      rewrite !length_app, <- app_assoc. cbn [length]. do 2 f_equal.
      rewrite ?length_app. cbn [length]. lia.
    + (* no-op *)
      rewrite byte_at_middle.
      change (int8_cast 128) with (-128).
      take_branch false.
      take_branch false.
      replace (pre ++ 128 :: enc) with ((pre ++ [128]) ++ enc)
        by (rewrite <- app_assoc; reflexivity).
      replace (S (length pre)) with (length (pre ++ [128]))
        by (rewrite length_app; cbn; lia).
      rewrite (IH fuel (pre ++ [128]) dst Hps Hrest)
        by (cbn [length] in Hfuel; rewrite ?length_app in Hfuel; lia).
      rewrite !length_app. cbn [length]. do 2 f_equal.
      rewrite ?length_app. cbn [length]. lia.
    + (* run *)
      apply andb_true_iff in Hp. destruct Hp as [H1 H2].
      apply Nat.leb_le in H1. apply Nat.leb_le in H2.
      set (h := 257 - Z.of_nat n) in *.
      rewrite byte_at_middle.
      assert (Hcast : int8_cast h = 1 - Z.of_nat n).
      { unfold int8_cast. destruct (h <? 128) eqn:E; [|subst h; lia].
        apply Z.ltb_lt in E. subst h. lia. }
      rewrite Hcast.
      take_branch false.
      take_branch true.
      take_branch false.
      replace (pre ++ h :: v :: enc) with ((pre ++ [h]) ++ v :: enc)
        by (rewrite <- app_assoc; reflexivity).
      replace (S (length pre)) with (length (pre ++ [h]))
        by (rewrite length_app; cbn; lia).
      rewrite byte_at_middle.
      replace (Z.to_nat (1 - (1 - Z.of_nat n))) with n by lia.
      take_branch false.
      replace ((pre ++ [h]) ++ v :: enc) with ((pre ++ [h; v]) ++ enc)
        by (rewrite <- !app_assoc; reflexivity).
      replace (S (length (pre ++ [h]))) with (length (pre ++ [h; v]))
        by (rewrite !length_app; cbn; lia).
      replace (length dst + length (repeat v n ++ out))%nat
        with (length (dst ++ repeat v n) + length out)%nat
        by (rewrite !length_app; lia).
      rewrite (IH fuel (pre ++ [h; v]) (dst ++ repeat v n) Hps Hrest)
        by (cbn [length] in Hfuel; rewrite ?length_app in Hfuel; lia).
      rewrite !length_app, <- app_assoc. cbn [length]. do 2 f_equal.
      rewrite ?length_app. cbn [length]. lia.
Qed.

Lemma scanline_loop_packets :
  forall ps fuel pre out0,
    forallb legal_packet ps = true ->
    (ps = [] \/ ends_with_data ps = true) ->
    (length (encode_row ps) < fuel)%nat ->
    Rle.scanline_loop fuel (pre ++ encode_row ps)
                      (length out0 + length (expand_row ps))
                      (length pre) out0 =
    Some (mk_row_result PSD_OK (length pre + length (encode_row ps))
                        (out0 ++ expand_row ps)).
Proof.
  induction ps as [|p ps IH]; intros fuel pre dst Hl He Hfuel.
  - destruct fuel as [|fuel]; [cbn in Hfuel; lia|].
    cbn [encode_row expand_row flat_map length Rle.scanline_loop].
    rewrite !app_nil_r, !Nat.add_0_r, Nat.ltb_irrefl. cbn [andb].
    rewrite !Nat.eqb_refl. reflexivity.
  - destruct He as [He | He]; [discriminate|].
    pose proof (expand_row_nonempty p ps Hl He) as Hne.
    assert (Hrest : ps = [] \/ ends_with_data ps = true).
    { destruct ps as [|q ps']; [now left | right].
      exact (ends_with_data_tail p q ps' He). }
    destruct fuel as [|fuel]; [lia|].
    cbn [forallb] in Hl. apply andb_true_iff in Hl. destruct Hl as [Hp Hps].
    unfold encode_row, expand_row in *. cbn [flat_map] in *.
    set (enc := flat_map encode_packet ps) in *.
    set (out := flat_map expand_packet ps) in *.
    cbn [Rle.scanline_loop].
    assert (Hin : (length pre <? length (pre ++ encode_packet p ++ enc))%nat
                  = true)
      by (apply Nat.ltb_lt; rewrite !length_app; destruct p; cbn; lia).
    assert (Hroom : (length dst <? length dst
                                   + length (expand_packet p ++ out))%nat
                    = true) by (apply Nat.ltb_lt; lia).
    rewrite Hin, Hroom. cbn [andb]. clear Hin Hroom.
    destruct p as [bs| |n v]; cbn [legal_packet encode_packet expand_packet app]
      in *.
    + (* literal *)
      apply andb_true_iff in Hp. destruct Hp as [H1 H2].
      apply Nat.leb_le in H1. apply Nat.leb_le in H2.
      set (h := Z.of_nat (length bs) - 1) in *.
      rewrite byte_at_middle.
      replace (Z.to_nat (h + 1)) with (length bs) by (subst h; lia).
      take_branch true.
      take_branch false.
      take_branch false.
      replace (pre ++ h :: bs ++ enc) with ((pre ++ [h]) ++ bs ++ enc)
        by (rewrite <- app_assoc; reflexivity).
      replace (S (length pre)) with (length (pre ++ [h]))
        by (rewrite length_app; cbn; lia).
      rewrite slice_middle.
      replace ((pre ++ [h]) ++ bs ++ enc) with ((pre ++ h :: bs) ++ enc)
        by (rewrite <- !app_assoc; reflexivity).
      replace (length (pre ++ [h]) + length bs)%nat
        with (length (pre ++ h :: bs))
        by (rewrite !length_app; cbn; lia).
      replace (length dst + length (bs ++ out))%nat
        with (length (dst ++ bs) + length out)%nat
        by (rewrite !length_app; lia).
      rewrite (IH fuel (pre ++ h :: bs) (dst ++ bs) Hps Hrest)
        by (cbn [length] in Hfuel; rewrite ?length_app in Hfuel; lia).
      rewrite !length_app, <- app_assoc. cbn [length]. do 2 f_equal.
      rewrite ?length_app. cbn [length]. lia.
    + (* no-op *)
      rewrite byte_at_middle.
      take_branch false.
      take_branch true.
      replace (pre ++ 128 :: enc) with ((pre ++ [128]) ++ enc)
        by (rewrite <- app_assoc; reflexivity).
      replace (S (length pre)) with (length (pre ++ [128]))
        by (rewrite length_app; cbn; lia).
      rewrite (IH fuel (pre ++ [128]) dst Hps Hrest)
        by (cbn [length] in Hfuel; rewrite ?length_app in Hfuel; lia).
      rewrite !length_app. cbn [length]. do 2 f_equal.
      rewrite ?length_app. cbn [length]. lia.
    + (* run *)
      apply andb_true_iff in Hp. destruct Hp as [H1 H2].
      apply Nat.leb_le in H1. apply Nat.leb_le in H2.
      set (h := 257 - Z.of_nat n) in *.
      rewrite byte_at_middle.
      replace (Z.to_nat (257 - h)) with n by (subst h; lia).
      take_branch false.
      take_branch false.
      take_branch false.
      take_branch false.
      replace (pre ++ h :: v :: enc) with ((pre ++ [h]) ++ v :: enc)
        by (rewrite <- app_assoc; reflexivity).
      replace (S (length pre)) with (length (pre ++ [h]))
        by (rewrite length_app; cbn; lia).
      rewrite byte_at_middle.
      replace ((pre ++ [h]) ++ v :: enc) with ((pre ++ [h; v]) ++ enc)
        by (rewrite <- !app_assoc; reflexivity).
      replace (S (length (pre ++ [h]))) with (length (pre ++ [h; v]))
        by (rewrite !length_app; cbn; lia).
      replace (length dst + length (repeat v n ++ out))%nat
        with (length (dst ++ repeat v n) + length out)%nat
        by (rewrite !length_app; lia).
      rewrite (IH fuel (pre ++ [h; v]) (dst ++ repeat v n) Hps Hrest)
        by (cbn [length] in Hfuel; rewrite ?length_app in Hfuel; lia).
      rewrite !length_app, <- app_assoc. cbn [length]. do 2 f_equal.
      rewrite ?length_app. cbn [length]. lia.
Qed.

(** Both decoders follow the PackBits rules: a row written as legal
    packets, the last of which is not a no-op, decodes to the bytes the
    packets stand for, with all of its input consumed. *)
Lemma psd_packbits_decode_row_packets :
  forall ps,
    forallb legal_packet ps = true ->
    ps = [] \/ ends_with_data ps = true ->
    LayerDecode.psd_packbits_decode_row (encode_row ps)
                                        (length (expand_row ps)) =
    Some (mk_row_result PSD_OK (length (encode_row ps)) (expand_row ps)).
Proof.
  intros ps Hl He. unfold LayerDecode.psd_packbits_decode_row.
  apply (packbits_loop_packets ps _ [] [] Hl He). lia.
Qed.

Lemma psd_rle_decode_scanline_packets :
  forall ps,
    forallb legal_packet ps = true ->
    ps = [] \/ ends_with_data ps = true ->
    Rle.psd_rle_decode_scanline (encode_row ps) (length (expand_row ps)) =
    Some (mk_row_result PSD_OK (length (encode_row ps)) (expand_row ps)).
Proof.
  intros ps Hl He. unfold Rle.psd_rle_decode_scanline.
  apply (scanline_loop_packets ps _ [] [] Hl He). lia.
Qed.

(** The two example rows as packets: the header [0x81] is a run of 128,
    the header [0xFE] a run of 3. *)
Lemma packbits_example_rows_as_packets :
  packbits_example_row =
    encode_row [Literal [0xAA; 0xBB; 0xCC]; Run 128 0xDD; Literal [0xEE]] /\
  packbits_example_row_fe =
    encode_row [Literal [0xAA; 0xBB; 0xCC]; Run 3 0xDD; Literal [0xEE]].
Proof. split; reflexivity. Qed.

(** *** The header invariant *)

Lemma byte_at_slice :
  forall b p n i, (i < n)%nat -> byte_at (slice b p n) i = byte_at b (p + i).
Proof.
  intros b p n i Hi. unfold byte_at, slice.
  rewrite nth_firstn.
  destruct (i <? n)%nat eqn:E; [|apply Nat.ltb_ge in E; lia].
  apply nth_skipn.
Qed.

Lemma read_be_u16_slice :
  forall b p, read_be_u16 (slice b p 2) 0 = read_be_u16 b p.
Proof.
  intros. unfold read_be_u16.
  rewrite !byte_at_slice by lia.
  now rewrite Nat.add_0_r.
Qed.

Lemma read_be_u32_slice :
  forall b p, read_be_u32 (slice b p 4) 0 = read_be_u32 b p.
Proof.
  intros. unfold read_be_u32.
  rewrite !byte_at_slice by lia.
  now rewrite Nat.add_0_r.
Qed.

Lemma slice_length :
  forall b p n, length (slice b p n) = Nat.min n (length b - p).
Proof.
  intros. unfold slice. now rewrite length_firstn, length_skipn.
Qed.

(** A fixed-size read either fails with end-of-stream, or returns the bytes
    at the current position and advances past them. *)
Lemma read_exact_cases :
  forall s w, 0 < w ->
    (fst (fst (Stream.psd_stream_read_exact s w)) = PSD_ERR_STREAM_EOF /\
     (Z.of_nat (length (Stream.buffer s)) < Z.of_nat (Stream.position s) + w)) \/
    (Stream.psd_stream_read_exact s w =
       (PSD_OK, slice (Stream.buffer s) (Stream.position s) (Z.to_nat w),
        Stream.mk_stream (Stream.buffer s) (Stream.position s + Z.to_nat w)) /\
     Z.of_nat (Stream.position s) + w <= Z.of_nat (length (Stream.buffer s))).
Proof.
  intros [b p] w Hw. unfold Stream.psd_stream_read_exact, Stream.psd_stream_read.
  cbn [Stream.buffer Stream.position].
  destruct (w <=? 0) eqn:E0; [apply Z.leb_le in E0; lia|].
  rewrite slice_length.
  destruct (Z.of_nat (Nat.min (Z.to_nat (Z.min w (Z.of_nat (length b - p))))
                              (length b - p)) <? w) eqn:E.
  - left. apply Z.ltb_lt in E. split; [reflexivity | lia].
  - right. apply Z.ltb_ge in E.
    assert (Hmin : Z.min w (Z.of_nat (length b - p)) = w) by lia.
    rewrite Hmin. split; [reflexivity | lia].
Qed.

Lemma read_value_cases :
  forall w dec s, 0 < w ->
    (exists s', Stream.read_value w dec s = (inl PSD_ERR_STREAM_EOF, s')) \/
    (Stream.read_value w dec s =
       (inr (dec (slice (Stream.buffer s) (Stream.position s) (Z.to_nat w))),
        Stream.mk_stream (Stream.buffer s) (Stream.position s + Z.to_nat w)) /\
     Z.of_nat (Stream.position s) + w <= Z.of_nat (length (Stream.buffer s))).
Proof.
  intros w dec s Hw. unfold Stream.read_value.
  destruct (read_exact_cases s w Hw) as [[He _] | [He Hle]].
  - left. destruct (Stream.psd_stream_read_exact s w) as [[st bytes] s'].
    cbn in He. subst st. eauto.
  - right. rewrite He. auto.
Qed.

Ltac bool_to_prop :=
  repeat rewrite ?Z.gtb_ltb, ?Z.geb_leb in *;
  repeat rewrite ?andb_true_iff, ?orb_true_iff, ?andb_false_iff,
    ?orb_false_iff, ?negb_true_iff, ?negb_false_iff,
    ?Z.eqb_eq, ?Z.eqb_neq, ?Z.leb_le, ?Z.leb_gt, ?Z.ltb_lt, ?Z.ltb_ge,
    ?Nat.eqb_eq, ?Nat.eqb_neq, ?Nat.leb_le, ?Nat.leb_gt, ?Nat.ltb_lt,
    ?Nat.ltb_ge in *.

Ltac step_read H :=
  match type of H with
  | context [Stream.read_value ?w ?dec ?s] =>
    let s' := fresh "s'" in
    let E := fresh "E" in
    let Hlen := fresh "Hlen" in
    destruct (read_value_cases w dec s ltac:(lia)) as [[s' E] | [E Hlen]];
    rewrite E in H; cbn [fst snd Stream.buffer Stream.position] in H;
    [discriminate H |]
  | context [Stream.psd_stream_read_exact ?s ?w] =>
    let E := fresh "E" in
    let E' := fresh "E" in
    let Hlen := fresh "Hlen" in
    destruct (read_exact_cases s w ltac:(lia)) as [[E E'] | [E Hlen]];
    [ destruct (Stream.psd_stream_read_exact s w) as [[? ?] ?];
      cbn [fst] in E; subst; discriminate H
    | rewrite E in H; cbn [fst snd Stream.buffer Stream.position] in H ]
  end.

Ltac step_check H :=
  match type of H with
  | context [if ?c then _ else _] =>
    let C := fresh "C" in
    destruct c eqn:C; [discriminate H |]
  end.

(** When [psd_parse_header] succeeds, the header in the file is well formed,
    the six header fields of the document hold its values, and the stream
    stands just after the 26 header bytes. *)
Lemma psd_parse_header_ok :
  forall s d s' d',
    Context.psd_parse_header s d = (PSD_OK, (s', d')) ->
    let b := Stream.buffer s in
    let p := Stream.position s in
    header_valid b p = true /\
    s' = Stream.mk_stream b (p + 26) /\
    d' = Context.set_color_mode (hdr_color_mode b p)
           (Context.set_depth (hdr_depth b p)
              (Context.set_width (hdr_width b p)
                 (Context.set_height (hdr_height b p)
                    (Context.set_channels (hdr_channels b p)
                       (Context.set_is_psb (hdr_version b p =? 2) d))))).
Proof.
  intros [b p] d s' d' H. cbn [Stream.buffer Stream.position].
  unfold Context.psd_parse_header, run_status, Context.parse_header_steps,
    bind, Context.on_stream, Context.on_doc, Context.get_doc, modify, fail, ret,
    Stream.psd_stream_read_be32, Stream.psd_stream_read_be16 in H.
  cbn [fst snd] in H.
  step_read H. rewrite read_be_u32_slice in H. step_check H.
  step_read H. rewrite read_be_u16_slice in H. step_check H.
  step_read H.
  step_read H. rewrite read_be_u16_slice in H. step_check H.
  step_read H. rewrite read_be_u32_slice in H.
  step_read H. rewrite read_be_u32_slice in H.
  cbn [doc_is_psb Context.set_width Context.set_height Context.set_channels
       Context.set_is_psb] in H.
  step_check H.
  step_read H. rewrite read_be_u16_slice in H. step_check H.
  step_read H. rewrite read_be_u16_slice in H.
  cbn [fst snd Stream.buffer Stream.position] in *.
  change (Z.to_nat 2) with 2%nat in *. change (Z.to_nat 4) with 4%nat in *.
  change (Z.to_nat 6) with 6%nat in *.
  change (Pos.to_nat 2) with 2%nat in *. change (Pos.to_nat 4) with 4%nat in *.
  change (Pos.to_nat 6) with 6%nat in *.
  unfold Context.PSD_SIGNATURE, Context.PSD_VERSION_PSD, Context.PSD_VERSION_PSB,
    Context.PSD_MAX_CHANNELS, Context.PSD_MAX_DIMENSION_PSB,
    Context.PSD_MAX_DIMENSION_STANDARD in *.
  replace (p + 4 + 2 + 6)%nat with (p + 12)%nat in * by lia.
  replace (p + 12 + 2)%nat with (p + 14)%nat in * by lia.
  replace (p + 14 + 4)%nat with (p + 18)%nat in * by lia.
  replace (p + 18 + 4)%nat with (p + 22)%nat in * by lia.
  replace (p + 22 + 2)%nat with (p + 24)%nat in * by lia.
  replace (p + 24 + 2)%nat with (p + 26)%nat in * by lia.
  fold (hdr_signature b p) in *. fold (hdr_version b p) in *.
  fold (hdr_channels b p) in *. fold (hdr_height b p) in *.
  fold (hdr_width b p) in *. fold (hdr_depth b p) in *.
  fold (hdr_color_mode b p) in *.
  injection H as <- <-.
  split; [| split; reflexivity].
  clear - C C0 C1 C2 C3 Hlen6.
  unfold header_valid, format_max.
  destruct (hdr_version b p =? 2) eqn:Ev; bool_to_prop; lia.
Qed.

(** The header fields survive the later sections untouched. *)
Lemma header_invariant_of_valid :
  forall b p d,
    header_valid b p = true ->
    doc_is_psb d = (hdr_version b p =? 2) ->
    doc_channels d = hdr_channels b p ->
    doc_height d = hdr_height b p ->
    doc_width d = hdr_width b p ->
    doc_depth d = hdr_depth b p ->
    header_invariant d.
Proof.
  intros b p d Hv Hpsb Hc Hh Hw Hd.
  unfold header_invariant. rewrite Hpsb, Hc, Hh, Hw, Hd.
  unfold header_valid, format_max in Hv.
  destruct (hdr_version b p =? 2); bool_to_prop; lia.
Qed.

(** C3.  Whenever [psd_parse_ex] returns a document, the 26 header bytes at
    the start of the stream were a well-formed header (signature ["8BPS"],
    version 1 or 2, every field in range), the document carries exactly
    those fields, and so its channel count is in [1, 56], its depth is one
    of 1, 8, 16, 32, and its width and height are in [1, 30000] for version
    1 and in [1, 300000] for version 2; and a stream whose header is not
    well formed yields no document.  This holds whatever the parsers of the
    later sections do. *)
Theorem psd_parse_ex_header_invariant :
  forall allocator sz parse_color_mode_data parse_resources parse_layer_info
         parse_text_layers parse_composite_image stream,
    let b := Stream.buffer stream in
    let p := Stream.position stream in
    let r := Context.psd_parse_ex allocator sz parse_color_mode_data
               parse_resources parse_layer_info parse_text_layers
               parse_composite_image (Some stream) in
    (forall doc,
        fst r = Some doc ->
        header_valid b p = true /\
        doc_is_psb doc = (hdr_version b p =? 2) /\
        doc_channels doc = hdr_channels b p /\
        doc_height doc = hdr_height b p /\
        doc_width doc = hdr_width b p /\
        doc_depth doc = hdr_depth b p /\
        doc_color_mode doc = hdr_color_mode b p /\
        header_invariant doc) /\
    (header_valid b p = false -> fst r = None).
Proof.
  intros al sz pcm pres pli ptl pci stream b p r.
  assert (Hmain : forall doc,
             fst r = Some doc ->
             header_valid b p = true /\
             doc_is_psb doc = (hdr_version b p =? 2) /\
             doc_channels doc = hdr_channels b p /\
             doc_height doc = hdr_height b p /\
             doc_width doc = hdr_width b p /\
             doc_depth doc = hdr_depth b p /\
             doc_color_mode doc = hdr_color_mode b p).
  { intros doc Hr. subst r. unfold Context.psd_parse_ex in Hr.
    destruct (negb (malloc_ok al (sizeof_psd_document_t sz))); [discriminate|].
    destruct (Context.psd_parse_header stream Context.empty_document)
      as [st [s1 d1]] eqn:Hh.
    destruct st; try discriminate.
    apply psd_parse_header_ok in Hh. destruct Hh as (Hv & _ & Hd1).
    fold b p in Hv, Hd1.
    destruct (pcm s1 d1) as [[st cd] s2]; destruct st; try discriminate.
    destruct (pres s2 _) as [[st rs] s3]; destruct st; try discriminate.
    destruct (pli s3 _) as [[st li] s4]; destruct st; try discriminate.
    destruct (pci s4 _) as [[st comp] s5].
    match type of Hr with
    | context [if ?c then _ else _] => destruct c; [discriminate|]
    end.
    cbn [fst] in Hr. injection Hr as <-. subst d1.
    split; [exact Hv|]. cbn. repeat split; reflexivity. }
  split.
  - intros doc Hr. destruct (Hmain doc Hr) as (Hv & H1 & H2 & H3 & H4 & H5 & H6).
    repeat (split; [assumption|]).
    eapply header_invariant_of_valid; eauto.
  - intros Hbad. destruct (fst r) as [doc|] eqn:Hr; [|reflexivity].
    destruct (Hmain doc eq_refl) as (Hv & _). congruence.
Qed.

Lemma psd_parse_ex_header_invariant_witness :
  header_invariant
    (mk_document false 512 256 3 8 3 (mk_color_data None 0) []
                 (mk_layer_info [] 0 false) (mk_composite None 0 0) []) /\
  fst (Context.psd_parse_ex always_grant lp64_sizes no_color_data no_resources
         no_layer_info no_text_layers no_composite
         (Some (Stream.mk_stream depth12_header 0))) = None.
Proof.
  split.
  - apply (proj1 (psd_parse_ex_header_invariant
                    always_grant lp64_sizes no_color_data no_resources
                    no_layer_info no_text_layers no_composite
                    (Stream.mk_stream minimal_rgb_header 0))).
    reflexivity.
  - apply (proj2 (psd_parse_ex_header_invariant
                    always_grant lp64_sizes no_color_data no_resources
                    no_layer_info no_text_layers no_composite
                    (Stream.mk_stream depth12_header 0))).
    reflexivity.
Defined.

(** *** The derived layer type *)

(** C8 (failing input).  A layer with both is-group-end and is-group-start
    set is classified as a group start, not as a group end: the chain
    tests the group-start marker first, under a comment that speaks of the
    group-end markers.  The layer parser sets both flags for a layer whose
    extra data holds an opening and a closing section divider. *)
Theorem layer_type_both_markers_is_group_start :
  LayerInfo.detect_features both_markers_extra_data 44 no_features =
    Some (features layer_with_both_markers) /\
  is_group_end (features layer_with_both_markers) = true /\
  is_group_start (features layer_with_both_markers) = true /\
  Context.psd_document_get_layer_type doc_with_both_markers 0 =
    (PSD_OK, Some PSD_LAYER_TYPE_GROUP_START) /\
  Context.psd_document_get_layer_type doc_with_both_markers 0 <>
    (PSD_OK, Some PSD_LAYER_TYPE_GROUP_END).
Proof. repeat split; try reflexivity. discriminate. Qed.

(** Apart from that case the chain is the specified one: for every layer
    of a document the derived type is defined, and it is the type of the
    specified priority order (group-end, group-start, text, smart object,
    adjustment, fill, effects, 3D, video, then pixel or empty by the
    channel count) unless the layer carries both group markers, where it is
    GroupStart and the specified order gives GroupEnd. *)
Lemma psd_document_get_layer_type_specified_order :
  forall doc idx layer,
    0 <= idx < layer_count (doc_layers doc) ->
    nth_error (layers (doc_layers doc)) (Z.to_nat idx) = Some layer ->
    Context.psd_document_get_layer_type doc idx =
    (PSD_OK,
     Some (if is_group_start (features layer) && is_group_end (features layer)
           then PSD_LAYER_TYPE_GROUP_START
           else specified_layer_type layer)) /\
    (is_group_start (features layer) && is_group_end (features layer) = true ->
     specified_layer_type layer = PSD_LAYER_TYPE_GROUP_END).
Proof.
  intros doc idx layer Hidx Hnth. split.
  - unfold Context.psd_document_get_layer_type. rewrite Hnth.
    destruct ((idx <? 0) || (idx >=? layer_count (doc_layers doc))) eqn:E;
      [bool_to_prop; lia|].
    unfold Context.layer_type_of, specified_layer_type.
    destruct (is_group_start (features layer)),
      (is_group_end (features layer)); reflexivity.
  - intros Hboth. apply andb_true_iff in Hboth. destruct Hboth as [_ Hend].
    unfold specified_layer_type. now rewrite Hend.
Qed.

(** *** Big-endian reads as numbers *)

Lemma lor_shiftl_add :
  forall a b n, 0 <= n -> 0 <= b < 2 ^ n ->
    Z.lor (Z.shiftl a n) b = a * 2 ^ n + b.
Proof.
  intros a b n Hn Hb.
  rewrite Z.shiftl_mul_pow2 by assumption.
  assert (Hland : Z.land (a * 2 ^ n) b = 0).
  { apply Z.bits_inj'. intros i Hi.
    rewrite Z.land_spec, Z.bits_0.
    destruct (Z.lt_ge_cases i n) as [Hlt | Hge].
    - rewrite Z.mul_pow2_bits_low by assumption. reflexivity.
    - rewrite <- (Z.mod_small b (2 ^ n)) by assumption.
      rewrite Z.mod_pow2_bits_high by lia. apply andb_false_r. }
  rewrite <- Z.lxor_lor by assumption.
  symmetry. apply Z.add_nocarry_lxor. assumption.
Qed.

Lemma byte_at_is_byte :
  forall p i, Forall is_byte p -> is_byte (byte_at p i).
Proof.
  intros p i Hp. unfold byte_at.
  destruct (nth_in_or_default i p 0) as [Hin | ->].
  - rewrite Forall_forall in Hp. apply Hp. assumption.
  - unfold is_byte. lia.
Qed.

Lemma all_bytes_Forall :
  forall p, all_bytes p = true -> Forall is_byte p.
Proof.
  intros p H. unfold all_bytes in H. rewrite forallb_forall in H.
  apply Forall_forall. intros x Hx. specialize (H x Hx).
  unfold is_byte. bool_to_prop. lia.
Qed.

Lemma read_be_u16_value :
  forall p off, Forall is_byte p ->
    read_be_u16 p off = byte_at p off * 256 + byte_at p (off + 1).
Proof.
  intros p off Hp. unfold read_be_u16, u16.
  pose proof (byte_at_is_byte p off Hp) as H0.
  pose proof (byte_at_is_byte p (off + 1) Hp) as H1.
  unfold is_byte in *.
  rewrite Z.shiftl_mul_pow2 by lia.
  rewrite Z.mod_small by (change (2 ^ 8) with 256; lia).
  rewrite <- (Z.shiftl_mul_pow2 _ 8) by lia.
  rewrite lor_shiftl_add by (change (2 ^ 8) with 256; lia).
  reflexivity.
Qed.

Lemma read_be_u32_value :
  forall p off, Forall is_byte p ->
    read_be_u32 p off =
    byte_at p off * 16777216 + byte_at p (off + 1) * 65536 +
    byte_at p (off + 2) * 256 + byte_at p (off + 3).
Proof.
  intros p off Hp. unfold read_be_u32, u32.
  pose proof (byte_at_is_byte p off Hp) as H0.
  pose proof (byte_at_is_byte p (off + 1) Hp) as H1.
  pose proof (byte_at_is_byte p (off + 2) Hp) as H2.
  pose proof (byte_at_is_byte p (off + 3) Hp) as H3.
  unfold is_byte in *.
  set (b0 := byte_at p off) in *. set (b1 := byte_at p (off + 1)) in *.
  set (b2 := byte_at p (off + 2)) in *. set (b3 := byte_at p (off + 3)) in *.
  rewrite (Z.mod_small (Z.shiftl b0 24))
    by (rewrite Z.shiftl_mul_pow2 by lia; change (2 ^ 24) with 16777216; lia).
  replace (Z.shiftl b0 24) with (Z.shiftl (Z.shiftl (Z.shiftl b0 8) 8) 8)
    by (rewrite !Z.shiftl_shiftl by lia; reflexivity).
  replace (Z.shiftl b1 16) with (Z.shiftl (Z.shiftl b1 8) 8)
    by (rewrite !Z.shiftl_shiftl by lia; reflexivity).
  rewrite <- !Z.shiftl_lor.
  assert (E1 : Z.lor (Z.shiftl b0 8) b1 = b0 * 256 + b1)
    by (rewrite lor_shiftl_add by (change (2 ^ 8) with 256; lia); reflexivity).
  rewrite E1.
  assert (E2 : Z.lor (Z.shiftl (b0 * 256 + b1) 8) b2 = (b0 * 256 + b1) * 256 + b2)
    by (rewrite lor_shiftl_add by (change (2 ^ 8) with 256; lia); reflexivity).
  rewrite E2.
  rewrite lor_shiftl_add by (change (2 ^ 8) with 256; lia).
  change (2 ^ 8) with 256. lia.
Qed.

Lemma read_be_u16_range :
  forall p off, Forall is_byte p -> 0 <= read_be_u16 p off < 65536.
Proof.
  intros p off Hp. rewrite read_be_u16_value by assumption.
  pose proof (byte_at_is_byte p off Hp).
  pose proof (byte_at_is_byte p (off + 1) Hp).
  unfold is_byte in *. lia.
Qed.

Lemma read_be_u32_range :
  forall p off, Forall is_byte p -> 0 <= read_be_u32 p off < 4294967296.
Proof.
  intros p off Hp. rewrite read_be_u32_value by assumption.
  pose proof (byte_at_is_byte p off Hp).
  pose proof (byte_at_is_byte p (off + 1) Hp).
  pose proof (byte_at_is_byte p (off + 2) Hp).
  pose proof (byte_at_is_byte p (off + 3) Hp).
  unfold is_byte in *. lia.
Qed.

(** *** Row-count width of RLE layer channels *)

Lemma row_count_at_range :
  forall c rb y, Forall is_byte c -> 0 <= row_count_at c rb y < 4294967296.
Proof.
  intros c rb y Hc. unfold row_count_at.
  destruct (rb =? 2)%nat.
  - pose proof (read_be_u16_range c (y * rb) Hc). lia.
  - apply read_be_u32_range. assumption.
Qed.

Lemma sum_counts_from_nonneg :
  forall c rb rows y, Forall is_byte c -> 0 <= sum_counts_from c rb rows y.
Proof.
  intros c rb rows. induction rows as [|rows IH]; intros y Hc; cbn.
  - lia.
  - pose proof (row_count_at_range c rb y Hc). specialize (IH (S y) Hc). lia.
Qed.

(** The early exits of the summing loop do not change its verdict: it
    succeeds exactly when the whole sum stays within the limit. *)
Lemma sum_row_counts_spec :
  forall c rb rows y total limit,
    Forall is_byte c ->
    0 <= total <= limit -> limit < 2 ^ 63 ->
    LayerDecode.sum_row_counts rows y c rb total limit =
    if total + sum_counts_from c rb rows y <=? limit
    then Some (total + sum_counts_from c rb rows y)
    else None.
Proof.
  intros c rb rows. induction rows as [|rows IH]; intros y total limit Hc Ht Hl.
  - cbn. rewrite Z.add_0_r.
    destruct (total <=? limit) eqn:E; [reflexivity | bool_to_prop; lia].
  - cbn [LayerDecode.sum_row_counts sum_counts_from].
    fold (row_count_at c rb y).
    pose proof (row_count_at_range c rb y Hc) as Hv.
    pose proof (sum_counts_from_nonneg c rb rows (S y) Hc) as Hs.
    assert (Hu : u64 (total + row_count_at c rb y) = total + row_count_at c rb y).
    { unfold u64. apply Z.mod_small.
      change (2 ^ 63) with 9223372036854775808 in Hl. lia. }
    rewrite Hu.
    destruct (total + row_count_at c rb y >? limit) eqn:E.
    + destruct (total + (row_count_at c rb y + sum_counts_from c rb rows (S y))
                <=? limit) eqn:E'; [bool_to_prop; lia | reflexivity].
    + rewrite IH by (try assumption; bool_to_prop; lia).
      rewrite Z.add_assoc. reflexivity.
Qed.

(** [parse_rle_row_counts] accepts a table width exactly when its candidate
    total fits in the payload, and then returns the size of the table and
    the sum of its entries. *)
Lemma parse_rle_row_counts_spec :
  forall c len height rb,
    Forall is_byte c -> 0 <= height -> 0 <= len < 2 ^ 63 ->
    LayerDecode.parse_rle_row_counts c len height rb =
    if rle_total c rb height <=? len
    then inr (height * Z.of_nat rb, sum_counts c rb height)
    else inl PSD_ERR_CORRUPT_DATA.
Proof.
  intros c len height rb Hc Hh Hlen.
  unfold LayerDecode.parse_rle_row_counts, rle_total, sum_counts.
  pose proof (sum_counts_from_nonneg c rb (Z.to_nat height) 0 Hc) as Hs.
  destruct (len <? height * Z.of_nat rb) eqn:E.
  - destruct (_ <=? len) eqn:E'; [bool_to_prop; lia | reflexivity].
  - rewrite sum_row_counts_spec by (try assumption; bool_to_prop; lia).
    rewrite Z.add_0_l.
    destruct (sum_counts_from c rb (Z.to_nat height) 0
              <=? len - height * Z.of_nat rb) eqn:E1.
    + assert (Hu : u64 (height * Z.of_nat rb
                        + sum_counts_from c rb (Z.to_nat height) 0)
                   = height * Z.of_nat rb
                     + sum_counts_from c rb (Z.to_nat height) 0).
      { unfold u64. apply Z.mod_small.
        change (2 ^ 63) with 9223372036854775808 in Hlen.
        bool_to_prop. lia. }
      rewrite Hu.
      destruct (len <? height * Z.of_nat rb
                       + sum_counts_from c rb (Z.to_nat height) 0) eqn:E2;
        [bool_to_prop; lia|].
      destruct (_ <=? len) eqn:E3; [reflexivity | bool_to_prop; lia].
    + destruct (_ <=? len) eqn:E3; [bool_to_prop; lia | reflexivity].
Qed.

(** C2 (counterexample).  For that channel neither candidate total equals
    the payload length 5 (read as 16-bit the total is 2 + 2 = 4, read as
    32-bit it is 4 + 131242), yet decoding does not fail: the 2-byte width
    is used and the row decodes to [AA]. *)
Theorem rle_width_neither_total_matches :
  rle_total (LayerDecode.compressed_bytes rle_channel_with_padding) 2 1 = 4 /\
  rle_total (LayerDecode.compressed_bytes rle_channel_with_padding) 4 1 = 131246 /\
  compressed_length rle_channel_with_padding = 5 /\
  LayerDecode.psd_layer_channel_decode always_grant None
    rle_channel_with_padding 1 1 8 =
  Some (PSD_OK,
        mk_channel 0 1 5 (Some [0x00; 0x02; 0x00; 0xAA; 0xFF])
                   (Some [0xAA]) 1 true) /\
  LayerDecode.psd_layer_channel_decode always_grant None
    rle_channel_with_padding 1 1 8 <>
  Some (PSD_ERR_CORRUPT_DATA, rle_channel_with_padding).
Proof.
  repeat split; try reflexivity.
  vm_compute. discriminate.
Qed.

(** C2 (amended).  For an RLE layer channel of [height] rows and a payload
    of [len] bytes, let [total2 = 2 * height + sum of the row counts read as
    16-bit] and [total4 = 4 * height + sum of the row counts read as
    32-bit].  Decoding uses the 2-byte width when [total2] equals the
    payload length (also when [total4] equals it too) and the 4-byte width
    when only [total4] equals it.  When neither total equals the payload
    length it does not fail at once: it falls back to the 2-byte width if
    [total2] is smaller than the payload, otherwise to the 4-byte width if
    [total4] is smaller than the payload, and it fails with corrupt-data
    only when both totals exceed the payload. *)
Theorem rle_row_count_width_selection :
  forall allocator zlib channel width height depth,
    compression channel = 1 ->
    is_decoded channel = false ->
    all_bytes (LayerDecode.compressed_bytes channel) = true ->
    0 <= height ->
    0 <= compressed_length channel < 2 ^ 63 ->
    let c := LayerDecode.compressed_bytes channel in
    let len := compressed_length channel in
    let total2 := rle_total c 2 height in
    let total4 := rle_total c 4 height in
    let pick2 := inr (2%nat, height * 2, sum_counts c 2 height) in
    let pick4 := inr (4%nat, height * 4, sum_counts c 4 height) in
    let chosen := LayerDecode.select_row_count_width c len height in
    (total2 = len -> chosen = pick2) /\
    (total4 = len -> total2 <> len -> chosen = pick4) /\
    (total2 < len -> total4 <> len -> chosen = pick2) /\
    (total2 > len -> total4 < len -> chosen = pick4) /\
    (total2 > len -> total4 > len ->
     chosen = inl PSD_ERR_CORRUPT_DATA /\
     LayerDecode.psd_layer_channel_decode allocator zlib channel
                                          width height depth =
     Some (PSD_ERR_CORRUPT_DATA, channel)).
Proof.
  intros al zlib ch w h depth Hcomp Hdec Hbytes Hh Hlen c len total2 total4
         pick2 pick4 chosen.
  apply all_bytes_Forall in Hbytes.
  assert (Hsel : chosen =
                 if total2 <=? len then
                   if total4 <=? len then
                     if (total4 =? len) && negb (total2 =? len) then pick4
                     else pick2
                   else pick2
                 else if total4 <=? len then pick4
                      else inl PSD_ERR_CORRUPT_DATA).
  { subst chosen. unfold LayerDecode.select_row_count_width.
    rewrite !parse_rle_row_counts_spec by assumption.
    fold c len total2 total4.
    change (Z.of_nat 2) with 2. change (Z.of_nat 4) with 4.
    destruct (total2 <=? len) eqn:E2; destruct (total4 <=? len) eqn:E4;
      try reflexivity.
    assert (H2 : u64 (h * 2 + sum_counts c 2 h) = total2).
    { unfold u64, total2, rle_total. change (Z.of_nat 2) with 2.
      pose proof (sum_counts_from_nonneg c 2 (Z.to_nat h) 0 Hbytes).
      fold (sum_counts c 2 h) in *.
      rewrite Z.mod_small; [lia|].
      change (2 ^ 63) with 9223372036854775808 in Hlen.
      subst total2. unfold rle_total in E2. bool_to_prop.
      change (Z.of_nat 2) with 2 in E2. lia. }
    assert (H4 : u64 (h * 4 + sum_counts c 4 h) = total4).
    { unfold u64, total4, rle_total. change (Z.of_nat 4) with 4.
      pose proof (sum_counts_from_nonneg c 4 (Z.to_nat h) 0 Hbytes).
      fold (sum_counts c 4 h) in *.
      rewrite Z.mod_small; [lia|].
      change (2 ^ 63) with 9223372036854775808 in Hlen.
      subst total4. unfold rle_total in E4. bool_to_prop.
      change (Z.of_nat 4) with 4 in E4. lia. }
    rewrite H2, H4.
    destruct ((total4 =? len) && negb (total2 =? len)); [reflexivity|].
    destruct ((total2 =? len) && negb (total4 =? len)); reflexivity. }
  repeat split; intros.
  - rewrite Hsel.
    destruct (total2 <=? len) eqn:E2; [|bool_to_prop; lia].
    destruct (total4 <=? len); [|reflexivity].
    destruct ((total4 =? len) && negb (total2 =? len)) eqn:E;
      [bool_to_prop; lia | reflexivity].
  - rewrite Hsel.
    destruct (total2 <=? len) eqn:E2; destruct (total4 <=? len) eqn:E4;
      try reflexivity; try (bool_to_prop; lia).
    destruct ((total4 =? len) && negb (total2 =? len)) eqn:E;
      [reflexivity | bool_to_prop; lia].
  - rewrite Hsel.
    destruct (total2 <=? len) eqn:E2; [|bool_to_prop; lia].
    destruct (total4 <=? len); [|reflexivity].
    destruct ((total4 =? len) && negb (total2 =? len)) eqn:E;
      [bool_to_prop; lia | reflexivity].
  - rewrite Hsel.
    destruct (total2 <=? len) eqn:E2; [bool_to_prop; lia|].
    destruct (total4 <=? len) eqn:E4; [reflexivity | bool_to_prop; lia].
  - rewrite Hsel.
    destruct (total2 <=? len) eqn:E2; [bool_to_prop; lia|].
    destruct (total4 <=? len) eqn:E4; [bool_to_prop; lia | reflexivity].
  - unfold LayerDecode.psd_layer_channel_decode.
    rewrite Hdec, Hcomp. cbn [andb].
    change (1 =? 0) with false. change (1 =? 1) with true. cbn iota.
    fold c len chosen. rewrite Hsel.
    destruct (total2 <=? len) eqn:E2; [bool_to_prop; lia|].
    destruct (total4 <=? len) eqn:E4; [bool_to_prop; lia|].
    destruct (negb (depth =? 1) &&
              ((if depth >=? 8 then depth ÷ 8 else 1) =? 0)) eqn:E.
    + exfalso. destruct (depth >=? 8) eqn:E8.
      * assert (1 <= depth ÷ 8).
        { apply Z.quot_le_lower_bound; bool_to_prop; lia. }
        bool_to_prop. lia.
      * bool_to_prop. lia.
    + reflexivity.
Qed.

Lemma rle_row_count_width_selection_witness :
  LayerDecode.select_row_count_width
    (LayerDecode.compressed_bytes rle_channel_with_padding) 5 1 =
  inr (2%nat, 2, 2).
Proof.
  apply (proj1 (proj2 (proj2
           (rle_row_count_width_selection
              always_grant None rle_channel_with_padding 1 1 8
              eq_refl eq_refl eq_refl ltac:(lia) ltac:(cbn; lia))))).
  - vm_compute. reflexivity.
  - vm_compute. discriminate.
Defined.

(** *** The text-layer table *)

(** C9 (failing input).  A layer with has-text set whose [TySh] block
    carries the signature ["8B64"] (0x38423634) gets no text-layer record:
    the scan compares the signature with 0x3842364D and skips the block.
    The same block under ["8BIM"] yields one record that retains the raw
    payload.  The layer parser accepts both signatures and sets has-text
    for either block. *)
Theorem text_layer_8B64_block_is_skipped :
  LayerInfo.detect_features (text_extra_data sig_8B64) 28 no_features =
    Some (features (text_layer_record sig_8B64)) /\
  LayerInfo.detect_features (text_extra_data sig_8BIM) 28 no_features =
    Some (features (text_layer_record sig_8BIM)) /\
  has_text (features (text_layer_record sig_8B64)) = true /\
  read_be_u32 sig_8B64 0 = 0x38423634 /\
  TextLayer.psd_parse_text_layers always_grant lp64_sizes
    (text_document sig_8B64) = Some (PSD_OK, []) /\
  TextLayer.psd_parse_text_layers always_grant lp64_sizes
    (text_document sig_8BIM) =
  Some (PSD_OK,
        [mk_text_layer 0 PSD_TEXT_SOURCE_TYSH 0x0102 0 0 (repeat 0 6)
                       (repeat 0 4) (Some [1; 2; 3; 4]) 4 false]).
Proof. repeat split; vm_compute; reflexivity. Qed.

(** *** Rendering *)

(** C10.  For a layer whose stored bounds have [right <= left] or
    [bottom <= top], the layer renderer takes the layer as zero-sized: the
    size query (null buffer) reports a required size of 0, and with any
    non-null buffer it returns success, stores nothing in the buffer and
    leaves the document as it was; no error is raised on account of the
    bounds. *)
Theorem render_layer_zero_sized :
  forall allocator zlib lab size_max doc idx layer,
    0 <= size_max ->
    0 <= idx < layer_count (doc_layers doc) ->
    nth_error (layers (doc_layers doc)) (Z.to_nat idx) = Some layer ->
    bounds_right (bounds layer) <= bounds_left (bounds layer) \/
    bounds_bottom (bounds layer) <= bounds_top (bounds layer) ->
    (forall size,
        Render.psd_document_render_layer_rgba8
          allocator zlib lab size_max doc idx None size =
        Some (Render.mk_render_result PSD_ERR_BUFFER_TOO_SMALL (Some 0) [],
              doc)) /\
    (forall buffer size,
        0 <= size ->
        Render.psd_document_render_layer_rgba8
          allocator zlib lab size_max doc idx (Some buffer) size =
        Some (Render.mk_render_result PSD_OK (Some 0) [], doc)).
Proof.
  intros al zlib lab size_max doc idx layer Hmax Hidx Hnth Hb.
  assert (Hbounds : Context.psd_document_get_layer_bounds doc idx =
                    (PSD_OK, Some (bounds layer))).
  { unfold Context.psd_document_get_layer_bounds. rewrite Hnth.
    destruct ((idx <? 0) || (idx >=? layer_count (doc_layers doc))) eqn:E;
      [bool_to_prop; lia | reflexivity]. }
  assert (Hreq :
            u64 (u64 ((if bounds_right (bounds layer) >? bounds_left (bounds layer)
                       then u32 (bounds_right (bounds layer)
                                 - bounds_left (bounds layer)) else 0)
                      * (if bounds_bottom (bounds layer) >? bounds_top (bounds layer)
                         then u32 (bounds_bottom (bounds layer)
                                   - bounds_top (bounds layer)) else 0)) * 4)
            = 0).
  { destruct Hb as [Hb | Hb].
    - destruct (bounds_right (bounds layer) >? bounds_left (bounds layer)) eqn:E;
        [bool_to_prop; lia|]. reflexivity.
    - destruct (bounds_bottom (bounds layer) >? bounds_top (bounds layer)) eqn:E;
        [bool_to_prop; lia|]. rewrite Z.mul_0_r. reflexivity. }
  assert (Hzero :
            ((if bounds_right (bounds layer) >? bounds_left (bounds layer)
              then u32 (bounds_right (bounds layer)
                        - bounds_left (bounds layer)) else 0) =? 0)
            || ((if bounds_bottom (bounds layer) >? bounds_top (bounds layer)
                 then u32 (bounds_bottom (bounds layer)
                           - bounds_top (bounds layer)) else 0) =? 0) = true).
  { destruct Hb as [Hb | Hb].
    - destruct (bounds_right (bounds layer) >? bounds_left (bounds layer)) eqn:E;
        [bool_to_prop; lia|]. reflexivity.
    - destruct (bounds_bottom (bounds layer) >? bounds_top (bounds layer)) eqn:E;
        [bool_to_prop; lia|]. apply orb_true_r. }
  assert (Hsm : (0 >? size_max) = false) by (bool_to_prop; lia).
  split.
  - intros size. unfold Render.psd_document_render_layer_rgba8.
    rewrite Hbounds, Hreq, Hsm. reflexivity.
  - intros buffer size Hsize. unfold Render.psd_document_render_layer_rgba8.
    rewrite Hbounds, Hreq, Hsm, Hzero.
    assert (Hs : (size <? 0) = false) by (bool_to_prop; lia).
    rewrite Hs. reflexivity.
Qed.

Lemma render_layer_zero_sized_witness :
  Render.psd_document_render_layer_rgba8
    always_grant None no_lab SIZE_MAX_64 doc_with_inverted_layer 0 None 0 =
  Some (Render.mk_render_result PSD_ERR_BUFFER_TOO_SMALL (Some 0) [],
        doc_with_inverted_layer) /\
  Render.psd_document_render_layer_rgba8
    always_grant None no_lab SIZE_MAX_64 doc_with_inverted_layer 0
    (Some [9; 9; 9; 9]) 4 =
  Some (Render.mk_render_result PSD_OK (Some 0) [], doc_with_inverted_layer).
Proof.
  destruct (render_layer_zero_sized
              always_grant None no_lab SIZE_MAX_64 doc_with_inverted_layer 0
              inverted_layer ltac:(unfold SIZE_MAX_64; lia) ltac:(cbn; lia)
              eq_refl ltac:(left; cbn; lia)) as [Hquery Hfill].
  split.
  - apply Hquery.
  - apply Hfill. lia.
Defined.


Lemma zrange_succ :
  forall start n, zrange start (S n) = start :: zrange (start + 1) n.
Proof.
  intros. unfold zrange. cbn [seq map]. f_equal; [lia|].
  rewrite <- seq_shift, map_map. apply map_ext. intros. lia.
Qed.

Lemma zrange_app :
  forall n m start,
    zrange start (n + m) = zrange start n ++ zrange (start + Z.of_nat n) m.
Proof.
  induction n as [|n IH]; intros m start.
  - cbn [Nat.add]. change (zrange start 0) with (@nil Z). cbn [app].
    f_equal. cbn. lia.
  - change (S n + m)%nat with (S (n + m)).
    rewrite !zrange_succ, IH. cbn [app]. do 3 f_equal. lia.
Qed.

Lemma render_pixel_rgb :
  forall lab depth w pr pg pb cm cmlen x y,
    depth = 8 \/ depth = 16 ->
    0 <= x -> 0 <= y -> 0 <= w ->
    (y * w + x) * 4 < 2 ^ 64 ->
    Render.render_pixel lab PSD_COLOR_RGB depth w
      [Some pr; Some pg; Some pb; None; None] 3 cm cmlen x y =
    inr (rgb_pixel depth pr pg pb (y * w + x)).
Proof.
  intros lab depth w pr pg pb cm cmlen x y Hd Hx Hy Hw Hb.
  change (2 ^ 64) with 18446744073709551616 in Hb.
  assert (Hyw : 0 <= y * w) by (apply Z.mul_nonneg_nonneg; lia).
  unfold Render.render_pixel, rgb_pixel, msb.
  assert (H1 : u64 (y * w) = y * w) by (unfold u64; apply Z.mod_small; lia).
  rewrite H1.
  assert (H2 : u64 (y * w + x) = y * w + x)
    by (unfold u64; apply Z.mod_small; lia).
  rewrite H2.
  destruct Hd as [-> | ->]; cbn -[Z.mul Z.add Z.to_nat u64 byte_at];
    unfold Render.sample_to_u8; cbn -[Z.mul Z.add Z.to_nat u64 byte_at].
  - assert (H3 : u64 ((y * w + x) * 1) = (y * w + x) * 1)
      by (unfold u64; apply Z.mod_small; lia).
    rewrite H3. reflexivity.
  - assert (H3 : u64 ((y * w + x) * 2) = (y * w + x) * 2)
      by (unfold u64; apply Z.mod_small; lia).
    rewrite H3. reflexivity.
Qed.

Lemma render_row_rgb :
  forall lab depth w pr pg pb cm cmlen y n x out,
    depth = 8 \/ depth = 16 ->
    0 <= x -> 0 <= y -> 0 <= w ->
    (y * w + x + Z.of_nat n) * 4 < 2 ^ 64 ->
    Render.render_row lab PSD_COLOR_RGB depth w
      [Some pr; Some pg; Some pb; None; None] 3 cm cmlen n x y out =
    (PSD_OK,
     out ++ flat_map (rgb_pixel depth pr pg pb) (zrange (y * w + x) n)).
Proof.
  intros lab depth w pr pg pb cm cmlen y n.
  induction n as [|n IH]; intros x out Hd Hx Hy Hw Hb.
  - cbn. now rewrite app_nil_r.
  - cbn [Render.render_row].
    rewrite render_pixel_rgb by (try assumption; lia).
    rewrite IH by (try assumption; lia).
    rewrite zrange_succ. cbn [flat_map].
    rewrite <- app_assoc.
    replace (y * w + (x + 1)) with (y * w + x + 1) by lia.
    reflexivity.
Qed.

Lemma render_rows_rgb :
  forall lab depth w pr pg pb cm cmlen n y out,
    depth = 8 \/ depth = 16 ->
    0 <= y -> 0 <= w ->
    (y + Z.of_nat n) * w * 4 < 2 ^ 64 ->
    Render.render_rows lab PSD_COLOR_RGB depth w
      [Some pr; Some pg; Some pb; None; None] 3 cm cmlen n y out =
    (PSD_OK,
     out ++ flat_map (rgb_pixel depth pr pg pb)
                     (zrange (y * w) (n * Z.to_nat w))).
Proof.
  intros lab depth w pr pg pb cm cmlen n.
  induction n as [|n IH]; intros y out Hd Hy Hw Hb.
  - cbn. now rewrite app_nil_r.
  - cbn [Render.render_rows].
    rewrite render_row_rgb by (try assumption; try lia; nia).
    rewrite IH by (try assumption; try lia; nia).
    cbn [Nat.mul]. rewrite zrange_app, flat_map_app, <- app_assoc.
    rewrite Z.add_0_r.
    replace ((y + 1) * w) with (y * w + Z.of_nat (Z.to_nat w)) by lia.
    reflexivity.
Qed.








(** *** Channel lengths and the compression field *)

Lemma read_channel_ok :
  forall allocator exclude s ch s' ch',
    0 <= compressed_length ch < 2 ^ 64 ->
    LayerInfo.read_channel allocator exclude s ch = (PSD_OK, s', ch') ->
    channel_read exclude (Stream.buffer s) (Stream.position s) ch ch' /\
    s' = Stream.mk_stream (Stream.buffer s)
                          (payload_end exclude (Stream.position s) ch).
Proof.
  intros al exclude [b p] ch s' ch' Hrange H.
  change (2 ^ 64) with 18446744073709551616 in Hrange.
  unfold LayerInfo.read_channel, Stream.psd_stream_read_be16 in H.
  destruct (read_value_cases 2 (fun b0 => read_be_u16 b0 0)
                             (Stream.mk_stream b p) ltac:(lia))
    as [[s1 E] | [E Hlen]]; rewrite E in H; [discriminate|].
  cbn [Stream.buffer Stream.position] in *.
  change (Z.to_nat 2) with 2%nat in *.
  rewrite read_be_u16_slice in H.
  destruct (read_be_u16 b p >? 3) eqn:Ec; [discriminate|].
  unfold LayerInfo.set_compression, LayerInfo.set_compressed_length,
    LayerInfo.set_compressed_data in H.
  cbn [compressed_length channel_id compression compressed_data decoded_data
       decoded_length is_decoded] in H.
  destruct (negb exclude && (compressed_length ch <? 2)) eqn:E2;
    [discriminate|].
  set (len := if exclude then compressed_length ch
              else compressed_length ch - 2) in *.
  assert (Hlen0 : 0 <= len < 18446744073709551616).
  { subst len. destruct exclude; cbn in E2; bool_to_prop; lia. }
  destruct (negb (malloc_ok al len)); [discriminate|].
  unfold Stream.psd_stream_read in H.
  cbn [Stream.buffer Stream.position] in H.
  match type of H with
  | context [negb (?a =? ?c)] => destruct (a =? c) eqn:Er
  end; cbn [negb] in H; [|destruct exclude; discriminate].
  rewrite slice_length in Er. apply Z.eqb_eq in Er.
  unfold LayerInfo.int64_cast in Er.
  destruct (len <? 9223372036854775808) eqn:E63; [|bool_to_prop; lia].
  assert (Hmin : Z.min len (Z.of_nat (length b - (p + 2))) = len) by lia.
  rewrite Hmin in *.
  assert (Hfit : (p + 2 + Z.to_nat len <= length b)%nat) by lia.
  unfold channel_read, payload_end. fold len.
  destruct exclude; cbn [compressed_length channel_id compression
                          compressed_data decoded_data decoded_length
                          is_decoded] in H;
    injection H as <- <-;
    (split; [split; [lia | split; [bool_to_prop; lia | split; [exact Hfit|]]]
            | reflexivity]);
    destruct ch; reflexivity.
Qed.

Lemma forallb_channels_in_range :
  forall chs,
    forallb (fun ch => (0 <=? compressed_length ch) &&
                       (compressed_length ch <? 2 ^ 64)) chs = true ->
    forall ch, In ch chs -> 0 <= compressed_length ch < 2 ^ 64.
Proof.
  intros chs H ch Hin. rewrite forallb_forall in H.
  specialize (H ch Hin). bool_to_prop. lia.
Qed.

Lemma read_channels_ok :
  forall allocator exclude chs s s' chs',
    (forall ch, In ch chs -> 0 <= compressed_length ch < 2 ^ 64) ->
    LayerInfo.read_channels allocator exclude s chs = (PSD_OK, s', chs') ->
    exists pos_end,
      s' = Stream.mk_stream (Stream.buffer s) pos_end /\
      channels_read exclude (Stream.buffer s) (Stream.position s)
                    chs chs' pos_end.
Proof.
  intros al exclude chs. induction chs as [|ch rest IH];
    intros s s' chs' Hrange H.
  - cbn in H. injection H as <- <-. exists (Stream.position s).
    split; [destruct s; reflexivity | reflexivity].
  - cbn [LayerInfo.read_channels] in H.
    destruct (LayerInfo.read_channel al exclude s ch) as [[st s1] ch1] eqn:E1.
    destruct st; try discriminate.
    apply read_channel_ok in E1; [|apply Hrange; left; reflexivity].
    destruct E1 as [Hch ->].
    destruct (LayerInfo.read_channels al exclude _ rest)
      as [[st s2] rest'] eqn:E2.
    injection H as -> <- <-.
    apply IH in E2; [|intros; apply Hrange; right; assumption].
    destruct E2 as (pos_end & -> & Hrest).
    exists pos_end. split; [reflexivity|].
    cbn [channels_read Stream.buffer Stream.position] in *. auto.
Qed.

Lemma read_layers_ok :
  forall allocator exclude ls s s' ls',
    (forall ch, In ch (all_channels ls) -> 0 <= compressed_length ch < 2 ^ 64) ->
    LayerInfo.read_layers allocator exclude s ls = (PSD_OK, s', ls') ->
    exists pos_end,
      s' = Stream.mk_stream (Stream.buffer s) pos_end /\
      layers_read exclude (Stream.buffer s) (Stream.position s)
                  ls ls' pos_end.
Proof.
  intros al exclude ls. induction ls as [|layer rest IH];
    intros s s' ls' Hrange H.
  - cbn in H. injection H as <- <-. exists (Stream.position s).
    split; [destruct s; reflexivity | reflexivity].
  - cbn [LayerInfo.read_layers] in H.
    destruct (LayerInfo.read_channels al exclude s (channels layer))
      as [[st s1] chs1] eqn:E1.
    destruct st; try discriminate.
    apply read_channels_ok in E1;
      [|intros; apply Hrange; unfold all_channels; cbn [flat_map];
        apply in_or_app; left; assumption].
    destruct E1 as (mid & -> & Hchs).
    destruct (LayerInfo.read_layers al exclude _ rest)
      as [[st s2] rest'] eqn:E2.
    injection H as -> <- <-.
    apply IH in E2;
      [|intros; apply Hrange; unfold all_channels; cbn [flat_map];
        apply in_or_app; right; assumption].
    destruct E2 as (pos_end & -> & Hrest).
    exists pos_end. split; [reflexivity|].
    cbn [layers_read Stream.buffer Stream.position] in *.
    exists mid. repeat split; assumption.
Qed.

(** The 64-bit sums of the accounting loop are the plain sums as long as
    these fit in 64 bits. *)
Lemma fold_u64_lengths :
  forall chs acc,
    (forall ch, In ch chs -> 0 <= compressed_length ch) ->
    0 <= acc ->
    acc + zsum (map compressed_length chs) < 2 ^ 64 ->
    fold_left (fun a ch => u64 (a + compressed_length ch)) chs acc =
    acc + zsum (map compressed_length chs).
Proof.
  induction chs as [|ch rest IH]; intros acc Hnn Hacc Hb.
  - cbn. lia.
  - cbn [fold_left map zsum fold_right] in *.
    assert (Hch : 0 <= compressed_length ch) by (apply Hnn; left; reflexivity).
    assert (Hrest : 0 <= zsum (map compressed_length rest)).
    { clear - Hnn. induction rest as [|c r IHr]; cbn; [lia|].
      assert (0 <= compressed_length c) by (apply Hnn; right; left; reflexivity).
      assert (0 <= zsum (map compressed_length r)).
      { apply IHr. intros x [Hx | Hx]; apply Hnn;
          [left; assumption | right; right; assumption]. }
      unfold zsum in *. lia. }
    fold (zsum (map compressed_length rest)) in *.
    assert (Hu : u64 (acc + compressed_length ch) = acc + compressed_length ch).
    { unfold u64. apply Z.mod_small.
      change (2 ^ 64) with 18446744073709551616 in Hb. lia. }
    rewrite Hu, IH; [lia | | lia | lia].
    intros; apply Hnn; right; assumption.
Qed.

Lemma sum_channel_lengths_flat :
  forall ls acc,
    fold_left
      (fun acc layer =>
         fold_left (fun a ch => u64 (a + compressed_length ch))
                   (channels layer) acc) ls acc =
    fold_left (fun a ch => u64 (a + compressed_length ch))
              (all_channels ls) acc.
Proof.
  induction ls as [|layer rest IH]; intros acc; [reflexivity|].
  cbn [fold_left all_channels flat_map]. rewrite fold_left_app. apply IH.
Qed.

Lemma total_channels_plain :
  forall ls acc,
    0 <= acc ->
    acc + stored_channel_count ls < 2 ^ 64 ->
    fold_left (fun a layer => u64 (a + channel_count layer)) ls acc =
    acc + stored_channel_count ls.
Proof.
  unfold stored_channel_count, all_channels.
  induction ls as [|layer rest IH]; intros acc Hacc Hb.
  - cbn. lia.
  - cbn [fold_left flat_map] in *. rewrite length_app in *.
    assert (Hu : u64 (acc + channel_count layer)
                 = acc + Z.of_nat (length (channels layer))).
    { unfold u64, channel_count. apply Z.mod_small.
      change (2 ^ 64) with 18446744073709551616 in Hb. lia. }
    rewrite Hu, IH; lia.
Qed.

Lemma lengths_exclude_compression_plain :
  forall ls remaining,
    lengths_in_range ls = true ->
    stored_length_sum ls + 2 * stored_channel_count ls < 2 ^ 64 ->
    LayerInfo.lengths_exclude_compression ls remaining =
    (stored_length_sum ls + 2 * stored_channel_count ls =? remaining).
Proof.
  intros ls remaining Hrange Hb.
  unfold LayerInfo.lengths_exclude_compression, LayerInfo.sum_channel_lengths,
    LayerInfo.total_channels.
  pose proof (forallb_channels_in_range _ Hrange) as Hr.
  assert (Hcount : 0 <= stored_channel_count ls)
    by (unfold stored_channel_count; lia).
  assert (Hsum : 0 <= stored_length_sum ls).
  { unfold stored_length_sum. clear - Hr.
    induction (all_channels ls) as [|c r IHr]; cbn; [lia|].
    assert (0 <= compressed_length c) by (apply Hr; left; reflexivity).
    assert (0 <= zsum (map compressed_length r))
      by (apply IHr; intros; apply Hr; right; assumption).
    unfold zsum in *. lia. }
  rewrite sum_channel_lengths_flat.
  rewrite fold_u64_lengths;
    [| intros ch Hin; apply Hr in Hin; lia | lia
     | fold (stored_length_sum ls); lia].
  rewrite total_channels_plain by lia.
  fold (stored_length_sum ls).
  change (2 ^ 64) with 18446744073709551616 in Hb.
  unfold u64. rewrite !Z.add_0_l.
  rewrite (Z.mod_small (2 * stored_channel_count ls)) by lia.
  rewrite Z.mod_small by lia. reflexivity.
Qed.

Lemma channel_read_payload :
  forall exclude buf pos old new,
    channel_read exclude buf pos old new ->
    length_denotes_payload exclude old new.
Proof.
  intros exclude buf pos old new (Hlen & _ & Hfit & ->).
  unfold length_denotes_payload. cbn. split; [reflexivity|].
  eexists. split; [reflexivity|].
  rewrite slice_length. lia.
Qed.

Lemma channels_read_payload :
  forall exclude buf olds news pos pos_end,
    channels_read exclude buf pos olds news pos_end ->
    Forall2 (length_denotes_payload exclude) olds news.
Proof.
  intros exclude buf olds. induction olds as [|old olds IH];
    intros [|new news] pos pos_end H; cbn in H; try contradiction.
  - constructor.
  - destruct H as [Hch Hrest]. constructor.
    + eapply channel_read_payload; eassumption.
    + eapply IH; eassumption.
Qed.

Lemma layers_read_payload :
  forall exclude buf olds news pos pos_end,
    layers_read exclude buf pos olds news pos_end ->
    Forall2 (length_denotes_payload exclude)
            (all_channels olds) (all_channels news).
Proof.
  intros exclude buf olds. induction olds as [|old olds IH];
    intros [|new news] pos pos_end H; cbn in H; try contradiction.
  - constructor.
  - destruct H as (mid & _ & Hchs & Hrest).
    unfold all_channels. cbn [flat_map].
    apply Forall2_app.
    + eapply channels_read_payload; eassumption.
    + eapply IH; eassumption.
Qed.

(** C1.  After the layer records, with [remaining] bytes left in the
    layer-info subsection, the parser takes the stored channel lengths as
    payload-only exactly when their sum plus twice the number of channels
    equals [remaining].  When the pass over the channel image data
    succeeds, every channel was read as a 2-byte compression kind directly
    followed by its payload, whose length is the stored length in that case
    and the stored length minus 2 otherwise; the channel retains that
    payload and its [compressed_length] is the number of payload bytes. *)
Theorem channel_lengths_byte_accounting :
  forall allocator stream layer_info_end info stream' info',
    let n := Z.to_nat (layer_count info) in
    let parsed := firstn n (layers info) in
    let remaining := layer_info_end - Z.of_nat (Stream.position stream) in
    let payload_only :=
      stored_length_sum parsed + 2 * stored_channel_count parsed =? remaining in
    lengths_in_range parsed = true ->
    stored_length_sum parsed + 2 * stored_channel_count parsed < 2 ^ 64 ->
    LayerInfo.read_channel_image_data allocator stream layer_info_end info =
      (PSD_OK, stream', info') ->
    LayerInfo.lengths_exclude_compression parsed remaining = payload_only /\
    exists parsed' pos_end,
      layers info' = parsed' ++ skipn n (layers info) /\
      stream' = Stream.mk_stream (Stream.buffer stream) pos_end /\
      layers_read payload_only (Stream.buffer stream) (Stream.position stream)
                  parsed parsed' pos_end /\
      Forall2 (length_denotes_payload payload_only)
              (all_channels parsed) (all_channels parsed').
Proof.
  intros al stream layer_info_end info stream' info' n parsed remaining
         payload_only Hrange Hsum H.
  assert (Hdec : LayerInfo.lengths_exclude_compression parsed remaining
                 = payload_only)
    by (apply lengths_exclude_compression_plain; assumption).
  split; [exact Hdec|].
  unfold LayerInfo.read_channel_image_data, Stream.psd_stream_tell in H.
  fold n parsed remaining in H.
  destruct (remaining <? 0); [discriminate|].
  rewrite Hdec in H.
  destruct (LayerInfo.read_layers al payload_only stream parsed)
    as [[st s1] parsed'] eqn:E.
  destruct st; try discriminate.
  injection H as <- <-.
  apply read_layers_ok in E;
    [|apply forallb_channels_in_range; exact Hrange].
  destruct E as (pos_end & -> & Hread).
  exists parsed', pos_end. cbn [layers].
  repeat split; try assumption; try reflexivity.
  eapply layers_read_payload; eassumption.
Qed.

Lemma channel_lengths_byte_accounting_witness :
  (exists pos_end,
      layers_read true channel_image_data 0
                  [two_channel_layer 2 1] two_channel_result pos_end) /\
  (exists pos_end,
      layers_read false channel_image_data 0
                  [two_channel_layer 4 3] two_channel_result pos_end).
Proof.
  split.
  - destruct (channel_lengths_byte_accounting
                always_grant (Stream.mk_stream channel_image_data 0) 7
                (mk_layer_info [two_channel_layer 2 1] 1 false)
                (Stream.mk_stream channel_image_data 7)
                (mk_layer_info two_channel_result 1 false)
                eq_refl ltac:(vm_compute; reflexivity) eq_refl)
      as (_ & parsed' & pos_end & Hl & _ & Hread & _).
    cbn in Hl. rewrite app_nil_r in Hl. subst parsed'.
    exists pos_end. exact Hread.
  - destruct (channel_lengths_byte_accounting
                always_grant (Stream.mk_stream channel_image_data 0) 7
                (mk_layer_info [two_channel_layer 4 3] 1 false)
                (Stream.mk_stream channel_image_data 7)
                (mk_layer_info two_channel_result 1 false)
                eq_refl ltac:(vm_compute; reflexivity) eq_refl)
      as (_ & parsed' & pos_end & Hl & _ & Hread & _).
    cbn in Hl. rewrite app_nil_r in Hl. subst parsed'.
    exists pos_end. exact Hread.
Defined.

Lemma read_value_enough :
  forall w dec s, 0 < w ->
    Z.of_nat (Stream.position s) + w <= Z.of_nat (length (Stream.buffer s)) ->
    Stream.read_value w dec s =
      (inr (dec (slice (Stream.buffer s) (Stream.position s) (Z.to_nat w))),
       Stream.mk_stream (Stream.buffer s) (Stream.position s + Z.to_nat w)).
Proof.
  intros w dec s Hw Hfit. unfold Stream.read_value.
  destruct (read_exact_cases s w Hw) as [[_ Hshort] | [He _]]; [lia|].
  rewrite He. reflexivity.
Qed.

Lemma read_channel_complete :
  forall allocator exclude b p ch ch',
    compressed_length ch < 2 ^ 63 ->
    malloc_ok allocator (compressed_length ch') = true ->
    channel_read exclude b p ch ch' ->
    LayerInfo.read_channel allocator exclude (Stream.mk_stream b p) ch =
      (PSD_OK, Stream.mk_stream b (payload_end exclude p ch), ch').
Proof.
  intros al exclude b p ch ch' Hmax Hal (Hlen & Hcomp & Hfit & ->).
  change (2 ^ 63) with 9223372036854775808 in Hmax.
  set (len := if exclude then compressed_length ch
              else compressed_length ch - 2) in *.
  cbn [compressed_length] in Hal.
  unfold LayerInfo.read_channel, Stream.psd_stream_read_be16.
  rewrite read_value_enough by (cbn [Stream.buffer Stream.position]; lia).
  cbn [Stream.buffer Stream.position].
  change (Z.to_nat 2) with 2%nat.
  rewrite read_be_u16_slice.
  replace (read_be_u16 b p >? 3) with false
    by (symmetry; rewrite Z.gtb_ltb; apply Z.ltb_ge; lia).
  unfold LayerInfo.set_compression, LayerInfo.set_compressed_length,
    LayerInfo.set_compressed_data.
  cbn [compressed_length channel_id compression compressed_data decoded_data
       decoded_length is_decoded].
  replace (negb exclude && (compressed_length ch <? 2)) with false
    by (symmetry; subst len; destruct exclude; cbn; [reflexivity|];
        apply Z.ltb_ge; lia).
  fold len. rewrite Hal. cbn [negb].
  unfold Stream.psd_stream_read. cbn [Stream.buffer Stream.position].
  assert (Hmin : Z.min len (Z.of_nat (length b - (p + 2))) = len) by lia.
  rewrite Hmin, slice_length.
  unfold LayerInfo.int64_cast.
  replace (len <? 9223372036854775808) with true
    by (symmetry; apply Z.ltb_lt; subst len; destruct exclude; lia).
  replace (Z.of_nat (Nat.min (Z.to_nat len) (length b - (p + 2))) =? len)
    with true by (symmetry; apply Z.eqb_eq; lia).
  cbn [negb]. unfold payload_end. fold len.
  destruct exclude; cbn [compressed_length channel_id compression
                          compressed_data decoded_data decoded_length
                          is_decoded]; reflexivity.
Qed.

Lemma read_channels_complete :
  forall allocator exclude b chs p chs' pos_end,
    (forall n, malloc_ok allocator n = true) ->
    (forall ch, In ch chs -> compressed_length ch < 2 ^ 63) ->
    channels_read exclude b p chs chs' pos_end ->
    LayerInfo.read_channels allocator exclude (Stream.mk_stream b p) chs =
      (PSD_OK, Stream.mk_stream b pos_end, chs').
Proof.
  intros al exclude b chs. induction chs as [|ch rest IH];
    intros p [|ch' rest'] pos_end Hal Hmax H; cbn in H; try contradiction.
  - subst pos_end. reflexivity.
  - destruct H as [Hch Hrest].
    cbn [LayerInfo.read_channels].
    rewrite (read_channel_complete al exclude b p ch ch')
      by (auto; apply Hmax; left; reflexivity).
    rewrite (IH _ _ _ Hal (fun c Hc => Hmax c (or_intror Hc)) Hrest).
    reflexivity.
Qed.

Lemma read_layers_complete :
  forall allocator exclude b ls p ls' pos_end,
    (forall n, malloc_ok allocator n = true) ->
    (forall ch, In ch (all_channels ls) -> compressed_length ch < 2 ^ 63) ->
    layers_read exclude b p ls ls' pos_end ->
    LayerInfo.read_layers allocator exclude (Stream.mk_stream b p) ls =
      (PSD_OK, Stream.mk_stream b pos_end, ls').
Proof.
  intros al exclude b ls. induction ls as [|layer rest IH];
    intros p [|layer' rest'] pos_end Hal Hmax H; cbn in H; try contradiction.
  - subst pos_end. reflexivity.
  - destruct H as (mid & Hlayer & Hchs & Hrest).
    cbn [LayerInfo.read_layers].
    assert (Hmax1 : forall c, In c (channels layer) ->
                              compressed_length c < 2 ^ 63).
    { intros c Hc. apply Hmax. unfold all_channels. cbn [flat_map].
      apply in_or_app. left. exact Hc. }
    assert (Hmax2 : forall c, In c (all_channels rest) ->
                              compressed_length c < 2 ^ 63).
    { intros c Hc. apply Hmax. unfold all_channels. cbn [flat_map].
      apply in_or_app. right. exact Hc. }
    rewrite (read_channels_complete al exclude b (channels layer) p
                                    (channels layer') mid Hal Hmax1 Hchs).
    rewrite (IH mid rest' pos_end Hal Hmax2 Hrest).
    rewrite <- Hlayer. reflexivity.
Qed.

(** With an allocator that grants every request, the pass succeeds on
    every file in which each channel's compression kind and payload lie
    where the accounting places them. *)
Lemma read_channel_image_data_complete :
  forall allocator stream layer_info_end info parsed' pos_end,
    let n := Z.to_nat (layer_count info) in
    let parsed := firstn n (layers info) in
    let remaining := layer_info_end - Z.of_nat (Stream.position stream) in
    (forall n, malloc_ok allocator n = true) ->
    (forall ch, In ch (all_channels parsed) -> compressed_length ch < 2 ^ 63) ->
    0 <= remaining ->
    layers_read (LayerInfo.lengths_exclude_compression parsed remaining)
                (Stream.buffer stream) (Stream.position stream)
                parsed parsed' pos_end ->
    LayerInfo.read_channel_image_data allocator stream layer_info_end info =
      (PSD_OK, Stream.mk_stream (Stream.buffer stream) pos_end,
       mk_layer_info (parsed' ++ skipn n (layers info)) (layer_count info)
                     (has_transparency_layer info)).
Proof.
  intros al [b p] layer_info_end info parsed' pos_end n parsed remaining
         Hal Hmax Hrem H.
  unfold LayerInfo.read_channel_image_data, Stream.psd_stream_tell.
  cbn [Stream.buffer Stream.position] in *.
  fold n parsed remaining.
  replace (remaining <? 0) with false by (symmetry; apply Z.ltb_ge; lia).
  rewrite (read_layers_complete al _ b parsed p parsed' pos_end Hal Hmax H).
  reflexivity.
Qed.

(** *** Prediction reversal *)

Lemma poke_length :
  forall d i v, length (Zip.poke d i v) = length d.
Proof.
  induction d as [|h t IH]; intros [|i] v; cbn; auto.
Qed.

Lemma poke_app_head :
  forall l1 x l2 v, Zip.poke (l1 ++ x :: l2) (length l1) v = l1 ++ v :: l2.
Proof.
  induction l1 as [|h t IH]; intros x l2 v; cbn; [reflexivity|].
  now rewrite IH.
Qed.

Lemma poke_same :
  forall d i, Zip.poke d i (byte_at d i) = d.
Proof.
  induction d as [|h t IH]; intros [|i]; cbn; try reflexivity.
  unfold byte_at in *. cbn. now rewrite IH.
Qed.

Lemma for_range_step :
  forall lo n body d,
    Zip.for_range lo (lo + S n) body d =
    body (lo + n)%nat (Zip.for_range lo (lo + n) body d).
Proof.
  intros lo n body d. unfold Zip.for_range.
  replace (lo + S n - lo)%nat with (S n) by lia.
  replace (lo + n - lo)%nat with n by lia.
  rewrite seq_S, fold_left_app. reflexivity.
Qed.

Lemma for_range_split :
  forall lo mid hi body d,
    (lo <= mid <= hi)%nat ->
    Zip.for_range lo hi body d =
    Zip.for_range mid hi body (Zip.for_range lo mid body d).
Proof.
  intros lo mid hi body d H. unfold Zip.for_range.
  replace (hi - lo)%nat with ((mid - lo) + (hi - mid))%nat by lia.
  rewrite seq_app, fold_left_app.
  replace (lo + (mid - lo))%nat with mid by lia. reflexivity.
Qed.

Lemma for_range_ext :
  forall lo hi f g d,
    (forall i d', (lo <= i < hi)%nat -> f i d' = g i d') ->
    Zip.for_range lo hi f d = Zip.for_range lo hi g d.
Proof.
  intros lo hi f g d H. unfold Zip.for_range.
  assert (Hin : forall i, In i (seq lo (hi - lo)) -> (lo <= i < hi)%nat)
    by (intros i Hi; apply in_seq in Hi; lia).
  revert d. induction (seq lo (hi - lo)) as [|i l IH]; intros d;
    [reflexivity|].
  cbn. rewrite H by (apply Hin; left; reflexivity).
  apply IH. intros; apply Hin; right; assumption.
Qed.

Lemma for_range_length :
  forall lo hi f d,
    (forall i d', length (f i d') = length d') ->
    length (Zip.for_range lo hi f d) = length d.
Proof.
  intros lo hi f d H. unfold Zip.for_range.
  revert d. induction (seq lo (hi - lo)) as [|i l IH]; intros d;
    [reflexivity|].
  cbn. rewrite IH. apply H.
Qed.

Lemma png_reconstruct_from_snoc :
  forall ft bpp l x recon,
    png_reconstruct_from ft bpp (l ++ [x]) recon =
    let r := png_reconstruct_from ft bpp l recon in
    r ++ [u8 (x + png_predict ft
                     (if (length r <? bpp)%nat then 0
                      else byte_at r (length r - bpp)) 0 0)].
Proof.
  intros ft bpp l. induction l as [|y l IH]; intros x recon; cbn.
  - reflexivity.
  - apply IH.
Qed.

Lemma png_reconstruct_from_length :
  forall ft bpp l recon,
    length (png_reconstruct_from ft bpp l recon) = (length recon + length l)%nat.
Proof.
  intros ft bpp l. induction l as [|y l IH]; intros recon; cbn.
  - lia.
  - rewrite IH, length_app. cbn. lia.
Qed.

Lemma byte_at_app_l :
  forall l1 l2 i, (i < length l1)%nat -> byte_at (l1 ++ l2) i = byte_at l1 i.
Proof. intros. unfold byte_at. apply app_nth1. assumption. Qed.

Lemma byte_at_app_r :
  forall l1 l2 i, byte_at (l1 ++ l2) (length l1 + i) = byte_at l2 i.
Proof.
  intros. unfold byte_at. rewrite app_nth2 by lia.
  f_equal. lia.
Qed.

Lemma uniform_loop_is_png :
  forall ft bpp data k,
    (0 < bpp)%nat ->
    (k <= length data)%nat ->
    Zip.for_range 0 k (uniform_step ft bpp) data =
    png_reconstruct_from ft bpp (firstn k data) [] ++ skipn k data.
Proof.
  intros ft bpp data k Hbpp. induction k as [|k IH]; intros Hk.
  - reflexivity.
  - change (S k) with (0 + S k)%nat at 1.
    rewrite for_range_step. cbn [Nat.add].
    rewrite IH by lia.
    set (r := png_reconstruct_from ft bpp (firstn k data) []).
    assert (Hr : length r = k).
    { subst r. rewrite png_reconstruct_from_length, length_firstn. cbn. lia. }
    destruct (skipn k data) as [|x rest] eqn:Hs.
    { apply (f_equal (@length Z)) in Hs. rewrite length_skipn in Hs.
      cbn in Hs. lia. }
    assert (Hfirst : firstn (S k) data = firstn k data ++ [x]).
    { rewrite <- (firstn_skipn k data) at 1. rewrite Hs.
      rewrite firstn_app, length_firstn.
      replace (S k - Nat.min k (length data))%nat with 1%nat by lia.
      rewrite firstn_firstn. replace (Nat.min (S k) k) with k by lia.
      reflexivity. }
    assert (Hrest : skipn (S k) data = rest).
    { replace (S k) with (1 + k)%nat by lia.
      rewrite <- skipn_skipn, Hs. reflexivity. }
    rewrite Hfirst, Hrest, png_reconstruct_from_snoc. fold r. cbn zeta.
    rewrite Hr. unfold uniform_step.
    assert (Hx : byte_at (r ++ x :: rest) k = x).
    { replace k with (length r + 0)%nat by lia.
      rewrite byte_at_app_r. reflexivity. }
    rewrite Hx.
    assert (Ha : (if (k <? bpp)%nat then 0
                  else byte_at (r ++ x :: rest) (k - bpp)) =
                 (if (k <? bpp)%nat then 0 else byte_at r (k - bpp))).
    { destruct (k <? bpp)%nat eqn:E; [reflexivity|].
      apply Nat.ltb_ge in E. apply byte_at_app_l. lia. }
    rewrite Ha. rewrite <- Hr at 1. rewrite poke_app_head.
    rewrite <- app_assoc. reflexivity.
Qed.

Lemma u8_byte : forall x, is_byte x -> u8 x = x.
Proof. intros x Hx. unfold u8, is_byte in *. apply Z.mod_small. lia. Qed.

Lemma for_range_fixed :
  forall lo hi f d,
    (forall i, (lo <= i < hi)%nat -> f i d = d) ->
    Zip.for_range lo hi f d = d.
Proof.
  intros lo hi f d H. unfold Zip.for_range.
  assert (Hin : forall i, In i (seq lo (hi - lo)) -> (lo <= i < hi)%nat)
    by (intros i Hi; apply in_seq in Hi; lia).
  induction (seq lo (hi - lo)) as [|i l IH]; [reflexivity|].
  cbn. rewrite H by (apply Hin; left; reflexivity).
  apply IH. intros; apply Hin; right; assumption.
Qed.

Lemma poke_plus_zero :
  forall d i, Forall is_byte d -> Zip.poke d i (u8 (byte_at d i + 0)) = d.
Proof.
  intros d i Hd. rewrite Z.add_0_r, u8_byte by (apply byte_at_is_byte, Hd).
  apply poke_same.
Qed.

(** A filter whose prediction inside the first pixel is zero leaves the
    first pixel as it is, so the uniform loop may start at [bpp], which is
    where the loops of [psd_zip_reverse_prediction] start. *)
Lemma png_reconstruct_skips_first_pixel :
  forall ft bpp data,
    (0 < bpp)%nat ->
    Forall is_byte data ->
    png_predict ft 0 0 0 = 0 ->
    png_reconstruct ft bpp data =
    Zip.for_range bpp (length data) (uniform_step ft bpp) data.
Proof.
  intros ft bpp data Hbpp Hd H0. unfold png_reconstruct.
  pose proof (uniform_loop_is_png ft bpp data (length data) Hbpp
                                  (Nat.le_refl _)) as Hu.
  rewrite firstn_all, skipn_all, app_nil_r in Hu. rewrite <- Hu.
  set (m := Nat.min bpp (length data)).
  rewrite (for_range_split 0 m (length data)) by (subst m; lia).
  rewrite (for_range_fixed 0 m).
  - destruct (Nat.le_gt_cases bpp (length data)) as [Hle | Hgt].
    + replace m with bpp by (subst m; lia). reflexivity.
    + replace m with (length data) by (subst m; lia).
      unfold Zip.for_range.
      replace (length data - length data)%nat with 0%nat by lia.
      replace (length data - bpp)%nat with 0%nat by lia. reflexivity.
  - intros i Hi. unfold uniform_step.
    replace (i <? bpp)%nat with true
      by (symmetry; apply Nat.ltb_lt; subst m; lia).
    rewrite H0. apply poke_plus_zero, Hd.
Qed.

Lemma unfilter_sub_png :
  forall bpp data,
    (0 < bpp)%nat -> Forall is_byte data ->
    Zip.unfilter_sub bpp data = png_reconstruct 1 bpp data.
Proof.
  intros bpp data Hbpp Hd.
  rewrite png_reconstruct_skips_first_pixel by (auto; reflexivity).
  unfold Zip.unfilter_sub. apply for_range_ext. intros i d' Hi.
  unfold uniform_step.
  replace (i <? bpp)%nat with false by (symmetry; apply Nat.ltb_ge; lia).
  reflexivity.
Qed.

Lemma unfilter_paeth_png :
  forall bpp data,
    (0 < bpp)%nat -> Forall is_byte data ->
    Zip.unfilter_paeth bpp data = png_reconstruct 4 bpp data.
Proof.
  intros bpp data Hbpp Hd.
  rewrite png_reconstruct_skips_first_pixel by (auto; reflexivity).
  unfold Zip.unfilter_paeth.
  rewrite (for_range_fixed 0 bpp)
    by (intros i _; apply (poke_plus_zero data i Hd)).
  apply for_range_ext. intros i d' Hi. unfold uniform_step.
  replace (i <? bpp)%nat with false by (symmetry; apply Nat.ltb_ge; lia).
  reflexivity.
Qed.

Lemma png_reconstruct_no_prediction :
  forall ft bpp data,
    (0 < bpp)%nat -> Forall is_byte data ->
    (forall a, png_predict ft a 0 0 = 0) ->
    png_reconstruct ft bpp data = data.
Proof.
  intros ft bpp data Hbpp Hd H0.
  rewrite png_reconstruct_skips_first_pixel by auto.
  assert (Hgen : forall lo hi d, Forall is_byte d ->
            Zip.for_range lo hi (uniform_step ft bpp) d = d).
  { intros lo hi d Hd'. apply for_range_fixed. intros i _.
    unfold uniform_step. rewrite H0. apply poke_plus_zero, Hd'. }
  apply Hgen, Hd.
Qed.

Lemma png_reconstruct_length :
  forall ft bpp data, length (png_reconstruct ft bpp data) = length data.
Proof.
  intros. unfold png_reconstruct. rewrite png_reconstruct_from_length.
  reflexivity.
Qed.

Lemma firstn_move_down :
  forall ft data d,
    length d = length data ->
    firstn (length (ft :: data) - 1) (Zip.move_down ft d) = d.
Proof.
  intros ft data d Hlen. unfold Zip.move_down. cbn [length].
  replace (S (length data) - 1)%nat with (length d + 0)%nat by lia.
  rewrite firstn_app_2. cbn. apply app_nil_r.
Qed.

(** Filters None, Sub, Up and Paeth are reversed as the PNG definition
    says, and the reconstructed scanline has the filter byte removed. *)
Lemma reversed_scanline_png :
  forall filter_type data bytes_per_pixel,
    In filter_type [0; 1; 2; 4] ->
    1 <= bytes_per_pixel <= 8 ->
    (Z.to_nat bytes_per_pixel <= length data)%nat ->
    all_bytes data = true ->
    Zip.reversed_scanline (filter_type :: data) bytes_per_pixel =
    (PSD_OK, png_reconstruct filter_type (Z.to_nat bytes_per_pixel) data).
Proof.
  intros ft data bpp Hft Hbpp Hfit Hd.
  apply all_bytes_Forall in Hd.
  assert (Hpos : (0 < Z.to_nat bpp)%nat) by lia.
  unfold Zip.reversed_scanline, Zip.psd_zip_reverse_prediction.
  replace ((bpp =? 0) || (bpp >? 8)) with false
    by (symmetry; apply orb_false_iff; split;
        [apply Z.eqb_neq | rewrite Z.gtb_ltb; apply Z.ltb_ge]; lia).
  cbn in Hft.
  destruct Hft as [<- | [<- | [<- | [<- | []]]]];
    cbn [Z.eqb Pos.eqb]; cbv beta iota.
  - rewrite firstn_move_down, png_reconstruct_no_prediction; auto.
  - rewrite unfilter_sub_png, firstn_move_down; auto.
    apply png_reconstruct_length.
  - rewrite firstn_move_down, png_reconstruct_no_prediction; auto.
  - rewrite unfilter_paeth_png, firstn_move_down; auto.
    apply png_reconstruct_length.
Qed.

(** The buffer keeps its length: the reversal works in place. *)
Lemma psd_zip_reverse_prediction_length :
  forall scanline bytes_per_pixel st buf,
    Zip.psd_zip_reverse_prediction scanline bytes_per_pixel = (st, buf) ->
    length buf = length scanline.
Proof.
  intros scanline bpp st buf E.
  unfold Zip.psd_zip_reverse_prediction in E.
  destruct scanline as [|ft data]; [injection E as _ <-; reflexivity|].
  destruct ((bpp =? 0) || (bpp >? 8)); [injection E as _ <-; reflexivity|].
  assert (Hmd : forall d, length d = length data ->
            length (Zip.move_down ft d) = length (ft :: data)).
  { intros d Hdl. unfold Zip.move_down. rewrite length_app, Hdl. cbn. lia. }
  repeat match type of E with
         | (if ?c then _ else _) = _ => destruct c
         end;
    injection E as _ <-; try reflexivity; apply Hmd; try reflexivity.
  - unfold Zip.unfilter_sub. apply for_range_length.
    intros; apply poke_length.
  - unfold Zip.unfilter_average. rewrite !for_range_length; auto;
      intros; apply poke_length.
  - unfold Zip.unfilter_paeth. rewrite !for_range_length; auto;
      intros; apply poke_length.
Qed.

(** Whatever the filter, a scanline that is accepted comes back one byte
    shorter: the filter byte is gone. *)
Lemma reversed_scanline_length :
  forall scanline bytes_per_pixel out,
    Zip.reversed_scanline scanline bytes_per_pixel = (PSD_OK, out) ->
    length out = (length scanline - 1)%nat.
Proof.
  intros scanline bpp out. unfold Zip.reversed_scanline.
  destruct (Zip.psd_zip_reverse_prediction scanline bpp) as [st buf] eqn:E.
  intros H. injection H as -> <-.
  apply psd_zip_reverse_prediction_length in E.
  rewrite length_firstn. lia.
Qed.

(** The Average case: what the first loop of the source does to the first
    pixel, and that the rest of the scanline is then reconstructed as PNG
    says.  The first pixel is the only place where the two differ. *)
Lemma first_pixel_loop :
  forall (g : Z -> Z) data k,
    (k <= length data)%nat ->
    Zip.for_range 0 k (fun i d => Zip.poke d i (g (byte_at d i))) data =
    map g (firstn k data) ++ skipn k data.
Proof.
  intros g data k. induction k as [|k IH]; intros Hk.
  - reflexivity.
  - change (S k) with (0 + S k)%nat at 1.
    rewrite for_range_step. cbn [Nat.add]. rewrite IH by lia.
    destruct (skipn k data) as [|x rest] eqn:Hs.
    { apply (f_equal (@length Z)) in Hs. rewrite length_skipn in Hs.
      cbn in Hs. lia. }
    assert (Hfirst : firstn (S k) data = firstn k data ++ [x]).
    { rewrite <- (firstn_skipn k data) at 1. rewrite Hs.
      rewrite firstn_app, length_firstn.
      replace (S k - Nat.min k (length data))%nat with 1%nat by lia.
      rewrite firstn_firstn. replace (Nat.min (S k) k) with k by lia.
      reflexivity. }
    assert (Hrest : skipn (S k) data = rest).
    { replace (S k) with (1 + k)%nat by lia.
      rewrite <- skipn_skipn, Hs. reflexivity. }
    rewrite Hfirst, Hrest, map_app. cbn [map].
    assert (Hl : length (map g (firstn k data)) = k)
      by (rewrite length_map, length_firstn; lia).
    assert (Hx : byte_at (map g (firstn k data) ++ x :: rest) k = x).
    { rewrite <- Hl at 2. replace (length (map g (firstn k data)))
        with (length (map g (firstn k data)) + 0)%nat by lia.
      rewrite byte_at_app_r. reflexivity. }
    rewrite Hx. rewrite <- Hl at 2. rewrite poke_app_head.
    rewrite <- app_assoc. reflexivity.
Qed.

Lemma for_range_ext_inv :
  forall (P : list Z -> Prop) lo hi f g d,
    P d ->
    (forall i d', P d' -> P (g i d')) ->
    (forall i d', (lo <= i < hi)%nat -> P d' -> f i d' = g i d') ->
    Zip.for_range lo hi f d = Zip.for_range lo hi g d.
Proof.
  intros P lo hi f g d Hd Hp H. unfold Zip.for_range.
  assert (Hin : forall i, In i (seq lo (hi - lo)) -> (lo <= i < hi)%nat)
    by (intros i Hi; apply in_seq in Hi; lia).
  revert d Hd. induction (seq lo (hi - lo)) as [|i l IH]; intros d Hd;
    [reflexivity|].
  cbn. rewrite H by (auto; apply Hin; left; reflexivity).
  apply IH; [intros; apply Hin; right; assumption | apply Hp, Hd].
Qed.

Lemma poke_is_byte :
  forall d i v, Forall is_byte d -> is_byte v -> Forall is_byte (Zip.poke d i v).
Proof.
  induction d as [|h t IH]; intros [|i] v Hd Hv; cbn; auto;
    inversion Hd; subst; constructor; auto.
Qed.

Lemma u8_is_byte : forall x, is_byte (u8 x).
Proof.
  intros x. unfold is_byte, u8. apply Z.mod_pos_bound. reflexivity.
Qed.

Lemma unfilter_average_png :
  forall bpp data,
    (0 < bpp <= length data)%nat ->
    Forall is_byte data ->
    Zip.unfilter_average bpp data =
    png_reconstruct 3 bpp (average_first_pixel bpp data).
Proof.
  intros bpp data Hbpp Hd. unfold Zip.unfilter_average, average_first_pixel.
  rewrite (first_pixel_loop (fun x => u8 (x + Z.quot x 2))) by lia.
  set (data' := map _ (firstn bpp data) ++ skipn bpp data).
  assert (Hd' : Forall is_byte data').
  { subst data'. apply Forall_app. split.
    - apply Forall_forall. intros y Hy. apply in_map_iff in Hy.
      destruct Hy as (x & <- & _). apply u8_is_byte.
    - apply Forall_forall. intros y Hy.
      rewrite Forall_forall in Hd. apply Hd.
      rewrite <- (firstn_skipn bpp data). apply in_or_app. now right. }
  assert (Hlen : length data' = length data).
  { subst data'. rewrite length_app, length_map, length_firstn, length_skipn.
    lia. }
  rewrite png_reconstruct_skips_first_pixel by (auto; lia || reflexivity).
  rewrite Hlen.
  apply (for_range_ext_inv (Forall is_byte)); [exact Hd' | |].
  - intros i d' Hb. unfold uniform_step. apply poke_is_byte; auto.
    apply u8_is_byte.
  - intros i d' Hi Hb. unfold uniform_step.
    replace (i <? bpp)%nat with false by (symmetry; apply Nat.ltb_ge; lia).
    unfold png_predict. cbn [Z.eqb Pos.eqb].
    rewrite Z.quot_div_nonneg; [reflexivity | | lia].
    pose proof (byte_at_is_byte d' (i - bpp) Hb) as Hr.
    unfold is_byte in Hr. lia.
Qed.

(** C6 (failing input).  For the scanline [03 0A 14] (Average filter, one
    byte per pixel) the PNG definition leaves the first byte unchanged and
    reconstructs [0A 19]; [psd_zip_reverse_prediction] adds half of the
    byte to itself in the first pixel and leaves [0F 1B]. *)
Theorem average_filter_first_pixel_altered :
  Zip.reversed_scanline [3; 10; 20] 1 = (PSD_OK, [15; 27]) /\
  png_reconstruct 3 1 [10; 20] = [10; 25].
Proof. split; reflexivity. Qed.

(** *** Channel decoding returns *)

Lemma decode_rle_rows_total :
  forall rows y compressed row_count_bytes counts_size total_rle_bytes
         scanline_width rle_off decoded,
    exists r,
      LayerDecode.decode_rle_rows rows y compressed row_count_bytes
        counts_size total_rle_bytes scanline_width rle_off decoded = Some r.
Proof.
  induction rows as [|rows IH]; intros; cbn [LayerDecode.decode_rle_rows];
    [eauto|].
  match goal with
  | |- context [if ?c then _ else _] => destruct c; [eauto|]
  end.
  match goal with
  | |- context [LayerDecode.psd_packbits_decode_row ?src ?w] =>
    destruct (psd_packbits_decode_row_total src w) as [r ->]
  end.
  destruct (row_status r); eauto.
Qed.

Lemma reverse_rows_total :
  forall fuel buf offset scanline_width bytes_per_pixel,
    (0 < scanline_width)%nat ->
    (length buf - offset < fuel)%nat ->
    exists r,
      Zip.reverse_rows fuel buf offset scanline_width bytes_per_pixel = Some r.
Proof.
  induction fuel as [|fuel IH]; intros buf offset w bpp Hw Hfuel; [lia|].
  cbn [Zip.reverse_rows].
  destruct (offset <? length buf)%nat eqn:Hoff; [|eauto].
  apply Nat.ltb_lt in Hoff.
  destruct (length buf <? offset + (w + 1))%nat eqn:Hfit; [eauto|].
  apply Nat.ltb_ge in Hfit.
  destruct (Zip.psd_zip_reverse_prediction (slice buf offset (w + 1)) bpp)
    as [st row] eqn:Hrow.
  assert (Hlen : length row = (w + 1)%nat).
  { apply psd_zip_reverse_prediction_length in Hrow.
    rewrite Hrow, slice_length. lia. }
  destruct st; eauto.
  apply IH; [assumption|].
  rewrite !length_app, length_firstn, length_skipn, Hlen. lia.
Qed.

Lemma psd_zip_decompress_with_prediction_total :
  forall zlib compressed decompressed_len scanline_width bytes_per_pixel,
    0 <= scanline_width ->
    exists r,
      Zip.psd_zip_decompress_with_prediction zlib compressed decompressed_len
        scanline_width bytes_per_pixel = Some r.
Proof.
  intros zlib src len w bpp Hw0. unfold Zip.psd_zip_decompress_with_prediction.
  destruct zlib as [inflate|]; [|eauto].
  destruct (w =? 0) eqn:Hw; [eauto|].
  apply Z.eqb_neq in Hw.
  destruct (Zip.psd_zip_decompress (Some inflate) src len) as [st buf].
  destruct st; eauto.
  apply reverse_rows_total; lia.
Qed.

(** [psd_layer_channel_decode] returns for every channel and every layer
    size. *)
Lemma psd_layer_channel_decode_total :
  forall allocator zlib channel width height depth,
    0 <= width ->
    exists r,
      LayerDecode.psd_layer_channel_decode allocator zlib channel
                                           width height depth = Some r.
Proof.
  intros al zlib ch width height depth Hw.
  unfold LayerDecode.psd_layer_channel_decode.
  set (bytes_per_sample := if depth >=? 8 then Z.quot depth 8 else 1).
  set (scanline_width := if depth =? 1 then Z.quot (width + 7) 8
                         else u64 (width * bytes_per_sample)).
  assert (Hsw : 0 <= scanline_width).
  { subst scanline_width. destruct (depth =? 1).
    - apply Z.quot_pos; lia.
    - unfold u64. apply Z.mod_pos_bound. reflexivity. }
  destruct (is_decoded ch && _); [eauto|].
  destruct (negb (depth =? 1) && (bytes_per_sample =? 0)); [eauto|].
  destruct (compression ch =? 0).
  { repeat match goal with
           | |- context [if ?c then _ else _] => destruct c
           end; eauto. }
  destruct (compression ch =? 1).
  { destruct (LayerDecode.select_row_count_width _ _ _)
      as [st | [[rb cs] total]]; [eauto|].
    destruct (negb (malloc_ok al _)); [eauto|].
    match goal with
    | |- context [LayerDecode.decode_rle_rows ?a ?b ?c ?d ?e ?f ?g ?h ?i] =>
      destruct (decode_rle_rows_total a b c d e f g h i) as [[st out] ->]
    end.
    destruct st; eauto. }
  destruct (compression ch =? 2).
  { destruct (negb (malloc_ok al _)); [eauto|].
    destruct (Zip.psd_zip_decompress _ _ _) as [st out].
    destruct st; eauto. }
  destruct (compression ch =? 3); [|eauto].
  destruct (negb (malloc_ok al _)); [eauto|].
  match goal with
  | |- context [Zip.psd_zip_decompress_with_prediction ?a ?b ?c ?d ?e] =>
    destruct (psd_zip_decompress_with_prediction_total a b c d e Hsw)
      as [[st out] ->]
  end.
  destruct st; eauto.
Qed.

Lemma psd_document_get_layer_channel_data_total :
  forall allocator zlib doc layer_idx channel_idx,
    exists r,
      Document.psd_document_get_layer_channel_data allocator zlib doc
        layer_idx channel_idx = Some r.
Proof.
  intros al zlib doc idx ci.
  unfold Document.psd_document_get_layer_channel_data.
  destruct ((idx <? 0) || (idx >=? layer_count (doc_layers doc))); [eauto|].
  destruct (nth_error (layers (doc_layers doc)) (Z.to_nat idx)) as [layer|];
    [|eauto].
  destruct (nth_error (channels layer) ci) as [ch|]; [|eauto].
  cbv zeta.
  set (w := u32 (bounds_right (bounds layer) - bounds_left (bounds layer))).
  set (h := u32 (bounds_bottom (bounds layer) - bounds_top (bounds layer))).
  destruct ((w =? 0) || (h =? 0)); [eauto|].
  assert (Hw : 0 <= w)
    by (subst w; unfold u32; apply Z.mod_pos_bound; reflexivity).
  destruct (negb (is_decoded ch)).
  - match goal with
    | |- context [LayerDecode.psd_layer_channel_decode ?a ?b ?c ?d ?e ?f] =>
      destruct (psd_layer_channel_decode_total a b c d e f Hw)
        as [[st ch'] ->]
    end.
    destruct (negb (status_eqb st PSD_OK) && _); [eauto|].
    destruct (decoded_data ch'), (compressed_data ch');
      try destruct (compression ch' >? 3); eauto.
  - destruct (negb (status_eqb PSD_OK PSD_OK) && _); [eauto|].
    destruct (decoded_data ch), (compressed_data ch);
      try destruct (compression ch >? 3); eauto.
Qed.

Lemma collect_planes_total :
  forall allocator zlib n i doc layer_idx planes,
    exists r,
      Render.collect_planes allocator zlib n i doc layer_idx planes = Some r.
Proof.
  intros al zlib. induction n as [|n IH]; intros i doc idx planes;
    cbn [Render.collect_planes]; [eauto|].
  destruct (psd_document_get_layer_channel_data_total al zlib doc idx i)
    as [[[st view] doc'] ->].
  apply IH.
Qed.

(** The layer renderer returns for every document, layer index and output
    buffer. *)
Lemma psd_document_render_layer_rgba8_total :
  forall allocator zlib lab size_max doc layer_idx out_rgba out_rgba_size,
    exists r,
      Render.psd_document_render_layer_rgba8 allocator zlib lab size_max doc
        layer_idx out_rgba out_rgba_size = Some r.
Proof.
  intros al zlib lab size_max doc idx out size.
  unfold Render.psd_document_render_layer_rgba8.
  destruct (Context.psd_document_get_layer_bounds doc idx) as [st [b|]];
    destruct st; eauto.
  cbv zeta.
  destruct (_ >? size_max); [eauto|].
  destruct (_ || (size <? _)); [eauto|].
  destruct ((_ =? 0) || (_ =? 0)); [eauto|].
  destruct (nth_error (layers (doc_layers doc)) (Z.to_nat idx)) as [layer|];
    [|eauto].
  destruct (collect_planes_total al zlib (length (channels layer)) 0%nat doc
              idx [None; None; None; None; None]) as [[planes doc'] ->].
  destruct (Render.order_planes (doc_color_mode doc) planes)
    as [[ordered plane_count]|]; [|eauto].
  destruct (negb (doc_depth doc =? 1)
            && (Render.bytes_per_sample (doc_depth doc) =? 0)); eauto.
Qed.

(** *** Feature detection returns *)

(** The scan is guarded by [extra_length <= 10000000]; within that bound
    every block passed moves the scan at least twelve bytes on, so it
    returns. *)
Lemma detect_blocks_total :
  forall fuel data off data_end remaining f,
    Forall is_byte data ->
    remaining <= 10000000 ->
    (Z.to_nat remaining < fuel)%nat ->
    exists f', LayerInfo.detect_blocks fuel data off data_end remaining f
               = Some f'.
Proof.
  induction fuel as [|fuel IH]; intros data off data_end remaining f Hd Hmax
    Hfuel; [lia|].
  cbn [LayerInfo.detect_blocks].
  destruct (12 <=? remaining) eqn:Hrem; [|eauto].
  destruct (Z.of_nat off + 12 >? data_end); [eauto|].
  destruct (negb (read_be_u32 data off =? 0x3842494D)
            && negb (read_be_u32 data off =? 0x38423634)); [eauto|].
  pose proof (read_be_u32_range data (off + 8) Hd) as Hlen.
  destruct (read_be_u32 data (off + 8) >? remaining - 12) eqn:Hfit; [eauto|].
  cbv zeta.
  set (block_len := read_be_u32 data (off + 8)) in *.
  set (padded_len := if negb (block_len mod 2 =? 0)
                     then u32 (block_len + 1) else block_len).
  bool_to_prop.
  assert (Hpad : block_len <= padded_len <= block_len + 1).
  { subst padded_len. destruct (negb (block_len mod 2 =? 0)); [|lia].
    unfold u32. rewrite Z.mod_small; lia. }
  assert (Htotal : u32 (12 + padded_len) = 12 + padded_len)
    by (unfold u32; apply Z.mod_small; lia).
  rewrite Htotal.
  destruct ((12 + padded_len <=? remaining)
            && (Z.of_nat off + (12 + padded_len) <=? data_end)); [|eauto].
  apply IH; [assumption | lia | lia].
Qed.

Lemma detect_features_total :
  forall data additional_length f,
    Forall is_byte data ->
    additional_length <= 10000000 ->
    exists f', LayerInfo.detect_features data additional_length f = Some f'.
Proof.
  intros data len f Hd Hmax. unfold LayerInfo.detect_features.
  destruct (len >? 0); [|eauto].
  assert (Hskip : forall off rem off' rem',
            rem <= 10000000 ->
            LayerInfo.skip_region data off len rem = Some (off', rem') ->
            rem' <= 10000000).
  { intros off rem off' rem' Hrem H. unfold LayerInfo.skip_region in H.
    pose proof (read_be_u32_range data off Hd) as Hr.
    repeat match type of H with
           | context [if ?b then _ else _] => destruct b eqn:?
           end; try discriminate; injection H as <- <-; bool_to_prop; lia. }
  destruct (LayerInfo.skip_region data 0 len len) as [[off1 rem1]|] eqn:H1;
    [|eauto].
  apply Hskip in H1; [|assumption].
  destruct (LayerInfo.skip_region data off1 len rem1) as [[off2 rem2]|] eqn:H2;
    [|eauto].
  apply Hskip in H2; [|assumption].
  destruct (LayerInfo.skip_name data off2 len rem2) as [[off3 rem3]|] eqn:H3;
    [|eauto].
  apply detect_blocks_total; [assumption | | lia].
  unfold LayerInfo.skip_name in H3.
  pose proof (byte_at_is_byte data off2 Hd) as Hb. unfold is_byte in Hb.
  set (name_total := 1 + byte_at data off2) in H3.
  set (padded := if negb (name_total mod 4 =? 0)
                 then name_total + (4 - name_total mod 4)
                 else name_total) in H3.
  assert (Hpad : 0 <= padded).
  { subst padded.
    pose proof (Z.mod_pos_bound name_total 4 ltac:(lia)).
    destruct (negb (name_total mod 4 =? 0)); subst name_total; lia. }
  clearbody padded.
  repeat match type of H3 with
         | context [if ?b then _ else _] => destruct b eqn:?
         end; try discriminate; injection H3 as <- <-; lia.
Qed.

(** *** Arithmetic with division *)

Ltac div_lia := Z.div_mod_to_equations; lia.

(** Splits on the scrutinee of the outermost [match] or [if] of an
    equation. *)
Ltac split_match H :=
  match type of H with
  | match ?x with _ => _ end = _ => destruct x eqn:?
  end.

(** *** Text conversion *)

Lemma lor_prefix :
  forall p n x, 0 <= n -> 0 <= x < 2 ^ n -> Z.lor (p * 2 ^ n) x = p * 2 ^ n + x.
Proof.
  intros p n x Hn Hx.
  rewrite <- Z.shiftl_mul_pow2 by assumption.
  rewrite lor_shiftl_add by assumption.
  rewrite Z.shiftl_mul_pow2 by assumption. reflexivity.
Qed.

Lemma land_low6 : forall x, Z.land x 0x3F = x mod 64.
Proof. intros x. change 0x3F with (Z.ones 6). rewrite Z.land_ones by lia. reflexivity. Qed.

(** The bytes of [psd_utf8_encode] as numbers. *)
Lemma psd_utf8_encode_value :
  forall cp, 0 <= cp <= 0x1FFFFF ->
    Unicode.psd_utf8_encode cp =
    if cp <=? 0x7F then [cp]
    else if cp <=? 0x7FF then [192 + cp / 64; 128 + cp mod 64]
    else if cp <=? 0xFFFF then
      [224 + cp / 4096; 128 + (cp / 64) mod 64; 128 + cp mod 64]
    else
      [240 + cp / 262144; 128 + (cp / 4096) mod 64; 128 + (cp / 64) mod 64;
       128 + cp mod 64].
Proof.
  intros cp Hcp. unfold Unicode.psd_utf8_encode.
  rewrite !land_low6, !Z.shiftr_div_pow2 by lia.
  change (2 ^ 6) with 64. change (2 ^ 12) with 4096.
  change (2 ^ 18) with 262144.
  assert (H80 : forall x, 0 <= x < 64 -> u8 (Z.lor 0x80 x) = 128 + x).
  { intros x Hx. change 0x80 with (1 * 2 ^ 7).
    rewrite lor_prefix by (change (2 ^ 7) with 128; div_lia).
    unfold u8. apply Z.mod_small. change (2 ^ 7) with 128. div_lia. }
  rewrite !H80 by (apply Z.mod_pos_bound; div_lia).
  destruct (cp <=? 0x7F) eqn:E1.
  { apply Z.leb_le in E1. unfold u8. rewrite Z.mod_small by div_lia. reflexivity. }
  apply Z.leb_gt in E1.
  destruct (cp <=? 0x7FF) eqn:E2.
  { apply Z.leb_le in E2. f_equal.
    change 0xC0 with (3 * 2 ^ 6).
    rewrite lor_prefix by (change (2 ^ 6) with 64; div_lia).
    unfold u8. apply Z.mod_small. change (2 ^ 6) with 64. div_lia. }
  apply Z.leb_gt in E2.
  destruct (cp <=? 0xFFFF) eqn:E3.
  { apply Z.leb_le in E3. f_equal.
    change 0xE0 with (7 * 2 ^ 5).
    rewrite lor_prefix by (change (2 ^ 5) with 32; div_lia).
    unfold u8. apply Z.mod_small. change (2 ^ 5) with 32. div_lia. }
  apply Z.leb_gt in E3. f_equal.
  change 0xF0 with (15 * 2 ^ 4).
  rewrite lor_prefix by (change (2 ^ 4) with 16; div_lia).
  unfold u8. apply Z.mod_small. change (2 ^ 4) with 16. div_lia.
Qed.

Lemma utf8_decode_encode :
  forall cp rest,
    is_scalar_value cp = true ->
    utf8_decode (Unicode.psd_utf8_encode cp ++ rest) =
    option_map (cons cp) (utf8_decode rest).
Proof.
  intros cp rest H. unfold is_scalar_value in H.
  apply andb_true_iff in H. destruct H as [H Hs].
  apply andb_true_iff in H. destruct H as [H0 H1].
  apply Z.leb_le in H0. apply Z.leb_le in H1.
  apply negb_true_iff in Hs.
  rewrite psd_utf8_encode_value by div_lia.
  destruct (cp <=? 0x7F) eqn:E1.
  { apply Z.leb_le in E1. cbn [app utf8_decode].
    replace ((0 <=? cp) && (cp <=? 0x7F)) with true
      by (symmetry; apply andb_true_iff; split; apply Z.leb_le; div_lia).
    reflexivity. }
  apply Z.leb_gt in E1.
  destruct (cp <=? 0x7FF) eqn:E2.
  { apply Z.leb_le in E2. cbn [app utf8_decode].
    set (b0 := 192 + cp / 64). set (b1 := 128 + cp mod 64).
    assert (Hb0 : 0xC2 <= b0 <= 0xDF) by (subst b0; div_lia).
    assert (Hb1 : 0x80 <= b1 <= 0xBF) by (subst b1; div_lia).
    replace ((0 <=? b0) && (b0 <=? 0x7F)) with false
      by (symmetry; apply andb_false_iff; right; apply Z.leb_gt; div_lia).
    replace ((0xC2 <=? b0) && (b0 <=? 0xDF)) with true
      by (symmetry; apply andb_true_iff; split; apply Z.leb_le; div_lia).
    unfold is_continuation.
    replace ((0x80 <=? b1) && (b1 <=? 0xBF)) with true
      by (symmetry; apply andb_true_iff; split; apply Z.leb_le; div_lia).
    replace ((b0 - 0xC0) * 64 + (b1 - 0x80)) with cp by (subst b0 b1; div_lia).
    reflexivity. }
  apply Z.leb_gt in E2.
  destruct (cp <=? 0xFFFF) eqn:E3.
  { apply Z.leb_le in E3. cbn [app utf8_decode].
    set (b0 := 224 + cp / 4096). set (b1 := 128 + (cp / 64) mod 64).
    set (b2 := 128 + cp mod 64).
    assert (Hb0 : 0xE0 <= b0 <= 0xEF) by (subst b0; div_lia).
    assert (Hb1 : 0x80 <= b1 <= 0xBF) by (subst b1; div_lia).
    assert (Hb2 : 0x80 <= b2 <= 0xBF) by (subst b2; div_lia).
    replace ((0 <=? b0) && (b0 <=? 0x7F)) with false
      by (symmetry; apply andb_false_iff; right; apply Z.leb_gt; div_lia).
    replace ((0xC2 <=? b0) && (b0 <=? 0xDF)) with false
      by (symmetry; apply andb_false_iff; right; apply Z.leb_gt; div_lia).
    replace ((0xE0 <=? b0) && (b0 <=? 0xEF)) with true
      by (symmetry; apply andb_true_iff; split; apply Z.leb_le; div_lia).
    replace ((b0 - 0xE0) * 4096 + (b1 - 0x80) * 64 + (b2 - 0x80)) with cp
      by (subst b0 b1 b2; div_lia).
    unfold is_continuation, is_scalar_value.
    replace ((0x80 <=? b1) && (b1 <=? 0xBF)) with true
      by (symmetry; apply andb_true_iff; split; apply Z.leb_le; div_lia).
    replace ((0x80 <=? b2) && (b2 <=? 0xBF)) with true
      by (symmetry; apply andb_true_iff; split; apply Z.leb_le; div_lia).
    rewrite Hs.
    replace (0x800 <=? cp) with true by (symmetry; apply Z.leb_le; div_lia).
    replace (0 <=? cp) with true by (symmetry; apply Z.leb_le; div_lia).
    replace (cp <=? 0x10FFFF) with true by (symmetry; apply Z.leb_le; div_lia).
    reflexivity. }
  apply Z.leb_gt in E3. cbn [app utf8_decode].
  set (b0 := 240 + cp / 262144). set (b1 := 128 + (cp / 4096) mod 64).
  set (b2 := 128 + (cp / 64) mod 64). set (b3 := 128 + cp mod 64).
  assert (Hb0 : 0xF0 <= b0 <= 0xF4) by (subst b0; div_lia).
  assert (Hb1 : 0x80 <= b1 <= 0xBF) by (subst b1; div_lia).
  assert (Hb2 : 0x80 <= b2 <= 0xBF) by (subst b2; div_lia).
  assert (Hb3 : 0x80 <= b3 <= 0xBF) by (subst b3; div_lia).
  replace ((0 <=? b0) && (b0 <=? 0x7F)) with false
    by (symmetry; apply andb_false_iff; right; apply Z.leb_gt; div_lia).
  replace ((0xC2 <=? b0) && (b0 <=? 0xDF)) with false
    by (symmetry; apply andb_false_iff; right; apply Z.leb_gt; div_lia).
  replace ((0xE0 <=? b0) && (b0 <=? 0xEF)) with false
    by (symmetry; apply andb_false_iff; right; apply Z.leb_gt; div_lia).
  replace ((0xF0 <=? b0) && (b0 <=? 0xF4)) with true
    by (symmetry; apply andb_true_iff; split; apply Z.leb_le; div_lia).
  replace ((b0 - 0xF0) * 262144 + (b1 - 0x80) * 4096 + (b2 - 0x80) * 64
           + (b3 - 0x80)) with cp by (subst b0 b1 b2 b3; div_lia).
  unfold is_continuation, is_scalar_value.
  replace ((0x80 <=? b1) && (b1 <=? 0xBF)) with true
    by (symmetry; apply andb_true_iff; split; apply Z.leb_le; div_lia).
  replace ((0x80 <=? b2) && (b2 <=? 0xBF)) with true
    by (symmetry; apply andb_true_iff; split; apply Z.leb_le; div_lia).
  replace ((0x80 <=? b3) && (b3 <=? 0xBF)) with true
    by (symmetry; apply andb_true_iff; split; apply Z.leb_le; div_lia).
  rewrite Hs.
  replace (0x10000 <=? cp) with true by (symmetry; apply Z.leb_le; div_lia).
  replace (0 <=? cp) with true by (symmetry; apply Z.leb_le; div_lia).
  replace (cp <=? 0x10FFFF) with true by (symmetry; apply Z.leb_le; div_lia).
  reflexivity.
Qed.

Lemma utf8_decode_flat_map :
  forall cps,
    forallb is_scalar_value cps = true ->
    utf8_decode (flat_map Unicode.psd_utf8_encode cps) = Some cps.
Proof.
  induction cps as [|cp cps IH]; intros H; [reflexivity|].
  cbn [forallb] in H. apply andb_true_iff in H. destruct H as [Hcp Hcps].
  cbn [flat_map]. rewrite utf8_decode_encode by assumption.
  rewrite IH by assumption. reflexivity.
Qed.

Lemma psd_utf8_encode_length :
  forall cp, (1 <= length (Unicode.psd_utf8_encode cp) <= 4)%nat.
Proof.
  intros cp. unfold Unicode.psd_utf8_encode.
  destruct (cp <=? 0x7F); [cbn; lia|].
  destruct (cp <=? 0x7FF); [cbn; lia|].
  destruct (cp <=? 0xFFFF); cbn; lia.
Qed.

Lemma psd_utf8_encode_length_bmp :
  forall cp, cp <= 0xFFFF -> (length (Unicode.psd_utf8_encode cp) <= 3)%nat.
Proof.
  intros cp H. unfold Unicode.psd_utf8_encode.
  destruct (cp <=? 0x7F); [cbn; lia|].
  destruct (cp <=? 0x7FF); [cbn; lia|].
  destruct (cp <=? 0xFFFF) eqn:E; [cbn; lia|].
  apply Z.leb_gt in E. lia.
Qed.

(** Every entry of the MacRoman table is a scalar value of the Basic
    Multilingual Plane. *)
Lemma macroman_code_point_scalar :
  forall b, is_byte b ->
    is_scalar_value (Unicode.macroman_code_point b) = true /\
    Unicode.macroman_code_point b <= 0xFFFF.
Proof.
  intros b Hb. unfold is_byte in Hb. unfold Unicode.macroman_code_point.
  destruct (b <? 0x80) eqn:E.
  - apply Z.ltb_lt in E. split; [|lia].
    unfold is_scalar_value.
    replace (0 <=? b) with true by (symmetry; apply Z.leb_le; lia).
    replace (b <=? 0x10FFFF) with true by (symmetry; apply Z.leb_le; lia).
    replace (0xD800 <=? b) with false by (symmetry; apply Z.leb_gt; lia).
    reflexivity.
  - apply Z.ltb_ge in E.
    assert (Hall : forallb (fun cp => is_scalar_value cp && (cp <=? 0xFFFF))
                           Unicode.psd_macroman_map = true)
      by (vm_compute; reflexivity).
    rewrite forallb_forall in Hall.
    assert (Hin : In (nth (Z.to_nat (b - 0x80)) Unicode.psd_macroman_map 0)
                     Unicode.psd_macroman_map).
    { apply nth_In. change (length Unicode.psd_macroman_map) with 128%nat. lia. }
    specialize (Hall _ Hin). apply andb_true_iff in Hall.
    destruct Hall as [H1 H2]. apply Z.leb_le in H2. split; assumption.
Qed.

Lemma macroman_loop_complete :
  forall alloc_cap rest pre out,
    Forall is_byte rest ->
    Z.of_nat (length out) + 3 * Z.of_nat (length rest) + 1 <= alloc_cap ->
    Unicode.macroman_loop (length rest) (pre ++ rest) (length pre) alloc_cap
                          out =
    out ++ flat_map (fun b => Unicode.psd_utf8_encode
                                (Unicode.macroman_code_point b)) rest.
Proof.
  intros cap rest. induction rest as [|b rest IH]; intros pre out Hb Hcap.
  - cbn. now rewrite app_nil_r.
  - inversion Hb as [|? ? Hb0 Hrest]; subst.
    cbn [length Unicode.macroman_loop flat_map].
    rewrite byte_at_middle.
    destruct (macroman_code_point_scalar b Hb0) as [_ Hle].
    pose proof (psd_utf8_encode_length_bmp _ Hle) as Hlen.
    cbn [length] in Hcap.
    destruct (_ >? cap) eqn:E.
    { apply Z.gtb_lt in E. lia. }
    replace (pre ++ b :: rest) with ((pre ++ [b]) ++ rest)
      by (rewrite <- app_assoc; reflexivity).
    replace (S (length pre)) with (length (pre ++ [b]))
      by (rewrite length_app; cbn; lia).
    rewrite IH; [now rewrite <- app_assoc | assumption |].
    rewrite length_app. lia.
Qed.

Lemma flat_map_encode_length :
  forall (f : Z -> Z) l,
    Forall (fun b => f b <= 0xFFFF) l ->
    (length l <= length (flat_map (fun b => Unicode.psd_utf8_encode (f b)) l)
     <= 3 * length l)%nat.
Proof.
  intros f l H. induction H as [|b l Hb Hl IH]; [cbn; lia|].
  cbn [flat_map length]. rewrite length_app.
  pose proof (psd_utf8_encode_length (f b)).
  pose proof (psd_utf8_encode_length_bmp (f b) Hb). lia.
Qed.

(** X2. MacRoman names are converted completely: for a non-empty name of
    bytes (and an allocator that grants the buffer) [psd_macroman_to_utf8]
    never leaves its loop early, the NUL-terminated result is well-formed
    UTF-8 that decodes to one code point per input byte, namely its table
    entry, the reported length lies between one and three times the input
    length, and a pure ASCII name comes back unchanged. *)
Theorem psd_macroman_to_utf8_complete :
  forall alloc size_max bytes,
    (0 < length bytes)%nat ->
    all_bytes bytes = true ->
    Z.of_nat (length bytes) * 3 + 1 <= size_max ->
    malloc_ok alloc (Z.of_nat (length bytes) * 3 + 1) = true ->
    exists out,
      Unicode.psd_macroman_to_utf8 alloc size_max (Some bytes)
                                   (Z.of_nat (length bytes)) =
        (Some (out ++ [0]), Z.of_nat (length out)) /\
      utf8_decode out = Some (map Unicode.macroman_code_point bytes) /\
      (length bytes <= length out <= 3 * length bytes)%nat /\
      (forallb (fun b => b <? 0x80) bytes = true -> out = bytes).
Proof.
  intros alloc size_max bytes Hlen Hall Hsize Hgrant.
  apply all_bytes_Forall in Hall.
  set (enc := fun b => Unicode.psd_utf8_encode (Unicode.macroman_code_point b)).
  exists (flat_map enc bytes).
  split; [|split; [|split]].
  - unfold Unicode.psd_macroman_to_utf8, Unicode.size_t_cast.
    destruct (Z.of_nat (length bytes) =? 0) eqn:E0;
      [apply Z.eqb_eq in E0; lia|].
    rewrite Z.mod_small by lia. rewrite Hgrant. cbn [negb].
    rewrite Nat2Z.id.
    pose proof (macroman_loop_complete
                  (Z.of_nat (length bytes) * 3 + 1) bytes [] [] Hall) as Hloop.
    cbn [app length] in Hloop. rewrite Hloop by lia. reflexivity.
  - rewrite flat_map_concat_map.
    rewrite <- (map_map Unicode.macroman_code_point Unicode.psd_utf8_encode).
    rewrite <- flat_map_concat_map. apply utf8_decode_flat_map.
    rewrite forallb_forall. intros cp Hin. apply in_map_iff in Hin.
    destruct Hin as [b [<- Hb]]. rewrite Forall_forall in Hall.
    apply macroman_code_point_scalar. apply Hall. assumption.
  - apply flat_map_encode_length.
    eapply Forall_impl; [|exact Hall].
    intros b Hb. apply macroman_code_point_scalar. assumption.
  - intros Hascii. clear - Hascii Hall. subst enc.
    induction bytes as [|b bytes IH]; [reflexivity|].
    cbn [forallb] in Hascii. apply andb_true_iff in Hascii.
    destruct Hascii as [Hb Hrest]. inversion Hall as [|? ? Hb0 Hall']; subst.
    cbn [flat_map]. rewrite IH by assumption.
    unfold Unicode.macroman_code_point. rewrite Hb.
    apply Z.ltb_lt in Hb. unfold is_byte in Hb0.
    unfold Unicode.psd_utf8_encode.
    replace (b <=? 0x7F) with true by (symmetry; apply Z.leb_le; lia).
    unfold u8. rewrite Z.mod_small by lia. reflexivity.
Qed.

Lemma psd_macroman_to_utf8_complete_witness :
  exists out,
    Unicode.psd_macroman_to_utf8 always_grant SIZE_MAX_64
                                 (Some [0x43; 0x61; 0x66; 0x8E]) 4 =
      (Some (out ++ [0]), Z.of_nat (length out)) /\
    utf8_decode out =
      Some (map Unicode.macroman_code_point [0x43; 0x61; 0x66; 0x8E]) /\
    (4 <= length out <= 12)%nat /\
    (forallb (fun b => b <? 0x80) [0x43; 0x61; 0x66; 0x8E] = true ->
     out = [0x43; 0x61; 0x66; 0x8E]).
Proof.
  apply (psd_macroman_to_utf8_complete always_grant SIZE_MAX_64
                                       [0x43; 0x61; 0x66; 0x8E]).
  - cbn. lia.
  - reflexivity.
  - unfold SIZE_MAX_64. cbn. lia.
  - reflexivity.
Defined.

(** The code point of a surrogate pair, as a number. *)
Lemma surrogate_pair_value :
  forall w1 w2,
    0xD800 <= w1 <= 0xDBFF -> 0xDC00 <= w2 <= 0xDFFF ->
    u32 (0x10000 + Z.lor (u32 (Z.shiftl (w1 - 0xD800) 10)) (w2 - 0xDC00)) =
    0x10000 + (w1 - 0xD800) * 1024 + (w2 - 0xDC00).
Proof.
  intros w1 w2 H1 H2. unfold u32.
  rewrite Z.shiftl_mul_pow2 by lia. change (2 ^ 10) with 1024.
  rewrite (Z.mod_small ((w1 - 0xD800) * 1024)) by lia.
  change 1024 with (2 ^ 10).
  rewrite lor_prefix by (change (2 ^ 10) with 1024; lia).
  change (2 ^ 10) with 1024. rewrite Z.mod_small by lia. lia.
Qed.

Lemma is_scalar_value_intro :
  forall cp,
    0 <= cp <= 0x10FFFF -> (cp < 0xD800 \/ 0xDFFF < cp) ->
    is_scalar_value cp = true.
Proof.
  intros cp H1 H2. unfold is_scalar_value.
  replace (0 <=? cp) with true by (symmetry; apply Z.leb_le; lia).
  replace (cp <=? 0x10FFFF) with true by (symmetry; apply Z.leb_le; lia).
  cbn [andb]. apply negb_true_iff. apply andb_false_iff.
  destruct H2; [left | right]; apply Z.leb_gt; lia.
Qed.

(** The loop of [psd_utf16be_to_utf8] on arbitrary bytes: it ends, what it
    appends is the encoding of scalar values only, and it appends at most
    two bytes for each input byte it consumes. *)
Lemma utf16_loop_well_formed :
  forall input in_bytes,
    Forall is_byte input ->
    forall fuel i out,
      0 <= i <= in_bytes ->
      (Z.to_nat (in_bytes - i) < fuel)%nat ->
      exists cps,
        Unicode.utf16_loop fuel input in_bytes i out =
          Some (out ++ flat_map Unicode.psd_utf8_encode cps) /\
        forallb is_scalar_value cps = true /\
        Z.of_nat (length (flat_map Unicode.psd_utf8_encode cps))
          <= 4 * ((in_bytes - i) / 2).
Proof.
  intros input in_bytes Hb.
  induction fuel as [|fuel IH]; intros i out Hi Hfuel; [lia|].
  cbn [Unicode.utf16_loop].
  destruct (i + 1 <? in_bytes) eqn:E.
  2: { exists []. cbn [flat_map length forallb]. rewrite app_nil_r.
       split; [reflexivity|]. split; [reflexivity|]. div_lia. }
  apply Z.ltb_lt in E.
  pose proof (read_be_u16_range input (Z.to_nat i) Hb) as Hw1.
  set (w1 := read_be_u16 input (Z.to_nat i)) in *.
  rewrite ?Z.geb_leb, ?Z.gtb_ltb.
  destruct ((0xD800 <=? w1) && (w1 <=? 0xDBFF) && (i + 2 + 1 <? in_bytes))
    eqn:Ehigh.
  - bool_to_prop. destruct Ehigh as [[Hlo Hhi] Hroom].
    pose proof (read_be_u16_range input (Z.to_nat (i + 2)) Hb) as Hw2.
    set (w2 := read_be_u16 input (Z.to_nat (i + 2))) in *.
    destruct ((0xDC00 <=? w2) && (w2 <=? 0xDFFF)) eqn:Elow.
    + bool_to_prop. destruct Elow as [Hlo2 Hhi2].
      rewrite surrogate_pair_value by lia.
      set (cp := 0x10000 + (w1 - 0xD800) * 1024 + (w2 - 0xDC00)).
      destruct (IH (i + 2 + 2) (out ++ Unicode.psd_utf8_encode cp))
        as [cps [Hrun [Hsc Hlen]]]; [lia | lia |].
      exists (cp :: cps). rewrite Hrun. cbn [flat_map forallb].
      rewrite <- app_assoc. split; [reflexivity|]. split.
      * rewrite Hsc. rewrite is_scalar_value_intro by (subst cp; lia).
        reflexivity.
      * rewrite length_app.
        pose proof (psd_utf8_encode_length cp). div_lia.
    + destruct (IH (i + 2) (out ++ Unicode.psd_utf8_encode 0xFFFD))
        as [cps [Hrun [Hsc Hlen]]]; [lia | lia |].
      exists (0xFFFD :: cps). rewrite Hrun. cbn [flat_map forallb].
      rewrite <- app_assoc. split; [reflexivity|]. split.
      * rewrite Hsc. reflexivity.
      * rewrite length_app.
        pose proof (psd_utf8_encode_length_bmp 0xFFFD ltac:(lia)). div_lia.
  - destruct ((w1 <? 0xD800) || (0xDFFF <? w1)) eqn:Eplain.
    + bool_to_prop.
      destruct (IH (i + 2) (out ++ Unicode.psd_utf8_encode w1))
        as [cps [Hrun [Hsc Hlen]]]; [lia | lia |].
      exists (w1 :: cps). rewrite Hrun. cbn [flat_map forallb].
      rewrite <- app_assoc. split; [reflexivity|]. split.
      * rewrite Hsc. rewrite is_scalar_value_intro by lia. reflexivity.
      * rewrite length_app.
        pose proof (psd_utf8_encode_length_bmp w1 ltac:(lia)). div_lia.
    + destruct (IH (i + 2) (out ++ Unicode.psd_utf8_encode 0xFFFD))
        as [cps [Hrun [Hsc Hlen]]]; [lia | lia |].
      exists (0xFFFD :: cps). rewrite Hrun. cbn [flat_map forallb].
      rewrite <- app_assoc. split; [reflexivity|]. split.
      * rewrite Hsc. reflexivity.
      * rewrite length_app.
        pose proof (psd_utf8_encode_length_bmp 0xFFFD ltac:(lia)). div_lia.
Qed.

(** X3. Whatever bytes [psd_utf16be_to_utf8] is given (unpaired surrogates
    and an odd trailing byte included), with an allocator that grants the
    buffer it returns NUL-terminated, well-formed UTF-8 that decodes to
    Unicode scalar values only, and the bytes it stores, terminator
    included, fit the [(in_bytes / 2) * 4 + 1] bytes it allocated, although
    the loop never compares against that capacity. *)
Theorem psd_utf16be_to_utf8_well_formed :
  forall alloc size_max input,
    all_bytes input = true ->
    Z.of_nat (length input) / 2 * 4 + 1 <= size_max ->
    malloc_ok alloc (Z.of_nat (length input) / 2 * 4 + 1) = true ->
    exists out cps,
      Unicode.psd_utf16be_to_utf8 alloc size_max input
                                  (Z.of_nat (length input)) =
        Some (Some (out ++ [0]), Some (Z.of_nat (length out))) /\
      utf8_decode out = Some cps /\
      forallb is_scalar_value cps = true /\
      Z.of_nat (length (out ++ [0])) <= Z.of_nat (length input) / 2 * 4 + 1.
Proof.
  intros alloc size_max input Hall Hsize Hgrant.
  apply all_bytes_Forall in Hall.
  set (n := Z.of_nat (length input)) in *.
  assert (Hn : 0 <= n) by (subst n; lia).
  destruct (utf16_loop_well_formed input n Hall (S (Z.to_nat n)) 0 [])
    as [cps [Hrun [Hsc Hlen]]]; [lia | lia |].
  cbn [app] in Hrun.
  exists (flat_map Unicode.psd_utf8_encode cps), cps.
  unfold Unicode.psd_utf16be_to_utf8, Unicode.size_t_cast.
  rewrite Z.quot_div_nonneg by lia.
  assert (0 <= n / 2) by (apply Z.div_pos; lia).
  rewrite (Z.mod_small (n / 2 * 4)) by lia.
  rewrite Z.mod_small by lia.
  rewrite Hgrant. cbn [negb]. rewrite Hrun.
  split; [reflexivity|]. split; [apply utf8_decode_flat_map; assumption|].
  split; [assumption|].
  rewrite length_app. cbn [length]. rewrite Z.sub_0_r in Hlen. lia.
Qed.

Lemma psd_utf16be_to_utf8_well_formed_witness :
  exists out cps,
    Unicode.psd_utf16be_to_utf8 always_grant SIZE_MAX_64
                                [0x00; 0x41; 0xD8; 0x00; 0xDC; 0x00; 0xD8] 7 =
      Some (Some (out ++ [0]), Some (Z.of_nat (length out))) /\
    utf8_decode out = Some cps /\
    forallb is_scalar_value cps = true /\
    Z.of_nat (length (out ++ [0])) <= 7 / 2 * 4 + 1.
Proof.
  apply (psd_utf16be_to_utf8_well_formed
           always_grant SIZE_MAX_64
           [0x00; 0x41; 0xD8; 0x00; 0xDC; 0x00; 0xD8]).
  - reflexivity.
  - vm_compute. discriminate.
  - reflexivity.
Defined.

(** X1. [psd_utf8_encode] and strict UTF-8 decoding: for every code point
    up to U+10FFFF the bytes it stores decode back to that code point when
    it is a Unicode scalar value; for a surrogate (U+D800..U+DFFF) it still
    stores three bytes, which no strict decoder accepts. *)
Theorem psd_utf8_encode_roundtrip :
  forall cp,
    0 <= cp <= 0x10FFFF ->
    utf8_decode (Unicode.psd_utf8_encode cp) =
    if is_scalar_value cp then Some [cp] else None.
Proof.
  intros cp Hcp.
  destruct (is_scalar_value cp) eqn:Hs.
  - rewrite <- (app_nil_r (Unicode.psd_utf8_encode cp)).
    rewrite utf8_decode_encode by assumption. reflexivity.
  - unfold is_scalar_value in Hs.
    replace (0 <=? cp) with true in Hs by (symmetry; apply Z.leb_le; lia).
    replace (cp <=? 0x10FFFF) with true in Hs
      by (symmetry; apply Z.leb_le; lia).
    cbn [andb] in Hs. apply negb_false_iff in Hs.
    apply andb_true_iff in Hs. destruct Hs as [Hlo Hhi].
    apply Z.leb_le in Hlo. apply Z.leb_le in Hhi.
    rewrite psd_utf8_encode_value by lia.
    replace (cp <=? 0x7F) with false by (symmetry; apply Z.leb_gt; lia).
    replace (cp <=? 0x7FF) with false by (symmetry; apply Z.leb_gt; lia).
    replace (cp <=? 0xFFFF) with true by (symmetry; apply Z.leb_le; lia).
    cbn [utf8_decode].
    set (b0 := 224 + cp / 4096). set (b1 := 128 + (cp / 64) mod 64).
    set (b2 := 128 + cp mod 64).
    assert (Hb0 : 0xE0 <= b0 <= 0xEF) by (subst b0; div_lia).
    replace ((0 <=? b0) && (b0 <=? 0x7F)) with false
      by (symmetry; apply andb_false_iff; right; apply Z.leb_gt; lia).
    replace ((0xC2 <=? b0) && (b0 <=? 0xDF)) with false
      by (symmetry; apply andb_false_iff; right; apply Z.leb_gt; lia).
    replace ((0xE0 <=? b0) && (b0 <=? 0xEF)) with true
      by (symmetry; apply andb_true_iff; split; apply Z.leb_le; lia).
    replace ((b0 - 0xE0) * 4096 + (b1 - 0x80) * 64 + (b2 - 0x80)) with cp
      by (subst b0 b1 b2; div_lia).
    replace (is_scalar_value cp) with false.
    + rewrite !andb_false_r. reflexivity.
    + symmetry. unfold is_scalar_value.
      replace (0xD800 <=? cp) with true by (symmetry; apply Z.leb_le; lia).
      replace (cp <=? 0xDFFF) with true by (symmetry; apply Z.leb_le; lia).
      apply andb_false_r.
Qed.

Lemma psd_utf8_encode_roundtrip_witness :
  utf8_decode (Unicode.psd_utf8_encode 0x20AC) =
  if is_scalar_value 0x20AC then Some [0x20AC] else None.
Proof. apply (psd_utf8_encode_roundtrip 0x20AC). lia. Defined.

Lemma read_be_u16_be16_bytes :
  forall pre w rest,
    0 <= w < 65536 ->
    read_be_u16 (pre ++ be16_bytes w ++ rest) (length pre) = w.
Proof.
  intros pre w rest Hw. unfold read_be_u16, be16_bytes. cbn [app].
  rewrite byte_at_middle.
  replace (pre ++ w / 256 :: w mod 256 :: rest)
    with ((pre ++ [w / 256]) ++ w mod 256 :: rest)
    by (rewrite <- app_assoc; reflexivity).
  replace (length pre + 1)%nat with (length (pre ++ [w / 256]))
    by (rewrite length_app; reflexivity).
  rewrite byte_at_middle.
  unfold u16. rewrite Z.shiftl_mul_pow2 by lia. change (2 ^ 8) with 256.
  rewrite Z.mod_small by div_lia.
  change 256 with (2 ^ 8) at 2.
  rewrite lor_prefix by (change (2 ^ 8) with 256; div_lia).
  change (2 ^ 8) with 256. div_lia.
Qed.

Lemma utf16be_encode_one_length :
  forall cp,
    length (utf16be_encode_one cp) = if cp <? 0x10000 then 2%nat else 4%nat.
Proof.
  intros cp. unfold utf16be_encode_one. destruct (cp <? 0x10000); reflexivity.
Qed.

Lemma utf16_loop_encoded :
  forall cps fuel pre out,
    forallb is_scalar_value cps = true ->
    (length (utf16be_encode cps) < fuel)%nat ->
    Unicode.utf16_loop fuel (pre ++ utf16be_encode cps)
                       (Z.of_nat (length pre + length (utf16be_encode cps)))
                       (Z.of_nat (length pre)) out =
    Some (out ++ flat_map Unicode.psd_utf8_encode cps).
Proof.
  induction cps as [|cp cps IH]; intros fuel pre out Hsc Hfuel.
  - destruct fuel; [cbn in Hfuel; lia|]. cbn [Unicode.utf16_loop].
    cbn [utf16be_encode flat_map length].
    replace (Z.of_nat (length pre) + 1 <? Z.of_nat (length pre + 0)) with false
      by (symmetry; apply Z.ltb_ge; lia).
    now rewrite app_nil_r.
  - cbn [forallb] in Hsc. apply andb_true_iff in Hsc.
    destruct Hsc as [Hcp Hcps].
    unfold utf16be_encode in *. cbn [flat_map] in *.
    fold (utf16be_encode cps) in *.
    rewrite length_app in Hfuel |- *.
    pose proof (utf16be_encode_one_length cp) as Hone.
    destruct fuel as [|fuel]; [lia|]. cbn [Unicode.utf16_loop].
    rewrite ?Z.geb_leb, ?Z.gtb_ltb.
    unfold is_scalar_value in Hcp. bool_to_prop.
    destruct Hcp as [[Hcp0 Hcp1] Hcp2].
    set (rest := utf16be_encode cps) in *.
    rewrite Nat2Z.id.
    destruct (cp <? 0x10000) eqn:Ebmp.
    + apply Z.ltb_lt in Ebmp.
      assert (Hsame : utf16be_encode_one cp = be16_bytes cp)
        by (unfold utf16be_encode_one;
            replace (cp <? 0x10000) with true
              by (symmetry; apply Z.ltb_lt; lia); reflexivity).
      rewrite Hsame in *. clear Hsame.
      set (n := Z.of_nat (length pre + (length (be16_bytes cp)
                                        + length rest))).
      assert (Hn : n = Z.of_nat (length pre) + 2 + Z.of_nat (length rest))
        by (subst n; lia).
      rewrite <- ?app_assoc. rewrite read_be_u16_be16_bytes by lia.
      replace (Z.of_nat (length pre) + 1 <? n) with true
        by (symmetry; apply Z.ltb_lt; lia).
      replace ((0xD800 <=? cp) && (cp <=? 0xDBFF)) with false
        by (symmetry; apply andb_false_iff;
            destruct Hcp2 as [H | H]; [left | right]; apply Z.leb_gt; lia).
      cbn [andb].
      replace ((cp <? 0xD800) || (0xDFFF <? cp)) with true
        by (symmetry; apply orb_true_iff;
            destruct Hcp2 as [H | H]; [left | right]; apply Z.ltb_lt; lia).
      rewrite app_assoc.
      replace (Z.of_nat (length pre) + 2)
        with (Z.of_nat (length (pre ++ be16_bytes cp)))
        by (rewrite length_app; lia).
      replace n
        with (Z.of_nat (length (pre ++ be16_bytes cp) + length rest))
        by (rewrite length_app; lia).
      rewrite IH by (try assumption; lia).
      cbn [flat_map]. now rewrite <- app_assoc.
    + apply Z.ltb_ge in Ebmp.
      set (hi := 0xD800 + (cp - 0x10000) / 1024) in *.
      set (lo := 0xDC00 + (cp - 0x10000) mod 1024) in *.
      assert (Hhi : 0xD800 <= hi <= 0xDBFF) by (subst hi; div_lia).
      assert (Hlo : 0xDC00 <= lo <= 0xDFFF) by (subst lo; div_lia).
      assert (Hsame : utf16be_encode_one cp = be16_bytes hi ++ be16_bytes lo)
        by (unfold utf16be_encode_one;
            replace (cp <? 0x10000) with false
              by (symmetry; apply Z.ltb_ge; lia); reflexivity).
      rewrite Hsame in *. clear Hsame.
      assert (H2 : forall w, length (be16_bytes w) = 2%nat) by reflexivity.
      set (n := Z.of_nat (length pre + (length (be16_bytes hi ++ be16_bytes lo)
                                        + length rest))).
      assert (Hn : n = Z.of_nat (length pre) + 4 + Z.of_nat (length rest))
        by (subst n; lia).
      rewrite <- ?app_assoc. rewrite read_be_u16_be16_bytes by lia.
      replace (Z.of_nat (length pre) + 1 <? n) with true
        by (symmetry; apply Z.ltb_lt; lia).
      replace ((0xD800 <=? hi) && (hi <=? 0xDBFF)) with true
        by (symmetry; apply andb_true_iff; split; apply Z.leb_le; lia).
      replace (Z.of_nat (length pre) + 2 + 1 <? n) with true
        by (symmetry; apply Z.ltb_lt; lia).
      cbn [andb].
      replace (Z.to_nat (Z.of_nat (length pre) + 2))
        with (length (pre ++ be16_bytes hi))
        by (rewrite length_app, H2; lia).
      rewrite (app_assoc pre (be16_bytes hi)).
      rewrite read_be_u16_be16_bytes by lia.
      replace ((0xDC00 <=? lo) && (lo <=? 0xDFFF)) with true
        by (symmetry; apply andb_true_iff; split; apply Z.leb_le; lia).
      rewrite surrogate_pair_value by lia.
      replace (0x10000 + (hi - 0xD800) * 1024 + (lo - 0xDC00)) with cp
        by (subst hi lo; div_lia).
      rewrite (app_assoc _ (be16_bytes lo)).
      replace (Z.of_nat (length pre) + 2 + 2)
        with (Z.of_nat (length ((pre ++ be16_bytes hi) ++ be16_bytes lo)))
        by (rewrite !length_app, !H2; lia).
      replace n
        with (Z.of_nat (length ((pre ++ be16_bytes hi) ++ be16_bytes lo)
                        + length rest))
        by (rewrite !length_app, !H2; lia).
      rewrite IH by (try assumption; lia).
      cbn [flat_map]. now rewrite <- app_assoc.
Qed.

Lemma utf16be_encode_even :
  forall cps, exists k, length (utf16be_encode cps) = (2 * k)%nat.
Proof.
  induction cps as [|cp cps [k Hk]]; [exists 0%nat; reflexivity|].
  unfold utf16be_encode in *. cbn [flat_map]. rewrite length_app, Hk.
  rewrite utf16be_encode_one_length.
  destruct (cp <? 0x10000); [exists (1 + k)%nat | exists (2 + k)%nat]; lia.
Qed.

(** X4. Text that is well-formed UTF-16BE survives the conversion: for any
    list of Unicode scalar values, [psd_utf16be_to_utf8] applied to their
    UTF-16BE encoding (surrogate pairs above U+FFFF) returns UTF-8 that
    decodes to the same list. *)
Theorem psd_utf16be_to_utf8_roundtrip :
  forall alloc size_max cps,
    forallb is_scalar_value cps = true ->
    Z.of_nat (length (utf16be_encode cps)) * 2 + 1 <= size_max ->
    malloc_ok alloc (Z.of_nat (length (utf16be_encode cps)) * 2 + 1) = true ->
    exists out,
      Unicode.psd_utf16be_to_utf8 alloc size_max (utf16be_encode cps)
                                  (Z.of_nat (length (utf16be_encode cps))) =
        Some (Some (out ++ [0]), Some (Z.of_nat (length out))) /\
      utf8_decode out = Some cps.
Proof.
  intros alloc size_max cps Hsc Hsize Hgrant.
  exists (flat_map Unicode.psd_utf8_encode cps).
  split; [|apply utf8_decode_flat_map; assumption].
  unfold Unicode.psd_utf16be_to_utf8, Unicode.size_t_cast.
  destruct (utf16be_encode_even cps) as [k Hk].
  set (input := utf16be_encode cps) in *.
  rewrite Z.quot_div_nonneg by lia.
  assert (Hhalf : Z.of_nat (length input) / 2 * 4
                  = Z.of_nat (length input) * 2) by (rewrite Hk; div_lia).
  rewrite Hhalf. rewrite (Z.mod_small (_ * 2)) by lia.
  rewrite Z.mod_small by lia. rewrite Hgrant. cbn [negb].
  pose proof (utf16_loop_encoded cps (S (Z.to_nat (Z.of_nat (length input))))
                                 [] [] Hsc) as Hrun.
  cbn [app length Nat.add] in Hrun. fold input in Hrun.
  change (Z.of_nat 0) with 0 in Hrun.
  rewrite Hrun by lia. reflexivity.
Qed.

Lemma psd_utf16be_to_utf8_roundtrip_witness :
  exists out,
    Unicode.psd_utf16be_to_utf8 always_grant SIZE_MAX_64
                                (utf16be_encode [0x41; 0x20AC; 0x1F600])
                                8 =
      Some (Some (out ++ [0]), Some (Z.of_nat (length out))) /\
    utf8_decode out = Some [0x41; 0x20AC; 0x1F600].
Proof.
  apply (psd_utf16be_to_utf8_roundtrip always_grant SIZE_MAX_64
                                       [0x41; 0x20AC; 0x1F600]).
  - reflexivity.
  - vm_compute. discriminate.
  - reflexivity.
Defined.

(** *** Byte order *)

Lemma lor_add_disjoint :
  forall a b n,
    0 <= n -> a mod 2 ^ n = 0 -> 0 <= b < 2 ^ n -> Z.lor a b = a + b.
Proof.
  intros a b n Hn Ha Hb.
  assert (H2 : 0 < 2 ^ n) by (apply Z.pow_pos_nonneg; lia).
  rewrite (Z.div_mod a (2 ^ n)) by lia. rewrite Ha, Z.add_0_r.
  rewrite (Z.mul_comm (2 ^ n)).
  rewrite <- Z.shiftl_mul_pow2 by assumption.
  rewrite lor_shiftl_add by assumption.
  rewrite Z.shiftl_mul_pow2 by assumption. reflexivity.
Qed.

(** Masking one byte out of a value. *)
Lemma land_byte_mask :
  forall v s, 0 <= s ->
    Z.land v (255 * 2 ^ s) = ((v / 2 ^ s) mod 256) * 2 ^ s.
Proof.
  intros v s Hs.
  rewrite <- !Z.shiftl_mul_pow2 by assumption.
  rewrite <- Z.shiftr_div_pow2 by assumption.
  change 256 with (2 ^ 8). rewrite <- Z.land_ones by lia.
  change (Z.ones 8) with 255.
  apply Z.bits_inj'. intros i Hi.
  rewrite Z.land_spec.
  destruct (Z.lt_ge_cases i s) as [Hlt | Hge].
  - rewrite !Z.shiftl_spec_low by assumption. apply andb_false_r.
  - rewrite !Z.shiftl_spec by assumption.
    rewrite Z.land_spec, Z.shiftr_spec by lia.
    replace (i - s + s) with i by lia. reflexivity.
Qed.

Lemma psd_swap16_value :
  forall v, 0 <= v ->
    Endian.psd_swap16 v = Endian.load_le (rev (Endian.store_le 2 v)).
Proof.
  intros v Hv. unfold Endian.psd_swap16, u16.
  cbn [Endian.store_le rev app Endian.load_le].
  change 0xFF with (Z.ones 8). rewrite !Z.land_ones by lia.
  rewrite Z.shiftr_div_pow2, Z.shiftl_mul_pow2 by lia.
  change (2 ^ 8) with 256.
  set (d0 := v mod 256). set (d1 := (v / 256) mod 256).
  assert (H0 : 0 <= d0 < 256) by (subst d0; apply Z.mod_pos_bound; lia).
  assert (H1 : 0 <= d1 < 256) by (subst d1; apply Z.mod_pos_bound; lia).
  clearbody d0 d1.
  rewrite (lor_add_disjoint _ _ 8) by (change (2 ^ 8) with 256; div_lia).
  rewrite Z.mod_small by lia. lia.
Qed.

Lemma psd_swap32_value :
  forall v, 0 <= v ->
    Endian.psd_swap32 v = Endian.load_le (rev (Endian.store_le 4 v)).
Proof.
  intros v Hv. unfold Endian.psd_swap32, u32.
  cbn [Endian.store_le rev app Endian.load_le].
  change 0xFF0000 with (255 * 2 ^ 16). change 0xFF00 with (255 * 2 ^ 8).
  rewrite !land_byte_mask by lia.
  change 0xFF with (Z.ones 8). rewrite !Z.land_ones by lia.
  rewrite !Z.shiftr_div_pow2, !Z.shiftl_mul_pow2 by lia.
  change (2 ^ 8) with 256. change (2 ^ 16) with (256 * 256).
  change (2 ^ 24) with (256 * 256 * 256).
  rewrite <- !Z.div_div by lia.
  set (d0 := v mod 256). set (d1 := (v / 256) mod 256).
  set (d2 := (v / 256 / 256) mod 256).
  set (d3 := (v / 256 / 256 / 256) mod 256).
  assert (H0 : 0 <= d0 < 256) by (subst d0; apply Z.mod_pos_bound; lia).
  assert (H1 : 0 <= d1 < 256) by (subst d1; apply Z.mod_pos_bound; lia).
  assert (H2 : 0 <= d2 < 256) by (subst d2; apply Z.mod_pos_bound; lia).
  assert (H3 : 0 <= d3 < 256) by (subst d3; apply Z.mod_pos_bound; lia).
  clearbody d0 d1 d2 d3.
  rewrite (Z.mod_small (d0 * _)) by lia.
  rewrite (Z.mod_small (d1 * _ * _)) by lia.
  replace (d2 * (256 * 256) / 256) with (d2 * 256) by div_lia.
  rewrite (lor_add_disjoint (d0 * _) _ 24)
    by (change (2 ^ 24) with 16777216; div_lia).
  rewrite (lor_add_disjoint (_ + _) (d2 * 256) 16)
    by (change (2 ^ 16) with 65536; div_lia).
  rewrite (lor_add_disjoint _ d3 8) by (change (2 ^ 8) with 256; div_lia).
  lia.
Qed.

Lemma psd_swap64_value :
  forall v, 0 <= v ->
    Endian.psd_swap64 v = Endian.load_le (rev (Endian.store_le 8 v)).
Proof.
  intros v Hv. unfold Endian.psd_swap64, u64.
  cbn [Endian.store_le rev app Endian.load_le].
  change 0x00000000000000FF with (255 * 2 ^ 0).
  change 0x000000000000FF00 with (255 * 2 ^ 8).
  change 0x0000000000FF0000 with (255 * 2 ^ 16).
  change 0x00000000FF000000 with (255 * 2 ^ 24).
  change 0x000000FF00000000 with (255 * 2 ^ 32).
  change 0x0000FF0000000000 with (255 * 2 ^ 40).
  change 0x00FF000000000000 with (255 * 2 ^ 48).
  change 0xFF00000000000000 with (255 * 2 ^ 56).
  rewrite !land_byte_mask by lia.
  rewrite !Z.shiftr_div_pow2, !Z.shiftl_mul_pow2 by lia.
  change (2 ^ 0) with 1. rewrite Z.div_1_r, Z.mul_1_r.
  replace (v / 2 ^ 8) with (v / 256) by reflexivity.
  replace (v / 2 ^ 16) with (v / 256 / 256)
    by (rewrite !Z.div_div by lia; reflexivity).
  replace (v / 2 ^ 24) with (v / 256 / 256 / 256)
    by (rewrite !Z.div_div by lia; reflexivity).
  replace (v / 2 ^ 32) with (v / 256 / 256 / 256 / 256)
    by (rewrite !Z.div_div by lia; reflexivity).
  replace (v / 2 ^ 40) with (v / 256 / 256 / 256 / 256 / 256)
    by (rewrite !Z.div_div by lia; reflexivity).
  replace (v / 2 ^ 48) with (v / 256 / 256 / 256 / 256 / 256 / 256)
    by (rewrite !Z.div_div by lia; reflexivity).
  replace (v / 2 ^ 56) with (v / 256 / 256 / 256 / 256 / 256 / 256 / 256)
    by (rewrite !Z.div_div by lia; reflexivity).
  set (d0 := v mod 256). set (d1 := (v / 256) mod 256).
  set (d2 := (v / 256 / 256) mod 256).
  set (d3 := (v / 256 / 256 / 256) mod 256).
  set (d4 := (v / 256 / 256 / 256 / 256) mod 256).
  set (d5 := (v / 256 / 256 / 256 / 256 / 256) mod 256).
  set (d6 := (v / 256 / 256 / 256 / 256 / 256 / 256) mod 256).
  set (d7 := (v / 256 / 256 / 256 / 256 / 256 / 256 / 256) mod 256).
  assert (H0 : 0 <= d0 < 256) by (subst d0; apply Z.mod_pos_bound; lia).
  assert (H1 : 0 <= d1 < 256) by (subst d1; apply Z.mod_pos_bound; lia).
  assert (H2 : 0 <= d2 < 256) by (subst d2; apply Z.mod_pos_bound; lia).
  assert (H3 : 0 <= d3 < 256) by (subst d3; apply Z.mod_pos_bound; lia).
  assert (H4 : 0 <= d4 < 256) by (subst d4; apply Z.mod_pos_bound; lia).
  assert (H5 : 0 <= d5 < 256) by (subst d5; apply Z.mod_pos_bound; lia).
  assert (H6 : 0 <= d6 < 256) by (subst d6; apply Z.mod_pos_bound; lia).
  assert (H7 : 0 <= d7 < 256) by (subst d7; apply Z.mod_pos_bound; lia).
  clearbody d0 d1 d2 d3 d4 d5 d6 d7.
  change (2 ^ 8) with 256. change (2 ^ 16) with 65536.
  change (2 ^ 24) with 16777216. change (2 ^ 32) with 4294967296.
  change (2 ^ 40) with 1099511627776. change (2 ^ 48) with 281474976710656.
  change (2 ^ 56) with 72057594037927936.
  change (2 ^ 64) with 18446744073709551616.
  rewrite (Z.mod_small (d0 * _)) by lia.
  rewrite (Z.mod_small (d1 * _ * _)) by lia.
  rewrite (Z.mod_small (d2 * _ * _)) by lia.
  rewrite (Z.mod_small (d3 * _ * _)) by lia.
  replace (d4 * 4294967296 / 256) with (d4 * 16777216) by div_lia.
  replace (d5 * 1099511627776 / 16777216) with (d5 * 65536) by div_lia.
  replace (d6 * 281474976710656 / 1099511627776) with (d6 * 256) by div_lia.
  replace (d7 * 72057594037927936 / 72057594037927936) with d7 by div_lia.
  rewrite (lor_add_disjoint (d0 * _) _ 56)
    by (change (2 ^ 56) with 72057594037927936; div_lia).
  rewrite (lor_add_disjoint (_ + _) (d2 * _ * _) 48)
    by (change (2 ^ 48) with 281474976710656; div_lia).
  rewrite (lor_add_disjoint (_ + _) (d3 * _ * _) 40)
    by (change (2 ^ 40) with 1099511627776; div_lia).
  rewrite (lor_add_disjoint (_ + _) (d4 * _) 32)
    by (change (2 ^ 32) with 4294967296; div_lia).
  rewrite (lor_add_disjoint (_ + _) (d5 * _) 24)
    by (change (2 ^ 24) with 16777216; div_lia).
  rewrite (lor_add_disjoint (_ + _) (d6 * _) 16)
    by (change (2 ^ 16) with 65536; div_lia).
  rewrite (lor_add_disjoint (_ + _) d7 8)
    by (change (2 ^ 8) with 256; div_lia).
  lia.
Qed.

Lemma store_load_le :
  forall bytes,
    Forall is_byte bytes ->
    Endian.store_le (length bytes) (Endian.load_le bytes) = bytes.
Proof.
  induction 1 as [|b rest Hb Hrest IH]; [reflexivity|].
  cbn [length Endian.store_le Endian.load_le]. unfold is_byte in Hb.
  replace ((b + 256 * Endian.load_le rest) mod 256) with b by div_lia.
  replace ((b + 256 * Endian.load_le rest) / 256) with (Endian.load_le rest)
    by div_lia.
  now rewrite IH.
Qed.

Lemma load_le_nonneg :
  forall bytes, Forall is_byte bytes -> 0 <= Endian.load_le bytes.
Proof.
  induction 1 as [|b rest Hb Hrest IH]; [cbn; lia|].
  cbn [Endian.load_le]. unfold is_byte in Hb. lia.
Qed.

Lemma store_le_length : forall n v, length (Endian.store_le n v) = n.
Proof. induction n; intros v; cbn; [reflexivity | now rewrite IHn]. Qed.

Lemma store_le_bytes : forall n v, Forall is_byte (Endian.store_le n v).
Proof.
  induction n; intros v; cbn [Endian.store_le]; constructor.
  - unfold is_byte. apply Z.mod_pos_bound. lia.
  - apply IHn.
Qed.

Lemma load_store_le :
  forall n v, 0 <= v < 256 ^ Z.of_nat n ->
    Endian.load_le (Endian.store_le n v) = v.
Proof.
  induction n as [|n IH]; intros v Hv.
  - cbn in *. lia.
  - cbn [Endian.store_le Endian.load_le].
    rewrite Nat2Z.inj_succ, Z.pow_succ_r in Hv by lia.
    rewrite IH by div_lia. div_lia.
Qed.

Lemma be_value_rev :
  forall bytes, be_value bytes = Endian.load_le (rev bytes).
Proof.
  intros bytes. unfold be_value. rewrite <- fold_left_rev_right.
  induction (rev bytes) as [|b l IH]; [reflexivity|].
  cbn [fold_right Endian.load_le]. rewrite IH. lia.
Qed.

Lemma be_bytes_rev :
  forall n v, be_bytes n v = rev (Endian.store_le n v).
Proof.
  induction n as [|n IH]; intros v; [reflexivity|].
  cbn [be_bytes Endian.store_le rev]. now rewrite IH.
Qed.

Lemma Forall_firstn_bytes :
  forall n (l : list Z), Forall is_byte l -> Forall is_byte (firstn n l).
Proof.
  induction n as [|n IH]; intros l H; [constructor|].
  destruct H as [|x l Hx Hl]; [constructor|].
  cbn [firstn]. constructor; [assumption | apply IH; assumption].
Qed.

(** A host load with the swap of a little-endian host is the big-endian
    number of the bytes. *)
Lemma host_load_swapped :
  forall (swap : Z -> Z) n little buffer,
    (forall v, 0 <= v ->
               swap v = Endian.load_le (rev (Endian.store_le n v))) ->
    Forall is_byte buffer -> (n <= length buffer)%nat ->
    (let value := Endian.host_load little buffer n in
     if little then swap value else value) = be_value (firstn n buffer).
Proof.
  intros swap n little buffer Hswap Hb Hlen. cbv zeta.
  assert (Hf : Forall is_byte (firstn n buffer))
    by (apply Forall_firstn_bytes; assumption).
  rewrite be_value_rev. unfold Endian.host_load.
  destruct little; [|reflexivity].
  rewrite Hswap by (apply load_le_nonneg; assumption).
  replace n with (length (firstn n buffer)) at 1
    by (rewrite length_firstn; lia).
  now rewrite store_load_le.
Qed.

Lemma psd_read_be16_be_value :
  forall little buffer,
    Forall is_byte buffer -> (2 <= length buffer)%nat ->
    Endian.psd_read_be16 little buffer = be_value (firstn 2 buffer).
Proof.
  intros little buffer Hb Hlen.
  apply (host_load_swapped Endian.psd_swap16 2 little buffer
                           psd_swap16_value Hb Hlen).
Qed.

Lemma psd_read_be32_be_value :
  forall little buffer,
    Forall is_byte buffer -> (4 <= length buffer)%nat ->
    Endian.psd_read_be32 little buffer = be_value (firstn 4 buffer).
Proof.
  intros little buffer Hb Hlen.
  apply (host_load_swapped Endian.psd_swap32 4 little buffer
                           psd_swap32_value Hb Hlen).
Qed.

Lemma psd_read_be64_be_value :
  forall little buffer,
    Forall is_byte buffer -> (8 <= length buffer)%nat ->
    Endian.psd_read_be64 little buffer = be_value (firstn 8 buffer).
Proof.
  intros little buffer Hb Hlen.
  apply (host_load_swapped Endian.psd_swap64 8 little buffer
                           psd_swap64_value Hb Hlen).
Qed.

(** X5. The big-endian readers do not depend on the byte order of the
    host: on a little-endian and on a big-endian host alike,
    [psd_read_be16], [psd_read_be32] and [psd_read_be64] return the number
    whose most significant byte is the first byte of the buffer. *)
Theorem psd_read_be_host_independent :
  forall little buffer,
    all_bytes buffer = true ->
    ((2 <= length buffer)%nat ->
     Endian.psd_read_be16 little buffer = be_value (firstn 2 buffer)) /\
    ((4 <= length buffer)%nat ->
     Endian.psd_read_be32 little buffer = be_value (firstn 4 buffer)) /\
    ((8 <= length buffer)%nat ->
     Endian.psd_read_be64 little buffer = be_value (firstn 8 buffer)).
Proof.
  intros little buffer Hb. apply all_bytes_Forall in Hb.
  split; [|split]; intros Hlen.
  - apply psd_read_be16_be_value; assumption.
  - apply psd_read_be32_be_value; assumption.
  - apply psd_read_be64_be_value; assumption.
Qed.

Lemma psd_read_be_host_independent_witness :
  ((2 <= 8)%nat ->
   Endian.psd_read_be16 true [0x38; 0x42; 0x50; 0x53; 0; 1; 2; 3] =
   be_value (firstn 2 [0x38; 0x42; 0x50; 0x53; 0; 1; 2; 3])) /\
  ((4 <= 8)%nat ->
   Endian.psd_read_be32 true [0x38; 0x42; 0x50; 0x53; 0; 1; 2; 3] =
   be_value (firstn 4 [0x38; 0x42; 0x50; 0x53; 0; 1; 2; 3])) /\
  ((8 <= 8)%nat ->
   Endian.psd_read_be64 true [0x38; 0x42; 0x50; 0x53; 0; 1; 2; 3] =
   be_value (firstn 8 [0x38; 0x42; 0x50; 0x53; 0; 1; 2; 3])).
Proof.
  apply (psd_read_be_host_independent true [0x38; 0x42; 0x50; 0x53; 0; 1; 2; 3]).
  reflexivity.
Defined.

Lemma host_store_swapped :
  forall (swap : Z -> Z) n little v,
    (forall v, 0 <= v ->
               swap v = Endian.load_le (rev (Endian.store_le n v))) ->
    0 <= v ->
    Endian.host_store little n (if little then swap v else v) = be_bytes n v.
Proof.
  intros swap n little v Hswap Hv. rewrite be_bytes_rev.
  unfold Endian.host_store. destruct little; [|reflexivity].
  rewrite Hswap by assumption.
  replace n with (length (rev (Endian.store_le n v))) at 1
    by (rewrite length_rev; apply store_le_length).
  apply store_load_le. apply Forall_rev. apply store_le_bytes.
Qed.

Lemma be_value_be_bytes :
  forall n v, 0 <= v < 256 ^ Z.of_nat n -> be_value (be_bytes n v) = v.
Proof.
  intros n v Hv. rewrite be_bytes_rev, be_value_rev, rev_involutive.
  apply load_store_le. assumption.
Qed.

Lemma be_bytes_length : forall n v, length (be_bytes n v) = n.
Proof.
  intros n v. rewrite be_bytes_rev, length_rev. apply store_le_length.
Qed.

Lemma be_bytes_all_bytes : forall n v, all_bytes (be_bytes n v) = true.
Proof.
  intros n v. unfold all_bytes. rewrite forallb_forall. intros x Hx.
  rewrite be_bytes_rev in Hx. apply in_rev in Hx.
  pose proof (store_le_bytes n v) as H. rewrite Forall_forall in H.
  specialize (H x Hx). unfold is_byte in H.
  apply andb_true_iff. split; [apply Z.leb_le | apply Z.ltb_lt]; lia.
Qed.

(** X6. Writing and reading back: on either kind of host
    [psd_write_be16/32/64] store the bytes of the value most significant
    first, and the matching reader returns the value written. *)
Theorem psd_write_be_read_back :
  forall little v,
    0 <= v ->
    (v < 2 ^ 16 ->
     Endian.psd_write_be16 little v = be_bytes 2 v /\
     Endian.psd_read_be16 little (Endian.psd_write_be16 little v) = v) /\
    (v < 2 ^ 32 ->
     Endian.psd_write_be32 little v = be_bytes 4 v /\
     Endian.psd_read_be32 little (Endian.psd_write_be32 little v) = v) /\
    (v < 2 ^ 64 ->
     Endian.psd_write_be64 little v = be_bytes 8 v /\
     Endian.psd_read_be64 little (Endian.psd_write_be64 little v) = v).
Proof.
  intros little v Hv.
  assert (H16 : Endian.psd_write_be16 little v = be_bytes 2 v)
    by (apply (host_store_swapped Endian.psd_swap16 2 little v
                                  psd_swap16_value Hv)).
  assert (H32 : Endian.psd_write_be32 little v = be_bytes 4 v)
    by (apply (host_store_swapped Endian.psd_swap32 4 little v
                                  psd_swap32_value Hv)).
  assert (H64 : Endian.psd_write_be64 little v = be_bytes 8 v)
    by (apply (host_store_swapped Endian.psd_swap64 8 little v
                                  psd_swap64_value Hv)).
  split; [|split]; intros Hlt; (split; [assumption|]).
  - rewrite H16.
    rewrite psd_read_be16_be_value
      by (try apply all_bytes_Forall; try apply be_bytes_all_bytes;
          rewrite be_bytes_length; lia).
    rewrite firstn_all2 by (rewrite be_bytes_length; lia).
    apply be_value_be_bytes. change (256 ^ Z.of_nat 2) with (2 ^ 16). lia.
  - rewrite H32.
    rewrite psd_read_be32_be_value
      by (try apply all_bytes_Forall; try apply be_bytes_all_bytes;
          rewrite be_bytes_length; lia).
    rewrite firstn_all2 by (rewrite be_bytes_length; lia).
    apply be_value_be_bytes. change (256 ^ Z.of_nat 4) with (2 ^ 32). lia.
  - rewrite H64.
    rewrite psd_read_be64_be_value
      by (try apply all_bytes_Forall; try apply be_bytes_all_bytes;
          rewrite be_bytes_length; lia).
    rewrite firstn_all2 by (rewrite be_bytes_length; lia).
    apply be_value_be_bytes. change (256 ^ Z.of_nat 8) with (2 ^ 64). lia.
Qed.

Lemma psd_write_be_read_back_witness :
  (0x3842 < 2 ^ 16 ->
   Endian.psd_write_be16 true 0x3842 = be_bytes 2 0x3842 /\
   Endian.psd_read_be16 true (Endian.psd_write_be16 true 0x3842) = 0x3842) /\
  (0x3842 < 2 ^ 32 ->
   Endian.psd_write_be32 true 0x3842 = be_bytes 4 0x3842 /\
   Endian.psd_read_be32 true (Endian.psd_write_be32 true 0x3842) = 0x3842) /\
  (0x3842 < 2 ^ 64 ->
   Endian.psd_write_be64 true 0x3842 = be_bytes 8 0x3842 /\
   Endian.psd_read_be64 true (Endian.psd_write_be64 true 0x3842) = 0x3842).
Proof. apply (psd_write_be_read_back true 0x3842). lia. Defined.

(** *** Status messages *)

(** X7. [psd_error_string] gives every status code of the library a message
    of its own, with one exception: [PSD_ERR_INVALID_FORMAT] has no entry
    in the table and is reported as ["Unknown error"], like an integer that
    is no status code at all. *)
Theorem psd_error_string_coverage :
  (forall code : Z,
     Parse.psd_error_string code = "Unknown error"%string <->
     (forall s, status_code s = code -> s = PSD_ERR_INVALID_FORMAT)) /\
  (forall s1 s2,
     s1 <> PSD_ERR_INVALID_FORMAT ->
     Parse.psd_error_string (status_code s1) =
     Parse.psd_error_string (status_code s2) ->
     s1 = s2).
Proof.
  split.
  - intros code. split.
    + intros H s Hs. subst code.
      destruct s; try reflexivity; vm_compute in H; discriminate H.
    + intros H. unfold Parse.psd_error_string.
      change Parse.psd_error_messages_count with 402.
      destruct (Z.eqb_spec code (status_code PSD_OK)) as [E | E].
      { specialize (H PSD_OK (eq_sym E)). discriminate H. }
      destruct (code <? 0); [|reflexivity].
      destruct ((- code >=? 0) && (- code <? 402)); [|reflexivity].
      assert (Hall : forall s, s <> PSD_ERR_INVALID_FORMAT ->
                               - code <> - status_code s).
      { intros s Hs Hc. apply Hs. apply H. lia. }
      unfold Parse.psd_error_messages.
      cbn [Parse.message_at].
      repeat match goal with
             | |- context [- code =? ?k] =>
               destruct (Z.eqb_spec (- code) k) as [Ek | Ek];
                 [ exfalso; revert Ek;
                   first [ apply (Hall PSD_OK); discriminate
                         | match k with
                           | - status_code ?s => apply (Hall s); discriminate
                           end ]
                 | clear Ek; cbv iota ]
             end.
      reflexivity.
  - intros s1 s2 Hne H.
    destruct s1; try congruence; destruct s2; try reflexivity;
      vm_compute in H; discriminate H.
Qed.

(** *** The color mode data and image resources sections *)

Lemma stream_step_refl : forall s, stream_wf s -> stream_step s s.
Proof. intros s H. repeat split; [lia | exact H]. Qed.

Lemma stream_step_trans :
  forall s1 s2 s3, stream_step s1 s2 -> stream_step s2 s3 -> stream_step s1 s3.
Proof.
  intros s1 s2 s3 [B1 [P1 W1]] [B2 [P2 W2]].
  repeat split; [congruence | lia | exact W2].
Qed.

Lemma psd_stream_read_step :
  forall s count bytes s',
    stream_wf s ->
    Stream.psd_stream_read s count = (bytes, s') ->
    stream_step s s' /\
    bytes = slice (Stream.buffer s) (Stream.position s)
                  (Stream.position s' - Stream.position s) /\
    length bytes = (Stream.position s' - Stream.position s)%nat /\
    Z.of_nat (length bytes) =
      Z.max 0 (Z.min count (Z.of_nat (length (Stream.buffer s)
                                      - Stream.position s))).
Proof.
  intros s count bytes s' Hwf H. unfold Stream.psd_stream_read in H.
  unfold stream_wf, stream_step in *.
  injection H as <- <-. cbn [Stream.buffer Stream.position].
  set (n := Z.to_nat (Z.min count _)).
  replace (Stream.position s + n - Stream.position s)%nat with n by lia.
  rewrite slice_length. unfold stream_wf. cbn [Stream.buffer Stream.position].
  assert (n <= length (Stream.buffer s) - Stream.position s)%nat
    by (subst n; lia).
  repeat split; try lia.
Qed.

Lemma psd_stream_read_exact_step :
  forall s count st bytes s',
    stream_wf s ->
    Stream.psd_stream_read_exact s count = (st, bytes, s') ->
    stream_step s s' /\
    (st = PSD_OK \/ st = PSD_ERR_STREAM_EOF) /\
    (st = PSD_OK ->
     Z.of_nat (Stream.position s') =
       Z.of_nat (Stream.position s) + Z.max 0 count /\
     bytes = slice (Stream.buffer s) (Stream.position s) (Z.to_nat count)).
Proof.
  intros s count st bytes s' Hwf H. unfold Stream.psd_stream_read_exact in H.
  destruct (count <=? 0) eqn:E0.
  - injection H as <- <- <-. apply Z.leb_le in E0.
    split; [apply stream_step_refl; assumption|].
    split; [left; reflexivity|]. intros _.
    split; [lia|]. replace (Z.to_nat count) with 0%nat by lia. reflexivity.
  - apply Z.leb_gt in E0.
    destruct (Stream.psd_stream_read s count) as [got s1] eqn:Hr.
    destruct (psd_stream_read_step s count got s1 Hwf Hr)
      as [Hstep [Hgot [Hlen Hn]]].
    destruct (Z.of_nat (length got) <? count) eqn:E1;
      injection H as <- <- <-.
    + split; [assumption|]. split; [right; reflexivity|]. discriminate.
    + apply Z.ltb_ge in E1. split; [assumption|].
      split; [left; reflexivity|]. intros _.
      destruct Hstep as [_ [Hpos _]].
      split; [lia|]. rewrite Hgot. f_equal. lia.
Qed.

Lemma read_value_step :
  forall w dec s r s',
    stream_wf s -> 0 < w ->
    Stream.read_value w dec s = (r, s') ->
    stream_step s s' /\
    match r with
    | inl st => st = PSD_ERR_STREAM_EOF
    | inr v =>
      Z.of_nat (Stream.position s') = Z.of_nat (Stream.position s) + w /\
      v = dec (slice (Stream.buffer s) (Stream.position s) (Z.to_nat w))
    end.
Proof.
  intros w dec s r s' Hwf Hw H. unfold Stream.read_value in H.
  destruct (Stream.psd_stream_read_exact s w) as [[st bytes] s1] eqn:He.
  destruct (psd_stream_read_exact_step s w st bytes s1 Hwf He)
    as [Hstep [Hst Hok]].
  destruct Hst as [-> | ->]; injection H as <- <-.
  - split; [assumption|]. destruct (Hok eq_refl) as [Hp ->].
    split; [lia | reflexivity].
  - split; [assumption | reflexivity].
Qed.

Lemma psd_u64_to_size_fits :
  forall bits v data_size,
    0 <= v ->
    Endian.psd_u64_to_size bits v = Some data_size -> data_size = v.
Proof.
  intros bits v data_size Hv H. unfold Endian.psd_u64_to_size in H.
  destruct (bits <? 64); [|congruence].
  destruct (v >? 2 ^ bits - 1) eqn:E; [discriminate|].
  injection H as <-. rewrite Z.gtb_ltb in E. apply Z.ltb_ge in E.
  apply Z.mod_small. lia.
Qed.

(** X8. [psd_parse_color_mode_data] either keeps exactly the bytes that the
    4-byte section length announces and leaves the stream just behind
    them, or keeps nothing: on success the stored length is the announced
    length and the number of bytes retained (no buffer for an empty
    section); on any failure the document is left with no color data and a
    length of zero. *)
Theorem psd_parse_color_mode_data_exact :
  forall allocator size_t_bits stream doc st cd stream',
    stream_wf stream ->
    all_bytes (Stream.buffer stream) = true ->
    Sections.psd_parse_color_mode_data allocator size_t_bits stream doc =
      (st, cd, stream') ->
    let buffer := Stream.buffer stream in
    let pos := Stream.position stream in
    let len := read_be_u32 buffer pos in
    (st = PSD_OK ->
     (pos + 4 + Z.to_nat len <= length buffer)%nat /\
     stream' = Stream.mk_stream buffer (pos + 4 + Z.to_nat len) /\
     color_data_length cd = len /\
     color_data_bytes cd =
       (if len =? 0 then None
        else Some (slice buffer (pos + 4) (Z.to_nat len)))) /\
    (st <> PSD_OK -> cd = mk_color_data None 0).
Proof.
  intros allocator bits stream doc st cd stream' Hwf Hbytes H buffer pos len.
  unfold Sections.psd_parse_color_mode_data in H.
  destruct (Stream.psd_stream_read_be32 stream) as [[e | v] s1] eqn:Hr.
  { injection H as <- <- <-.
    destruct (read_value_step 4 _ stream (inl e) s1 Hwf ltac:(lia) Hr)
      as [_ ->].
    split; [discriminate | reflexivity]. }
  destruct (read_value_step 4 _ stream (inr v) s1 Hwf ltac:(lia) Hr)
    as [[Hb [Hp Hw1]] [Hpos Hv]].
  rewrite read_be_u32_slice in Hv. fold buffer pos in Hv. fold len in Hv.
  subst v.
  assert (Hs1 : s1 = Stream.mk_stream buffer (pos + 4)).
  { destruct s1 as [b1 p1]. cbn [Stream.buffer Stream.position] in *.
    subst b1. f_equal. subst pos. lia. }
  unfold stream_wf in Hw1. rewrite Hs1 in *.
  cbn [Stream.buffer Stream.position] in *.
  pose proof (read_be_u32_range buffer pos
                (all_bytes_Forall _ Hbytes)) as Hlen.
  fold len in Hlen.
  destruct (len =? 0) eqn:E0.
  { injection H as <- <- <-. apply Z.eqb_eq in E0.
    split; [|congruence]. intros _. rewrite E0.
    replace (pos + 4 + Z.to_nat 0)%nat with (pos + 4)%nat by lia.
    repeat split; try reflexivity; lia. }
  apply Z.eqb_neq in E0.
  destruct (Endian.psd_u64_to_size bits len) as [data_size |] eqn:Hsz.
  2: { injection H as <- <- <-. split; [discriminate | reflexivity]. }
  apply psd_u64_to_size_fits in Hsz; [|lia]. subst data_size.
  destruct (negb (malloc_ok allocator len)).
  { injection H as <- <- <-. split; [discriminate | reflexivity]. }
  destruct (Stream.psd_stream_read_exact (Stream.mk_stream buffer (pos + 4))
                                         len)
    as [[st2 bytes] s2] eqn:He.
  pose proof (psd_stream_read_exact_step
                (Stream.mk_stream buffer (pos + 4)) len st2 bytes s2 Hw1 He)
    as [[Hb2 [Hp2 Hw2]] [Hst2 Hok]].
  cbn [Stream.buffer Stream.position] in *.
  destruct Hst2 as [-> | ->]; injection H as <- <- <-.
  2: { split; [discriminate | reflexivity]. }
  split; [|congruence]. intros _.
  destruct (Hok eq_refl) as [Hpos2 Hgot].
  cbn [color_data_length color_data_bytes].
  unfold stream_wf in Hw2.
  assert (Hs2 : s2 = Stream.mk_stream buffer (pos + 4 + Z.to_nat len)).
  { destruct s2 as [b2 p2]. cbn [Stream.buffer Stream.position] in *.
    subst b2. f_equal. lia. }
  subst s2. cbn [Stream.buffer Stream.position] in *.
  repeat split; try lia; congruence.
Qed.

Lemma psd_parse_color_mode_data_exact_witness :
  let buffer := [0; 0; 0; 3; 0x10; 0x20; 0x30; 0xFF] in
  let pos := 0%nat in
  let len := read_be_u32 buffer pos in
  (PSD_OK = PSD_OK ->
   (pos + 4 + Z.to_nat len <= length buffer)%nat /\
   Stream.mk_stream buffer 7 =
     Stream.mk_stream buffer (pos + 4 + Z.to_nat len) /\
   color_data_length (mk_color_data (Some [0x10; 0x20; 0x30]) 3) = len /\
   color_data_bytes (mk_color_data (Some [0x10; 0x20; 0x30]) 3) =
     (if len =? 0 then None
      else Some (slice buffer (pos + 4) (Z.to_nat len)))) /\
  (PSD_OK <> PSD_OK ->
   mk_color_data (Some [0x10; 0x20; 0x30]) 3 = mk_color_data None 0).
Proof.
  apply (psd_parse_color_mode_data_exact
           always_grant 64
           (Stream.mk_stream [0; 0; 0; 3; 0x10; 0x20; 0x30; 0xFF] 0)
           Context.empty_document).
  - unfold stream_wf. cbn. lia.
  - reflexivity.
  - reflexivity.
Defined.

Lemma forward_ret :
  forall (A : Type) (a : A), forward (@ret Stream.psd_stream_t A a).
Proof.
  intros A a s r s' Hwf H. injection H as <- <-.
  apply stream_step_refl. assumption.
Qed.

Lemma forward_fail :
  forall (A : Type) e, forward (@fail Stream.psd_stream_t A e).
Proof.
  intros A e s r s' Hwf H. injection H as <- <-.
  apply stream_step_refl. assumption.
Qed.

Lemma forward_bind :
  forall (A B : Type) (m : M Stream.psd_stream_t A)
         (k : A -> M Stream.psd_stream_t B),
    forward m -> (forall a, forward (k a)) -> forward (bind m k).
Proof.
  intros A B m k Hm Hk s r s' Hwf H. unfold bind in H.
  destruct (m s) as [[e | a] s1] eqn:E.
  - injection H as <- <-. eapply Hm; eassumption.
  - pose proof (Hm s _ s1 Hwf E) as H1.
    eapply stream_step_trans; [exact H1|].
    eapply Hk; [|exact H]. apply H1.
Qed.

Lemma forward_read_value :
  forall w dec, 0 < w -> forward (Stream.read_value w dec).
Proof.
  intros w dec Hw s r s' Hwf H.
  apply (read_value_step w dec s r s' Hwf Hw H).
Qed.

Lemma forward_read_bytes : forall count, forward (Sections.read_bytes count).
Proof.
  intros count s r s' Hwf H. unfold Sections.read_bytes in H.
  destruct (Stream.psd_stream_read_exact s count) as [[st bytes] s1] eqn:E.
  destruct (psd_stream_read_exact_step s count st bytes s1 Hwf E)
    as [Hstep [[-> | ->] _]]; injection H as <- <-; assumption.
Qed.

Lemma forward_skip : forall count, forward (Sections.skip count).
Proof.
  intros count s r s' Hwf H. unfold Sections.skip, Stream.psd_stream_skip in H.
  destruct (Stream.psd_stream_read_exact s count) as [[st bytes] s1] eqn:E.
  destruct (psd_stream_read_exact_step s count st bytes s1 Hwf E)
    as [Hstep [[-> | ->] _]]; injection H as <- <-; assumption.
Qed.

Lemma forward_allocate :
  forall allocator size, forward (Sections.allocate allocator size).
Proof.
  intros allocator size. unfold Sections.allocate.
  destruct (malloc_ok allocator size); [apply forward_ret | apply forward_fail].
Qed.

Ltac forward_steps :=
  repeat first
    [ apply forward_bind; [|intros ?]
    | apply forward_read_value; lia
    | apply forward_ret | apply forward_fail | apply forward_read_bytes
    | apply forward_skip | apply forward_allocate
    | match goal with
      | |- forward (if ?c then _ else _) => destruct c
      | |- forward (match ?x with _ => _ end) => destruct x
      end ].

(** One round of the resource loop leaves the buffer alone and the stream
    well formed; a round that returns a block has moved past the four
    signature bytes at least. *)
Lemma read_resource_block_step :
  forall allocator bits section_end s r s',
    stream_wf s ->
    Sections.read_resource_block allocator bits section_end s = (r, s') ->
    Stream.buffer s' = Stream.buffer s /\ stream_wf s' /\
    (forall block, r = inr (Some block) ->
                   (Stream.position s + 4 <= Stream.position s')%nat).
Proof.
  intros allocator bits section_end s r s' Hwf H.
  unfold Sections.read_resource_block in H. unfold bind at 1 in H.
  destruct (Stream.psd_stream_read_be32 s) as [[e | signature] s1] eqn:E.
  { injection H as <- <-.
    destruct (read_value_step 4 _ s _ s1 Hwf ltac:(lia) E) as [[Hb [_ Hw]] _].
    repeat split; try assumption. discriminate. }
  destruct (read_value_step 4 _ s _ s1 Hwf ltac:(lia) E)
    as [[Hb [Hp Hw]] [Hpos _]].
  destruct (negb (signature =? 0x3842494D) && negb (signature =? 0x38423634)).
  - unfold bind, Sections.try_seek, ret in H.
    unfold Stream.psd_stream_seek in H.
    destruct ((section_end <? 0)
              || (section_end >? Z.of_nat (length (Stream.buffer s1)))) eqn:Es;
      injection H as <- <-.
    + repeat split; try assumption. discriminate.
    + cbn [Stream.buffer Stream.position]. bool_to_prop.
      unfold stream_wf. cbn [Stream.buffer Stream.position].
      repeat split; try assumption; try lia. discriminate.
  - match type of H with
    | ?m s1 = _ => assert (Hf : forward m) by forward_steps
    end.
    destruct (Hf s1 r s' Hw H) as [Hb2 [Hp2 Hw2]].
    repeat split; try assumption; try congruence. intros _ _. lia.
Qed.

Lemma resource_loop_total :
  forall allocator realloc_ok bits sz section_end fuel blocks capacity s,
    stream_wf s ->
    (length (Stream.buffer s) - Stream.position s < fuel)%nat ->
    exists st blocks' s',
      Sections.resource_loop allocator realloc_ok bits sz fuel section_end
                             blocks capacity s = Some (st, blocks', s') /\
      Stream.buffer s' = Stream.buffer s /\ stream_wf s'.
Proof.
  intros allocator realloc_ok bits sz section_end.
  induction fuel as [|fuel IH]; intros blocks capacity s Hwf Hfuel; [lia|].
  cbn [Sections.resource_loop].
  destruct (Stream.psd_stream_tell s <? section_end).
  2: { exists PSD_OK, blocks, s. repeat split; try assumption. }
  destruct (Sections.read_resource_block allocator bits section_end s)
    as [[e | [block |]] s1] eqn:E;
    destruct (read_resource_block_step _ _ _ _ _ _ Hwf E) as [Hb [Hw Hp]].
  - exists e, [], s1. repeat split; assumption.
  - specialize (Hp block eq_refl).
    assert (Hfuel' : (length (Stream.buffer s1) - Stream.position s1
                      < fuel)%nat)
      by (rewrite Hb; unfold stream_wf in *; rewrite Hb in Hw; lia).
    destruct (Z.of_nat (length blocks) >=? capacity).
    + destruct (negb (realloc_ok (capacity * 2 * sz))).
      * exists PSD_ERR_OUT_OF_MEMORY, [], s1. repeat split; assumption.
      * destruct (IH (blocks ++ [block]) (capacity * 2) s1 Hw Hfuel')
          as [st [bs [s2 [Hrun [Hb2 Hw2]]]]].
        exists st, bs, s2. repeat split; try assumption. congruence.
    + destruct (IH (blocks ++ [block]) capacity s1 Hw Hfuel')
        as [st [bs [s2 [Hrun [Hb2 Hw2]]]]].
      exists st, bs, s2. repeat split; try assumption. congruence.
  - exists PSD_OK, blocks, s1. repeat split; assumption.
Qed.

(** X9. [psd_parse_resources] always returns, and when it returns
    [PSD_OK] the stream stands exactly at the end of the section
    (the position after the 4-byte length plus that length, which lies
    inside the buffer), whatever the blocks looked like: a foreign
    signature or blocks that overrun the section do not leave the stream
    misaligned for the next section. *)
Theorem psd_parse_resources_realigns :
  forall allocator realloc_ok size_t_bits block_size stream doc,
    stream_wf stream ->
    exists st blocks stream',
      Sections.psd_parse_resources allocator realloc_ok size_t_bits block_size
                                   stream doc = Some (st, blocks, stream') /\
      Stream.buffer stream' = Stream.buffer stream /\
      (st = PSD_OK ->
       Z.of_nat (Stream.position stream') =
         Z.of_nat (Stream.position stream) + 4
         + read_be_u32 (Stream.buffer stream) (Stream.position stream) /\
       (Stream.position stream' <= length (Stream.buffer stream))%nat).
Proof.
  intros allocator realloc_ok bits sz stream doc Hwf.
  unfold Sections.psd_parse_resources.
  destruct (Stream.psd_stream_read_be32 stream) as [[e | len] s1] eqn:E.
  { destruct (read_value_step 4 _ stream _ s1 Hwf ltac:(lia) E)
      as [[Hb _] ->].
    exists PSD_ERR_STREAM_EOF, [], s1.
    repeat split; try assumption; discriminate. }
  destruct (read_value_step 4 _ stream _ s1 Hwf ltac:(lia) E)
    as [[Hb [Hp Hw]] [Hpos Hv]].
  rewrite read_be_u32_slice in Hv. subst len.
  set (len := read_be_u32 (Stream.buffer stream) (Stream.position stream)).
  destruct (len =? 0) eqn:E0.
  { apply Z.eqb_eq in E0. exists PSD_OK, [], s1.
    unfold stream_wf in Hw. rewrite Hb in Hw.
    repeat split; try assumption; lia. }
  destruct (negb (malloc_ok allocator (16 * sz))).
  { exists PSD_ERR_OUT_OF_MEMORY, [], s1.
    repeat split; try assumption; discriminate. }
  set (section_end := Stream.psd_stream_tell s1 + len).
  destruct (resource_loop_total
              allocator realloc_ok bits sz section_end
              (S (length (Stream.buffer s1) - Stream.position s1)) [] 16 s1
              Hw ltac:(lia))
    as [st [bs [s2 [Hrun [Hb2 Hw2]]]]].
  rewrite Hrun.
  assert (Hend : section_end =
                 Z.of_nat (Stream.position stream) + 4 + len)
    by (subst section_end; unfold Stream.psd_stream_tell; lia).
  destruct st;
    try (eexists _, bs, s2; split; [reflexivity|];
         split; [congruence | discriminate]).
  destruct (negb (Stream.psd_stream_tell s2 =? section_end)) eqn:Efinal.
  - unfold Stream.psd_stream_seek.
    destruct ((section_end <? 0)
              || (section_end >? Z.of_nat (length (Stream.buffer s2))))
      eqn:Eseek.
    + exists PSD_ERR_OUT_OF_RANGE, bs, s2.
      split; [reflexivity|]. split; [congruence | discriminate].
    + eexists PSD_OK, bs, _. split; [reflexivity|].
      cbn [Stream.buffer Stream.position]. bool_to_prop.
      split; [congruence|]. intros _. rewrite Hb2, Hb in Eseek. lia.
  - apply negb_false_iff in Efinal. apply Z.eqb_eq in Efinal.
    exists PSD_OK, bs, s2. split; [reflexivity|].
    split; [congruence|]. intros _.
    unfold Stream.psd_stream_tell in Efinal. unfold stream_wf in Hw2.
    rewrite Hb2, Hb in Hw2. lia.
Qed.

Lemma psd_parse_resources_realigns_witness :
  exists st blocks stream',
    Sections.psd_parse_resources
      always_grant (fun _ => true) 64 40
      (Stream.mk_stream [0; 0; 0; 6; 0x58; 0x58; 0x58; 0x58; 1; 2; 3; 4] 0)
      Context.empty_document = Some (st, blocks, stream') /\
    Stream.buffer stream' =
      [0; 0; 0; 6; 0x58; 0x58; 0x58; 0x58; 1; 2; 3; 4] /\
    (st = PSD_OK ->
     Z.of_nat (Stream.position stream') =
       0 + 4 + read_be_u32 [0; 0; 0; 6; 0x58; 0x58; 0x58; 0x58; 1; 2; 3; 4] 0 /\
     (Stream.position stream' <= 12)%nat).
Proof.
  apply (psd_parse_resources_realigns
           always_grant (fun _ => true) 64 40
           (Stream.mk_stream [0; 0; 0; 6; 0x58; 0x58; 0x58; 0x58; 1; 2; 3; 4] 0)
           Context.empty_document).
  unfold stream_wf. cbn. lia.
Defined.

Lemma find_from_first :
  forall blocks id i,
    match Sections.find_from blocks id i with
    | (PSD_OK, Some k) =>
      i <= k < i + Z.of_nat (length blocks) /\
      (exists block,
         nth_error blocks (Z.to_nat (k - i)) = Some block /\
         resource_id block = id) /\
      (forall j block,
         (j < Z.to_nat (k - i))%nat -> nth_error blocks j = Some block ->
         resource_id block <> id)
    | (PSD_ERR_INVALID_ARGUMENT, None) =>
      forall block, In block blocks -> resource_id block <> id
    | _ => False
    end.
Proof.
  induction blocks as [|b rest IH]; intros id i; cbn [Sections.find_from].
  - intros block [].
  - destruct (resource_id b =? id) eqn:E.
    + apply Z.eqb_eq in E. cbn [length]. split; [lia|].
      rewrite Z.sub_diag. split.
      * exists b. split; [reflexivity | assumption].
      * intros j block Hj. cbn in Hj. lia.
    + apply Z.eqb_neq in E. specialize (IH id (i + 1)).
      destruct (Sections.find_from rest id (i + 1)) as [st [k |]];
        destruct st; try exact IH.
      * destruct IH as [Hk [[block [Hnth Hid]] Hbefore]].
        cbn [length]. split; [lia|].
        replace (Z.to_nat (k - i)) with (S (Z.to_nat (k - (i + 1)))) by lia.
        split.
        -- exists block. split; assumption.
        -- intros j blk Hj Hnth'. destruct j as [|j].
           ++ cbn in Hnth'. injection Hnth' as <-. assumption.
           ++ cbn in Hnth'. apply (Hbefore j); [lia | assumption].
      * intros block [<- | Hin]; [assumption | apply IH; assumption].
Qed.

(** X11. [psd_document_find_resource] reports the first block with the
    requested id: on [PSD_OK] the index is in range, every earlier block
    has another id, and [psd_document_get_resource] at that index succeeds
    and returns the requested id with that block's data; the only other
    outcome is [PSD_ERR_INVALID_ARGUMENT], returned exactly when no block
    has the id. *)
Theorem psd_document_find_resource_first :
  forall doc id,
    match Sections.psd_document_find_resource doc id with
    | (PSD_OK, Some index) =>
      0 <= index < Sections.psd_document_get_resource_count doc /\
      (exists block,
         nth_error (doc_resources doc) (Z.to_nat index) = Some block /\
         Sections.psd_document_get_resource doc index =
           (PSD_OK, Some (id, resource_data block,
                          resource_data_length block))) /\
      (forall j, 0 <= j < index ->
                 forall found,
                   Sections.psd_document_get_resource doc j =
                     (PSD_OK, Some found) ->
                   fst (fst found) <> id)
    | (PSD_ERR_INVALID_ARGUMENT, None) =>
      forall block, In block (doc_resources doc) -> resource_id block <> id
    | _ => False
    end.
Proof.
  intros doc id. unfold Sections.psd_document_find_resource.
  pose proof (find_from_first (doc_resources doc) id 0) as H.
  destruct (Sections.find_from (doc_resources doc) id 0) as [st [k |]];
    destruct st; try exact H.
  destruct H as [Hk [[block [Hnth Hid]] Hbefore]].
  rewrite Z.sub_0_r in *.
  unfold Sections.psd_document_get_resource_count.
  split; [lia|]. split.
  - exists block. split; [assumption|].
    unfold Sections.psd_document_get_resource,
      Sections.psd_document_get_resource_count.
    destruct (k >=? Z.of_nat (length (doc_resources doc))) eqn:E;
      [rewrite Z.geb_leb in E; apply Z.leb_le in E; lia|].
    rewrite Hnth, Hid. reflexivity.
  - intros j Hj found Hget.
    unfold Sections.psd_document_get_resource in Hget.
    destruct (j >=? _); [discriminate|].
    destruct (nth_error (doc_resources doc) (Z.to_nat j)) as [blk |] eqn:Hn;
      [|discriminate].
    injection Hget as <-. cbn [fst].
    apply (Hbefore (Z.to_nat j) blk); [lia | assumption].
Qed.

Lemma stream_at_app :
  forall pre mid rest,
    Stream.mk_stream (pre ++ mid ++ rest) (length pre + length mid) =
    stream_at (pre ++ mid) rest.
Proof.
  intros. unfold stream_at. now rewrite <- app_assoc, length_app.
Qed.

Lemma read_exact_at :
  forall pre mid rest,
    Stream.psd_stream_read_exact (stream_at pre (mid ++ rest))
                                 (Z.of_nat (length mid)) =
    (PSD_OK, mid, stream_at (pre ++ mid) rest).
Proof.
  intros pre mid rest. unfold Stream.psd_stream_read_exact.
  destruct (Z.of_nat (length mid) <=? 0) eqn:E0.
  - apply Z.leb_le in E0. destruct mid; [|cbn in E0; lia].
    cbn [app]. now rewrite app_nil_r.
  - unfold Stream.psd_stream_read, stream_at.
    cbn [Stream.buffer Stream.position].
    rewrite !length_app.
    replace (Z.to_nat (Z.min (Z.of_nat (length mid))
                             (Z.of_nat (length pre + (length mid + length rest)
                                        - length pre))))
      with (length mid) by lia.
    rewrite slice_middle.
    replace (Z.of_nat (length mid) <? Z.of_nat (length mid)) with false
      by (symmetry; apply Z.ltb_ge; lia).
    now rewrite <- app_assoc.
Qed.

Lemma read_value_at :
  forall w dec pre mid rest,
    w = Z.of_nat (length mid) ->
    Stream.read_value w dec (stream_at pre (mid ++ rest)) =
    (inr (dec mid), stream_at (pre ++ mid) rest).
Proof.
  intros w dec pre mid rest ->. unfold Stream.read_value.
  now rewrite read_exact_at.
Qed.

Lemma read_bytes_at :
  forall pre mid rest,
    Sections.read_bytes (Z.of_nat (length mid)) (stream_at pre (mid ++ rest)) =
    (inr mid, stream_at (pre ++ mid) rest).
Proof.
  intros. unfold Sections.read_bytes. now rewrite read_exact_at.
Qed.

Lemma skip_at :
  forall pre mid rest,
    Sections.skip (Z.of_nat (length mid)) (stream_at pre (mid ++ rest)) =
    (inr tt, stream_at (pre ++ mid) rest).
Proof.
  intros. unfold Sections.skip, Stream.psd_stream_skip.
  now rewrite read_exact_at.
Qed.

Lemma read_be_u16_be_bytes :
  forall v, 0 <= v < 65536 -> read_be_u16 (be_bytes 2 v) 0 = v.
Proof.
  intros v Hv.
  rewrite read_be_u16_value
    by (apply all_bytes_Forall; apply be_bytes_all_bytes).
  cbn [be_bytes app byte_at nth Nat.add]. div_lia.
Qed.

Lemma read_be_u32_be_bytes :
  forall v, 0 <= v < 4294967296 -> read_be_u32 (be_bytes 4 v) 0 = v.
Proof.
  intros v Hv.
  rewrite read_be_u32_value
    by (apply all_bytes_Forall; apply be_bytes_all_bytes).
  cbn [be_bytes app byte_at nth Nat.add]. div_lia.
Qed.

Lemma odd_padding_test :
  forall n,
    0 <= n < 4294967295 ->
    negb (Z.land (u32 (1 + n)) 1 =? 0) = negb (Nat.even (S (Z.to_nat n))).
Proof.
  intros n Hn. unfold u32. rewrite Z.mod_small by lia.
  change 1 with (Z.ones 1) at 2. rewrite Z.land_ones by lia.
  change (2 ^ 1) with 2. f_equal.
  replace (S (Z.to_nat n)) with (Z.to_nat (1 + n)) by lia.
  destruct (Nat.even (Z.to_nat (1 + n))) eqn:E.
  - apply Nat.even_spec in E. destruct E as [k Hk].
    apply Z.eqb_eq. assert (1 + n = 2 * Z.of_nat k) by lia. div_lia.
  - apply Z.eqb_neq. intros Hm.
    assert (Nat.even (Z.to_nat (1 + n)) = true); [|congruence].
    apply Nat.even_spec. exists (Z.to_nat ((1 + n) / 2)). div_lia.
Qed.

Lemma even_padding_test :
  forall n,
    0 <= n ->
    negb (n mod 2 =? 0) = negb (Nat.even (Z.to_nat n)).
Proof.
  intros n Hn. f_equal.
  destruct (Nat.even (Z.to_nat n)) eqn:E.
  - apply Nat.even_spec in E. destruct E as [k Hk].
    apply Z.eqb_eq. assert (n = 2 * Z.of_nat k) by lia. div_lia.
  - apply Z.eqb_neq. intros Hm.
    assert (Nat.even (Z.to_nat n) = true); [|congruence].
    apply Nat.even_spec. exists (Z.to_nat (n / 2)). div_lia.
Qed.

Lemma stored_field_length :
  forall field max,
    stored_field field max = true ->
    Forall is_byte (bytes_of field) /\
    0 <= Z.of_nat (length (bytes_of field)) <= Z.max 0 max /\
    field = (if Z.of_nat (length (bytes_of field)) >? 0
             then Some (bytes_of field) else None).
Proof.
  intros [bytes |] max H; cbn [stored_field bytes_of] in *.
  - bool_to_prop. destruct H as [[Hb H1] H2].
    split; [apply all_bytes_Forall; assumption|]. split; [lia|].
    destruct (0 <? Z.of_nat (length bytes)) eqn:E; [reflexivity|].
    apply Z.ltb_ge in E. lia.
  - split; [constructor|]. cbn. split; [lia | reflexivity].
Qed.

Lemma read_resource_block_encoded :
  forall allocator bits section_end block pre rest,
    (forall n, malloc_ok allocator n = true) ->
    32 <= bits ->
    stored_resource block = true ->
    Sections.read_resource_block allocator bits section_end
      (stream_at pre (encode_resource block ++ rest)) =
    (inr (Some block), stream_at (pre ++ encode_resource block) rest).
Proof.
  intros allocator bits section_end [id name data dlen] pre rest
         Hgrant Hbits Hst.
  unfold stored_resource in Hst.
  cbn [resource_id resource_name resource_data resource_data_length] in Hst.
  apply andb_true_iff in Hst. destruct Hst as [Hst Hdlen].
  apply andb_true_iff in Hst. destruct Hst as [Hst Hdata].
  apply andb_true_iff in Hst. destruct Hst as [Hid Hname].
  apply andb_true_iff in Hid. destruct Hid as [Hid0 Hid1].
  apply Z.leb_le in Hid0. apply Z.ltb_lt in Hid1. apply Z.eqb_eq in Hdlen.
  destruct (stored_field_length _ _ Hname) as [Hnb [Hnl Hnf]].
  destruct (stored_field_length _ _ Hdata) as [Hdb [Hdl Hdf]].
  unfold encode_resource.
  cbn [resource_id resource_name resource_data resource_data_length].
  set (n := bytes_of name) in *. set (d := bytes_of data) in *.
  set (sig := [0x38; 0x42; 0x49; 0x4D]).
  change (Z.of_nat (length n) :: n ++ even_padding (S (length n)))
    with ([Z.of_nat (length n)] ++ n ++ even_padding (S (length n))).
  set (pad1 := even_padding (S (length n))).
  set (pad2 := even_padding (length d)).
  assert (Hbuf : forall pre',
             stream_at pre'
               ((sig ++ be_bytes 2 id ++
                 ([Z.of_nat (length n)] ++ n ++ pad1) ++
                 be_bytes 4 (Z.of_nat (length d)) ++ d ++ pad2) ++ rest)
             = stream_at pre'
                 (sig ++ be_bytes 2 id ++ [Z.of_nat (length n)] ++ n ++ pad1 ++
                  be_bytes 4 (Z.of_nat (length d)) ++ d ++ pad2 ++ rest))
    by (intros pre'; rewrite <- !app_assoc; reflexivity).
  rewrite Hbuf. clear Hbuf.
  unfold Sections.read_resource_block.
  unfold bind at 1. unfold Stream.psd_stream_read_be32 at 1.
  rewrite (read_value_at 4 _ pre sig) by reflexivity.
  cbv beta iota.
  change (read_be_u32 sig 0) with 0x3842494D.
  change (negb (0x3842494D =? 0x3842494D) && negb (0x3842494D =? 0x38423634))
    with false.
  cbv iota.
  unfold bind at 1. unfold Stream.psd_stream_read_be16 at 1.
  rewrite (read_value_at 2 _ (pre ++ sig) (be_bytes 2 id))
    by (rewrite be_bytes_length; reflexivity).
  cbv beta iota. rewrite read_be_u16_be_bytes by lia.
  unfold bind at 1.
  rewrite (read_bytes_at ((pre ++ sig) ++ be_bytes 2 id)
                         [Z.of_nat (length n)]).
  cbv beta iota.
  change (byte_at [Z.of_nat (length n)] 0) with (Z.of_nat (length n)).
  unfold bind at 1.
  assert (Hname_step :
    forall pre',
      (if Z.of_nat (length n) >? 0
       then bind (Sections.allocate allocator (Z.of_nat (length n)))
                 (fun _ => bind (Sections.read_bytes (Z.of_nat (length n)))
                                (fun bytes => ret (Some bytes)))
       else ret None) (stream_at pre' (n ++ pad1 ++
                        be_bytes 4 (Z.of_nat (length d)) ++ d ++ pad2 ++ rest))
      = (inr name, stream_at (pre' ++ n) (pad1 ++
                        be_bytes 4 (Z.of_nat (length d)) ++ d ++ pad2 ++ rest))).
  { intros pre'. rewrite Hnf.
    destruct (Z.of_nat (length n) >? 0) eqn:E.
    - unfold bind, Sections.allocate. rewrite Hgrant.
      unfold ret at 1. rewrite read_bytes_at. reflexivity.
    - rewrite Z.gtb_ltb in E. apply Z.ltb_ge in E.
      destruct n; [|cbn in E; lia]. cbn [app]. rewrite app_nil_r.
      reflexivity. }
  rewrite Hname_step. cbv beta iota. clear Hname_step.
  rewrite odd_padding_test by lia. rewrite Nat2Z.id.
  unfold bind at 1.
  assert (Hpad1 :
    forall pre' rest',
      (if negb (Nat.even (S (length n)))
       then Sections.skip 1 else ret tt) (stream_at pre' (pad1 ++ rest'))
      = (inr tt, stream_at (pre' ++ pad1) rest')).
  { intros pre' rest'. subst pad1. unfold even_padding.
    destruct (Nat.even (S (length n))); cbn [negb].
    - cbn [app]. rewrite app_nil_r. reflexivity.
    - apply (skip_at pre' [0] rest'). }
  rewrite Hpad1. cbv beta iota. clear Hpad1.
  unfold bind at 1. unfold Stream.psd_stream_read_be32 at 1.
  rewrite (read_value_at 4 _ _ (be_bytes 4 (Z.of_nat (length d))))
    by (rewrite be_bytes_length; reflexivity).
  cbv beta iota. rewrite read_be_u32_be_bytes by lia.
  unfold bind at 1.
  assert (Hdata_step :
    forall pre',
      (if Z.of_nat (length d) >? 0
       then
         match Endian.psd_u64_to_size bits (Z.of_nat (length d)) with
         | Some data_size =>
           bind (Sections.allocate allocator data_size)
                (fun _ => bind (Sections.read_bytes data_size)
                               (fun bytes => ret (Some bytes)))
         | None => fail PSD_ERR_OUT_OF_RANGE
         end
       else ret None) (stream_at pre' (d ++ pad2 ++ rest))
      = (inr data, stream_at (pre' ++ d) (pad2 ++ rest))).
  { intros pre'. rewrite Hdf.
    destruct (Z.of_nat (length d) >? 0) eqn:E.
    - assert (Hsz : Endian.psd_u64_to_size bits (Z.of_nat (length d))
                    = Some (Z.of_nat (length d))).
      { unfold Endian.psd_u64_to_size.
        destruct (bits <? 64) eqn:Eb; [|reflexivity].
        assert (2 ^ 32 <= 2 ^ bits) by (apply Z.pow_le_mono_r; lia).
        change (2 ^ 32) with 4294967296 in *.
        destruct (Z.of_nat (length d) >? 2 ^ bits - 1) eqn:Eg.
        - rewrite Z.gtb_ltb in Eg. apply Z.ltb_lt in Eg. lia.
        - rewrite Z.mod_small by lia. reflexivity. }
      rewrite Hsz. unfold bind, Sections.allocate. rewrite Hgrant.
      unfold ret at 1. rewrite read_bytes_at. reflexivity.
    - rewrite Z.gtb_ltb in E. apply Z.ltb_ge in E.
      destruct d; [|cbn in E; lia]. cbn [app]. rewrite app_nil_r.
      reflexivity. }
  rewrite Hdata_step. cbv beta iota. clear Hdata_step.
  rewrite even_padding_test by lia. rewrite Nat2Z.id.
  unfold bind at 1.
  assert (Hpad2 :
    forall pre',
      (if negb (Nat.even (length d))
       then Sections.skip 1 else ret tt) (stream_at pre' (pad2 ++ rest))
      = (inr tt, stream_at (pre' ++ pad2) rest)).
  { intros pre'. subst pad2. unfold even_padding.
    destruct (Nat.even (length d)); cbn [negb].
    - cbn [app]. rewrite app_nil_r. reflexivity.
    - apply (skip_at pre' [0] rest). }
  rewrite Hpad2. cbv beta iota. clear Hpad2.
  unfold ret. rewrite Hdlen. f_equal.
  rewrite <- !app_assoc. reflexivity.
Qed.

Lemma encode_resource_length :
  forall block, (4 <= length (encode_resource block))%nat.
Proof.
  intros block. unfold encode_resource. rewrite length_app. cbn [length]. lia.
Qed.

Lemma encode_resources_count :
  forall blocks,
    (length blocks <= length (flat_map encode_resource blocks))%nat.
Proof.
  induction blocks as [|b blocks IH]; [cbn; lia|].
  cbn [flat_map length]. rewrite length_app.
  pose proof (encode_resource_length b). lia.
Qed.

Lemma resource_loop_encoded :
  forall allocator realloc_ok bits sz blocks fuel stored capacity pre rest,
    (forall n, malloc_ok allocator n = true) ->
    (forall n, realloc_ok n = true) ->
    32 <= bits ->
    forallb stored_resource blocks = true ->
    (length blocks < fuel)%nat ->
    Sections.resource_loop
      allocator realloc_ok bits sz fuel
      (Z.of_nat (length pre + length (flat_map encode_resource blocks)))
      stored capacity
      (stream_at pre (flat_map encode_resource blocks ++ rest)) =
    Some (PSD_OK, stored ++ blocks,
          stream_at (pre ++ flat_map encode_resource blocks) rest).
Proof.
  intros allocator realloc_ok bits sz.
  induction blocks as [|b blocks IH];
    intros fuel stored capacity pre rest Hgrant Hre Hbits Hst Hfuel.
  - destruct fuel; [cbn in Hfuel; lia|].
    cbn [Sections.resource_loop flat_map length app].
    unfold Stream.psd_stream_tell, stream_at.
    cbn [Stream.position].
    replace (Z.of_nat (length pre) <? Z.of_nat (length pre + 0)) with false
      by (symmetry; apply Z.ltb_ge; lia).
    now rewrite !app_nil_r.
  - cbn [forallb] in Hst. apply andb_true_iff in Hst.
    destruct Hst as [Hb Hrest].
    destruct fuel; [cbn in Hfuel; lia|]. cbn [length] in Hfuel.
    cbn [Sections.resource_loop flat_map].
    pose proof (encode_resource_length b) as Hlen.
    rewrite length_app.
    replace (Stream.psd_stream_tell
               (stream_at pre ((encode_resource b ++
                                flat_map encode_resource blocks) ++ rest))
             <? Z.of_nat (length pre + (length (encode_resource b) +
                            length (flat_map encode_resource blocks))))
      with true
      by (symmetry; apply Z.ltb_lt; unfold Stream.psd_stream_tell, stream_at;
          cbn [Stream.position]; lia).
    rewrite <- app_assoc.
    rewrite read_resource_block_encoded by assumption.
    replace (Z.of_nat (length pre + (length (encode_resource b) +
                         length (flat_map encode_resource blocks))))
      with (Z.of_nat (length (pre ++ encode_resource b)
                      + length (flat_map encode_resource blocks)))
      by (rewrite length_app; lia).
    assert (Hnext :
      forall cap,
        Sections.resource_loop
          allocator realloc_ok bits sz fuel
          (Z.of_nat (length (pre ++ encode_resource b)
                     + length (flat_map encode_resource blocks)))
          (stored ++ [b]) cap
          (stream_at (pre ++ encode_resource b)
                     (flat_map encode_resource blocks ++ rest)) =
        Some (PSD_OK, stored ++ b :: blocks,
              stream_at (pre ++ encode_resource b ++
                         flat_map encode_resource blocks) rest)).
    { intros cap. rewrite IH by (try assumption; lia).
      rewrite <- !app_assoc. reflexivity. }
    destruct (Z.of_nat (length stored) >=? capacity).
    + rewrite Hre. cbn [negb]. apply Hnext.
    + apply Hnext.
Qed.

(** X10. Reading back what was written: for any list of resource blocks of
    the shape the parser stores (16-bit id, a name of at most 255 bytes,
    data with its length), [psd_parse_resources] applied to the section
    that encodes them (["8BIM"], id, Pascal name and data, each padded to
    an even size, behind the 4-byte section length) returns exactly those
    blocks in file order and leaves the stream at the first byte after the
    section, when the allocator grants every request. *)
Theorem psd_parse_resources_roundtrip :
  forall allocator realloc_ok size_t_bits block_size blocks pre post doc,
    (forall n, malloc_ok allocator n = true) ->
    (forall n, realloc_ok n = true) ->
    32 <= size_t_bits ->
    forallb stored_resource blocks = true ->
    Z.of_nat (length (flat_map encode_resource blocks)) < 2 ^ 32 ->
    Sections.psd_parse_resources
      allocator realloc_ok size_t_bits block_size
      (stream_at pre (encode_resources blocks ++ post)) doc =
    Some (PSD_OK, blocks, stream_at (pre ++ encode_resources blocks) post).
Proof.
  intros allocator realloc_ok bits sz blocks pre post doc
         Hgrant Hre Hbits Hst Hlen.
  unfold encode_resources, Sections.psd_parse_resources.
  set (body := flat_map encode_resource blocks) in *.
  rewrite <- app_assoc.
  unfold Stream.psd_stream_read_be32.
  rewrite (read_value_at 4 _ pre (be_bytes 4 (Z.of_nat (length body))))
    by (rewrite be_bytes_length; reflexivity).
  change (2 ^ 32) with 4294967296 in Hlen.
  rewrite read_be_u32_be_bytes by lia.
  destruct (Z.of_nat (length body) =? 0) eqn:E0.
  - apply Z.eqb_eq in E0.
    assert (Hnil : blocks = []).
    { destruct blocks as [|b blocks]; [reflexivity|].
      pose proof (encode_resources_count (b :: blocks)) as Hc.
      fold body in Hc. cbn [length] in Hc. lia. }
    subst blocks. subst body. cbn [flat_map app]. rewrite !app_nil_r.
    reflexivity.
  - rewrite Hgrant. cbn [negb].
    unfold Stream.psd_stream_tell at 1.
    replace (Z.of_nat (Stream.position
                         (stream_at (pre ++ be_bytes 4 (Z.of_nat (length body)))
                                    (body ++ post)))
             + Z.of_nat (length body))
      with (Z.of_nat (length (pre ++ be_bytes 4 (Z.of_nat (length body)))
                      + length body))
      by (unfold stream_at; cbn [Stream.position]; lia).
    subst body.
    rewrite resource_loop_encoded; try assumption.
    + cbn [app]. unfold Stream.psd_stream_tell, stream_at.
      cbn [Stream.position]. rewrite !length_app.
      match goal with
      | |- context [negb (?a =? ?b)] =>
        replace (negb (a =? b)) with false
          by (symmetry; apply negb_false_iff; apply Z.eqb_eq; lia)
      end.
      rewrite <- !app_assoc. do 3 f_equal. lia.
    + pose proof (encode_resources_count blocks).
      unfold stream_at. cbn [Stream.buffer Stream.position].
      rewrite !length_app. lia.
Qed.

Lemma psd_parse_resources_roundtrip_witness :
  Sections.psd_parse_resources
    always_grant (fun _ => true) 64 40
    (stream_at [0xAA]
       (encode_resources
          [mk_resource 1005 None (Some [1; 2; 3]) 3;
           mk_resource 1039 (Some [0x69; 0x63; 0x63]) None 0] ++ [0xBB]))
    Context.empty_document =
  Some (PSD_OK,
        [mk_resource 1005 None (Some [1; 2; 3]) 3;
         mk_resource 1039 (Some [0x69; 0x63; 0x63]) None 0],
        stream_at
          ([0xAA] ++
           encode_resources
             [mk_resource 1005 None (Some [1; 2; 3]) 3;
              mk_resource 1039 (Some [0x69; 0x63; 0x63]) None 0])
          [0xBB]).
Proof.
  apply (psd_parse_resources_roundtrip
           always_grant (fun _ => true) 64 40
           [mk_resource 1005 None (Some [1; 2; 3]) 3;
            mk_resource 1039 (Some [0x69; 0x63; 0x63]) None 0]
           [0xAA] [0xBB] Context.empty_document).
  - reflexivity.
  - reflexivity.
  - lia.
  - reflexivity.
  - vm_compute. reflexivity.
Defined.

(** *** The header: which status for which defect *)

Lemma read_exact_enough :
  forall s w, 0 < w ->
    Z.of_nat (Stream.position s) + w <= Z.of_nat (length (Stream.buffer s)) ->
    Stream.psd_stream_read_exact s w =
      (PSD_OK, slice (Stream.buffer s) (Stream.position s) (Z.to_nat w),
       Stream.mk_stream (Stream.buffer s) (Stream.position s + Z.to_nat w)).
Proof.
  intros s w Hw Hfit.
  destruct (read_exact_cases s w Hw) as [[_ Hshort] | [He _]]; [lia|].
  exact He.
Qed.

Ltac header_read :=
  cbv beta; cbn [fst snd];
  first
    [ rewrite read_value_enough
        by (cbn [Stream.buffer Stream.position]; lia)
    | rewrite read_exact_enough
        by (cbn [Stream.buffer Stream.position]; lia) ];
  cbn [fst snd Stream.buffer Stream.position];
  rewrite ?read_be_u32_slice, ?read_be_u16_slice;
  change (Z.to_nat 2) with 2%nat; change (Z.to_nat 4) with 4%nat;
  change (Z.to_nat 6) with 6%nat;
  rewrite <- ?Nat.add_assoc; cbn [Nat.add].

(** X19. The status of [psd_parse_header] on a stream that holds the 26
    header bytes: a wrong signature gives [PSD_ERR_INVALID_FILE_FORMAT]
    whatever the other fields are; otherwise a version other than 1 and 2
    gives [PSD_ERR_UNSUPPORTED_VERSION]; otherwise a channel count,
    dimension or depth outside its range gives [PSD_ERR_INVALID_HEADER];
    and every well-formed header is accepted: the six fields of the
    document then hold the values of the file, whatever the color mode is,
    and the stream stands behind the header. *)
Theorem psd_parse_header_status :
  forall s d,
    (Stream.position s + 26 <= length (Stream.buffer s))%nat ->
    let b := Stream.buffer s in
    let p := Stream.position s in
    fst (Context.psd_parse_header s d) =
      (if negb (hdr_signature b p =? 0x38425053)
       then PSD_ERR_INVALID_FILE_FORMAT
       else if negb (hdr_version b p =? 1) && negb (hdr_version b p =? 2)
       then PSD_ERR_UNSUPPORTED_VERSION
       else if header_valid b p then PSD_OK
       else PSD_ERR_INVALID_HEADER) /\
    (header_valid b p = true ->
     Context.psd_parse_header s d =
       (PSD_OK,
        (Stream.mk_stream b (p + 26),
         Context.set_color_mode (hdr_color_mode b p)
           (Context.set_depth (hdr_depth b p)
              (Context.set_width (hdr_width b p)
                 (Context.set_height (hdr_height b p)
                    (Context.set_channels (hdr_channels b p)
                       (Context.set_is_psb (hdr_version b p =? 2) d)))))))).
Proof.
  intros [b p] d Hlen. cbn [Stream.buffer Stream.position] in *. cbv zeta.
  unfold header_valid.
  replace (p + 26 <=? length b)%nat with true
    by (symmetry; apply Nat.leb_le; lia).
  cbn [andb].
  unfold hdr_signature, hdr_version, hdr_channels, hdr_height, hdr_width,
    hdr_depth, hdr_color_mode, format_max.
  unfold Context.psd_parse_header, run_status, Context.parse_header_steps,
    bind, Context.on_stream, Context.on_doc, Context.get_doc, modify, fail, ret,
    Stream.psd_stream_read_be32, Stream.psd_stream_read_be16.
  cbn [fst snd].
  header_read.
  unfold Context.PSD_SIGNATURE, Context.PSD_VERSION_PSD,
    Context.PSD_VERSION_PSB, Context.PSD_MAX_CHANNELS,
    Context.PSD_MAX_DIMENSION_PSB, Context.PSD_MAX_DIMENSION_STANDARD.
  destruct (read_be_u32 b p =? 0x38425053) eqn:Esig; cbn [negb andb].
  2: { split; [reflexivity | discriminate]. }
  header_read.
  set (v := read_be_u16 b (p + 4)) in *.
  destruct (negb (v =? 1) && negb (v =? 2)) eqn:Ever.
  { assert (Hv : (v =? 1) || (v =? 2) = false).
    { apply andb_true_iff in Ever. destruct Ever as [E1 E2].
      apply negb_true_iff in E1. apply negb_true_iff in E2.
      now rewrite E1, E2. }
    rewrite Hv. cbn [andb]. split; [reflexivity | discriminate]. }
  assert (Hv : (v =? 1) || (v =? 2) = true).
  { destruct (v =? 1); [reflexivity|]. destruct (v =? 2); [reflexivity|].
    discriminate Ever. }
  rewrite Hv. cbn [andb].
  header_read. header_read.
  cbn [Context.set_is_psb Context.set_channels doc_is_psb].
  set (ch := read_be_u16 b (p + 12)) in *.
  destruct ((ch <? 1) || (ch >? 56)) eqn:Ech.
  { assert (Hc : (1 <=? ch) && (ch <=? 56) = false).
    { apply orb_true_iff in Ech. apply andb_false_iff.
      destruct Ech as [E | E]; [left | right].
      - apply Z.ltb_lt in E. apply Z.leb_gt. lia.
      - rewrite Z.gtb_ltb in E. apply Z.ltb_lt in E. apply Z.leb_gt. lia. }
    rewrite Hc. cbn [andb]. split; [reflexivity | discriminate]. }
  assert (Hc : (1 <=? ch) && (ch <=? 56) = true).
  { apply orb_false_iff in Ech. destruct Ech as [E1 E2].
    apply Z.ltb_ge in E1. rewrite Z.gtb_ltb in E2. apply Z.ltb_ge in E2.
    apply andb_true_iff. split; apply Z.leb_le; lia. }
  rewrite Hc. cbn [andb].
  header_read. header_read.
  cbn [Context.set_height Context.set_width Context.set_channels
       Context.set_is_psb doc_is_psb].
  set (h := read_be_u32 b (p + 14)) in *.
  set (w := read_be_u32 b (p + 18)) in *.
  set (max_dim := if v =? 2 then 300000 else 30000) in *.
  destruct ((w <? 1) || (w >? max_dim) || (h <? 1) || (h >? max_dim))
    eqn:Edim.
  { assert (Hd : ((1 <=? w) && (w <=? max_dim))
                 && ((1 <=? h) && (h <=? max_dim)) = false).
    { destruct (w <? 1) eqn:A1; [apply Z.ltb_lt in A1|apply Z.ltb_ge in A1].
      { replace (1 <=? w) with false by (symmetry; apply Z.leb_gt; lia).
        reflexivity. }
      destruct (w >? max_dim) eqn:A2; rewrite Z.gtb_ltb in A2;
        [apply Z.ltb_lt in A2|apply Z.ltb_ge in A2].
      { replace (w <=? max_dim) with false by (symmetry; apply Z.leb_gt; lia).
        now rewrite andb_false_r. }
      destruct (h <? 1) eqn:A3; [apply Z.ltb_lt in A3|apply Z.ltb_ge in A3].
      { replace (1 <=? h) with false by (symmetry; apply Z.leb_gt; lia).
        now rewrite andb_false_r. }
      cbn [orb] in Edim. rewrite Z.gtb_ltb in Edim. apply Z.ltb_lt in Edim.
      replace (h <=? max_dim) with false by (symmetry; apply Z.leb_gt; lia).
      now rewrite !andb_false_r. }
    rewrite Hd. cbn [andb].
    split; [reflexivity | discriminate]. }
  assert (Hd : ((1 <=? w) && (w <=? max_dim)) = true /\
               ((1 <=? h) && (h <=? max_dim)) = true).
  { apply orb_false_iff in Edim. destruct Edim as [Edim A4].
    apply orb_false_iff in Edim. destruct Edim as [Edim A3].
    apply orb_false_iff in Edim. destruct Edim as [A1 A2].
    rewrite Z.gtb_ltb in A2, A4.
    apply Z.ltb_ge in A1, A2, A3, A4.
    split; apply andb_true_iff; split; apply Z.leb_le; lia. }
  destruct Hd as [Hd1 Hd2]. rewrite Hd1, Hd2. cbn [andb].
  header_read.
  set (depth := read_be_u16 b (p + 22)) in *.
  destruct (negb (depth =? 1) && negb (depth =? 8) && negb (depth =? 16)
            && negb (depth =? 32)) eqn:Edepth.
  { assert (Hdep : (depth =? 1) || (depth =? 8) || (depth =? 16)
                   || (depth =? 32) = false).
    { destruct (depth =? 1); [discriminate Edepth|].
      destruct (depth =? 8); [discriminate Edepth|].
      destruct (depth =? 16); [discriminate Edepth|].
      destruct (depth =? 32); [discriminate Edepth | reflexivity]. }
    rewrite Hdep. split; [reflexivity | discriminate]. }
  assert (Hdep : (depth =? 1) || (depth =? 8) || (depth =? 16)
                 || (depth =? 32) = true).
  { destruct (depth =? 1); [reflexivity|].
    destruct (depth =? 8); [reflexivity|].
    destruct (depth =? 16); [reflexivity|].
    destruct (depth =? 32); [reflexivity | discriminate Edepth]. }
  rewrite Hdep.
  header_read.
  split; [reflexivity|]. intros _. reflexivity.
Qed.

Lemma psd_parse_header_status_witness :
  fst (Context.psd_parse_header (Stream.mk_stream depth12_header 0)
                                Context.empty_document)
  = PSD_ERR_INVALID_HEADER.
Proof.
  pose proof (psd_parse_header_status
                (Stream.mk_stream depth12_header 0) Context.empty_document)
    as H.
  cbn [Stream.buffer Stream.position] in H.
  destruct H as [H _]; [vm_compute; lia|].
  rewrite H. reflexivity.
Defined.

(** *** The loops of the byte source *)

Lemma psd_stream_read_exact_spec :
  forall s count,
    stream_wf s -> 0 <= count ->
    let remaining := (length (Stream.buffer s) - Stream.position s)%nat in
    Stream.psd_stream_read_exact s count =
    if count <=? Z.of_nat remaining then
      (PSD_OK, slice (Stream.buffer s) (Stream.position s) (Z.to_nat count),
       Stream.mk_stream (Stream.buffer s) (Stream.position s + Z.to_nat count))
    else
      (PSD_ERR_STREAM_EOF,
       slice (Stream.buffer s) (Stream.position s) remaining,
       Stream.mk_stream (Stream.buffer s) (length (Stream.buffer s))).
Proof.
  intros [b p] count Hwf Hc. unfold stream_wf in Hwf.
  cbn [Stream.buffer Stream.position] in *. cbv zeta.
  unfold Stream.psd_stream_read_exact, Stream.psd_stream_read.
  cbn [Stream.buffer Stream.position].
  destruct (count <=? 0) eqn:E0.
  - apply Z.leb_le in E0. assert (count = 0) by lia. subst count.
    replace (0 <=? Z.of_nat (length b - p)) with true
      by (symmetry; apply Z.leb_le; lia).
    cbn [Z.to_nat slice firstn]. rewrite Nat.add_0_r. reflexivity.
  - apply Z.leb_gt in E0. rewrite slice_length.
    destruct (count <=? Z.of_nat (length b - p)) eqn:E.
    + apply Z.leb_le in E.
      replace (Z.min count (Z.of_nat (length b - p))) with count by lia.
      replace (Z.of_nat (Nat.min (Z.to_nat count) (length b - p)) <? count)
        with false by (symmetry; apply Z.ltb_ge; lia).
      reflexivity.
    + apply Z.leb_gt in E.
      replace (Z.min count (Z.of_nat (length b - p)))
        with (Z.of_nat (length b - p)) by lia.
      rewrite Nat2Z.id.
      replace (Z.of_nat (Nat.min (length b - p) (length b - p)) <? count)
        with true by (symmetry; apply Z.ltb_lt; lia).
      do 2 f_equal. lia.
Qed.

Lemma read_exact_loop_rounds :
  forall fuel s count,
    stream_wf s -> 0 <= count -> (3 <= fuel)%nat ->
    StreamLoops.psd_stream_read_exact fuel s count
    = Some (Stream.psd_stream_read_exact s count).
Proof.
  intros fuel [b p] count Hwf Hc Hfuel. unfold stream_wf in Hwf.
  cbn [Stream.buffer Stream.position] in Hwf.
  rewrite psd_stream_read_exact_spec by (try assumption; exact Hwf).
  cbn [Stream.buffer Stream.position]. cbv zeta.
  destruct fuel as [|[|[|fuel]]]; try lia.
  unfold StreamLoops.psd_stream_read_exact.
  cbn [StreamLoops.read_exact_loop].
  destruct (0 <? count) eqn:E0.
  2: { apply Z.ltb_ge in E0. assert (count = 0) by lia. subst count.
       replace (0 <=? Z.of_nat (length b - p)) with true
         by (symmetry; apply Z.leb_le; lia).
       cbn [Z.to_nat slice firstn]. rewrite Nat.add_0_r. reflexivity. }
  apply Z.ltb_lt in E0.
  unfold Stream.psd_stream_read. cbn [Stream.buffer Stream.position].
  rewrite Z.sub_0_r, !slice_length. cbn [app Z.add].
  destruct (count <=? Z.of_nat (length b - p)) eqn:E.
  - apply Z.leb_le in E.
    replace (Z.min count (Z.of_nat (length b - p))) with count by lia.
    replace (Nat.min (Z.to_nat count) (length b - p)) with (Z.to_nat count)
      by lia.
    replace (Z.of_nat (Z.to_nat count) =? 0) with false
      by (symmetry; apply Z.eqb_neq; lia).
    replace (Z.of_nat (Z.to_nat count) <? count) with false
      by (symmetry; apply Z.ltb_ge; lia).
    reflexivity.
  - apply Z.leb_gt in E.
    replace (Z.min count (Z.of_nat (length b - p)))
      with (Z.of_nat (length b - p)) by lia.
    rewrite Nat2Z.id, Nat.min_id.
    replace (length b - (p + (length b - p)))%nat with 0%nat by lia.
    change (Z.of_nat 0) with 0. rewrite Z.min_r by lia.
    change (Z.to_nat 0) with 0%nat. cbn [Nat.min Z.of_nat Z.eqb].
    destruct (Z.of_nat (length b - p) =? 0) eqn:Ez.
    + apply Z.eqb_eq in Ez.
      replace (length b - p)%nat with 0%nat by lia.
      cbn [slice firstn]. do 3 f_equal. lia.
    + replace (Z.of_nat (length b - p) <? count) with true
        by (symmetry; apply Z.ltb_lt; lia).
      do 3 f_equal. lia.
Qed.

(** X20. Over a buffer source the loop of [psd_stream_read_exact] takes at
    most two reads and has the closed form used throughout: with [count]
    bytes left it returns [PSD_OK], those bytes, and the position moved by
    [count]; otherwise it returns [PSD_ERR_STREAM_EOF], has copied the
    bytes that were left, and leaves the stream at the end of the
    buffer. *)
Theorem psd_stream_read_exact_rounds :
  forall fuel s count,
    stream_wf s -> 0 <= count -> (3 <= fuel)%nat ->
    let remaining := (length (Stream.buffer s) - Stream.position s)%nat in
    StreamLoops.psd_stream_read_exact fuel s count
    = Some (Stream.psd_stream_read_exact s count) /\
    Stream.psd_stream_read_exact s count =
    (if count <=? Z.of_nat remaining then
       (PSD_OK, slice (Stream.buffer s) (Stream.position s) (Z.to_nat count),
        Stream.mk_stream (Stream.buffer s)
                         (Stream.position s + Z.to_nat count))
     else
       (PSD_ERR_STREAM_EOF,
        slice (Stream.buffer s) (Stream.position s) remaining,
        Stream.mk_stream (Stream.buffer s) (length (Stream.buffer s)))).
Proof.
  intros fuel s count Hwf Hc Hfuel. cbv zeta. split.
  - apply read_exact_loop_rounds; assumption.
  - apply psd_stream_read_exact_spec; assumption.
Qed.

Lemma psd_stream_read_exact_rounds_witness :
  StreamLoops.psd_stream_read_exact 3 (Stream.mk_stream [1; 2; 3; 4; 5] 2) 4
  = Some (Stream.psd_stream_read_exact (Stream.mk_stream [1; 2; 3; 4; 5] 2) 4)
  /\
  Stream.psd_stream_read_exact (Stream.mk_stream [1; 2; 3; 4; 5] 2) 4 =
  (PSD_ERR_STREAM_EOF, [3; 4; 5], Stream.mk_stream [1; 2; 3; 4; 5] 5).
Proof.
  apply (psd_stream_read_exact_rounds 3 (Stream.mk_stream [1; 2; 3; 4; 5] 2) 4).
  - unfold stream_wf. cbn. lia.
  - lia.
  - lia.
Defined.

Lemma psd_stream_skip_spec :
  forall s count,
    stream_wf s -> 0 <= count ->
    Stream.psd_stream_skip s count =
    if count <=? Z.of_nat (length (Stream.buffer s) - Stream.position s) then
      (PSD_OK, Stream.mk_stream (Stream.buffer s)
                                (Stream.position s + Z.to_nat count))
    else
      (PSD_ERR_STREAM_EOF,
       Stream.mk_stream (Stream.buffer s) (length (Stream.buffer s))).
Proof.
  intros s count Hwf Hc. unfold Stream.psd_stream_skip.
  rewrite psd_stream_read_exact_spec by assumption. cbv zeta.
  destruct (count <=? _); reflexivity.
Qed.

Lemma skip_loop_chunks :
  forall fuel s count skipped,
    stream_wf s -> 0 <= skipped <= count ->
    (Z.to_nat ((count - skipped) / 4096) + 3 <= fuel)%nat ->
    StreamLoops.skip_loop fuel s count skipped
    = Some (Stream.psd_stream_skip s (count - skipped)).
Proof.
  induction fuel as [|fuel IH]; intros [b p] count skipped Hwf Hs Hfuel;
    [lia|].
  unfold stream_wf in Hwf. cbn [Stream.buffer Stream.position] in Hwf.
  rewrite psd_stream_skip_spec by (try exact Hwf; lia).
  cbn [Stream.buffer Stream.position StreamLoops.skip_loop].
  destruct (skipped <? count) eqn:E.
  2: { apply Z.ltb_ge in E. assert (count - skipped = 0) as -> by lia.
       replace (0 <=? Z.of_nat (length b - p)) with true
         by (symmetry; apply Z.leb_le; lia).
       change (Z.to_nat 0) with 0%nat. rewrite Nat.add_0_r. reflexivity. }
  apply Z.ltb_lt in E.
  set (c := count - skipped) in *.
  unfold StreamLoops.SKIP_BUFFER_SIZE.
  set (to_skip := if c >? 4096 then 4096 else c).
  assert (Hto : 0 < to_skip <= 4096 /\ to_skip <= c /\
                (to_skip = c \/ (to_skip = 4096 /\ 4096 < c))).
  { subst to_skip. destruct (c >? 4096) eqn:Ec.
    - rewrite Z.gtb_ltb in Ec. apply Z.ltb_lt in Ec. lia.
    - rewrite Z.gtb_ltb in Ec. apply Z.ltb_ge in Ec. lia. }
  rewrite read_exact_loop_rounds by (try exact Hwf; lia).
  rewrite psd_stream_read_exact_spec by (try exact Hwf; lia).
  cbn [Stream.buffer Stream.position]. cbv zeta.
  destruct (to_skip <=? Z.of_nat (length b - p)) eqn:Et.
  - apply Z.leb_le in Et.
    destruct Hto as [Hpos [Hle [Heq | [Heq Hlt]]]].
    + (* the last chunk *)
      rewrite Heq in *.
      replace (c <=? Z.of_nat (length b - p)) with true
        by (symmetry; apply Z.leb_le; lia).
      destruct fuel as [|fuel]; [lia|].
      cbn [StreamLoops.skip_loop].
      replace (skipped + c <? count) with false
        by (symmetry; apply Z.ltb_ge; subst c; lia).
      reflexivity.
    + rewrite Heq in *.
      assert (Hdiv : (c - 4096) / 4096 = c / 4096 - 1).
      { replace (c - 4096) with (c + (-1) * 4096) by lia.
        rewrite Z.div_add by lia. lia. }
      assert (Hq : 1 <= c / 4096)
        by (apply Z.div_le_lower_bound; lia).
      rewrite IH.
      * rewrite psd_stream_skip_spec.
        -- cbn [Stream.buffer Stream.position].
           replace (count - (skipped + 4096)) with (c - 4096)
             by (subst c; lia).
           destruct (c <=? Z.of_nat (length b - p)) eqn:Ec.
           ++ apply Z.leb_le in Ec.
              replace (c - 4096 <=? Z.of_nat (length b - (p + Z.to_nat 4096)))
                with true by (symmetry; apply Z.leb_le; lia).
              do 3 f_equal. lia.
           ++ apply Z.leb_gt in Ec.
              replace (c - 4096 <=? Z.of_nat (length b - (p + Z.to_nat 4096)))
                with false by (symmetry; apply Z.leb_gt; lia).
              reflexivity.
        -- unfold stream_wf. cbn [Stream.buffer Stream.position]. lia.
        -- subst c. lia.
      * unfold stream_wf. cbn [Stream.buffer Stream.position]. lia.
      * subst c. lia.
      * replace (count - (skipped + 4096)) with (c - 4096) by (subst c; lia).
        rewrite Hdiv. lia.
  - apply Z.leb_gt in Et.
    replace (c <=? Z.of_nat (length b - p)) with false
      by (symmetry; apply Z.leb_gt; lia).
    reflexivity.
Qed.

(** X21. [psd_stream_skip] discards the bytes through a 4096-byte buffer,
    one [psd_stream_read_exact] per chunk.  Over a buffer source the loop
    returns after [count / 4096] rounds (one more for a last partial
    chunk), and the result is that of a single exact read: with [count]
    bytes left the status is [PSD_OK] and the position has moved by
    [count]; otherwise the status is [PSD_ERR_STREAM_EOF] and the stream
    stands at the end of the buffer. *)
Theorem psd_stream_skip_chunks :
  forall fuel s count,
    stream_wf s -> 0 <= count ->
    (Z.to_nat (count / 4096) + 3 <= fuel)%nat ->
    StreamLoops.psd_stream_skip fuel s count
    = Some (Stream.psd_stream_skip s count) /\
    Stream.psd_stream_skip s count =
    (if count <=? Z.of_nat (length (Stream.buffer s) - Stream.position s)
     then (PSD_OK, Stream.mk_stream (Stream.buffer s)
                                    (Stream.position s + Z.to_nat count))
     else (PSD_ERR_STREAM_EOF,
           Stream.mk_stream (Stream.buffer s) (length (Stream.buffer s)))).
Proof.
  intros fuel s count Hwf Hc Hfuel. split.
  - unfold StreamLoops.psd_stream_skip.
    destruct (count =? 0) eqn:E0.
    + apply Z.eqb_eq in E0. subst count.
      rewrite psd_stream_skip_spec by (try assumption; lia).
      replace (0 <=? Z.of_nat (length (Stream.buffer s) - Stream.position s))
        with true by (symmetry; apply Z.leb_le; lia).
      destruct s as [b p]. cbn [Stream.buffer Stream.position Z.to_nat].
      rewrite Nat.add_0_r. reflexivity.
    + rewrite skip_loop_chunks by (try assumption; rewrite ?Z.sub_0_r; lia).
      rewrite Z.sub_0_r. reflexivity.
  - apply psd_stream_skip_spec; assumption.
Qed.

Lemma psd_stream_skip_chunks_witness :
  StreamLoops.psd_stream_skip 3 (Stream.mk_stream [1; 2; 3; 4; 5] 1) 3
  = Some (Stream.psd_stream_skip (Stream.mk_stream [1; 2; 3; 4; 5] 1) 3) /\
  Stream.psd_stream_skip (Stream.mk_stream [1; 2; 3; 4; 5] 1) 3 =
  (PSD_OK, Stream.mk_stream [1; 2; 3; 4; 5] 4).
Proof.
  apply (psd_stream_skip_chunks 3 (Stream.mk_stream [1; 2; 3; 4; 5] 1) 3).
  - unfold stream_wf. cbn. lia.
  - lia.
  - vm_compute. lia.
Defined.

Lemma be_bytes_app :
  forall m n v,
    be_bytes (n + m) v = be_bytes n (v / 256 ^ Z.of_nat m) ++ be_bytes m v.
Proof.
  induction m as [|m IH]; intros n v.
  - rewrite Nat.add_0_r. cbn [be_bytes Z.of_nat]. rewrite Z.pow_0_r, Z.div_1_r.
    now rewrite app_nil_r.
  - rewrite Nat.add_succ_r. cbn [be_bytes]. rewrite IH, <- app_assoc.
    rewrite Z.div_div by lia.
    rewrite Nat2Z.inj_succ, Z.pow_succ_r by lia. reflexivity.
Qed.

Lemma be_bytes_low :
  forall n v, be_bytes n (v mod 256 ^ Z.of_nat n) = be_bytes n v.
Proof.
  induction n as [|n IH]; intros v; [reflexivity|].
  cbn [be_bytes]. rewrite Nat2Z.inj_succ, Z.pow_succ_r by lia.
  assert (Hpos : 0 < 256 ^ Z.of_nat n) by (apply Z.pow_pos_nonneg; lia).
  rewrite Z.rem_mul_r by lia.
  set (x := (v / 256) mod 256 ^ Z.of_nat n).
  assert (Hb : 0 <= v mod 256 < 256) by (apply Z.mod_pos_bound; lia).
  replace ((v mod 256 + 256 * x) / 256) with x.
  2: { replace (v mod 256 + 256 * x) with (x * 256 + v mod 256) by lia.
       rewrite Z.div_add_l by lia. rewrite (Z.div_small (v mod 256)) by lia.
       lia. }
  subst x. rewrite IH. f_equal. f_equal.
  replace (v mod 256 + 256 * ((v / 256) mod 256 ^ Z.of_nat n))
    with (v mod 256 + ((v / 256) mod 256 ^ Z.of_nat n) * 256) by lia.
  rewrite Z.mod_add by lia. apply Z.mod_mod. lia.
Qed.

Lemma read_be_u64_be_bytes :
  forall v, 0 <= v < 2 ^ 64 -> read_be_u64 (be_bytes 8 v) 0 = v.
Proof.
  intros v Hv. unfold read_be_u64.
  change 8%nat with (4 + 4)%nat. rewrite be_bytes_app.
  change (256 ^ Z.of_nat 4) with 4294967296.
  set (hi := be_bytes 4 (v / 4294967296)).
  set (lo := be_bytes 4 v).
  assert (Hhi : read_be_u32 (hi ++ lo) 0 = v / 4294967296).
  { unfold read_be_u32.
    rewrite !byte_at_app_l by (subst hi; rewrite be_bytes_length; lia).
    fold (read_be_u32 hi 0). subst hi. apply read_be_u32_be_bytes.
    change (2 ^ 64) with (4294967296 * 4294967296) in Hv.
    split; [apply Z.div_pos; lia | apply Z.div_lt_upper_bound; lia]. }
  assert (Hlo : read_be_u32 (hi ++ lo) (0 + 4) = v mod 4294967296).
  { unfold read_be_u32.
    replace (0 + 4)%nat with (length hi + 0)%nat
      by (subst hi; rewrite be_bytes_length; reflexivity).
    rewrite <- !Nat.add_assoc, !byte_at_app_r.
    fold (read_be_u32 lo 0). subst lo.
    rewrite <- (be_bytes_low 4 v). change (256 ^ Z.of_nat 4) with 4294967296.
    apply read_be_u32_be_bytes. apply Z.mod_pos_bound. lia. }
  rewrite Hhi, Hlo.
  rewrite lor_shiftl_add
    by (try lia; change (2 ^ 32) with 4294967296; apply Z.mod_pos_bound; lia).
  change (2 ^ 32) with 4294967296.
  pose proof (Z.div_mod v 4294967296 ltac:(lia)). lia.
Qed.

(** X22. [psd_stream_read_length] reads back a length written big-endian in
    the width of the format: four bytes for PSD, eight for PSB.  It returns
    the value and leaves the stream behind the field, except for a PSB
    length that does not fit [size_t]: that is refused with
    [PSD_ERR_OUT_OF_RANGE], after the eight bytes have been consumed. *)
Theorem psd_stream_read_length_roundtrip :
  forall size_t_bits (is_psb : bool) pre v rest,
    0 <= v < (if is_psb then 2 ^ 64 else 2 ^ 32) ->
    let field := be_bytes (if is_psb then 8 else 4) v in
    StreamLoops.psd_stream_read_length size_t_bits is_psb
                                       (stream_at pre (field ++ rest)) =
    (if is_psb && (size_t_bits <? 64) && (2 ^ size_t_bits <=? v)
     then @inl psd_status_t Z PSD_ERR_OUT_OF_RANGE else inr v,
     stream_at (pre ++ field) rest).
Proof.
  intros bits is_psb pre v rest Hv. cbv zeta.
  unfold StreamLoops.psd_stream_read_length.
  destruct is_psb; cbn [andb].
  - unfold Stream.psd_stream_read_be64.
    rewrite read_value_at by (rewrite be_bytes_length; reflexivity).
    rewrite read_be_u64_be_bytes by assumption.
    unfold Endian.psd_u64_to_size.
    destruct (bits <? 64); cbn [andb]; [|reflexivity].
    destruct (v >? 2 ^ bits - 1) eqn:E; rewrite Z.gtb_ltb in E.
    + apply Z.ltb_lt in E.
      replace (2 ^ bits <=? v) with true by (symmetry; apply Z.leb_le; lia).
      reflexivity.
    + apply Z.ltb_ge in E.
      replace (2 ^ bits <=? v) with false by (symmetry; apply Z.leb_gt; lia).
      reflexivity.
  - unfold Stream.psd_stream_read_be32.
    rewrite read_value_at by (rewrite be_bytes_length; reflexivity).
    rewrite read_be_u32_be_bytes
      by (change (2 ^ 32) with 4294967296 in Hv; lia).
    reflexivity.
Qed.

Lemma psd_stream_read_length_roundtrip_witness :
  StreamLoops.psd_stream_read_length
    32 true (stream_at [0x38] (be_bytes 8 0x100000000 ++ [0xFF]))
  = (@inl psd_status_t Z PSD_ERR_OUT_OF_RANGE,
     stream_at ([0x38] ++ be_bytes 8 0x100000000) [0xFF]).
Proof.
  apply (psd_stream_read_length_roundtrip 32 true [0x38] 0x100000000 [0xFF]).
  cbn. lia.
Defined.

(** *** The length of the layer and mask section *)

Lemma psd_stream_seek_at :
  forall pre rest (target : list Z) tail,
    pre ++ rest = target ++ tail ->
    Stream.psd_stream_seek (stream_at pre rest) (Z.of_nat (length target))
    = Some (stream_at target tail).
Proof.
  intros pre rest target tail H. unfold Stream.psd_stream_seek, stream_at.
  cbn [Stream.buffer]. rewrite H, length_app.
  replace (Z.of_nat (length target) <? 0) with false
    by (symmetry; apply Z.ltb_ge; lia).
  replace (Z.of_nat (length target)
           >? Z.of_nat (length target + length tail)) with false
    by (symmetry; rewrite Z.gtb_ltb; apply Z.ltb_ge; lia).
  cbn [orb]. rewrite Nat2Z.id. reflexivity.
Qed.

Lemma psd_stream_tell_at :
  forall pre rest,
    Stream.psd_stream_tell (stream_at pre rest) = Z.of_nat (length pre).
Proof. reflexivity. Qed.

Lemma read_be_u64_two_words :
  forall hi lo,
    0 <= hi < 4294967296 -> all_bytes lo = true -> length lo = 4%nat ->
    exists x,
      0 <= x < 4294967296 /\
      read_be_u64 (be_bytes 4 hi ++ lo) 0 = hi * 4294967296 + x.
Proof.
  intros hi lo Hhi Hlo Hlen.
  exists (read_be_u32 lo 0). split.
  - apply read_be_u32_range. apply all_bytes_Forall. assumption.
  - unfold read_be_u64.
    assert (H0 : read_be_u32 (be_bytes 4 hi ++ lo) 0 = hi).
    { unfold read_be_u32.
      rewrite !byte_at_app_l by (rewrite be_bytes_length; lia).
      fold (read_be_u32 (be_bytes 4 hi) 0).
      apply read_be_u32_be_bytes. assumption. }
    assert (H4 : read_be_u32 (be_bytes 4 hi ++ lo) (0 + 4)
                 = read_be_u32 lo 0).
    { unfold read_be_u32.
      replace (0 + 4)%nat with (length (be_bytes 4 hi) + 0)%nat
        by (rewrite be_bytes_length; reflexivity).
      rewrite <- !Nat.add_assoc, !byte_at_app_r. reflexivity. }
    rewrite H0, H4.
    rewrite lor_shiftl_add;
      [reflexivity | lia | apply read_be_u32_range].
    apply all_bytes_Forall. assumption.
Qed.

(** X23. The section length of a PSB file and the width of [size_t].  When
    the layer and mask section starts with an eight-byte length and the
    section lies inside the file, [psd_parse_layer_info] takes its end from
    the eight bytes (for a [size_t] of 32 bits or more).  When it starts
    with a four-byte length, as some writers emit (not 0, not
    [0xFFFFFFFF]), the eight bytes read first denote 4 GiB or more.  With
    a [size_t] of 64 bits or more the end computed from them lies outside
    the file (of less than 4 GiB), the probing seek fails, and the length
    is read again from the four bytes; in both cases the stream stands
    just behind the length field.  With a [size_t] of 32 bits the eight
    bytes do not fit it and the call ends with [PSD_ERR_OUT_OF_RANGE]
    before the fallback is tried. *)
Theorem psb_section_length_either_width :
  forall size_t_bits pre len next4 rest,
    0 < len < 2 ^ 32 - 1 ->
    all_bytes next4 = true -> length next4 = 4%nat ->
    Z.of_nat (length (pre ++ be_bytes 8 len ++ next4 ++ rest)) < 2 ^ 32 ->
    (32 <= size_t_bits ->
     Z.of_nat (length (next4 ++ rest)) >= len ->
     LayerSection.read_section_end
       size_t_bits true (stream_at pre (be_bytes 8 len ++ next4 ++ rest))
     = (inr (Some (Z.of_nat (length pre) + 8 + len)),
        stream_at (pre ++ be_bytes 8 len) (next4 ++ rest))) /\
    (64 <= size_t_bits ->
     LayerSection.read_section_end
       size_t_bits true (stream_at pre (be_bytes 4 len ++ next4 ++ rest))
     = (inr (Some (Z.of_nat (length pre) + 4 + len)),
        stream_at (pre ++ be_bytes 4 len) (next4 ++ rest))) /\
    (size_t_bits = 32 ->
     LayerSection.read_section_end
       size_t_bits true (stream_at pre (be_bytes 4 len ++ next4 ++ rest))
     = (inl PSD_ERR_OUT_OF_RANGE,
        stream_at (pre ++ be_bytes 4 len ++ next4) rest)).
Proof.
  intros bits pre len next4 rest Hlen Hbytes H4 Hsize.
  change (2 ^ 32) with 4294967296 in *.
  rewrite !length_app, be_bytes_length in Hsize.
  split; [|split].
  - intros Hbits Hfits. rewrite length_app in Hfits.
    assert (Hu64 : exists v, Endian.psd_u64_to_size bits len = Some v).
    { unfold Endian.psd_u64_to_size.
      destruct (bits <? 64); [|eauto].
      assert (Hpow : 2 ^ 32 <= 2 ^ bits)
        by (apply Z.pow_le_mono_r; lia).
      change (2 ^ 32) with 4294967296 in Hpow.
      replace (len >? 2 ^ bits - 1) with false
        by (symmetry; rewrite Z.gtb_ltb; apply Z.ltb_ge; lia).
      eauto. }
    destruct Hu64 as [v0 Hu64].
    unfold LayerSection.read_section_end, StreamLoops.psd_stream_read_length,
      Stream.psd_stream_read_be64.
    rewrite read_value_at by (rewrite be_bytes_length; reflexivity).
    rewrite read_be_u64_be_bytes
      by (change (2 ^ 64) with 18446744073709551616; lia).
    rewrite Hu64.
    replace (len =? 0) with false by (symmetry; apply Z.eqb_neq; lia).
    unfold LayerInfo.int64_cast.
    replace (len <? 9223372036854775808) with true
      by (symmetry; apply Z.ltb_lt; lia).
    rewrite !psd_stream_tell_at.
    set (target := (pre ++ be_bytes 8 len)
                   ++ firstn (Z.to_nat len) (next4 ++ rest)).
    replace (Z.of_nat (length (pre ++ be_bytes 8 len)) + len)
      with (Z.of_nat (length target)).
    2: { subst target. rewrite !length_app, length_firstn, be_bytes_length.
         rewrite length_app. lia. }
    rewrite (psd_stream_seek_at _ _ target
                                (skipn (Z.to_nat len) (next4 ++ rest))).
    2: { subst target. rewrite <- !app_assoc, firstn_skipn. reflexivity. }
    rewrite (psd_stream_seek_at _ _ (pre ++ be_bytes 8 len) (next4 ++ rest)).
    2: { subst target. rewrite <- !app_assoc, firstn_skipn. reflexivity. }
    subst target. rewrite !length_app, length_firstn, be_bytes_length.
    rewrite length_app. do 3 f_equal. lia.
  - intros Hbits.
    assert (Hu64 : forall v, Endian.psd_u64_to_size bits v = Some v).
    { intros v. unfold Endian.psd_u64_to_size.
      replace (bits <? 64) with false by (symmetry; apply Z.ltb_ge; lia).
      reflexivity. }
    destruct (read_be_u64_two_words len next4 ltac:(lia) Hbytes H4)
      as [x [Hx Hvalue]].
    unfold LayerSection.read_section_end, StreamLoops.psd_stream_read_length,
      Stream.psd_stream_read_be64.
    replace (be_bytes 4 len ++ next4 ++ rest)
      with ((be_bytes 4 len ++ next4) ++ rest)
      by (rewrite <- app_assoc; reflexivity).
    rewrite read_value_at
      by (rewrite length_app, be_bytes_length, H4; reflexivity).
    rewrite Hvalue, Hu64.
    replace (len * 4294967296 + x =? 0) with false
      by (symmetry; apply Z.eqb_neq; lia).
    rewrite !psd_stream_tell_at.
    set (v := len * 4294967296 + x) in *.
    assert (Hv : 4294967296 <= v < 18446744073709551616 - 4294967296)
      by (unfold v; lia).
    assert (Hseek1 :
              Stream.psd_stream_seek
                (stream_at (pre ++ be_bytes 4 len ++ next4) rest)
                (Z.of_nat (length (pre ++ be_bytes 4 len ++ next4))
                 + LayerInfo.int64_cast v) = None).
    { unfold Stream.psd_stream_seek, LayerInfo.int64_cast, stream_at.
      cbn [Stream.buffer].
      rewrite !length_app, be_bytes_length, H4.
      destruct (v <? 9223372036854775808) eqn:Ev.
      - replace (_ >? _) with true
          by (symmetry; rewrite Z.gtb_ltb; apply Z.ltb_lt; lia).
        now rewrite orb_true_r.
      - apply Z.ltb_ge in Ev.
        replace (_ <? 0) with true by (symmetry; apply Z.ltb_lt; lia).
        reflexivity. }
    rewrite Hseek1.
    rewrite (psd_stream_seek_at _ _ pre (be_bytes 4 len ++ next4 ++ rest))
      by (rewrite <- !app_assoc; reflexivity).
    unfold Stream.psd_stream_read_be32.
    rewrite read_value_at by (rewrite be_bytes_length; reflexivity).
    rewrite read_be_u32_be_bytes by lia.
    unfold LayerInfo.int64_cast.
    replace (len <? 9223372036854775808) with true
      by (symmetry; apply Z.ltb_lt; lia).
    rewrite psd_stream_tell_at, !length_app, be_bytes_length.
    do 3 f_equal. lia.
  - intros ->.
    destruct (read_be_u64_two_words len next4 ltac:(lia) Hbytes H4)
      as [x [Hx Hvalue]].
    unfold LayerSection.read_section_end, StreamLoops.psd_stream_read_length,
      Stream.psd_stream_read_be64.
    replace (be_bytes 4 len ++ next4 ++ rest)
      with ((be_bytes 4 len ++ next4) ++ rest)
      by (rewrite <- app_assoc; reflexivity).
    rewrite read_value_at
      by (rewrite length_app, be_bytes_length, H4; reflexivity).
    rewrite Hvalue.
    unfold Endian.psd_u64_to_size.
    change (32 <? 64) with true. change (2 ^ 32 - 1) with 4294967295.
    replace (len * 4294967296 + x >? 4294967295) with true
      by (symmetry; rewrite Z.gtb_ltb; apply Z.ltb_lt; lia).
    reflexivity.
Qed.

Lemma psb_section_length_either_width_witness :
  LayerSection.read_section_end
    64 true (stream_at [1; 2] (be_bytes 8 6 ++ [0; 0; 0; 0] ++ [7; 7]))
  = (inr (Some (Z.of_nat (length [1; 2]) + 8 + 6)),
     stream_at ([1; 2] ++ be_bytes 8 6) ([0; 0; 0; 0] ++ [7; 7])) /\
  LayerSection.read_section_end
    64 true (stream_at [1; 2] (be_bytes 4 6 ++ [0; 0; 0; 0] ++ [7; 7]))
  = (inr (Some (Z.of_nat (length [1; 2]) + 4 + 6)),
     stream_at ([1; 2] ++ be_bytes 4 6) ([0; 0; 0; 0] ++ [7; 7])) /\
  LayerSection.read_section_end
    32 true (stream_at [1; 2] (be_bytes 4 6 ++ [0; 0; 0; 0] ++ [7; 7]))
  = (inl PSD_ERR_OUT_OF_RANGE,
     stream_at ([1; 2] ++ be_bytes 4 6 ++ [0; 0; 0; 0]) [7; 7]).
Proof.
  split; [|split].
  - apply (psb_section_length_either_width 64 [1; 2] 6 [0; 0; 0; 0] [7; 7]);
      [cbn; lia | reflexivity | reflexivity | vm_compute; reflexivity
       | lia | cbn; lia].
  - apply (psb_section_length_either_width 64 [1; 2] 6 [0; 0; 0; 0] [7; 7]);
      [cbn; lia | reflexivity | reflexivity | vm_compute; reflexivity | lia].
  - apply (psb_section_length_either_width 32 [1; 2] 6 [0; 0; 0; 0] [7; 7]);
      [cbn; lia | reflexivity | reflexivity | vm_compute; reflexivity
       | reflexivity].
Defined.

(** *** The background-layer test *)

Lemma vector_mask_scan_total :
  forall data,
    (forall o, u32 (8 + read_be_u32 data o) <> 0) ->
    forall fuel off remaining,
      (Z.to_nat remaining < fuel)%nat ->
      exists b, Background.vector_mask_scan fuel data off remaining = Some b.
Proof.
  intros data Hlen.
  induction fuel as [|fuel IH]; intros off remaining Hfuel; [lia|].
  cbn [Background.vector_mask_scan].
  destruct (remaining >=? 8) eqn:E; [|exists false; reflexivity].
  rewrite Z.geb_leb in E. apply Z.leb_le in E.
  destruct (_ || _); [exists true; reflexivity|].
  specialize (Hlen (off + 4)%nat).
  assert (Hpos : 0 <= u32 (8 + read_be_u32 data (off + 4)))
    by (unfold u32; apply Z.mod_pos_bound; lia).
  destruct (_ >? remaining) eqn:Et; [exists false; reflexivity|].
  rewrite Z.gtb_ltb in Et. apply Z.ltb_ge in Et.
  apply IH. lia.
Qed.

Lemma vector_mask_scan_stuck :
  forall data off remaining,
    8 <= remaining ->
    LayerInfo.key_is data off "vmsk" = false ->
    LayerInfo.key_is data off "vmns" = false ->
    read_be_u32 data (off + 4) = 0xFFFFFFF8 ->
    forall fuel, Background.vector_mask_scan fuel data off remaining = None.
Proof.
  intros data off remaining Hrem Hk1 Hk2 Hlen.
  induction fuel as [|fuel IH]; [reflexivity|].
  cbn [Background.vector_mask_scan].
  replace (remaining >=? 8) with true
    by (symmetry; rewrite Z.geb_leb; apply Z.leb_le; lia).
  rewrite Hk1, Hk2, Hlen. cbn [orb].
  change (u32 (8 + 0xFFFFFFF8)) with 0.
  replace (0 >? remaining) with false
    by (symmetry; rewrite Z.gtb_ltb; apply Z.ltb_ge; lia).
  change (Z.to_nat 0) with 0%nat. rewrite Nat.add_0_r, Z.sub_0_r.
  exact IH.
Qed.

Lemma land_bit2 :
  forall f, Z.land f 4 <> 0 -> Z.testbit f 2 = true.
Proof.
  intros f H. destruct (Z.testbit f 2) eqn:E; [reflexivity|].
  exfalso. apply H. apply Z.bits_inj'. intros i Hi.
  rewrite Z.land_spec, Z.bits_0. change 4 with (2 ^ 2).
  rewrite Z.pow2_bits_eqb by lia.
  destruct (Z.eqb_spec 2 i) as [<- | Hne];
    [rewrite E; reflexivity | apply andb_false_r].
Qed.

(** X12. [psd_document_is_background_layer] answers true only for the last
    layer of the array, and only when that layer has flag bit 2 set, no
    channel with id -1, no layer mask length in its extra data, and as many
    channels as [base_channel_count]; for every other index it answers
    false, so at most one layer of a document is a background layer. *)
Theorem psd_document_is_background_layer_sound :
  forall doc layer_index base_channel_count,
    Background.psd_document_is_background_layer doc layer_index
                                                base_channel_count
      = Some true ->
    layer_index = layer_count (doc_layers doc) - 1 /\
    0 <= layer_index /\
    (exists layer,
       nth_error (layers (doc_layers doc)) (Z.to_nat layer_index)
         = Some layer /\
       Z.testbit (flags layer) 2 = true /\
       Forall (fun ch => channel_id ch <> -1) (channels layer) /\
       channel_count layer = base_channel_count /\
       (forall data,
          additional_data layer = Some data ->
          4 <= additional_length layer -> read_be_u32 data 0 <= 0)) /\
    (forall other count,
       other <> layer_index ->
       Background.psd_document_is_background_layer doc other count
         = Some false).
Proof.
  intros doc i n H. unfold Background.psd_document_is_background_layer in H.
  destruct (negb (i =? layer_count (doc_layers doc) - 1)) eqn:E1;
    [discriminate|].
  apply negb_false_iff in E1. apply Z.eqb_eq in E1.
  destruct (i <? 0) eqn:E0; [discriminate|]. apply Z.ltb_ge in E0.
  destruct (nth_error (layers (doc_layers doc)) (Z.to_nat i))
    as [layer |] eqn:Hn; [|discriminate].
  destruct (Z.land (flags layer) 4 =? 0) eqn:E2; [discriminate|].
  apply Z.eqb_neq in E2.
  destruct (Background.has_transparency_channel layer) eqn:E3; [discriminate|].
  match type of H with
  | (if ?m then _ else _) = _ => destruct m eqn:E4; [discriminate|]
  end.
  match type of H with
  | match ?v with _ => _ end = _ => destruct v as [[|]|]; try discriminate
  end.
  destruct (negb (channel_count layer =? n)) eqn:E6; [discriminate|].
  apply negb_false_iff in E6. apply Z.eqb_eq in E6.
  split; [assumption|]. split; [assumption|]. split.
  - exists layer. split; [reflexivity|]. split; [apply land_bit2; assumption|].
    split; [|split; [assumption|]].
    + unfold Background.has_transparency_channel in E3.
      apply Forall_forall. intros ch Hch Hid.
      assert (Ht : existsb (fun ch => channel_id ch =? -1) (channels layer)
                   = true)
        by (apply existsb_exists; exists ch; split;
            [assumption | apply Z.eqb_eq; assumption]).
      congruence.
    + intros data Hd Hlen. rewrite Hd in E4.
      destruct (read_be_u32 data 0 >? 0) eqn:Em;
        [|rewrite Z.gtb_ltb in Em; apply Z.ltb_ge in Em; assumption].
      replace (additional_length layer >? 0) with true in E4
        by (symmetry; rewrite Z.gtb_ltb; apply Z.ltb_lt; lia).
      replace (additional_length layer >=? 4) with true in E4
        by (symmetry; rewrite Z.geb_leb; apply Z.leb_le; lia).
      discriminate E4.
  - intros other count Hne.
    unfold Background.psd_document_is_background_layer.
    replace (other =? layer_count (doc_layers doc) - 1) with false
      by (symmetry; apply Z.eqb_neq; lia).
    reflexivity.
Qed.

Lemma psd_document_is_background_layer_sound_witness :
  0 = layer_count (doc_layers doc_with_background) - 1 /\
  0 <= 0 /\
  (exists layer,
     nth_error (layers (doc_layers doc_with_background)) (Z.to_nat 0)
       = Some layer /\
     Z.testbit (flags layer) 2 = true /\
     Forall (fun ch => channel_id ch <> -1) (channels layer) /\
     channel_count layer = 3 /\
     (forall data,
        additional_data layer = Some data ->
        4 <= additional_length layer -> read_be_u32 data 0 <= 0)) /\
  (forall other count,
     other <> 0 ->
     Background.psd_document_is_background_layer doc_with_background other
                                                 count = Some false).
Proof.
  apply (psd_document_is_background_layer_sound doc_with_background 0 3).
  reflexivity.
Defined.

Lemma key_is_first_byte :
  forall data off c s,
    LayerInfo.key_is data off (String c s) = true ->
    byte_at data off = Z.of_N (N_of_ascii c).
Proof.
  intros data off c s H. cbn [LayerInfo.key_is] in H.
  apply andb_true_iff in H. destruct H as [H _]. apply Z.eqb_eq. assumption.
Qed.

Lemma detect_key_keeps_vector_mask :
  forall data off data_end remaining block_len f,
    has_vector_mask f = true ->
    has_vector_mask
      (LayerInfo.detect_key data off data_end remaining block_len f) = true.
Proof.
  intros data off data_end remaining block_len f Hf.
  unfold LayerInfo.detect_key.
  repeat match goal with
         | |- context [if ?c then _ else _] => destruct c
         end;
    destruct f; cbn in *; first [assumption | reflexivity].
Qed.

Lemma detect_blocks_keeps_vector_mask :
  forall fuel data off data_end remaining f f',
    has_vector_mask f = true ->
    LayerInfo.detect_blocks fuel data off data_end remaining f = Some f' ->
    has_vector_mask f' = true.
Proof.
  induction fuel as [|fuel IH]; intros data off data_end remaining f f' Hf H;
    [discriminate|].
  cbn [LayerInfo.detect_blocks] in H. cbv zeta in H.
  repeat match type of H with
         | (if ?c then _ else _) = _ => destruct c
         end;
    try (injection H as <-; first [assumption
                                  | apply detect_key_keeps_vector_mask;
                                    assumption]).
  eapply IH; [|exact H]. apply detect_key_keeps_vector_mask. assumption.
Qed.

(** X13. The vector-mask criterion of [psd_document_is_background_layer]
    reads the tagged blocks with an 8-byte header (key, length), while the
    layer parser reads them with the 12-byte header of the file format
    (signature, key, length).  At a block with the signature ["8BIM"] or
    ["8B64"] and the key ["vmsk"] or ["vmns"] that fits the extra data (of
    at most 10000000 bytes, the parser's limit), the parser's scan returns
    with [has_vector_mask] set, while the scan of the background test takes
    the signature for the key and the key for the length, stops, and
    reports no vector mask. *)
Theorem vector_mask_scan_misses_tagged_blocks :
  forall data off data_end remaining f,
    all_bytes data = true ->
    12 <= remaining <= 10000000 ->
    Z.of_nat off + 12 <= data_end ->
    (read_be_u32 data off = 0x3842494D \/ read_be_u32 data off = 0x38423634) ->
    (LayerInfo.key_is data (off + 4) "vmsk" = true \/
     LayerInfo.key_is data (off + 4) "vmns" = true) ->
    read_be_u32 data (off + 8) <= remaining - 12 ->
    (exists f',
       LayerInfo.detect_blocks (S (Z.to_nat remaining)) data off data_end
                               remaining f = Some f' /\
       has_vector_mask f' = true) /\
    Background.vector_mask_scan (S (Z.to_nat remaining)) data off remaining
      = Some false.
Proof.
  intros data off data_end remaining f Hall Hrem Hend Hsig Hkey Hlen.
  apply all_bytes_Forall in Hall.
  assert (Hv : byte_at data (off + 4) = 0x76).
  { destruct Hkey as [Hk | Hk]; apply key_is_first_byte in Hk; exact Hk. }
  split.
  - destruct (detect_blocks_total (S (Z.to_nat remaining)) data off data_end
                                  remaining f Hall ltac:(lia) ltac:(lia))
      as [f' Hf'].
    exists f'. split; [exact Hf'|].
    cbn [LayerInfo.detect_blocks] in Hf'. cbv zeta in Hf'.
    replace (12 <=? remaining) with true in Hf'
      by (symmetry; apply Z.leb_le; lia).
    replace (Z.of_nat off + 12 >? data_end) with false in Hf'
      by (symmetry; rewrite Z.gtb_ltb; apply Z.ltb_ge; lia).
    replace (negb (read_be_u32 data off =? 0x3842494D)
             && negb (read_be_u32 data off =? 0x38423634)) with false in Hf'
      by (destruct Hsig as [-> | ->]; reflexivity).
    replace (read_be_u32 data (off + 8) >? remaining - 12) with false in Hf'
      by (symmetry; rewrite Z.gtb_ltb; apply Z.ltb_ge; lia).
    assert (Hset : has_vector_mask
                     (LayerInfo.detect_key
                        data off data_end remaining
                        (read_be_u32 data (off + 8)) f) = true).
    { unfold LayerInfo.detect_key.
      assert (Hnot : forall c s,
                 Z.of_N (N_of_ascii c) <> 0x76 ->
                 LayerInfo.key_is data (off + 4) (String c s) = false).
      { intros c s Hc. cbn [LayerInfo.key_is]. rewrite Hv.
        replace (0x76 =? Z.of_N (N_of_ascii c)) with false
          by (symmetry; apply Z.eqb_neq; congruence).
        reflexivity. }
      rewrite !Hnot by (vm_compute; discriminate).
      cbn [orb].
      destruct Hkey as [Hk | Hk].
      - rewrite Hk. reflexivity.
      - rewrite Hk. destruct (LayerInfo.key_is data (off + 4) "vmsk");
          reflexivity. }
    match type of Hf' with
    | (if ?c then _ else _) = _ => destruct c
    end.
    + eapply detect_blocks_keeps_vector_mask; [exact Hset | exact Hf'].
    + injection Hf' as <-. exact Hset.
  - cbn [Background.vector_mask_scan].
    replace (remaining >=? 8) with true
      by (symmetry; rewrite Z.geb_leb; apply Z.leb_le; lia).
    assert (Hfirst : byte_at data off = 0x38).
    { pose proof (byte_at_is_byte data off Hall) as H0.
      pose proof (byte_at_is_byte data (off + 1) Hall) as H1.
      pose proof (byte_at_is_byte data (off + 2) Hall) as H2.
      pose proof (byte_at_is_byte data (off + 3) Hall) as H3.
      rewrite read_be_u32_value in Hsig by assumption.
      unfold is_byte in *. lia. }
    replace (LayerInfo.key_is data off "vmsk") with false.
    2: { symmetry. destruct (LayerInfo.key_is data off "vmsk") eqn:Ek;
           [|reflexivity].
         apply key_is_first_byte in Ek. rewrite Hfirst in Ek.
         vm_compute in Ek. discriminate Ek. }
    replace (LayerInfo.key_is data off "vmns") with false.
    2: { symmetry. destruct (LayerInfo.key_is data off "vmns") eqn:Ek;
           [|reflexivity].
         apply key_is_first_byte in Ek. rewrite Hfirst in Ek.
         vm_compute in Ek. discriminate Ek. }
    cbn [orb].
    assert (Hbig : 2 ^ 24 <= read_be_u32 data (off + 4) < 2 ^ 31).
    { rewrite read_be_u32_value by assumption.
      pose proof (byte_at_is_byte data (off + 4 + 1) Hall) as H1.
      pose proof (byte_at_is_byte data (off + 4 + 2) Hall) as H2.
      pose proof (byte_at_is_byte data (off + 4 + 3) Hall) as H3.
      rewrite Hv. unfold is_byte in *.
      change (2 ^ 24) with 16777216. change (2 ^ 31) with 2147483648. lia. }
    unfold u32. rewrite Z.mod_small by lia.
    replace (8 + read_be_u32 data (off + 4) >? remaining) with true
      by (symmetry; rewrite Z.gtb_ltb; apply Z.ltb_lt;
          change (2 ^ 24) with 16777216 in Hbig; lia).
    reflexivity.
Qed.

Lemma vector_mask_scan_misses_tagged_blocks_witness :
  (exists f',
     LayerInfo.detect_blocks
       (S (Z.to_nat 12))
       [0x38; 0x42; 0x49; 0x4D; 0x76; 0x6D; 0x73; 0x6B; 0; 0; 0; 0] 0 12 12
       no_features = Some f' /\
     has_vector_mask f' = true) /\
  Background.vector_mask_scan
    (S (Z.to_nat 12))
    [0x38; 0x42; 0x49; 0x4D; 0x76; 0x6D; 0x73; 0x6B; 0; 0; 0; 0] 0 12
  = Some false.
Proof.
  apply (vector_mask_scan_misses_tagged_blocks
           [0x38; 0x42; 0x49; 0x4D; 0x76; 0x6D; 0x73; 0x6B; 0; 0; 0; 0]
           0 12 12 no_features).
  - reflexivity.
  - lia.
  - cbn. lia.
  - left. reflexivity.
  - left. reflexivity.
  - cbn. lia.
Defined.

(** X14. When does [psd_document_is_background_layer] return?  The loop over
    the tagged blocks advances by [8 + block_len] computed in 32 bits.  For
    a layer of the array whose extra data nowhere hold the four bytes
    [FF FF FF F8], the test returns an answer.  For a last layer with flag
    bit 2, no transparency channel, empty mask, blending-range and name
    fields, and a first block (other than ["vmsk"], ["vmns"]) whose length
    field is [0xFFFFFFF8], the step is zero bytes: the loop repeats the
    same block for ever, whatever number of rounds it is given. *)
Theorem psd_document_is_background_layer_termination :
  forall doc layer_index base_channel_count layer data,
    0 <= layer_index ->
    nth_error (layers (doc_layers doc)) (Z.to_nat layer_index) = Some layer ->
    additional_data layer = Some data ->
    all_bytes data = true ->
    ((forall o, read_be_u32 data o <> 0xFFFFFFF8) ->
     exists b,
       Background.psd_document_is_background_layer
         doc layer_index base_channel_count = Some b) /\
    (layer_index = layer_count (doc_layers doc) - 1 ->
     Z.testbit (flags layer) 2 = true ->
     Forall (fun ch => channel_id ch <> -1) (channels layer) ->
     20 <= additional_length layer ->
     read_be_u32 data 0 = 0 ->
     read_be_u32 data 4 = 0 ->
     byte_at data 8 = 0 ->
     LayerInfo.key_is data 12 "vmsk" = false ->
     LayerInfo.key_is data 12 "vmns" = false ->
     read_be_u32 data 16 = 0xFFFFFFF8 ->
     Background.has_vector_mask_block data (additional_length layer) = None /\
     (forall fuel,
        Background.vector_mask_scan fuel data 12
                                    (additional_length layer - 12) = None) /\
     Background.psd_document_is_background_layer
       doc layer_index base_channel_count = None).
Proof.
  intros doc i n layer data Hi Hn Hd Hall. split.
  - intros Hlen.
    apply all_bytes_Forall in Hall.
    assert (Hstep : forall o, u32 (8 + read_be_u32 data o) <> 0).
    { intros o. pose proof (read_be_u32_range data o Hall) as Hr.
      specialize (Hlen o). unfold u32.
      destruct (Z_lt_le_dec (8 + read_be_u32 data o) (2 ^ 32)) as [Hlt | Hge].
      - rewrite Z.mod_small by lia. lia.
      - replace (8 + read_be_u32 data o)
          with ((8 + read_be_u32 data o - 2 ^ 32) + 1 * 2 ^ 32) by lia.
        rewrite Z.mod_add by lia. rewrite Z.mod_small by lia.
        change (2 ^ 32) with 4294967296 in *. lia. }
    unfold Background.psd_document_is_background_layer.
    destruct (negb (i =? _)); [exists false; reflexivity|].
    replace (i <? 0) with false by (symmetry; apply Z.ltb_ge; lia).
    rewrite Hn, Hd.
    destruct (Z.land (flags layer) 4 =? 0); [exists false; reflexivity|].
    destruct (Background.has_transparency_channel layer);
      [exists false; reflexivity|].
    destruct (_ && _ && _); [exists false; reflexivity|].
    assert (Hscan : exists b,
               (if additional_length layer >? 0
                then Background.has_vector_mask_block
                       data (additional_length layer)
                else Some false) = Some b).
    { destruct (additional_length layer >? 0); [|exists false; reflexivity].
      unfold Background.has_vector_mask_block.
      destruct (TextLayer.skip_length_prefixed data 0 _) as [off1 r1].
      destruct (TextLayer.skip_length_prefixed data off1 r1) as [off2 r2].
      destruct (TextLayer.skip_layer_name data off2 r2) as [off3 r3].
      apply vector_mask_scan_total; [exact Hstep | lia]. }
    destruct Hscan as [b ->].
    destruct b; [exists false; reflexivity|].
    destruct (negb (channel_count layer =? n));
      [exists false | exists true]; reflexivity.
  - intros Hlast Hflag Hch Hlen Hmask Hblend Hname Hk1 Hk2 Hwrap.
    assert (Hstuck : forall fuel,
               Background.vector_mask_scan
                 fuel data 12 (additional_length layer - 12) = None)
      by (apply vector_mask_scan_stuck; try assumption; lia).
    assert (Hblock : Background.has_vector_mask_block
                       data (additional_length layer) = None).
    { unfold Background.has_vector_mask_block,
        TextLayer.skip_length_prefixed, TextLayer.skip_layer_name.
      replace (4 <=? additional_length layer) with true
        by (symmetry; apply Z.leb_le; lia).
      rewrite Hmask. cbn [Z.ltb Z.compare andb Nat.add].
      replace (4 <=? additional_length layer - 4) with true
        by (symmetry; apply Z.leb_le; lia).
      rewrite Hblend. cbn [Z.ltb Z.compare andb Nat.add].
      replace (1 <=? additional_length layer - 4 - 4) with true
        by (symmetry; apply Z.leb_le; lia).
      rewrite Hname.
      change (negb ((1 + 0) mod 4 =? 0)) with true. cbv iota.
      change (1 + 0 + (4 - (1 + 0) mod 4)) with 4.
      replace (4 <=? additional_length layer - 4 - 4) with true
        by (symmetry; apply Z.leb_le; lia).
      change (8 + Z.to_nat 4)%nat with 12%nat.
      replace (additional_length layer - 4 - 4 - 4)
        with (additional_length layer - 12) by lia.
      apply Hstuck. }
    split; [exact Hblock|]. split; [exact Hstuck|].
    unfold Background.psd_document_is_background_layer.
    replace (i =? layer_count (doc_layers doc) - 1) with true
      by (symmetry; apply Z.eqb_eq; assumption).
    cbn [negb].
    replace (i <? 0) with false by (symmetry; apply Z.ltb_ge; lia).
    rewrite Hn, Hd.
    replace (Z.land (flags layer) 4 =? 0) with false.
    2: { symmetry. apply Z.eqb_neq. intros Hz.
         assert (Hb : Z.testbit (Z.land (flags layer) 4) 2 = false)
           by (rewrite Hz; apply Z.bits_0).
         rewrite Z.land_spec, Hflag in Hb. discriminate Hb. }
    replace (Background.has_transparency_channel layer) with false.
    2: { symmetry. unfold Background.has_transparency_channel.
         destruct (existsb _ _) eqn:Ex; [|reflexivity].
         apply existsb_exists in Ex. destruct Ex as [ch [Hin Hid]].
         apply Z.eqb_eq in Hid. rewrite Forall_forall in Hch.
         exfalso. exact (Hch ch Hin Hid). }
    rewrite Hmask. change (0 >? 0) with false. rewrite andb_false_r.
    replace (additional_length layer >? 0) with true
      by (symmetry; rewrite Z.gtb_ltb; apply Z.ltb_lt; lia).
    rewrite Hblock. reflexivity.
Qed.

Lemma psd_document_is_background_layer_termination_witness :
  Background.has_vector_mask_block wrapping_block_data 20 = None /\
  (forall fuel,
     Background.vector_mask_scan fuel wrapping_block_data 12 (20 - 12)
     = None) /\
  Background.psd_document_is_background_layer doc_with_wrapping_block 0 3
  = None.
Proof.
  pose proof (psd_document_is_background_layer_termination
                doc_with_wrapping_block 0 3
                (mk_layer (mk_bounds 0 0 2 2) (channels background_layer)
                          0x3842494D 0x6E6F726D 255 0 0x0C None
                          (Some wrapping_block_data) 20 no_features)
                wrapping_block_data
                ltac:(lia) eq_refl eq_refl eq_refl) as [_ H].
  apply H; try reflexivity; try (cbn; lia).
  repeat constructor; cbn; lia.
Defined.

(** *** The text-layer table *)

Lemma nondecreasing_snoc :
  forall l y,
    nondecreasing l -> Forall (fun x => x <= y) l -> nondecreasing (l ++ [y]).
Proof.
  induction l as [|x l IH]; intros y Hs Hall; [exact I|].
  destruct l as [|x' l].
  - cbn. inversion Hall; subst. split; [assumption | exact I].
  - cbn [app nondecreasing] in *. destruct Hs as [Hx Hs].
    split; [assumption|]. apply IH; [assumption|].
    inversion Hall; assumption.
Qed.

(** The entries that the scan of layer [layer_idx] may add. *)
Lemma scan_blocks_entries :
  forall allocator sz (P : psd_text_layer_t -> Prop) layer_idx layer,
    (forall item,
        layer_index item = layer_idx ->
        (source item = PSD_TEXT_SOURCE_TYSH \/
         source item = PSD_TEXT_SOURCE_TYSH_LEGACY) ->
        has_rendered_pixels item = TextLayer.rendered_pixels layer ->
        P item) ->
    forall fuel data off remaining items items',
      TextLayer.scan_blocks allocator sz fuel layer_idx layer data off
                            remaining items = Some items' ->
      Forall P items ->
      Forall (fun x => x <= layer_idx) (map layer_index items) ->
      nondecreasing (map layer_index items) ->
      Forall P items' /\
      Forall (fun x => x <= layer_idx) (map layer_index items') /\
      nondecreasing (map layer_index items').
Proof.
  intros al sz P idx layer HP.
  assert (Hadd : forall items item,
             layer_index item = idx ->
             (source item = PSD_TEXT_SOURCE_TYSH \/
              source item = PSD_TEXT_SOURCE_TYSH_LEGACY) ->
             has_rendered_pixels item = TextLayer.rendered_pixels layer ->
             Forall P items ->
             Forall (fun x => x <= idx) (map layer_index items) ->
             nondecreasing (map layer_index items) ->
             let items' := snd (TextLayer.psd_text_layers_add al sz items item)
             in
             Forall P items' /\
             Forall (fun x => x <= idx) (map layer_index items') /\
             nondecreasing (map layer_index items')).
  { intros items item Hi Hsrc Hpix H1 H2 H3.
    unfold TextLayer.psd_text_layers_add.
    destruct (malloc_ok al _); cbn [snd]; [|auto].
    rewrite map_app. cbn [map]. rewrite Hi. repeat split.
    - apply Forall_app. split; [assumption|].
      constructor; [|constructor]. apply HP; assumption.
    - apply Forall_app. split; [assumption|].
      constructor; [lia | constructor].
    - apply nondecreasing_snoc; assumption. }
  assert (Hraw : forall src payload len,
             let item := TextLayer.raw_item al idx src layer payload len in
             layer_index item = idx /\ source item = src /\
             has_rendered_pixels item = TextLayer.rendered_pixels layer).
  { intros src payload len. unfold TextLayer.raw_item.
    destruct (TextLayer.copy_payload al payload len) as [raw raw_len].
    repeat split. }
  induction fuel as [|fuel IH];
    intros data off remaining items items' H H1 H2 H3; [discriminate|].
  cbn [TextLayer.scan_blocks] in H. cbv zeta in H.
  destruct (8 <=? remaining); [|injection H as <-; auto].
  destruct (length data <? off + 12)%nat; [discriminate H|].
  destruct (read_be_u32 data (off + 8) >? u64 (remaining - 12));
    [injection H as <-; auto|].
  match type of H with
  | (if ?c then _ else _) = _ => destruct c; [injection H as <-; auto|]
  end.
  match type of H with
  | (if ?c then _ else _) = _ => destruct c
  end.
  { eapply IH; eassumption. }
  set (payload := slice data (off + 12)
                        (Z.to_nat (read_be_u32 data (off + 8)))) in *.
  set (len := read_be_u32 data (off + 8)) in *.
  destruct (read_be_u32 data (off + 4) =? 0x54795368).
  - destruct (Hraw PSD_TEXT_SOURCE_TYSH payload len) as [R1 [R2 R3]].
    destruct (TextLayer.psd_parse_tysh_payload al sz idx layer payload len)
      as [pst [item |]] eqn:Hp.
    + assert (Hitem : pst = PSD_OK ->
                      layer_index item = idx /\
                      source item = PSD_TEXT_SOURCE_TYSH /\
                      has_rendered_pixels item
                      = TextLayer.rendered_pixels layer).
      { intros _. unfold TextLayer.psd_parse_tysh_payload in Hp.
        destruct (TextLayer.create_buffer_stream al sz payload len)
          as [s |]; [|discriminate Hp].
        repeat match type of Hp with
               | (let '(_, _) := ?e in _) = _ => destruct e
               end.
        injection Hp as _ <-. repeat split. }
      destruct pst;
        try (destruct (Hadd items _ R1 (or_introl R2) R3 H1 H2 H3)
              as [A1 [A2 A3]];
             eapply IH; [exact H | exact A1 | exact A2 | exact A3]).
      destruct (Hitem eq_refl) as [I1 [I2 I3]].
      destruct (Hadd items item I1 (or_introl I2) I3 H1 H2 H3)
        as [A1 [A2 A3]].
      eapply IH; [exact H | exact A1 | exact A2 | exact A3].
    + destruct (Hadd items _ R1 (or_introl R2) R3 H1 H2 H3) as [A1 [A2 A3]].
      destruct pst;
        (eapply IH; [exact H | exact A1 | exact A2 | exact A3]).
  - destruct (read_be_u32 data (off + 4) =? 0x74795368).
    + destruct (Hraw PSD_TEXT_SOURCE_TYSH_LEGACY payload len)
        as [R1 [R2 R3]].
      destruct (Hadd items _ R1 (or_intror R2) R3 H1 H2 H3) as [A1 [A2 A3]].
      eapply IH; [exact H | exact A1 | exact A2 | exact A3].
    + eapply IH; eassumption.
Qed.

Lemma scan_layers_entries :
  forall allocator sz doc ls before items items',
    before ++ ls = firstn (Z.to_nat (layer_count (doc_layers doc)))
                          (layers (doc_layers doc)) ->
    TextLayer.scan_layers allocator sz (Z.of_nat (length before)) ls items
      = Some items' ->
    Forall (text_entry_of doc) items ->
    Forall (fun x => x < Z.of_nat (length before)) (map layer_index items) ->
    nondecreasing (map layer_index items) ->
    Forall (text_entry_of doc) items' /\
    nondecreasing (map layer_index items').
Proof.
  intros al sz doc.
  induction ls as [|layer ls IH]; intros before items items' Hsplit H H1 H2 H3.
  - injection H as <-. auto.
  - cbn [TextLayer.scan_layers] in H.
    destruct (TextLayer.scan_layer al sz (Z.of_nat (length before)) layer
                                   items) as [items1 |] eqn:Hscan;
      [|discriminate H].
    assert (Hle : Forall (fun x => x <= Z.of_nat (length before))
                         (map layer_index items)).
    { eapply Forall_impl; [|exact H2]. cbn. intros. lia. }
    assert (Hstep : Forall (text_entry_of doc) items1 /\
                    Forall (fun x => x <= Z.of_nat (length before))
                           (map layer_index items1) /\
                    nondecreasing (map layer_index items1)).
    { unfold TextLayer.scan_layer in Hscan.
      destruct (additional_data layer) as [data |];
        [|injection Hscan as <-; auto].
      destruct (negb (has_text (features layer))) eqn:Etext;
        [injection Hscan as <-; auto|].
      cbn [orb] in Hscan.
      destruct (additional_length layer <? 12);
        [injection Hscan as <-; auto|].
      destruct (TextLayer.skip_length_prefixed data 0 _) as [o1 r1].
      destruct (TextLayer.skip_length_prefixed data o1 r1) as [o2 r2].
      destruct (TextLayer.skip_layer_name data o2 r2) as [o3 r3].
      eapply scan_blocks_entries; [|exact Hscan | assumption ..].
      intros item Hidx Hsrc Hpix.
      assert (Hnth : nth_error (firstn (Z.to_nat (layer_count (doc_layers doc)))
                                       (layers (doc_layers doc)))
                               (length before) = Some layer).
      { rewrite <- Hsplit. rewrite nth_error_app2 by lia.
        now rewrite Nat.sub_diag. }
      assert (Hin : (length before
                     < length (firstn (Z.to_nat (layer_count (doc_layers doc)))
                                      (layers (doc_layers doc))))%nat)
        by (apply nth_error_Some; congruence).
      rewrite length_firstn in Hin.
      unfold text_entry_of. rewrite Hidx, Nat2Z.id.
      split; [lia|]. split; [assumption|].
      exists layer. split.
      - rewrite nth_error_firstn in Hnth.
        destruct (length before <? Z.to_nat (layer_count (doc_layers doc)))%nat
          eqn:E; [exact Hnth | discriminate Hnth].
      - split; [apply negb_false_iff; assumption | assumption]. }
    destruct Hstep as [S1 [S2 S3]].
    apply (IH (before ++ [layer]) items1 items').
    + rewrite <- app_assoc. exact Hsplit.
    + rewrite length_app. cbn [length].
      replace (Z.of_nat (length before + 1))
        with (Z.of_nat (length before) + 1) by lia.
      exact H.
    + assumption.
    + rewrite length_app. cbn [length].
      eapply Forall_impl; [|exact S2]. cbn. intros. lia.
    + assumption.
Qed.

Lemma read_be_u32_app_r :
  forall pre l k,
    read_be_u32 (pre ++ l) (length pre + k) = read_be_u32 l k.
Proof.
  intros. unfold read_be_u32.
  rewrite <- !Nat.add_assoc, !byte_at_app_r. reflexivity.
Qed.

Lemma read_be_u32_app_l :
  forall l rest k,
    (k + 4 <= length l)%nat ->
    read_be_u32 (l ++ rest) k = read_be_u32 l k.
Proof.
  intros. unfold read_be_u32.
  rewrite !byte_at_app_l by lia. reflexivity.
Qed.

Lemma read_be_u32_length_field :
  forall pre n rest,
    0 <= n < 4294967296 ->
    read_be_u32 (pre ++ be_bytes 4 n ++ rest) (length pre) = n.
Proof.
  intros pre n rest Hn.
  replace (length pre) with (length pre + 0)%nat by lia.
  rewrite read_be_u32_app_r, read_be_u32_app_l
    by (rewrite be_bytes_length; lia).
  apply read_be_u32_be_bytes. assumption.
Qed.

Lemma odd_of_nat :
  forall m, Z.odd (Z.of_nat m) = negb (Nat.even m).
Proof.
  intros m. destruct (Nat.even m) eqn:E.
  - apply Nat.even_spec in E. destruct E as [k ->].
    rewrite Nat2Z.inj_mul, Z.odd_mul. reflexivity.
  - assert (Ho : Nat.odd m = true)
      by (unfold Nat.odd; now rewrite E).
    apply Nat.odd_spec in Ho. destruct Ho as [k ->].
    rewrite Nat2Z.inj_add, Nat2Z.inj_mul, Z.odd_add, Z.odd_mul.
    reflexivity.
Qed.

Lemma encode_tagged_block_length :
  forall b,
    length (block_signature b) = 4%nat -> length (block_key b) = 4%nat ->
    length (encode_tagged_block b)
    = (12 + length (block_payload b)
       + (if Nat.even (length (block_payload b)) then 0 else 1))%nat.
Proof.
  intros b Hs Hk. unfold encode_tagged_block, even_padding.
  rewrite !length_app, be_bytes_length, Hs, Hk.
  destruct (Nat.even (length (block_payload b))); cbn [length]; lia.
Qed.

(** The scan steps over extra data that is laid out in whole blocks and
    comes to an end. *)
Lemma scan_blocks_in_blocks :
  forall allocator sz layer_idx layer blocks tail fuel pre items,
    Forall (fun b => length (block_signature b) = 4%nat /\
                     length (block_key b) = 4%nat) blocks ->
    (length tail < 8)%nat ->
    Z.of_nat (length (flat_map encode_tagged_block blocks ++ tail))
      <= 10000000 ->
    (length blocks < fuel)%nat ->
    exists r,
      TextLayer.scan_blocks
        allocator sz fuel layer_idx layer
        (pre ++ flat_map encode_tagged_block blocks ++ tail) (length pre)
        (Z.of_nat (length (flat_map encode_tagged_block blocks ++ tail)))
        items = Some r.
Proof.
  intros al sz idx layer blocks tail.
  induction blocks as [|b blocks IH];
    intros fuel pre items Hshape Htail Hmax Hfuel.
  - destruct fuel as [|fuel]; [cbn in Hfuel; lia|].
    cbn [flat_map app TextLayer.scan_blocks].
    replace (8 <=? Z.of_nat (length tail)) with false
      by (symmetry; apply Z.leb_gt; lia).
    eauto.
  - destruct fuel as [|fuel]; [cbn in Hfuel; lia|].
    inversion Hshape as [|b' bs' [Hs Hk] Hrest]; subst.
    cbn [flat_map] in *. rewrite <- app_assoc in *.
    set (rest := flat_map encode_tagged_block blocks ++ tail) in *.
    pose proof (encode_tagged_block_length b Hs Hk) as Hlen.
    set (n := length (block_payload b)) in *.
    rewrite length_app in Hmax |- *.
    cbn [TextLayer.scan_blocks].
    replace (8 <=? Z.of_nat (length (encode_tagged_block b) + length rest))
      with true by (symmetry; apply Z.leb_le; lia).
    replace (length (pre ++ encode_tagged_block b ++ rest)
             <? length pre + 12)%nat with false
      by (symmetry; apply Nat.ltb_ge; rewrite !length_app; lia).
    assert (Hfield : read_be_u32 (pre ++ encode_tagged_block b ++ rest)
                                 (length pre + 8) = Z.of_nat n).
    { unfold encode_tagged_block.
      replace (pre ++ (block_signature b ++ block_key b ++
                       be_bytes 4 (Z.of_nat (length (block_payload b))) ++
                       block_payload b ++
                       even_padding (length (block_payload b))) ++ rest)
        with ((pre ++ block_signature b ++ block_key b) ++
              be_bytes 4 (Z.of_nat n) ++
              (block_payload b ++ even_padding n) ++ rest)
        by (subst n; rewrite <- !app_assoc; reflexivity).
      replace (length pre + 8)%nat
        with (length (pre ++ block_signature b ++ block_key b))
        by (rewrite !length_app; lia).
      apply read_be_u32_length_field. lia. }
    rewrite Hfield. cbv zeta.
    assert (Hu64 : u64 (Z.of_nat (length (encode_tagged_block b)
                                  + length rest) - 12)
                   = Z.of_nat (length (encode_tagged_block b)
                               + length rest) - 12)
      by (unfold u64; apply Z.mod_small; lia).
    rewrite Hu64.
    replace (Z.of_nat n >? Z.of_nat (length (encode_tagged_block b)
                                    + length rest) - 12)
      with false by (symmetry; rewrite Z.gtb_ltb; apply Z.ltb_ge; lia).
    assert (Htotal : (if Z.odd (Z.of_nat n)
                      then u32 (12 + Z.of_nat n) + 1
                      else u32 (12 + Z.of_nat n))
                     = Z.of_nat (length (encode_tagged_block b))).
    { rewrite odd_of_nat. unfold u32. rewrite Z.mod_small by lia.
      rewrite Hlen. destruct (Nat.even n); cbn [negb]; lia. }
    rewrite Htotal.
    replace (Z.of_nat (length (encode_tagged_block b))
             >? Z.of_nat (length (encode_tagged_block b) + length rest))
      with false by (symmetry; rewrite Z.gtb_ltb; apply Z.ltb_ge; lia).
    rewrite Nat2Z.id.
    replace (Z.of_nat (length (encode_tagged_block b) + length rest)
             - Z.of_nat (length (encode_tagged_block b)))
      with (Z.of_nat (length rest)) by lia.
    assert (Hnext : forall items',
               exists r,
                 TextLayer.scan_blocks
                   al sz fuel idx layer
                   (pre ++ encode_tagged_block b ++ rest)
                   (length pre + length (encode_tagged_block b))
                   (Z.of_nat (length rest)) items' = Some r).
    { intros items'.
      replace (pre ++ encode_tagged_block b ++ rest)
        with ((pre ++ encode_tagged_block b) ++ rest)
        by (rewrite <- app_assoc; reflexivity).
      rewrite <- length_app.
      apply IH; [assumption | assumption | lia | cbn in Hfuel; lia]. }
    match goal with
    | |- context [if ?c then _ else _] => destruct c
    end; apply Hnext.
Qed.

Lemma skip_length_prefixed_encoded :
  forall pre region rest,
    Z.of_nat (length region) < 4294967296 ->
    TextLayer.skip_length_prefixed
      (pre ++ be_bytes 4 (Z.of_nat (length region)) ++ region ++ rest)
      (length pre)
      (Z.of_nat (length (be_bytes 4 (Z.of_nat (length region))
                         ++ region ++ rest)))
    = (length (pre ++ be_bytes 4 (Z.of_nat (length region)) ++ region),
       Z.of_nat (length rest)).
Proof.
  intros pre region rest Hn.
  unfold TextLayer.skip_length_prefixed.
  rewrite !length_app, be_bytes_length.
  replace (4 <=? Z.of_nat (4 + (length region + length rest))) with true
    by (symmetry; apply Z.leb_le; lia).
  rewrite read_be_u32_length_field by lia.
  destruct (0 <? Z.of_nat (length region)) eqn:Epos.
  - replace (Z.of_nat (length region)
             <=? Z.of_nat (4 + (length region + length rest)) - 4)
      with true by (symmetry; apply Z.leb_le; lia).
    cbn [andb]. f_equal; lia.
  - apply Z.ltb_ge in Epos. cbn [andb]. f_equal; lia.
Qed.

Lemma encode_layer_name_length :
  forall name,
    (1 + length name <= length (encode_layer_name name)
     <= 4 + length name)%nat /\
    Z.of_nat (length (encode_layer_name name))
    = (if negb ((1 + Z.of_nat (length name)) mod 4 =? 0)
       then 1 + Z.of_nat (length name)
            + (4 - (1 + Z.of_nat (length name)) mod 4)
       else 1 + Z.of_nat (length name)).
Proof.
  intros name. unfold encode_layer_name.
  cbn [length]. rewrite length_app, repeat_length.
  set (m := length name).
  assert (Hm : (1 + Z.of_nat m) mod 4 = Z.of_nat ((1 + m) mod 4)).
  { rewrite Nat2Z.inj_mod. f_equal. lia. }
  pose proof (Nat.mod_upper_bound (1 + m) 4 ltac:(lia)) as Hb.
  pose proof (Nat.div_mod_eq (1 + m) 4) as Hdm.
  assert (Hpad : ((4 - (1 + m) mod 4) mod 4
                  = if ((1 + m) mod 4 =? 0) then 0
                    else 4 - (1 + m) mod 4)%nat).
  { destruct ((1 + m) mod 4 =? 0)%nat eqn:E.
    - apply Nat.eqb_eq in E. rewrite E. reflexivity.
    - apply Nat.eqb_neq in E. apply Nat.mod_small. lia. }
  rewrite Hpad, Hm.
  destruct ((1 + m) mod 4 =? 0)%nat eqn:E.
  - apply Nat.eqb_eq in E.
    replace (Z.of_nat ((1 + m) mod 4) =? 0) with true
      by (symmetry; apply Z.eqb_eq; lia).
    cbn [negb]. repeat split; lia.
  - apply Nat.eqb_neq in E.
    replace (Z.of_nat ((1 + m) mod 4) =? 0) with false
      by (symmetry; apply Z.eqb_neq; lia).
    cbn [negb]. repeat split; lia.
Qed.

Lemma skip_layer_name_encoded :
  forall pre name rest,
    (length name <= 255)%nat ->
    TextLayer.skip_layer_name
      (pre ++ encode_layer_name name ++ rest) (length pre)
      (Z.of_nat (length (encode_layer_name name ++ rest)))
    = (length (pre ++ encode_layer_name name), Z.of_nat (length rest)).
Proof.
  intros pre name rest Hname.
  destruct (encode_layer_name_length name) as [Hbounds Htotal].
  unfold TextLayer.skip_layer_name.
  rewrite !length_app.
  replace (1 <=? Z.of_nat (length (encode_layer_name name) + length rest))
    with true by (symmetry; apply Z.leb_le; lia).
  assert (Hbyte : byte_at (pre ++ encode_layer_name name ++ rest)
                          (length pre) = Z.of_nat (length name)).
  { unfold encode_layer_name. cbn [app]. apply byte_at_middle. }
  rewrite Hbyte. cbv zeta. rewrite <- Htotal.
  replace (Z.of_nat (length (encode_layer_name name))
           <=? Z.of_nat (length (encode_layer_name name) + length rest))
    with true by (symmetry; apply Z.leb_le; lia).
  rewrite Nat2Z.id. f_equal. lia.
Qed.

Lemma scan_layer_in_blocks :
  forall allocator sz layer_idx layer items,
    extra_data_in_blocks layer ->
    exists r, TextLayer.scan_layer allocator sz layer_idx layer items = Some r.
Proof.
  intros al sz idx layer items
         (mask & ranges & name & blocks & tail
          & Hdata & Hlen & Hmax & Hname & Hshape & Htail).
  unfold TextLayer.scan_layer. rewrite Hdata.
  destruct (negb (has_text (features layer)) || (additional_length layer <? 12));
    [eauto|].
  rewrite Hlen in *. clear Hlen Hdata.
  unfold encode_extra_data in *.
  rewrite !length_app, !be_bytes_length in Hmax.
  set (blocks_bytes := flat_map encode_tagged_block blocks) in *.
  pose proof (skip_length_prefixed_encoded
                [] mask
                (be_bytes 4 (Z.of_nat (length ranges)) ++ ranges ++
                 encode_layer_name name ++ blocks_bytes ++ tail)
                ltac:(lia)) as H1.
  cbn [app length] in H1. rewrite H1. clear H1.
  pose proof (skip_length_prefixed_encoded
                (be_bytes 4 (Z.of_nat (length mask)) ++ mask) ranges
                (encode_layer_name name ++ blocks_bytes ++ tail)
                ltac:(lia)) as H2.
  rewrite <- !app_assoc in H2. rewrite H2. clear H2.
  pose proof (skip_layer_name_encoded
                (be_bytes 4 (Z.of_nat (length mask)) ++ mask ++
                 be_bytes 4 (Z.of_nat (length ranges)) ++ ranges)
                name (blocks_bytes ++ tail) Hname) as H3.
  rewrite <- !app_assoc in H3. rewrite H3. clear H3.
  pose proof (scan_blocks_in_blocks
                al sz idx layer blocks tail
                (S (Z.to_nat (Z.of_nat (length (blocks_bytes ++ tail)))))
                (be_bytes 4 (Z.of_nat (length mask)) ++ mask ++
                 be_bytes 4 (Z.of_nat (length ranges)) ++ ranges ++
                 encode_layer_name name)
                items Hshape Htail) as H4.
  rewrite <- !app_assoc in H4. apply H4.
  - fold blocks_bytes. rewrite length_app. lia.
  - rewrite Nat2Z.id. fold blocks_bytes.
    assert (Hcount : (12 * length blocks <= length blocks_bytes)%nat).
    { subst blocks_bytes. clear -Hshape.
      induction Hshape as [|b bs [Hs Hk] _ IH]; [cbn; lia|].
      cbn [flat_map length]. rewrite length_app.
      rewrite (encode_tagged_block_length b Hs Hk). lia. }
    rewrite length_app. lia.
Qed.

(** X24. The text-layer table is tied to the layer array.  On a document
    whose text layers store their extra data whole and laid out in whole
    blocks, [psd_parse_text_layers] returns [PSD_OK], whatever the
    allocator grants; every entry it makes carries the index of a layer of
    the array that has the text feature, the source [TySh] or legacy
    [tySh], and that layer's pixel flag; and the entries stand in the order
    of their layers, those of one layer in the order of its blocks. *)
Theorem psd_parse_text_layers_entries :
  forall allocator sz doc,
    0 < layer_count (doc_layers doc) ->
    (forall layer,
        In layer (layers (doc_layers doc)) ->
        has_text (features layer) = true ->
        additional_data layer = None \/ extra_data_in_blocks layer) ->
    exists items,
      TextLayer.psd_parse_text_layers allocator sz doc
        = Some (PSD_OK, items) /\
      Forall (text_entry_of doc) items /\
      nondecreasing (map layer_index items).
Proof.
  intros al sz doc Hcount Hlayout.
  unfold TextLayer.psd_parse_text_layers.
  replace (layer_count (doc_layers doc) <=? 0) with false
    by (symmetry; apply Z.leb_gt; assumption).
  set (ls := firstn (Z.to_nat (layer_count (doc_layers doc)))
                    (layers (doc_layers doc))).
  assert (Hin : forall l, In l ls -> In l (layers (doc_layers doc))).
  { intros l Hl. subst ls.
    rewrite <- (firstn_skipn (Z.to_nat (layer_count (doc_layers doc)))
                             (layers (doc_layers doc))).
    apply in_or_app. now left. }
  assert (Htotal : forall suffix idx items,
             (forall l, In l suffix -> In l ls) ->
             exists r, TextLayer.scan_layers al sz idx suffix items = Some r).
  { induction suffix as [|l suffix IH]; intros idx items Hsub;
      cbn [TextLayer.scan_layers]; [eauto|].
    assert (Hl : exists r, TextLayer.scan_layer al sz idx l items = Some r).
    { destruct (has_text (features l)) eqn:Etext.
      - destruct (Hlayout l (Hin l (Hsub l (or_introl eq_refl))) Etext)
          as [Hnone | Hblocks].
        + unfold TextLayer.scan_layer. rewrite Hnone. eauto.
        + apply scan_layer_in_blocks. assumption.
      - unfold TextLayer.scan_layer. rewrite Etext.
        destruct (additional_data l); cbn [negb orb]; eauto. }
    destruct Hl as [r ->]. apply IH.
    intros l' Hl'. apply Hsub. now right. }
  destruct (Htotal ls 0 [] (fun l H => H)) as [found Hscan].
  rewrite Hscan. exists found. split; [reflexivity|].
  apply (scan_layers_entries al sz doc ls [] [] found);
    [reflexivity | exact Hscan | constructor | constructor | exact I].
Qed.

Lemma psd_parse_text_layers_entries_witness :
  exists items,
    TextLayer.psd_parse_text_layers always_grant lp64_sizes
                                    (text_document sig_8BIM)
      = Some (PSD_OK, items) /\
    Forall (text_entry_of (text_document sig_8BIM)) items /\
    nondecreasing (map layer_index items).
Proof.
  apply (psd_parse_text_layers_entries
           always_grant lp64_sizes (text_document sig_8BIM)).
  - cbn. lia.
  - intros layer [<- | []] _. right.
    exists [], [], [],
      [mk_tagged_block sig_8BIM [0x54; 0x79; 0x53; 0x68] [1; 2; 3; 4]], [].
    repeat split; try reflexivity; try (cbn; lia).
    repeat constructor.
Defined.

(** *** The composite image section *)

Lemma psd_zip_decompress_length :
  forall zlib compressed decompressed_len out,
    Zip.psd_zip_decompress zlib compressed decompressed_len = (PSD_OK, out) ->
    Z.of_nat (length out) = decompressed_len.
Proof.
  intros zlib compressed n out H. unfold Zip.psd_zip_decompress in H.
  destruct zlib as [inflate |]; [|discriminate].
  destruct (inflate (- Zip.MAX_WBITS) compressed n) as [end0 out0].
  destruct (end0 && (Z.of_nat (length out0) =? n)) eqn:E0.
  - injection H as <-. apply andb_true_iff in E0. destruct E0 as [_ E0].
    apply Z.eqb_eq. assumption.
  - destruct (inflate Zip.MAX_WBITS compressed n) as [end1 out1].
    destruct (end1 && (Z.of_nat (length out1) =? n)) eqn:E1; [|discriminate].
    injection H as <-. apply andb_true_iff in E1. destruct E1 as [_ E1].
    apply Z.eqb_eq. assumption.
Qed.

Lemma reverse_rows_length :
  forall fuel buf offset scanline_width bytes_per_pixel st out,
    Zip.reverse_rows fuel buf offset scanline_width bytes_per_pixel
      = Some (st, out) ->
    length out = length buf.
Proof.
  induction fuel as [|fuel IH]; intros buf offset w bpp st out H;
    [discriminate|].
  cbn [Zip.reverse_rows] in H.
  destruct (offset <? length buf)%nat eqn:E1; [|congruence].
  destruct (length buf <? offset + (w + 1))%nat eqn:E2; [congruence|].
  apply Nat.ltb_lt in E1. apply Nat.ltb_ge in E2.
  destruct (Zip.psd_zip_reverse_prediction (slice buf offset (w + 1)) bpp)
    as [st1 row] eqn:Hrow.
  pose proof (psd_zip_reverse_prediction_length _ _ _ _ Hrow) as Hlen.
  rewrite slice_length in Hlen.
  destruct st1; try (injection H as <- <-; reflexivity).
  apply IH in H. rewrite H.
  rewrite !length_app, length_firstn, length_skipn. lia.
Qed.

Lemma psd_zip_decompress_with_prediction_length :
  forall zlib compressed decompressed_len scanline_width bytes_per_pixel out,
    Zip.psd_zip_decompress_with_prediction zlib compressed decompressed_len
      scanline_width bytes_per_pixel = Some (PSD_OK, out) ->
    Z.of_nat (length out) = decompressed_len.
Proof.
  intros zlib compressed n w bpp out H.
  unfold Zip.psd_zip_decompress_with_prediction in H.
  destruct zlib as [inflate |]; [|discriminate].
  destruct (w =? 0); [discriminate|].
  destruct (Zip.psd_zip_decompress (Some inflate) compressed n)
    as [st buf] eqn:Hz.
  destruct st; try discriminate.
  apply reverse_rows_length in H. rewrite H.
  eapply psd_zip_decompress_length. eassumption.
Qed.

Lemma read_counts_failure :
  forall n count_bytes stream acc st stream',
    Composite.read_counts n count_bytes stream acc = (inl st, stream') ->
    st = PSD_ERR_STREAM_EOF.
Proof.
  induction n as [|n IH]; intros cb stream acc st stream' H;
    cbn [Composite.read_counts] in H; [discriminate|].
  destruct (cb =? 2).
  - unfold Stream.psd_stream_read_be16 in H.
    destruct (read_value_cases 2 (fun b => read_be_u16 b 0) stream
                               ltac:(lia)) as [[s' E] | [E _]];
      rewrite E in H.
    + injection H as <- <-. reflexivity.
    + eapply IH. eassumption.
  - unfold Stream.psd_stream_read_be32 in H.
    destruct (read_value_cases 4 (fun b => read_be_u32 b 0) stream
                               ltac:(lia)) as [[s' E] | [E _]];
      rewrite E in H.
    + injection H as <- <-. reflexivity.
    + eapply IH. eassumption.
Qed.

(** X15. What [psd_parse_composite_image] leaves in a document that had no
    composite image, where [size_t] has 64 bits or more.  With [PSD_OK] it leaves either no image at all (only
    when the 2-byte compression field could not be read, then with length
    0 and compression 0) or a buffer of exactly [data_length] bytes, where
    [data_length] is the planar size computed from the header in 64-bit
    arithmetic and the compression is at most 3, whichever of the four
    compressions produced it.  With any other status it leaves no buffer
    (but, after the allocation, the non-zero [data_length]). *)
Theorem psd_parse_composite_image_lengths :
  forall alloc zlib size_t_bits stream doc st comp stream',
    64 <= size_t_bits ->
    composite_data (doc_composite doc) = None ->
    Composite.psd_parse_composite_image alloc zlib size_t_bits stream doc
      = Some (st, comp, stream') ->
    (st = PSD_OK ->
     match composite_data comp with
     | Some data =>
       Z.of_nat (length data) = composite_data_length comp /\
       composite_data_length comp =
         u64 (u64 (doc_channels doc * doc_height doc)
              * (if doc_depth doc =? 1 then Z.quot (u64 (doc_width doc + 7)) 8
                 else u64 (doc_width doc
                           * (if doc_depth doc =? 1 then 1
                              else Z.quot (doc_depth doc) 8)))) /\
       composite_compression comp <= 3
     | None =>
       comp = mk_composite None 0 0 /\
       (length (Stream.buffer stream) < Stream.position stream + 2)%nat
     end) /\
    (st <> PSD_OK -> composite_data comp = None).
Proof.
  intros alloc zlib bits stream doc st comp stream' Hbits Hold H.
  unfold Composite.psd_parse_composite_image in H.
  destruct (Stream.psd_stream_read_be16 stream) as [[e | compression] s1]
    eqn:Hr.
  { injection H as <- <- <-. split; [|congruence]. intros _.
    cbn [composite_data]. split; [reflexivity|].
    unfold Stream.psd_stream_read_be16 in Hr.
    destruct (read_value_cases 2 (fun b => read_be_u16 b 0) stream
                               ltac:(lia)) as [[s' E] | [E _]];
      [|rewrite E in Hr; discriminate Hr].
    clear E. unfold Stream.read_value in Hr.
    destruct (read_exact_cases stream 2 ltac:(lia)) as [[_ Hshort] | [E _]];
      [lia|]. rewrite E in Hr. discriminate Hr. }
  destruct (compression >? 3) eqn:Ec.
  { injection H as <- <- <-. split; [discriminate | intros _; assumption]. }
  rewrite Z.gtb_ltb in Ec. apply Z.ltb_ge in Ec.
  set (bps := if doc_depth doc =? 1 then 1 else Z.quot (doc_depth doc) 8) in *.
  set (row := if doc_depth doc =? 1 then Z.quot (u64 (doc_width doc + 7)) 8
              else u64 (doc_width doc * bps)) in *.
  set (size := u64 (u64 (doc_channels doc * doc_height doc) * row)) in *.
  assert (Hsize : Composite.size_t_cast bits size = size).
  { unfold Composite.size_t_cast. apply Z.mod_small.
    assert (H64 : 0 <= size < 2 ^ 64)
      by (subst size; unfold u64; apply Z.mod_pos_bound; lia).
    assert (Hpow : 2 ^ 64 <= 2 ^ bits) by (apply Z.pow_le_mono_r; lia).
    lia. }
  rewrite !Hsize in H.
  destruct (negb (malloc_ok alloc size)).
  { injection H as <- <- <-. split; [discriminate | reflexivity]. }
  destruct (compression =? 0).
  { destruct (Stream.psd_stream_read s1 size) as [got s2].
    destruct (negb (Z.of_nat (length got) =? size)) eqn:El;
      injection H as <- <- <-.
    - split; [discriminate | reflexivity].
    - split; [|congruence]. intros _. cbn [composite_data].
      apply negb_false_iff in El. apply Z.eqb_eq in El.
      repeat split; assumption. }
  destruct (compression =? 1).
  { destruct (Composite.decode_composite_rle alloc bits (doc_is_psb doc) s1
                (Stream.psd_stream_tell s1)
                (u32 (doc_height doc * doc_channels doc)) row size)
      as [[[status out] s2] |] eqn:Hd; [|discriminate].
    destruct (negb (status_eqb status PSD_OK)) eqn:Es;
      injection H as <- <- <-.
    - split; [discriminate | reflexivity].
    - split; [|congruence]. intros _. cbn [composite_data].
      assert (Hlen : Z.of_nat (length out) = size).
      { assert (Htry : forall s cb st' out' s'',
                  Composite.psd_try_decode_composite_rle
                    alloc bits s (Stream.psd_stream_tell s1)
                    (u32 (doc_height doc * doc_channels doc)) row size cb
                    = Some (st', out', s'') ->
                  status_eqb st' PSD_OK = true ->
                  Z.of_nat (length out') = size).
        { intros s cb st' out' s'' Ht Hok.
          unfold Composite.psd_try_decode_composite_rle in Ht.
          repeat (split_match Ht;
                  try match goal with
                      | E : Composite.read_counts _ _ _ _ = (inl _, _) |- _ =>
                        apply read_counts_failure in E; subst
                      end;
                  try (injection Ht as <- <- <-; vm_compute in Hok;
                       discriminate Hok);
                  try discriminate Ht).
          all: injection Ht as <- <- <-.
          all: match goal with
               | E : negb (status_eqb _ PSD_OK) = true |- _ =>
                 apply negb_true_iff in E; congruence
               | E : negb (Z.of_nat _ =? _) = false |- _ =>
                 apply negb_false_iff in E; apply Z.eqb_eq in E; exact E
               end. }
        apply negb_false_iff in Es.
        unfold Composite.decode_composite_rle in Hd.
        destruct (Composite.psd_try_decode_composite_rle
                    alloc bits s1 _ _ row size
                    (if doc_is_psb doc then 4 else 2))
          as [[[st1 out1] s3] |] eqn:H1; [|discriminate].
        destruct (status_eqb st1 PSD_OK) eqn:E1.
        - injection Hd as <- <- <-. eapply Htry; eassumption.
        - eapply Htry; eassumption. }
      repeat split; assumption. }
  set (capacity := Composite.size_t_cast bits (u64 (size * 2))) in *.
  destruct (negb (malloc_ok alloc capacity)).
  { injection H as <- <- <-. split; [discriminate | reflexivity]. }
  destruct (Stream.psd_stream_read s1 capacity) as [compressed s2].
  destruct (Z.of_nat (length compressed) <=? 0).
  { injection H as <- <- <-. split; [discriminate | reflexivity]. }
  destruct (compression =? 2).
  - destruct (Zip.psd_zip_decompress zlib compressed size) as [zst out] eqn:Hz.
    destruct zst; injection H as <- <- <-;
      try (split; [discriminate | reflexivity]).
    split; [|congruence]. intros _. cbn [composite_data].
    apply psd_zip_decompress_length in Hz. repeat split; assumption.
  - destruct (Zip.psd_zip_decompress_with_prediction
                zlib compressed size _ _) as [[zst out] |] eqn:Hz;
      [|discriminate].
    destruct zst; injection H as <- <- <-;
      try (split; [discriminate | reflexivity]).
    split; [|congruence]. intros _. cbn [composite_data].
    apply psd_zip_decompress_with_prediction_length in Hz.
    repeat split; assumption.
Qed.

Lemma psd_parse_composite_image_lengths_witness :
  Z.of_nat (length [0x10; 0x11; 0x20; 0x21; 0x30; 0x31]) = 6 /\
  6 = u64 (u64 (3 * 1) * u64 (2 * Z.quot 8 8)) /\
  0 <= 3.
Proof.
  pose proof (psd_parse_composite_image_lengths
                always_grant None 64
                (Stream.mk_stream rgb_2x1_image_data 0) rgb_2x1_document
                PSD_OK
                (mk_composite (Some [0x10; 0x11; 0x20; 0x21; 0x30; 0x31]) 6 0)
                (Stream.mk_stream rgb_2x1_image_data 8)
                ltac:(lia) eq_refl eq_refl) as [H _].
  specialize (H eq_refl). cbn [composite_data composite_data_length] in H.
  destruct H as [H1 [H2 H3]].
  split; [exact H1|]. split; [exact H2 | exact H3].
Defined.

(** The decoders called by the parser always return, so the parser does. *)
Lemma psd_parse_composite_image_total :
  forall alloc zlib size_t_bits stream doc,
    0 <= size_t_bits ->
    exists r,
      Composite.psd_parse_composite_image alloc zlib size_t_bits stream doc
        = Some r.
Proof.
  intros alloc zlib bits stream doc Hbits.
  assert (Hcast : forall x, 0 <= Composite.size_t_cast bits x).
  { intros x. unfold Composite.size_t_cast. apply Z.mod_pos_bound.
    apply Z.pow_pos_nonneg; lia. }
  assert (Htry : forall s counts_pos n row size cb,
             exists r,
               Composite.psd_try_decode_composite_rle
                 alloc bits s counts_pos n row size cb = Some r).
  { intros s counts_pos n row size cb.
    unfold Composite.psd_try_decode_composite_rle.
    destruct (Stream.psd_stream_seek s counts_pos) as [sa |];
      [|eexists; reflexivity].
    destruct (negb (cb =? 2) && negb (cb =? 4)); [eexists; reflexivity|].
    destruct (Composite.read_counts (Z.to_nat n) cb sa 0) as [[e | total] sb];
      [eexists; reflexivity|].
    destruct (Endian.psd_u64_to_size bits total) as [csize |];
      [|eexists; reflexivity].
    destruct (negb (malloc_ok alloc csize)); [eexists; reflexivity|].
    destruct (Stream.psd_stream_read sb csize) as [cdata sc].
    destruct (negb (Z.of_nat (length cdata) =? csize));
      [eexists; reflexivity|].
    destruct (Endian.psd_u64_to_size bits row) as [scanline_w |];
      [|eexists; reflexivity].
    destruct (psd_rle_decode_total
                cdata (Z.to_nat (Composite.size_t_cast bits n))
                (Z.to_nat scanline_w)) as [r ->].
    destruct (negb (status_eqb (row_status r) PSD_OK));
      [eexists; reflexivity|].
    destruct (negb (Z.of_nat (length (row_output r)) =? size));
      eexists; reflexivity. }
  unfold Composite.psd_parse_composite_image.
  destruct (Stream.psd_stream_read_be16 stream) as [[e | compression] s1];
    [eexists; reflexivity|].
  destruct (compression >? 3); [eexists; reflexivity|].
  destruct (negb (malloc_ok alloc _)); [eexists; reflexivity|].
  destruct (compression =? 0).
  { destruct (Stream.psd_stream_read s1 _) as [got s2].
    destruct (negb (Z.of_nat (length got) =? _)); eexists; reflexivity. }
  destruct (compression =? 1).
  { unfold Composite.decode_composite_rle.
    match goal with
    | |- context [Composite.psd_try_decode_composite_rle
                    alloc bits ?s ?p ?n ?row ?size
                    (if doc_is_psb doc then 4 else 2)] =>
      destruct (Htry s p n row size (if doc_is_psb doc then 4 else 2))
        as [[[st1 out1] s3] ->];
      destruct (status_eqb st1 PSD_OK);
        [|destruct (Htry s3 p n row size (if doc_is_psb doc then 2 else 4))
            as [[[st2 out2] s4] ->]]
    end.
    - eexists; reflexivity.
    - destruct (negb (status_eqb st2 PSD_OK)); eexists; reflexivity. }
  destruct (negb (malloc_ok alloc _)); [eexists; reflexivity|].
  destruct (Stream.psd_stream_read s1 _) as [compressed s2].
  destruct (Z.of_nat (length compressed) <=? 0); [eexists; reflexivity|].
  destruct (compression =? 2).
  - destruct (Zip.psd_zip_decompress zlib compressed _) as [zst out].
    destruct zst; eexists; reflexivity.
  - match goal with
    | |- context [Zip.psd_zip_decompress_with_prediction ?z ?c ?n ?w ?b] =>
      destruct (psd_zip_decompress_with_prediction_total z c n w b
                  (Hcast _)) as [[zst out] ->]
    end.
    destruct zst; eexists; reflexivity.
Qed.

(** *** Lazy decoding of layer channels *)

Lemma nth_error_replace_nth :
  forall (A : Type) (l : list A) i v x,
    nth_error l i = Some x -> nth_error (Document.replace_nth l i v) i = Some v.
Proof.
  induction l as [|a l IH]; intros [|i] v x H; try discriminate; cbn in *.
  - reflexivity.
  - eapply IH. eassumption.
Qed.

Lemma replace_nth_twice :
  forall (A : Type) (l : list A) i v w,
    Document.replace_nth (Document.replace_nth l i v) i w
    = Document.replace_nth l i w.
Proof.
  induction l as [|a l IH]; intros [|i] v w; cbn; try reflexivity.
  now rewrite IH.
Qed.

Lemma decode_rle_rows_length :
  forall rows y compressed row_count_bytes counts_size total_rle_bytes
         scanline_width rle_off decoded out,
    LayerDecode.decode_rle_rows rows y compressed row_count_bytes counts_size
                                total_rle_bytes scanline_width rle_off decoded
      = Some (PSD_OK, out) ->
    length out = (length decoded + rows * Z.to_nat scanline_width)%nat.
Proof.
  induction rows as [|rows IH];
    intros y compressed rcb csize total sw off decoded out H;
    cbn [LayerDecode.decode_rle_rows] in H.
  - injection H as <-. lia.
  - cbv zeta in H. split_match H; [discriminate H|].
    match type of H with
    | context [LayerDecode.psd_packbits_decode_row ?src ?n] =>
      destruct (psd_packbits_decode_row_exact src n) as [r [Hr [Hok _]]];
        rewrite Hr in H
    end.
    destruct (row_status r) eqn:Est; try discriminate H.
    apply IH in H. rewrite H, length_app.
    destruct Hok as [Hok _]. destruct (Hok eq_refl) as [_ Hlen]. lia.
Qed.

Lemma reverse_rows_status :
  forall fuel buf offset scanline_width bytes_per_pixel st out,
    Zip.reverse_rows fuel buf offset scanline_width bytes_per_pixel
      = Some (st, out) ->
    st <> PSD_ERR_UNSUPPORTED_COMPRESSION.
Proof.
  induction fuel as [|fuel IH]; intros buf offset w bpp st out H;
    [discriminate|].
  cbn [Zip.reverse_rows] in H.
  destruct (offset <? length buf)%nat; [|injection H as <- <-; discriminate].
  destruct (length buf <? offset + (w + 1))%nat;
    [injection H as <- <-; discriminate|].
  destruct (Zip.psd_zip_reverse_prediction (slice buf offset (w + 1)) bpp)
    as [st1 row] eqn:Hrow.
  assert (Hst1 : st1 <> PSD_ERR_UNSUPPORTED_COMPRESSION).
  { unfold Zip.psd_zip_reverse_prediction in Hrow.
    repeat split_match Hrow; injection Hrow as <- <-; discriminate. }
  destruct st1; try (injection H as <- <-; assumption).
  eapply IH. eassumption.
Qed.

Lemma decode_rle_rows_status :
  forall rows y compressed row_count_bytes counts_size total_rle_bytes
         scanline_width rle_off decoded st out,
    LayerDecode.decode_rle_rows rows y compressed row_count_bytes counts_size
                                total_rle_bytes scanline_width rle_off decoded
      = Some (st, out) ->
    st = PSD_OK \/ st = PSD_ERR_CORRUPT_DATA.
Proof.
  induction rows as [|rows IH];
    intros y compressed rcb csize total sw off decoded st out H;
    cbn [LayerDecode.decode_rle_rows] in H.
  - injection H as <- <-. now left.
  - cbv zeta in H. split_match H; [injection H as <- <-; now right|].
    match type of H with
    | context [LayerDecode.psd_packbits_decode_row ?src ?n] =>
      destruct (psd_packbits_decode_row_exact src n) as [r [Hr [_ Hst]]];
        rewrite Hr in H
    end.
    destruct Hst as [Hst | Hst]; rewrite Hst in H.
    + eapply IH. eassumption.
    + injection H as <- <-. now right.
Qed.

(** The three ways in which [psd_layer_channel_decode] leaves a channel
    that was not decoded: decoded; undecoded with [PSD_OK], for a ZIP
    channel in a build without zlib; or failed and untouched, and a failure
    with [PSD_ERR_UNSUPPORTED_COMPRESSION] comes before any request to the
    allocator. *)
Lemma psd_layer_channel_decode_outcome :
  forall allocator zlib channel width height depth st channel',
    is_decoded channel = false ->
    LayerDecode.psd_layer_channel_decode allocator zlib channel
                                         width height depth
      = Some (st, channel') ->
    (st = PSD_OK /\ is_decoded channel' = true /\
     channel_id channel' = channel_id channel) \/
    (st = PSD_OK /\ zlib = None /\ decoded_data channel' = None /\
     compressed_data channel' = compressed_data channel /\
     compression channel' = compression channel /\
     (compression channel = 2 \/ compression channel = 3)) \/
    (st <> PSD_OK /\ channel' = channel /\
     (st = PSD_ERR_UNSUPPORTED_COMPRESSION ->
      forall later_allocator,
        LayerDecode.psd_layer_channel_decode later_allocator zlib channel
                                             width height depth
        = Some (st, channel))).
Proof.
  intros al zlib ch w h depth st ch' Hnot H.
  unfold LayerDecode.psd_layer_channel_decode in H.
  rewrite Hnot in H. cbn [andb] in H.
  set (scanline_width := if depth =? 1 then Z.quot (w + 7) 8 else _) in *.
  set (expected := u64 (scanline_width * h)) in *.
  assert (Hfail : forall e,
             e <> PSD_OK -> e <> PSD_ERR_UNSUPPORTED_COMPRESSION ->
             (e = PSD_OK /\ is_decoded ch = true /\
              channel_id ch = channel_id ch) \/
             (e = PSD_OK /\ zlib = None /\ decoded_data ch = None /\
              compressed_data ch = compressed_data ch /\
              compression ch = compression ch /\
              (compression ch = 2 \/ compression ch = 3)) \/
             (e <> PSD_OK /\ ch = ch /\
              (e = PSD_ERR_UNSUPPORTED_COMPRESSION ->
               forall later_allocator,
                 LayerDecode.psd_layer_channel_decode later_allocator zlib ch
                                                      w h depth
                 = Some (e, ch))))
    by (intros e H1 H2; right; right; repeat split; congruence).
  assert (Hdone : forall d n,
             let ch1 := LayerDecode.set_decoded ch (Some d) n true in
             (PSD_OK = PSD_OK /\ is_decoded ch1 = true /\
              channel_id ch1 = channel_id ch) \/
             (PSD_OK = PSD_OK /\ zlib = None /\ decoded_data ch1 = None /\
              compressed_data ch1 = compressed_data ch /\
              compression ch1 = compression ch /\
              (compression ch = 2 \/ compression ch = 3)) \/
             (PSD_OK <> PSD_OK /\ ch1 = ch /\
              (PSD_OK = PSD_ERR_UNSUPPORTED_COMPRESSION ->
               forall later_allocator,
                 LayerDecode.psd_layer_channel_decode later_allocator zlib ch
                                                      w h depth
                 = Some (PSD_OK, ch))))
    by (intros d n; left; repeat split).
  assert (Hleft : zlib = None ->
             compression ch = 2 \/ compression ch = 3 ->
             let ch1 := LayerDecode.set_decoded ch None 0 false in
             (PSD_OK = PSD_OK /\ is_decoded ch1 = true /\
              channel_id ch1 = channel_id ch) \/
             (PSD_OK = PSD_OK /\ zlib = None /\ decoded_data ch1 = None /\
              compressed_data ch1 = compressed_data ch /\
              compression ch1 = compression ch /\
              (compression ch = 2 \/ compression ch = 3)) \/
             (PSD_OK <> PSD_OK /\ ch1 = ch /\
              (PSD_OK = PSD_ERR_UNSUPPORTED_COMPRESSION ->
               forall later_allocator,
                 LayerDecode.psd_layer_channel_decode later_allocator zlib ch
                                                      w h depth
                 = Some (PSD_OK, ch))))
    by (intros Hz Hc; right; left; repeat split; assumption).
  destruct (negb (depth =? 1) && _) eqn:Ebps.
  { injection H as <- <-. apply Hfail; discriminate. }
  destruct (compression ch =? 0) eqn:E0.
  { destruct (compressed_length ch <? expected).
    { injection H as <- <-. apply Hfail; discriminate. }
    destruct (negb (malloc_ok al expected)).
    { injection H as <- <-. apply Hfail; discriminate. }
    injection H as <- <-. apply Hdone. }
  destruct (compression ch =? 1) eqn:E1.
  { destruct (LayerDecode.select_row_count_width _ _ _)
      as [e | [[rcb csize] total]] eqn:Esel.
    { injection H as <- <-.
      unfold LayerDecode.select_row_count_width in Esel.
      repeat split_match Esel; try discriminate Esel.
      injection Esel as <-. apply Hfail; discriminate. }
    destruct (negb (malloc_ok al expected)).
    { injection H as <- <-. apply Hfail; discriminate. }
    destruct (LayerDecode.decode_rle_rows _ _ _ _ _ _ _ _ _)
      as [[rst out] |] eqn:Erows; [|discriminate H].
    apply decode_rle_rows_status in Erows.
    destruct Erows as [-> | ->]; injection H as <- <-.
    - apply Hdone.
    - apply Hfail; discriminate. }
  destruct (compression ch =? 2) eqn:E2.
  { destruct (negb (malloc_ok al expected)).
    { injection H as <- <-. apply Hfail; discriminate. }
    destruct (Zip.psd_zip_decompress zlib (LayerDecode.compressed_bytes ch)
                                     expected) as [zst out] eqn:Ez.
    destruct zst; injection H as <- <-;
      try (apply Hfail; discriminate).
    - apply Hdone.
    - apply Hleft; [|left; apply Z.eqb_eq; assumption].
      unfold Zip.psd_zip_decompress in Ez.
      destruct zlib as [inflate |]; [|reflexivity].
      repeat split_match Ez; discriminate Ez. }
  destruct (compression ch =? 3) eqn:E3.
  { destruct (negb (malloc_ok al expected)).
    { injection H as <- <-. apply Hfail; discriminate. }
    destruct (Zip.psd_zip_decompress_with_prediction _ _ _ _ _)
      as [[zst out] |] eqn:Ez; [|discriminate H].
    destruct zst; injection H as <- <-;
      try (apply Hfail; discriminate).
    - apply Hdone.
    - apply Hleft; [|right; apply Z.eqb_eq; assumption].
      unfold Zip.psd_zip_decompress_with_prediction in Ez.
      destruct zlib as [inflate |]; [|reflexivity].
      destruct (scanline_width =? 0); [discriminate Ez|].
      destruct (Zip.psd_zip_decompress (Some inflate) _ _) as [st1 buf] eqn:E.
      assert (Hst1 : st1 <> PSD_ERR_UNSUPPORTED_COMPRESSION).
      { unfold Zip.psd_zip_decompress in E.
        repeat split_match E; injection E as <- <-; discriminate. }
      destruct st1; try (exfalso; apply Hst1; reflexivity);
        try (injection Ez as Ez _; discriminate Ez).
      apply reverse_rows_status in Ez. congruence. }
  injection H as <- <-. right. right.
  split; [discriminate|]. split; [reflexivity|].
  intros _ al2. unfold LayerDecode.psd_layer_channel_decode.
  rewrite Hnot. cbn [andb]. fold scanline_width.
  rewrite Ebps, E0, E1, E2, E3. reflexivity.
Qed.

(** X26. Lazy decoding keeps its result.  Once
    [psd_document_get_layer_channel_data] has returned [PSD_OK] for a
    channel, a later call with the same indices on the document it left
    returns [PSD_OK] again with the same channel id, data, length and
    compression, and leaves that document as it is, whatever the
    allocator answers by then: a decoded channel is not decoded again.
    The exception, left out here, is the ZIP channel (compression 2 or 3)
    in a build without zlib: it stays undecoded and asks for its buffer
    again on every call. *)
Theorem psd_document_get_layer_channel_data_idempotent :
  forall allocator later_allocator zlib doc layer_idx channel_idx view doc',
    Document.psd_document_get_layer_channel_data
      allocator zlib doc layer_idx channel_idx = Some (PSD_OK, view, doc') ->
    (zlib = None ->
     Document.view_compression view <> 2 /\
     Document.view_compression view <> 3) ->
    Document.psd_document_get_layer_channel_data
      later_allocator zlib doc' layer_idx channel_idx
    = Some (PSD_OK, view, doc').
Proof.
  intros al al2 zlib doc idx ci view doc' H Hzip. pose proof H as H0.
  unfold Document.psd_document_get_layer_channel_data in H.
  destruct ((idx <? 0) || (idx >=? layer_count (doc_layers doc))) eqn:Erange;
    [discriminate H|].
  destruct (nth_error (layers (doc_layers doc)) (Z.to_nat idx))
    as [layer |] eqn:Hlayer; [|discriminate H].
  destruct (nth_error (channels layer) ci) as [ch |] eqn:Hch;
    [|discriminate H].
  cbv zeta in H.
  set (w := u32 (bounds_right (bounds layer) - bounds_left (bounds layer))) in *.
  set (h := u32 (bounds_bottom (bounds layer) - bounds_top (bounds layer))) in *.
  destruct ((w =? 0) || (h =? 0)) eqn:Ezero.
  { injection H as <- <-.
    unfold Document.psd_document_get_layer_channel_data.
    rewrite Erange, Hlayer, Hch. cbv zeta. fold w. fold h.
    rewrite Ezero. reflexivity. }
  set (depth := if channel_id ch =? -2 then 8
                else if channel_id ch =? -3 then 8 else doc_depth doc) in *.
  (* the channel after the first call, and what the later call does *)
  assert (Hsecond : exists status ch1,
             (if negb (is_decoded ch)
              then LayerDecode.psd_layer_channel_decode al zlib ch w h depth
              else Some (PSD_OK, ch)) = Some (status, ch1) /\
             channel_id ch1 = channel_id ch /\
             (if negb (is_decoded ch1)
              then LayerDecode.psd_layer_channel_decode al2 zlib ch1 w h depth
              else Some (PSD_OK, ch1)) = Some (status, ch1)).
  { destruct (is_decoded ch) eqn:Edec; cbn [negb] in *.
    { exists PSD_OK, ch. rewrite Edec. repeat split; reflexivity. }
    destruct (LayerDecode.psd_layer_channel_decode al zlib ch w h depth)
      as [[status ch1] |] eqn:Hd; [|discriminate H].
    exists status, ch1. split; [reflexivity|].
    destruct (psd_layer_channel_decode_outcome _ _ _ _ _ _ _ _ Edec Hd)
      as [(-> & Hdec & Hid) | [(-> & Hz & Hnone & Hcd & Hc & Hzc)
                              | (Hne & -> & Hind)]].
    - rewrite Hdec. split; [assumption | reflexivity].
    - exfalso. cbv zeta in H.
      change (negb (status_eqb PSD_OK PSD_OK)) with false in H.
      cbn [andb] in H. rewrite Hnone in H.
      destruct (compressed_data ch1); [|discriminate H].
      destruct (compression ch1 >? 3); [discriminate H|].
      injection H as <- _.
      destruct (Hzip Hz) as [N2 N3].
      cbn [Document.view_compression] in N2, N3. rewrite Hc in N2, N3.
      destruct Hzc; contradiction.
    - split; [reflexivity|]. rewrite Edec. cbn [negb].
      destruct status; try (exfalso; apply Hne; reflexivity);
        try (cbv zeta in H; discriminate H).
      apply Hind. reflexivity. }
  destruct Hsecond as [status [ch1 [Hfirst [Hid Hagain]]]].
  rewrite Hfirst in H.
  set (doc1 := Document.set_channel doc (Z.to_nat idx) ci layer ch1) in *.
  assert (Hdoc : doc' = doc1).
  { repeat split_match H; injection H; intros; congruence. }
  subst doc'.
  (* the later call *)
  unfold Document.psd_document_get_layer_channel_data.
  assert (Hcount : layer_count (doc_layers doc1) = layer_count (doc_layers doc))
    by reflexivity.
  rewrite Hcount, Erange.
  set (layer1 := mk_layer (bounds layer)
                          (Document.replace_nth (channels layer) ci ch1)
                          (blend_sig layer) (blend_key layer) (opacity layer)
                          (clipping layer) (flags layer) (name layer)
                          (additional_data layer) (additional_length layer)
                          (features layer)).
  assert (Hlayer1 : nth_error (layers (doc_layers doc1)) (Z.to_nat idx)
                    = Some layer1).
  { subst doc1. unfold Document.set_channel.
    cbn [Context.set_layers doc_layers layers].
    eapply nth_error_replace_nth. eassumption. }
  rewrite Hlayer1.
  assert (Hch1 : nth_error (channels layer1) ci = Some ch1).
  { subst layer1. cbn [channels]. eapply nth_error_replace_nth. eassumption. }
  rewrite Hch1. cbv zeta.
  change (bounds layer1) with (bounds layer). fold w. fold h.
  rewrite Ezero.
  change (doc_depth doc1) with (doc_depth doc). rewrite Hid. fold depth.
  rewrite Hagain.
  assert (Hsame : Document.set_channel doc1 (Z.to_nat idx) ci layer1 ch1
                  = doc1).
  { subst doc1 layer1. unfold Document.set_channel.
    cbn [Context.set_layers doc_layers layers layer_count
         has_transparency_layer channels bounds blend_sig blend_key opacity
         clipping flags name additional_data additional_length features
         doc_is_psb doc_width doc_height doc_channels doc_depth
         doc_color_mode doc_color_data doc_resources doc_composite
         doc_text_layers].
    rewrite !replace_nth_twice. reflexivity. }
  rewrite Hsame. exact H.
Qed.

Lemma psd_document_get_layer_channel_data_idempotent_witness :
  Document.psd_document_get_layer_channel_data
    never_grant None
    (Document.set_channel
       doc_with_raw_channel 0 0
       (mk_layer (mk_bounds 0 0 1 2) [raw_channel]
                 0x3842494D 0x6E6F726D 255 0 0 None None 0 no_features)
       (mk_channel 0 0 2 (Some [0x40; 0x80]) (Some [0x40; 0x80]) 2 true))
    0 0
  = Some (PSD_OK,
          Document.mk_channel_view 0 (Some [0x40; 0x80]) 2 0,
          Document.set_channel
            doc_with_raw_channel 0 0
            (mk_layer (mk_bounds 0 0 1 2) [raw_channel]
                      0x3842494D 0x6E6F726D 255 0 0 None None 0 no_features)
            (mk_channel 0 0 2 (Some [0x40; 0x80]) (Some [0x40; 0x80]) 2
                        true)).
Proof.
  apply (psd_document_get_layer_channel_data_idempotent
           always_grant never_grant None doc_with_raw_channel 0 0).
  - reflexivity.
  - intros _. cbn. split; discriminate.
Defined.

(** What [psd_layer_channel_decode] leaves behind when it returns. *)
Lemma psd_layer_channel_decode_post :
  forall allocator zlib channel width height depth st channel',
    0 <= width < 2 ^ 32 -> 0 <= height < 2 ^ 32 -> 0 <= depth < 2 ^ 16 ->
    channel_plane_bytes width height depth < 2 ^ 64 ->
    compressed_length channel
      = Z.of_nat (length (LayerDecode.compressed_bytes channel)) ->
    is_decoded channel = false ->
    LayerDecode.psd_layer_channel_decode allocator zlib channel
                                         width height depth
      = Some (st, channel') ->
    channel_id channel' = channel_id channel /\
    compression channel' = compression channel /\
    compressed_data channel' = compressed_data channel /\
    compressed_length channel' = compressed_length channel /\
    (st <> PSD_OK -> channel' = channel) /\
    (st = PSD_OK ->
     match decoded_data channel' with
     | Some decoded =>
       is_decoded channel' = true /\
       Z.of_nat (length decoded) = decoded_length channel' /\
       decoded_length channel' = channel_plane_bytes width height depth
     | None =>
       is_decoded channel' = false /\ decoded_length channel' = 0 /\
       zlib = None /\ (compression channel = 2 \/ compression channel = 3)
     end).
Proof.
  intros al zlib ch w h depth st ch' Hw Hh Hd Hfit Hlen Hnot H.
  unfold LayerDecode.psd_layer_channel_decode in H.
  rewrite Hnot in H. cbn [andb] in H.
  set (bps := if depth >=? 8 then Z.quot depth 8 else 1) in *.
  set (scanline_width := if depth =? 1 then Z.quot (w + 7) 8
                         else u64 (w * bps)) in *.
  set (expected := u64 (scanline_width * h)) in *.
  change (2 ^ 32) with 4294967296 in *. change (2 ^ 16) with 65536 in *.
  change (2 ^ 64) with 18446744073709551616 in *.
  assert (Hbps : 0 <= bps <= depth / 8 + 1 /\
                 bps = (if depth >=? 8 then depth / 8 else 1)).
  { subst bps. destruct (depth >=? 8) eqn:E.
    - rewrite Z.quot_div_nonneg by lia.
      assert (0 <= depth / 8) by (apply Z.div_pos; lia). lia.
    - assert (0 <= depth / 8) by (apply Z.div_pos; lia). lia. }
  destruct Hbps as [Hbps Hbps_eq].
  assert (Hsw : 0 <= scanline_width /\
                scanline_width = (if depth =? 1 then (w + 7) / 8
                                  else w * bps)).
  { subst scanline_width. destruct (depth =? 1) eqn:E1.
    - rewrite Z.quot_div_nonneg by lia. split; [|reflexivity]. div_lia.
    - assert (Hd8 : 0 <= depth / 8 < 8192) by div_lia.
      assert (Hprod : 0 <= w * bps <= w * (depth / 8 + 1)) by nia.
      assert (Hbig : w * (depth / 8 + 1) <= 4294967296 * 8192) by nia.
      unfold u64. rewrite Z.mod_small by lia. split; [lia | reflexivity]. }
  destruct Hsw as [Hsw Hsw_eq].
  assert (Hprod : 0 <= scanline_width * h < 18446744073709551616).
  { split; [apply Z.mul_nonneg_nonneg; lia|].
    unfold channel_plane_bytes in Hfit.
    rewrite Hsw_eq, Hbps_eq. exact Hfit. }
  assert (Hexp : expected = channel_plane_bytes w h depth /\ 0 <= expected).
  { subst expected. unfold u64, channel_plane_bytes.
    rewrite Z.mod_small by lia. rewrite Hsw_eq, Hbps_eq.
    split; [reflexivity|]. rewrite <- Hbps_eq, <- Hsw_eq. lia. }
  destruct Hexp as [Hexp Hexp0].
  assert (Hfail : forall e, e <> PSD_OK ->
             channel_id ch = channel_id ch /\
             compression ch = compression ch /\
             compressed_data ch = compressed_data ch /\
             compressed_length ch = compressed_length ch /\
             (e <> PSD_OK -> ch = ch) /\
             (e = PSD_OK ->
              match decoded_data ch with
              | Some decoded =>
                is_decoded ch = true /\
                Z.of_nat (length decoded) = decoded_length ch /\
                decoded_length ch = channel_plane_bytes w h depth
              | None =>
                is_decoded ch = false /\ decoded_length ch = 0 /\
                zlib = None /\ (compression ch = 2 \/ compression ch = 3)
              end))
    by (intros e He; repeat split; congruence).
  assert (Hdone : forall d,
             Z.of_nat (length d) = expected ->
             let ch1 := LayerDecode.set_decoded ch (Some d) expected true in
             channel_id ch1 = channel_id ch /\
             compression ch1 = compression ch /\
             compressed_data ch1 = compressed_data ch /\
             compressed_length ch1 = compressed_length ch /\
             (PSD_OK <> PSD_OK -> ch1 = ch) /\
             (PSD_OK = PSD_OK ->
              match decoded_data ch1 with
              | Some decoded =>
                is_decoded ch1 = true /\
                Z.of_nat (length decoded) = decoded_length ch1 /\
                decoded_length ch1 = channel_plane_bytes w h depth
              | None =>
                is_decoded ch1 = false /\ decoded_length ch1 = 0 /\
                zlib = None /\ (compression ch = 2 \/ compression ch = 3)
              end)).
  { intros d Hdl. cbn. repeat split; try congruence. }
  assert (Hleft : zlib = None ->
             (compression ch = 2 \/ compression ch = 3) ->
             let ch1 := LayerDecode.set_decoded ch None 0 false in
             channel_id ch1 = channel_id ch /\
             compression ch1 = compression ch /\
             compressed_data ch1 = compressed_data ch /\
             compressed_length ch1 = compressed_length ch /\
             (PSD_OK <> PSD_OK -> ch1 = ch) /\
             (PSD_OK = PSD_OK ->
              match decoded_data ch1 with
              | Some decoded =>
                is_decoded ch1 = true /\
                Z.of_nat (length decoded) = decoded_length ch1 /\
                decoded_length ch1 = channel_plane_bytes w h depth
              | None =>
                is_decoded ch1 = false /\ decoded_length ch1 = 0 /\
                zlib = None /\ (compression ch = 2 \/ compression ch = 3)
              end)).
  { intros Hz Hc. cbn. repeat split; try congruence; assumption. }
  destruct (negb (depth =? 1) && (bps =? 0)).
  { injection H as <- <-. apply Hfail. discriminate. }
  destruct (compression ch =? 0) eqn:E0.
  { destruct (compressed_length ch <? expected) eqn:Eshort.
    { injection H as <- <-. apply Hfail. discriminate. }
    destruct (negb (malloc_ok al expected)).
    { injection H as <- <-. apply Hfail. discriminate. }
    injection H as <- <-. apply Hdone.
    apply Z.ltb_ge in Eshort. rewrite length_firstn. lia. }
  destruct (compression ch =? 1) eqn:E1.
  { destruct (LayerDecode.select_row_count_width _ _ _)
      as [e | [[rcb csize] total]] eqn:Esel.
    { injection H as <- <-. apply Hfail.
      unfold LayerDecode.select_row_count_width in Esel.
      repeat split_match Esel; try discriminate Esel.
      injection Esel as <-. discriminate. }
    destruct (negb (malloc_ok al expected)).
    { injection H as <- <-. apply Hfail. discriminate. }
    destruct (LayerDecode.decode_rle_rows _ _ _ _ _ _ _ _ _)
      as [[rst out] |] eqn:Erows; [|discriminate H].
    destruct rst; injection H as <- <-;
      try (apply Hfail; discriminate).
    apply Hdone. apply decode_rle_rows_length in Erows.
    rewrite Erows. cbn [length Nat.add]. subst expected. unfold u64.
    rewrite Z.mod_small by lia. nia. }
  destruct (compression ch =? 2) eqn:E2.
  { destruct (negb (malloc_ok al expected)).
    { injection H as <- <-. apply Hfail. discriminate. }
    destruct (Zip.psd_zip_decompress zlib (LayerDecode.compressed_bytes ch)
                                     expected) as [zst out] eqn:Ez.
    destruct zst; injection H as <- <-;
      try (apply Hfail; discriminate).
    - apply Hdone. eapply psd_zip_decompress_length. eassumption.
    - apply Hleft; [|left; apply Z.eqb_eq; assumption].
      unfold Zip.psd_zip_decompress in Ez.
      destruct zlib as [inflate |]; [|reflexivity].
      repeat split_match Ez; discriminate Ez. }
  destruct (compression ch =? 3) eqn:E3.
  { destruct (negb (malloc_ok al expected)).
    { injection H as <- <-. apply Hfail. discriminate. }
    destruct (Zip.psd_zip_decompress_with_prediction _ _ _ _ _)
      as [[zst out] |] eqn:Ez; [|discriminate H].
    destruct zst; injection H as <- <-;
      try (apply Hfail; discriminate).
    - apply Hdone. eapply psd_zip_decompress_with_prediction_length.
      eassumption.
    - apply Hleft; [|right; apply Z.eqb_eq; assumption].
      unfold Zip.psd_zip_decompress_with_prediction in Ez.
      destruct zlib as [inflate |]; [|reflexivity].
      destruct (scanline_width =? 0); [discriminate Ez|].
      destruct (Zip.psd_zip_decompress (Some inflate) _ _) as [st1 buf] eqn:E.
      assert (Hst1 : st1 <> PSD_ERR_UNSUPPORTED_COMPRESSION).
      { unfold Zip.psd_zip_decompress in E.
        repeat split_match E; injection E as <- <-; discriminate. }
      destruct st1; try (exfalso; apply Hst1; reflexivity);
        try (injection Ez as Ez _; discriminate Ez).
      apply reverse_rows_status in Ez. congruence. }
  injection H as <- <-. apply Hfail. discriminate.
Qed.

(** X25. What [psd_layer_channel_decode] leaves in a channel that was not
    yet decoded and whose [compressed_length] is the size of its buffer,
    for a plane whose size in bytes (the bytes of a scanline times the
    height) stays below [2 ^ 64].  The call returns.  The channel id, the
    compression and the compressed bytes are never touched.  After a
    failure the channel is as before.  After [PSD_OK] the channel either
    holds a decoded buffer of exactly [decoded_length] bytes, the size of
    one plane of the layer, and is marked decoded (whichever of the four
    compressions it had), or it is left undecoded with length 0, which
    happens only for a ZIP channel in a build without zlib. *)
Theorem psd_layer_channel_decode_length :
  forall allocator zlib channel width height depth,
    0 <= width < 2 ^ 32 -> 0 <= height < 2 ^ 32 -> 0 <= depth < 2 ^ 16 ->
    channel_plane_bytes width height depth < 2 ^ 64 ->
    compressed_length channel
      = Z.of_nat (length (LayerDecode.compressed_bytes channel)) ->
    is_decoded channel = false ->
    exists st channel',
      LayerDecode.psd_layer_channel_decode allocator zlib channel
                                           width height depth
        = Some (st, channel') /\
      channel_id channel' = channel_id channel /\
      compression channel' = compression channel /\
      compressed_data channel' = compressed_data channel /\
      compressed_length channel' = compressed_length channel /\
      (st <> PSD_OK -> channel' = channel) /\
      (st = PSD_OK ->
       match decoded_data channel' with
       | Some decoded =>
         is_decoded channel' = true /\
         Z.of_nat (length decoded) = decoded_length channel' /\
         decoded_length channel' = channel_plane_bytes width height depth
       | None =>
         is_decoded channel' = false /\ decoded_length channel' = 0 /\
         zlib = None /\ (compression channel = 2 \/ compression channel = 3)
       end).
Proof.
  intros al zlib ch w h depth Hw Hh Hd Hfit Hlen Hnot.
  destruct (psd_layer_channel_decode_total al zlib ch w h depth
                                           ltac:(lia)) as [[st ch'] Hr].
  exists st, ch'. split; [exact Hr|].
  eapply psd_layer_channel_decode_post; eassumption.
Qed.

Lemma psd_layer_channel_decode_length_witness :
  exists st channel',
    LayerDecode.psd_layer_channel_decode always_grant None raw_channel 2 1 8
      = Some (st, channel') /\
    channel_id channel' = channel_id raw_channel /\
    compression channel' = compression raw_channel /\
    compressed_data channel' = compressed_data raw_channel /\
    compressed_length channel' = compressed_length raw_channel /\
    (st <> PSD_OK -> channel' = raw_channel) /\
    (st = PSD_OK ->
     match decoded_data channel' with
     | Some decoded =>
       is_decoded channel' = true /\
       Z.of_nat (length decoded) = decoded_length channel' /\
       decoded_length channel' = channel_plane_bytes 2 1 8
     | None =>
       is_decoded channel' = false /\ decoded_length channel' = 0 /\
       @None (Z -> list Z -> Z -> bool * list Z) = None /\
       (compression raw_channel = 2 \/ compression raw_channel = 3)
     end).
Proof.
  apply (psd_layer_channel_decode_length always_grant None raw_channel 2 1 8);
    try (cbn; lia); reflexivity.
Defined.

(** *** What a render call stores *)

Lemma render_pixel_length :
  forall lab mode depth w planes pc cm cmlen x y px,
    Render.render_pixel lab mode depth w planes pc cm cmlen x y = inr px ->
    length px = 4%nat.
Proof.
  intros lab mode depth w planes pc cm cmlen x y px H.
  unfold Render.render_pixel in H.
  destruct (depth =? 1).
  { destruct (Render.plane_at planes 0); [|discriminate].
    injection H as <-. reflexivity. }
  destruct (mode =? PSD_COLOR_RGB); [injection H as <-; reflexivity|].
  destruct ((mode =? PSD_COLOR_GRAYSCALE) || (mode =? PSD_COLOR_DUOTONE));
    [injection H as <-; reflexivity|].
  destruct (mode =? PSD_COLOR_INDEXED).
  { destruct cm as [table |]; [|injection H as <-; reflexivity].
    destruct (cmlen >=? 768); injection H as <-; reflexivity. }
  destruct (mode =? PSD_COLOR_CMYK); [injection H as <-; reflexivity|].
  destruct (mode =? PSD_COLOR_LAB); [|discriminate].
  destruct (Render.plane_ptr planes pc 0 _) as [q0 |]; [|discriminate].
  destruct (Render.plane_ptr planes pc 1 _) as [q1 |]; [|discriminate].
  destruct (Render.plane_ptr planes pc 2 _) as [q2 |]; [|discriminate].
  destruct (if depth =? 8 then _ else _) as [[lv av] bv].
  destruct (lab depth lv av bv) as [[r g] b].
  injection H as <-. reflexivity.
Qed.

Lemma render_row_length :
  forall lab mode depth w planes pc cm cmlen y n x out st out',
    Render.render_row lab mode depth w planes pc cm cmlen n x y out
      = (st, out') ->
    (length out <= length out' <= length out + 4 * n)%nat /\
    (st = PSD_OK -> length out' = (length out + 4 * n)%nat).
Proof.
  intros lab mode depth w planes pc cm cmlen y.
  induction n as [|n IH]; intros x out st out' H; cbn [Render.render_row] in H.
  - injection H as <- <-. split; [lia|]. intros _. lia.
  - destruct (Render.render_pixel lab mode depth w planes pc cm cmlen x y)
      as [e | px] eqn:Hp.
    + injection H as <- <-. split; [lia|]. intros ->.
      exfalso. revert Hp. unfold Render.render_pixel.
      repeat match goal with
             | |- context [if ?c then _ else _] => destruct c
             | |- context [match ?x with _ => _ end] => destruct x
             end; discriminate.
    + apply render_pixel_length in Hp. apply IH in H.
      rewrite length_app, Hp in H. destruct H as [H1 H2].
      split; [lia|]. intros Hst. rewrite (H2 Hst). lia.
Qed.

Lemma render_rows_length :
  forall lab mode depth w planes pc cm cmlen n y out st out',
    Render.render_rows lab mode depth w planes pc cm cmlen n y out
      = (st, out') ->
    (length out <= length out' <= length out + 4 * (n * Z.to_nat w))%nat /\
    (st = PSD_OK -> length out' = (length out + 4 * (n * Z.to_nat w))%nat).
Proof.
  intros lab mode depth w planes pc cm cmlen.
  induction n as [|n IH]; intros y out st out' H; cbn [Render.render_rows] in H.
  - injection H as <- <-. split; [lia|]. intros _. lia.
  - destruct (Render.render_row lab mode depth w planes pc cm cmlen
                                (Z.to_nat w) 0 y out) as [st1 out1] eqn:Hr.
    pose proof (render_row_length _ _ _ _ _ _ _ _ _ _ _ _ _ _ Hr) as [Hb Hok].
    destruct st1;
      try (injection H as <- <-; split; [lia | discriminate]).
    specialize (Hok eq_refl). apply IH in H. destruct H as [H1 H2].
    split; [lia|]. intros Hst. rewrite (H2 Hst). lia.
Qed.

(** X16. [render_planar_to_rgba8] never stores more than the caller's
    buffer holds: for dimensions whose RGBA size does not wrap in 64 bits,
    the bytes it stores are at most [out_rgba_size], it stores nothing when
    the buffer is missing, and a call that returns [PSD_OK] has stored
    exactly [width * height * 4] bytes and reported that number as the
    required size, in every color mode and at every depth. *)
Theorem render_planar_to_rgba8_stays_in_buffer :
  forall lab size_max mode depth_bits width height planes plane_count
         color_mode_data color_mode_data_len out_rgba out_rgba_size,
    0 <= width -> 0 <= height ->
    width * height * 4 < 2 ^ 64 ->
    let r := Render.render_planar_to_rgba8
               lab size_max mode depth_bits width height planes plane_count
               color_mode_data color_mode_data_len out_rgba out_rgba_size in
    Z.of_nat (length (Render.render_written r)) <= Z.max 0 out_rgba_size /\
    (out_rgba = None -> Render.render_written r = []) /\
    (Render.render_status r = PSD_OK ->
     Z.of_nat (length (Render.render_written r)) = width * height * 4 /\
     Render.render_required r = Some (width * height * 4)).
Proof.
  intros lab size_max mode depth w h planes pc cm cmlen out_rgba size
         Hw Hh Hwrap r.
  change (2 ^ 64) with 18446744073709551616 in Hwrap.
  assert (Hwh : 0 <= w * h) by (apply Z.mul_nonneg_nonneg; assumption).
  assert (Hreq : u64 (u64 (w * h) * 4) = w * h * 4).
  { unfold u64. rewrite (Z.mod_small (w * h)) by lia.
    apply Z.mod_small. lia. }
  subst r. unfold Render.render_planar_to_rgba8. rewrite Hreq.
  destruct (w * h * 4 >? size_max).
  { cbn. repeat split; try lia; discriminate. }
  destruct out_rgba as [buffer |]; cbn [orb].
  2: { cbn. repeat split; try lia; discriminate. }
  destruct (size <? w * h * 4) eqn:Esize.
  { cbn. repeat split; try lia; discriminate. }
  apply Z.ltb_ge in Esize.
  destruct ((w =? 0) || (h =? 0)) eqn:Ez.
  { cbn. bool_to_prop. repeat split; try discriminate;
      destruct Ez as [-> | ->]; lia. }
  destruct (negb ((depth =? 1) || (depth =? 8) || (depth =? 16))).
  { cbn. repeat split; try lia; discriminate. }
  destruct (Render.render_rows lab mode depth w planes pc cm cmlen
                               (Z.to_nat h) 0 []) as [st out] eqn:Hrows.
  apply render_rows_length in Hrows. cbn [length] in Hrows.
  destruct Hrows as [Hbound Hok].
  cbn [Render.render_written Render.render_status Render.render_required].
  assert (Hmul : Z.of_nat (4 * (Z.to_nat h * Z.to_nat w)) = w * h * 4)
    by (rewrite !Nat2Z.inj_mul, !Z2Nat.id by lia; lia).
  split; [lia|]. split; [discriminate|].
  intros Hst. rewrite (Hok Hst). split; [lia | reflexivity].
Qed.

Lemma render_planar_to_rgba8_stays_in_buffer_witness :
  let r := Render.render_planar_to_rgba8
             no_lab SIZE_MAX_64 PSD_COLOR_GRAYSCALE 8 2 1
             [Some [0x40; 0x80]; None; None; None; None] 1 None 0
             (Some [0; 0; 0; 0; 0; 0; 0; 0]) 8 in
  Z.of_nat (length (Render.render_written r)) <= Z.max 0 8 /\
  (Some [0; 0; 0; 0; 0; 0; 0; 0] = None -> Render.render_written r = []) /\
  (Render.render_status r = PSD_OK ->
   Z.of_nat (length (Render.render_written r)) = 2 * 1 * 4 /\
   Render.render_required r = Some (2 * 1 * 4)).
Proof.
  apply (render_planar_to_rgba8_stays_in_buffer
           no_lab SIZE_MAX_64 PSD_COLOR_GRAYSCALE 8 2 1
           [Some [0x40; 0x80]; None; None; None; None] 1 None 0
           (Some [0; 0; 0; 0; 0; 0; 0; 0]) 8); lia.
Defined.

(** *** From the image data section to RGBA pixels *)

Lemma psd_stream_read_at :
  forall pre mid rest,
    Stream.psd_stream_read (stream_at pre (mid ++ rest))
                           (Z.of_nat (length mid)) =
    (mid, stream_at (pre ++ mid) rest).
Proof.
  intros pre mid rest. unfold Stream.psd_stream_read, stream_at.
  cbn [Stream.buffer Stream.position]. rewrite !length_app.
  replace (Z.to_nat (Z.min (Z.of_nat (length mid))
                           (Z.of_nat (length pre + (length mid + length rest)
                                      - length pre))))
    with (length mid) by lia.
  rewrite slice_middle. now rewrite <- app_assoc.
Qed.

(** Rendering three planes of an RGB image of depth 8 or 16 into a buffer
    that is large enough. *)
Lemma render_planar_rgb_planes :
  forall lab size_max depth w h pr pg pb cm cmlen buffer size,
    depth = 8 \/ depth = 16 ->
    0 < w -> 0 < h ->
    w * h * 4 < 2 ^ 64 -> w * h * 4 <= size_max -> w * h * 4 <= size ->
    Render.render_planar_to_rgba8 lab size_max PSD_COLOR_RGB depth w h
      [Some pr; Some pg; Some pb; None; None] 3 cm cmlen (Some buffer) size =
    Render.mk_render_result PSD_OK (Some (w * h * 4))
      (flat_map (rgb_pixel depth pr pg pb) (zrange 0 (Z.to_nat (w * h)))).
Proof.
  intros lab size_max depth w h pr pg pb cm cmlen buffer size
         Hd Hw Hh Hwrap Hmax Hsize.
  change (2 ^ 64) with 18446744073709551616 in Hwrap.
  assert (Hwh : 0 < w * h) by (apply Z.mul_pos_pos; assumption).
  assert (Hreq : u64 (u64 (w * h) * 4) = w * h * 4).
  { unfold u64. rewrite (Z.mod_small (w * h)) by lia.
    apply Z.mod_small. lia. }
  unfold Render.render_planar_to_rgba8. rewrite Hreq.
  destruct (w * h * 4 >? size_max) eqn:E1; [bool_to_prop; lia|].
  destruct (size <? w * h * 4) eqn:E2; [bool_to_prop; lia|].
  destruct (w =? 0) eqn:E3; [bool_to_prop; lia|].
  destruct (h =? 0) eqn:E4; [bool_to_prop; lia|].
  cbn [orb].
  replace (negb ((depth =? 1) || (depth =? 8) || (depth =? 16))) with false
    by (destruct Hd as [-> | ->]; reflexivity).
  rewrite render_rows_rgb by (try assumption; try lia; nia).
  cbn [app]. rewrite Z.mul_0_l.
  replace (Z.to_nat h * Z.to_nat w)%nat with (Z.to_nat (w * h))
    by (rewrite Z2Nat.inj_mul by lia; lia).
  reflexivity.
Qed.

(** X17. An uncompressed RGB image from file to screen.  For a document
    with a valid header, color mode RGB, three channels and depth 8 or 16,
    whose image data section holds compression 0 followed by the three
    planes, [psd_parse_composite_image] keeps exactly the plane bytes and
    stops behind them, and [psd_document_render_composite_rgba8] on the
    resulting document (with a buffer that is large enough) returns
    [PSD_OK] and stores, for every pixel in row order, the most
    significant byte of its red, green and blue sample followed by an
    opaque alpha. *)
Theorem raw_rgb_composite_renders :
  forall alloc zlib size_t_bits lab size_max doc pre data rest buffer size,
    header_invariant doc ->
    doc_color_mode doc = PSD_COLOR_RGB ->
    doc_channels doc = 3 ->
    (doc_depth doc = 8 \/ doc_depth doc = 16) ->
    Z.of_nat (length data) = planar_image_bytes doc ->
    planar_image_bytes doc < 2 ^ size_t_bits ->
    malloc_ok alloc (planar_image_bytes doc) = true ->
    doc_width doc * doc_height doc * 4 <= size_max ->
    doc_width doc * doc_height doc * 4 <= size ->
    let plane := Z.to_nat (doc_width doc * doc_height doc
                           * (doc_depth doc / 8)) in
    let comp := mk_composite (Some data) (planar_image_bytes doc) 0 in
    Composite.psd_parse_composite_image
      alloc zlib size_t_bits (stream_at pre ([0; 0] ++ data ++ rest)) doc
      = Some (PSD_OK, comp, stream_at (pre ++ [0; 0] ++ data) rest) /\
    Render.psd_document_render_composite_rgba8
      lab size_max (Context.set_composite comp doc) (Some buffer) size
      = Render.mk_render_result
          PSD_OK (Some (doc_width doc * doc_height doc * 4))
          (flat_map
             (rgb_pixel (doc_depth doc) data (skipn plane data)
                        (skipn (2 * plane) data))
             (zrange 0 (Z.to_nat (doc_width doc * doc_height doc)))).
Proof.
  intros alloc zlib bits lab size_max doc pre data rest buffer size
         Hinv Hmode Hch Hdepth Hlen Hfit Hgrant Hmax Hsize plane comp.
  destruct Hinv as [_ [_ [Hw Hh]]].
  set (w := doc_width doc) in *. set (h := doc_height doc) in *.
  set (d := doc_depth doc) in *.
  assert (Hw' : 1 <= w <= 300000) by (destruct (doc_is_psb doc); lia).
  assert (Hh' : 1 <= h <= 300000) by (destruct (doc_is_psb doc); lia).
  assert (Hbps : d / 8 = 1 \/ d / 8 = 2)
    by (destruct Hdepth as [-> | ->]; [left | right]; reflexivity).
  assert (Hd1 : (d =? 1) = false)
    by (destruct Hdepth as [-> | ->]; reflexivity).
  assert (Hwh : 1 <= w * h <= 90000000000) by nia.
  assert (Hsizeq : planar_image_bytes doc = 3 * h * (w * (d / 8))).
  { unfold planar_image_bytes, scanline_bytes. fold w h d.
    rewrite Hch, Hd1. reflexivity. }
  assert (Hpos : 0 < planar_image_bytes doc < 2 ^ 63).
  { rewrite Hsizeq. change (2 ^ 63) with 9223372036854775808.
    destruct Hbps as [-> | ->]; nia. }
  change (2 ^ 63) with 9223372036854775808 in Hpos.
  assert (Hbits : 0 <= bits).
  { destruct (Z.lt_ge_cases bits 0) as [Hneg | ]; [|assumption].
    rewrite Z.pow_neg_r in Hfit by assumption. lia. }
  split.
  - unfold Composite.psd_parse_composite_image.
    unfold Stream.psd_stream_read_be16.
    rewrite (read_value_at 2 _ pre [0; 0]) by reflexivity.
    change (read_be_u16 [0; 0] 0) with 0.
    change (0 >? 3) with false. cbv iota.
    fold w h d. rewrite Hch, Hd1.
    rewrite (Z.quot_div_nonneg d 8) by (destruct Hdepth; lia).
    assert (Hrow : u64 (w * (d / 8)) = w * (d / 8))
      by (unfold u64; apply Z.mod_small; destruct Hbps as [-> | ->]; lia).
    rewrite Hrow.
    assert (Hu : u64 (u64 (3 * h) * (w * (d / 8))) = planar_image_bytes doc).
    { rewrite Hsizeq. unfold u64. rewrite (Z.mod_small (3 * h)) by lia.
      apply Z.mod_small. rewrite <- Hsizeq. lia. }
    rewrite Hu.
    unfold Composite.size_t_cast. rewrite Z.mod_small by lia.
    rewrite Hgrant. cbn [negb]. change (0 =? 0) with true. cbv iota.
    rewrite <- Hlen. rewrite psd_stream_read_at.
    rewrite Z.eqb_refl. cbn [negb]. subst comp. rewrite Hlen.
    rewrite <- app_assoc. reflexivity.
  - unfold Render.psd_document_render_composite_rgba8,
      Render.psd_document_render_composite_rgba8_ex.
    subst comp.
    cbn [Context.set_composite doc_composite composite_data
         composite_data_length doc_width doc_height doc_color_mode doc_depth
         doc_channels doc_color_data].
    fold w h d. rewrite Hmode, Hch.
    destruct (planar_image_bytes doc =? 0) eqn:E0;
      [apply Z.eqb_eq in E0; lia|].
    assert (Hsample : Render.bytes_per_sample d = d / 8)
      by (destruct Hdepth as [-> | ->]; reflexivity).
    rewrite Hsample, Hd1.
    replace (d / 8 =? 0) with false
      by (symmetry; apply Z.eqb_neq; destruct Hbps; lia).
    cbn [negb andb].
    assert (Hplane : u64 (u64 (w * h) * (d / 8)) = w * h * (d / 8)).
    { unfold u64. rewrite (Z.mod_small (w * h)) by lia.
      apply Z.mod_small. destruct Hbps as [-> | ->]; lia. }
    rewrite Hplane.
    change (3 =? 0) with false.
    replace (w * h * (d / 8) =? 0) with false
      by (symmetry; apply Z.eqb_neq; destruct Hbps as [-> | ->]; lia).
    cbn [orb].
    assert (H3 : u64 (3 * (w * h * (d / 8))) = planar_image_bytes doc).
    { rewrite Hsizeq. unfold u64.
      replace (3 * (w * h * (d / 8))) with (3 * h * (w * (d / 8))) by lia.
      apply Z.mod_small. rewrite <- Hsizeq. lia. }
    rewrite H3, Z.ltb_irrefl.
    change (3 >? 5) with false. cbv iota.
    change (0 <? 3) with true. change (1 <? 3) with true.
    change (2 <? 3) with true. change (3 <? 3) with false.
    change (4 <? 3) with false. cbv iota.
    rewrite Z.mul_0_l. change (u64 0) with 0. change (Z.to_nat 0) with 0%nat.
    cbn [skipn].
    rewrite Z.mul_1_l.
    assert (H1 : u64 (w * h * (d / 8)) = w * h * (d / 8))
      by (unfold u64; apply Z.mod_small; destruct Hbps as [-> | ->]; lia).
    rewrite H1.
    assert (H2 : u64 (2 * (w * h * (d / 8))) = 2 * (w * h * (d / 8)))
      by (unfold u64; apply Z.mod_small; destruct Hbps as [-> | ->]; lia).
    rewrite H2.
    rewrite render_planar_rgb_planes
      by (try assumption; try lia;
          change (2 ^ 64) with 18446744073709551616; lia).
    subst plane.
    replace (Z.to_nat (2 * (w * h * (d / 8))))
      with (2 * Z.to_nat (w * h * (d / 8)))%nat by lia.
    reflexivity.
Qed.

Lemma raw_rgb_composite_renders_witness :
  Composite.psd_parse_composite_image
    always_grant None 64
    (stream_at [] ([0; 0] ++ [0x10; 0x11; 0x20; 0x21; 0x30; 0x31] ++ []))
    rgb_2x1_document
    = Some (PSD_OK,
            mk_composite (Some [0x10; 0x11; 0x20; 0x21; 0x30; 0x31]) 6 0,
            stream_at ([] ++ [0; 0] ++ [0x10; 0x11; 0x20; 0x21; 0x30; 0x31])
                      []) /\
  Render.psd_document_render_composite_rgba8
    no_lab SIZE_MAX_64
    (Context.set_composite
       (mk_composite (Some [0x10; 0x11; 0x20; 0x21; 0x30; 0x31]) 6 0)
       rgb_2x1_document)
    (Some [0; 0; 0; 0; 0; 0; 0; 0]) 8
    = Render.mk_render_result
        PSD_OK (Some 8) [0x10; 0x20; 0x30; 255; 0x11; 0x21; 0x31; 255].
Proof.
  apply (raw_rgb_composite_renders
           always_grant None 64 no_lab SIZE_MAX_64 rgb_2x1_document
           [] [0x10; 0x11; 0x20; 0x21; 0x30; 0x31] []
           [0; 0; 0; 0; 0; 0; 0; 0] 8).
  - unfold header_invariant. cbn. lia.
  - reflexivity.
  - reflexivity.
  - left. reflexivity.
  - reflexivity.
  - vm_compute. reflexivity.
  - reflexivity.
  - vm_compute. discriminate.
  - vm_compute. discriminate.
Defined.

(** *** Strings of the descriptor format *)

Lemma psd_utf16be_to_utf8_encoded :
  forall alloc size_max cps,
    forallb is_scalar_value cps = true ->
    Z.of_nat (length (utf16be_encode cps)) * 2 + 1 <= size_max ->
    malloc_ok alloc (Z.of_nat (length (utf16be_encode cps)) * 2 + 1) = true ->
    Unicode.psd_utf16be_to_utf8 alloc size_max (utf16be_encode cps)
                                (Z.of_nat (length (utf16be_encode cps))) =
    Some (Some (flat_map Unicode.psd_utf8_encode cps ++ [0]),
          Some (Z.of_nat (length (flat_map Unicode.psd_utf8_encode cps)))).
Proof.
  intros alloc size_max cps Hsc Hsize Hgrant.
  unfold Unicode.psd_utf16be_to_utf8, Unicode.size_t_cast.
  destruct (utf16be_encode_even cps) as [k Hk].
  set (input := utf16be_encode cps) in *.
  rewrite Z.quot_div_nonneg by lia.
  assert (Hhalf : Z.of_nat (length input) / 2 * 4
                  = Z.of_nat (length input) * 2) by (rewrite Hk; div_lia).
  rewrite Hhalf. rewrite (Z.mod_small (_ * 2)) by lia.
  rewrite Z.mod_small by lia. rewrite Hgrant. cbn [negb].
  pose proof (utf16_loop_encoded cps (S (Z.to_nat (Z.of_nat (length input))))
                                 [] [] Hsc) as Hrun.
  cbn [app length Nat.add] in Hrun. fold input in Hrun.
  change (Z.of_nat 0) with 0 in Hrun.
  rewrite Hrun by lia. reflexivity.
Qed.

(** X27. A Unicode string of a descriptor is read back: for a non-empty
    list of Unicode scalar values written as the 4-byte count of UTF-16
    code units followed by the UTF-16BE units, [psd_parse_unicode_string]
    returns [PSD_OK] and a NUL-terminated UTF-8 string that decodes to the
    same list, and leaves the stream at the first byte after the units
    (with an allocator that grants the requests). *)
Theorem psd_parse_unicode_string_roundtrip :
  forall alloc size_max pre cps rest,
    forallb is_scalar_value cps = true ->
    cps <> [] ->
    let units := utf16be_encode cps in
    let field := be_bytes 4 (Z.of_nat (length units) / 2) ++ units in
    Z.of_nat (length units) / 2 < 2 ^ 32 ->
    Z.of_nat (length units) * 2 + 1 <= size_max ->
    (forall size, malloc_ok alloc size = true) ->
    exists out,
      Descriptor.psd_parse_unicode_string alloc size_max
                                          (stream_at pre (field ++ rest)) =
        Some (PSD_OK, Some (Some (out ++ [0])), stream_at (pre ++ field) rest)
      /\ utf8_decode out = Some cps.
Proof.
  intros alloc size_max pre cps rest Hsc Hne units field Hcount Hsize Hgrant.
  exists (flat_map Unicode.psd_utf8_encode cps).
  split; [|apply utf8_decode_flat_map; assumption].
  destruct (utf16be_encode_even cps) as [k Hk]. fold units in Hk.
  assert (Hpos : (0 < k)%nat).
  { destruct cps as [|cp cps]; [congruence|].
    subst units. unfold utf16be_encode in Hk. cbn [flat_map] in Hk.
    rewrite length_app, utf16be_encode_one_length in Hk.
    destruct (cp <? 0x10000); lia. }
  assert (Hhalf : Z.of_nat (length units) / 2 = Z.of_nat k)
    by (rewrite Hk; div_lia).
  subst field. rewrite Hhalf in *.
  unfold Descriptor.psd_parse_unicode_string, Stream.psd_stream_read_be32.
  rewrite <- app_assoc.
  rewrite read_value_at by (rewrite be_bytes_length; reflexivity).
  change (2 ^ 32) with 4294967296 in Hcount.
  rewrite read_be_u32_be_bytes by lia.
  replace (Z.of_nat k =? 0) with false by (symmetry; apply Z.eqb_neq; lia).
  unfold Descriptor.size_t_cast.
  rewrite (Z.mod_small (Z.of_nat k)) by lia.
  rewrite Z.mod_small by lia.
  rewrite Hgrant. cbn [negb].
  replace (Z.of_nat k * 2) with (Z.of_nat (length units)) by lia.
  rewrite psd_stream_read_at. rewrite Z.eqb_refl. cbn [negb].
  subst units.
  rewrite psd_utf16be_to_utf8_encoded by (try assumption; apply Hgrant).
  rewrite <- !app_assoc. reflexivity.
Qed.

Lemma psd_parse_unicode_string_roundtrip_witness :
  exists out,
    Descriptor.psd_parse_unicode_string
      always_grant SIZE_MAX_64
      (stream_at [0x54]
                 ((be_bytes 4 (Z.of_nat (length (utf16be_encode
                                                   [0x41; 0x1F600])) / 2)
                   ++ utf16be_encode [0x41; 0x1F600]) ++ [0xFF])) =
      Some (PSD_OK, Some (Some (out ++ [0])),
            stream_at ([0x54] ++
                       be_bytes 4 (Z.of_nat (length (utf16be_encode
                                                       [0x41; 0x1F600])) / 2)
                       ++ utf16be_encode [0x41; 0x1F600])
                      [0xFF])
    /\ utf8_decode out = Some [0x41; 0x1F600].
Proof.
  apply (psd_parse_unicode_string_roundtrip
           always_grant SIZE_MAX_64 [0x54] [0x41; 0x1F600] [0xFF]).
  - reflexivity.
  - discriminate.
  - vm_compute. reflexivity.
  - vm_compute. discriminate.
  - reflexivity.
Defined.

Lemma Forall_skipn_bytes :
  forall n (l : list Z), Forall is_byte l -> Forall is_byte (skipn n l).
Proof.
  induction n as [|n IH]; intros l H; [exact H|].
  destruct H as [|x l Hx Hl]; [constructor|].
  cbn [skipn]. apply IH. assumption.
Qed.

(** X28. [psd_skip_unicode_string] follows [psd_parse_unicode_string]: on
    any stream it returns the status that the parser returns and leaves the
    stream where the parser leaves it (with an allocator that grants every
    request), with one exception: a count above 1000000 code units is
    refused with [PSD_ERR_CORRUPT_DATA] right behind the count, although
    the parser accepts it. *)
Theorem psd_skip_unicode_string_agrees :
  forall alloc size_max s,
    stream_wf s ->
    all_bytes (Stream.buffer s) = true ->
    2 ^ 33 <= size_max ->
    (forall size, malloc_ok alloc size = true) ->
    exists st out s',
      Descriptor.psd_parse_unicode_string alloc size_max s
        = Some (st, out, s') /\
      match Stream.psd_stream_read_be32 s with
      | (inr char_count, behind_count) =>
        if char_count >? 1000000
        then Descriptor.psd_skip_unicode_string size_max s
             = (PSD_ERR_CORRUPT_DATA, behind_count) /\
             (Z.of_nat (Stream.position behind_count) + char_count * 2
              <= Z.of_nat (length (Stream.buffer s)) -> st = PSD_OK)
        else Descriptor.psd_skip_unicode_string size_max s = (st, s')
      | (inl _, _) => Descriptor.psd_skip_unicode_string size_max s = (st, s')
      end.
Proof.
  intros alloc size_max s Hwf Hall Hmax Hgrant.
  apply all_bytes_Forall in Hall.
  unfold Descriptor.psd_parse_unicode_string,
    Descriptor.psd_skip_unicode_string.
  destruct (Stream.psd_stream_read_be32 s) as [[e | n] s1] eqn:Hread.
  { eexists _, _, _. split; reflexivity. }
  assert (Hn : 0 <= n < 4294967296 /\ stream_step s s1).
  { unfold Stream.psd_stream_read_be32 in Hread.
    destruct (read_value_cases 4 (fun b => read_be_u32 b 0) s ltac:(lia))
      as [[s' E] | [E Hle]]; rewrite E in Hread; [discriminate|].
    injection Hread as <- <-. split.
    - rewrite read_be_u32_slice. apply read_be_u32_range. assumption.
    - unfold stream_step, stream_wf in *.
      cbn [Stream.buffer Stream.position]. repeat split; lia. }
  destruct Hn as [Hn [Hbuf [_ Hwf1]]].
  destruct (n =? 0) eqn:E0.
  { rewrite Hgrant. eexists _, _, _. split; [reflexivity|].
    apply Z.eqb_eq in E0. subst n. reflexivity. }
  apply Z.eqb_neq in E0.
  change (2 ^ 33) with 8589934592 in Hmax.
  unfold Descriptor.size_t_cast.
  rewrite (Z.mod_small n) by lia. rewrite Z.mod_small by lia.
  rewrite Hgrant. cbn [negb].
  destruct (Stream.psd_stream_read s1 (n * 2)) as [got s2] eqn:Hgot.
  assert (Hlen : Z.of_nat (length got) <= n * 2 /\ Forall is_byte got /\
                 (Z.of_nat (Stream.position s1) + n * 2
                  <= Z.of_nat (length (Stream.buffer s)) ->
                  Z.of_nat (length got) = n * 2)).
  { unfold Stream.psd_stream_read in Hgot. injection Hgot as <- <-.
    rewrite slice_length. split; [lia|]. split; [|rewrite Hbuf; lia].
    unfold slice. apply Forall_firstn_bytes, Forall_skipn_bytes.
    rewrite Hbuf. assumption. }
  destruct Hlen as [Hlen [Hbytes Hthere]].
  assert (Hskip : Stream.psd_stream_skip s1 (n * 2) =
                  (if Z.of_nat (length got) =? n * 2
                   then PSD_OK else PSD_ERR_STREAM_EOF, s2)).
  { unfold Stream.psd_stream_skip, Stream.psd_stream_read_exact.
    replace (n * 2 <=? 0) with false by (symmetry; apply Z.leb_gt; lia).
    rewrite Hgot.
    destruct (Z.of_nat (length got) <? n * 2) eqn:El.
    - apply Z.ltb_lt in El.
      replace (Z.of_nat (length got) =? n * 2) with false
        by (symmetry; apply Z.eqb_neq; lia).
      reflexivity.
    - apply Z.ltb_ge in El.
      replace (Z.of_nat (length got) =? n * 2) with true
        by (symmetry; apply Z.eqb_eq; lia).
      reflexivity. }
  rewrite Hskip.
  destruct (Z.of_nat (length got) =? n * 2) eqn:Efull; cbn [negb].
  - apply Z.eqb_eq in Efull.
    unfold Unicode.psd_utf16be_to_utf8. rewrite Hgrant. cbn [negb].
    destruct (utf16_loop_well_formed got (n * 2) Hbytes
                (S (Z.to_nat (n * 2))) 0 [] ltac:(lia) ltac:(lia))
      as [cps [Hrun _]].
    rewrite Hrun. eexists _, _, _. split; [reflexivity|].
    destruct (n >? 1000000); [split|]; reflexivity.
  - eexists _, _, _. split; [reflexivity|].
    destruct (n >? 1000000); [split|]; try reflexivity.
    intros Hfit. apply Hthere in Hfit. apply Z.eqb_neq in Efull. lia.
Qed.

Lemma psd_skip_unicode_string_agrees_witness :
  exists st out s',
    Descriptor.psd_parse_unicode_string
      always_grant SIZE_MAX_64
      (Stream.mk_stream [0; 0; 0; 2; 0x00; 0x41; 0x00; 0x42; 0xFF] 0)
      = Some (st, out, s') /\
    match Stream.psd_stream_read_be32
            (Stream.mk_stream [0; 0; 0; 2; 0x00; 0x41; 0x00; 0x42; 0xFF] 0)
    with
    | (inr char_count, behind_count) =>
      if char_count >? 1000000
      then Descriptor.psd_skip_unicode_string
             SIZE_MAX_64
             (Stream.mk_stream [0; 0; 0; 2; 0x00; 0x41; 0x00; 0x42; 0xFF] 0)
           = (PSD_ERR_CORRUPT_DATA, behind_count) /\
           (Z.of_nat (Stream.position behind_count) + char_count * 2
            <= Z.of_nat (length [0; 0; 0; 2; 0x00; 0x41; 0x00; 0x42; 0xFF])
            -> st = PSD_OK)
      else Descriptor.psd_skip_unicode_string
             SIZE_MAX_64
             (Stream.mk_stream [0; 0; 0; 2; 0x00; 0x41; 0x00; 0x42; 0xFF] 0)
           = (st, s')
    | (inl _, _) =>
      Descriptor.psd_skip_unicode_string
        SIZE_MAX_64
        (Stream.mk_stream [0; 0; 0; 2; 0x00; 0x41; 0x00; 0x42; 0xFF] 0)
      = (st, s')
    end.
Proof.
  apply (psd_skip_unicode_string_agrees
           always_grant SIZE_MAX_64
           (Stream.mk_stream [0; 0; 0; 2; 0x00; 0x41; 0x00; 0x42; 0xFF] 0)).
  - unfold stream_wf. cbn. lia.
  - reflexivity.
  - vm_compute. discriminate.
  - reflexivity.
Defined.

(** X29. A class id has two encodings, and the parser reads both: the
    length 0 followed by a 4-byte OSType, or a non-zero length followed by
    that many characters.  In either case [psd_parse_class_id] returns
    [PSD_OK] and the characters with a terminating NUL, and leaves the
    stream behind them; so a 4-character id written either way gives the
    same string. *)
Theorem psd_parse_class_id_roundtrip :
  forall alloc size_max pre name rest,
    name <> [] ->
    Z.of_nat (length name) < 2 ^ 32 ->
    2 ^ 32 <= size_max ->
    (forall size, malloc_ok alloc size = true) ->
    Descriptor.psd_parse_class_id
      alloc size_max
      (stream_at pre ((be_bytes 4 (Z.of_nat (length name)) ++ name) ++ rest))
    = (PSD_OK, Some (name ++ [0]),
       stream_at (pre ++ be_bytes 4 (Z.of_nat (length name)) ++ name) rest) /\
    (length name = 4%nat ->
     Descriptor.psd_parse_class_id
       alloc size_max (stream_at pre ((be_bytes 4 0 ++ name) ++ rest))
     = (PSD_OK, Some (name ++ [0]),
        stream_at (pre ++ be_bytes 4 0 ++ name) rest)).
Proof.
  intros alloc size_max pre name rest Hne Hlen Hmax Hgrant.
  change (2 ^ 32) with 4294967296 in *.
  assert (Hpos : 0 < Z.of_nat (length name))
    by (destruct name; [congruence | cbn [length]; lia]).
  split.
  - unfold Descriptor.psd_parse_class_id, Stream.psd_stream_read_be32.
    rewrite <- app_assoc.
    rewrite read_value_at by (rewrite be_bytes_length; reflexivity).
    rewrite read_be_u32_be_bytes by lia.
    replace (Z.of_nat (length name) =? 0) with false
      by (symmetry; apply Z.eqb_neq; lia).
    rewrite Hgrant. cbn [negb].
    unfold Descriptor.size_t_cast. rewrite Z.mod_small by lia.
    rewrite psd_stream_read_at.
    unfold u32. rewrite Z.mod_small by lia. rewrite Z.eqb_refl. cbn [negb].
    rewrite <- !app_assoc. reflexivity.
  - intros H4.
    unfold Descriptor.psd_parse_class_id, Stream.psd_stream_read_be32.
    rewrite <- app_assoc.
    rewrite read_value_at by (rewrite be_bytes_length; reflexivity).
    rewrite read_be_u32_be_bytes by lia.
    change (0 =? 0) with true. cbv iota.
    replace 4 with (Z.of_nat (length name)) at 1 by lia.
    rewrite read_exact_at. rewrite Hgrant. cbn [negb].
    destruct name as [|a [|b [|c [|d [|e name]]]]]; try discriminate H4.
    cbn [byte_at nth app]. rewrite <- !app_assoc. reflexivity.
Qed.

Lemma psd_parse_class_id_roundtrip_witness :
  Descriptor.psd_parse_class_id
    always_grant SIZE_MAX_64
    (stream_at [] ((be_bytes 4 (Z.of_nat (length [0x54; 0x78; 0x4C; 0x72]))
                    ++ [0x54; 0x78; 0x4C; 0x72]) ++ [0xFF]))
  = (PSD_OK, Some ([0x54; 0x78; 0x4C; 0x72] ++ [0]),
     stream_at ([] ++ be_bytes 4 (Z.of_nat (length [0x54; 0x78; 0x4C; 0x72]))
                ++ [0x54; 0x78; 0x4C; 0x72]) [0xFF]) /\
  (length [0x54; 0x78; 0x4C; 0x72] = 4%nat ->
   Descriptor.psd_parse_class_id
     always_grant SIZE_MAX_64
     (stream_at [] ((be_bytes 4 0 ++ [0x54; 0x78; 0x4C; 0x72]) ++ [0xFF]))
   = (PSD_OK, Some ([0x54; 0x78; 0x4C; 0x72] ++ [0]),
      stream_at ([] ++ be_bytes 4 0 ++ [0x54; 0x78; 0x4C; 0x72]) [0xFF])).
Proof.
  apply (psd_parse_class_id_roundtrip
           always_grant SIZE_MAX_64 [] [0x54; 0x78; 0x4C; 0x72] [0xFF]).
  - discriminate.
  - vm_compute. reflexivity.
  - vm_compute. discriminate.
  - reflexivity.
Defined.

(** *** PackBits images of several scanlines *)

Lemma scan_loop_packets :
  forall ps fuel front rest comp_pos scan_pos scanned,
    forallb legal_packet ps = true ->
    (ps = [] \/ ends_with_data ps = true) ->
    (length (encode_row ps) < fuel)%nat ->
    length front = (comp_pos + scan_pos)%nat ->
    Rle.scan_loop fuel (front ++ encode_row ps ++ rest)
                  (scanned + length (expand_row ps))
                  comp_pos scan_pos scanned =
    Some (PSD_OK, (scan_pos + length (encode_row ps))%nat,
          (scanned + length (expand_row ps))%nat).
Proof.
  induction ps as [|p ps IH];
    intros fuel front rest comp_pos scan_pos scanned Hl He Hfuel Hfront.
  - destruct fuel as [|fuel]; [cbn in Hfuel; lia|].
    cbn [encode_row expand_row flat_map length Rle.scan_loop].
    rewrite !Nat.add_0_r, Nat.ltb_irrefl. reflexivity.
  - destruct He as [He | He]; [discriminate|].
    pose proof (expand_row_nonempty p ps Hl He) as Hne.
    assert (Hrest : ps = [] \/ ends_with_data ps = true).
    { destruct ps as [|q ps']; [now left | right].
      exact (ends_with_data_tail p q ps' He). }
    destruct fuel as [|fuel]; [lia|].
    cbn [forallb] in Hl. apply andb_true_iff in Hl. destruct Hl as [Hp Hps].
    unfold encode_row, expand_row in *. cbn [flat_map] in *.
    set (enc := flat_map encode_packet ps) in *.
    set (out := flat_map expand_packet ps) in *.
    cbn [Rle.scan_loop].
    rewrite <- Hfront.
    assert (Hin : (length front
                   <? length (front ++ (encode_packet p ++ enc) ++ rest))%nat
                  = true)
      by (apply Nat.ltb_lt; rewrite !length_app; destruct p; cbn; lia).
    assert (Hroom : (scanned <? scanned
                                + length (expand_packet p ++ out))%nat = true)
      by (apply Nat.ltb_lt; lia).
    rewrite Hin, Hroom. cbn [andb]. clear Hin Hroom.
    rewrite <- app_assoc.
    destruct p as [bs| |n v]; cbn [legal_packet encode_packet expand_packet app]
      in *.
    + (* literal *)
      apply andb_true_iff in Hp. destruct Hp as [H1 H2].
      apply Nat.leb_le in H1. apply Nat.leb_le in H2.
      set (h := Z.of_nat (length bs) - 1) in *.
      rewrite byte_at_middle.
      replace (Z.to_nat (h + 1)) with (length bs) by (subst h; lia).
      replace (h <? 128) with true by (symmetry; apply Z.ltb_lt; subst h; lia).
      replace ((scanned + length (bs ++ out) <? scanned + length bs)%nat
               || (length (front ++ h :: bs ++ enc ++ rest)
                   <? comp_pos + S scan_pos + length bs)%nat)
        with false.
      2: { symmetry. apply orb_false_iff. split; apply Nat.ltb_ge;
           rewrite ?length_app; cbn [length]; rewrite ?length_app; lia. }
      replace (front ++ h :: bs ++ enc ++ rest)
        with ((front ++ h :: bs) ++ enc ++ rest)
        by (rewrite <- !app_assoc; reflexivity).
      replace (scanned + length (bs ++ out))%nat
        with ((scanned + length bs) + length out)%nat
        by (rewrite length_app; lia).
      rewrite (IH fuel (front ++ h :: bs) rest comp_pos
                  (S scan_pos + length bs)%nat (scanned + length bs)%nat
                  Hps Hrest)
        by (cbn [length] in *; rewrite ?length_app in *; cbn [length] in *; lia).
      do 2 f_equal. f_equal. cbn [length]. rewrite length_app. lia.
    + (* no-op *)
      rewrite byte_at_middle.
      change (128 <? 128) with false. change (128 =? 128) with true. cbv iota.
      replace (front ++ 128 :: enc ++ rest)
        with ((front ++ [128]) ++ enc ++ rest)
        by (rewrite <- app_assoc; reflexivity).
      rewrite (IH fuel (front ++ [128]) rest comp_pos (S scan_pos) scanned
                  Hps Hrest)
        by (cbn [length] in *; rewrite ?length_app in *; cbn [length] in *; lia).
      do 2 f_equal. f_equal. cbn [length]. lia.
    + (* run *)
      apply andb_true_iff in Hp. destruct Hp as [H1 H2].
      apply Nat.leb_le in H1. apply Nat.leb_le in H2.
      set (h := 257 - Z.of_nat n) in *.
      rewrite byte_at_middle.
      replace (Z.to_nat (257 - h)) with n by (subst h; lia).
      replace (h <? 128) with false by (symmetry; apply Z.ltb_ge; subst h; lia).
      replace (h =? 128) with false by (symmetry; apply Z.eqb_neq; subst h; lia).
      replace (length (front ++ h :: v :: enc ++ rest)
               <=? comp_pos + S scan_pos)%nat with false
        by (symmetry; apply Nat.leb_gt; rewrite length_app; cbn [length]; lia).
      replace (front ++ h :: v :: enc ++ rest)
        with ((front ++ [h; v]) ++ enc ++ rest)
        by (rewrite <- !app_assoc; reflexivity).
      replace (scanned + length (repeat v n ++ out))%nat
        with ((scanned + n) + length out)%nat
        by (rewrite length_app, repeat_length; lia).
      rewrite (IH fuel (front ++ [h; v]) rest comp_pos (S (S scan_pos))
                  (scanned + n)%nat Hps Hrest)
        by (cbn [length] in *; rewrite ?length_app in *; cbn [length] in *; lia).
      do 2 f_equal. f_equal. cbn [length]. lia.
Qed.

Lemma decode_scanlines_packets :
  forall width rows front rest out,
    (0 < width)%nat ->
    forallb (scanline_packets width) rows = true ->
    Rle.decode_scanlines (length rows)
                         (front ++ flat_map encode_row rows ++ rest)
                         width (length front) out =
    Some (mk_row_result PSD_OK
                        (length front + length (flat_map encode_row rows))
                        (out ++ flat_map expand_row rows)).
Proof.
  intros width.
  induction rows as [|ps rows IH]; intros front rest out Hw Hrows.
  - cbn [length flat_map Rle.decode_scanlines app]. rewrite app_nil_r.
    now rewrite Nat.add_0_r.
  - cbn [forallb] in Hrows. apply andb_true_iff in Hrows.
    destruct Hrows as [Hps Hrest].
    unfold scanline_packets in Hps.
    apply andb_true_iff in Hps. destruct Hps as [Hps Hlen].
    apply andb_true_iff in Hps. destruct Hps as [Hlegal Hend].
    apply Nat.eqb_eq in Hlen.
    cbn [length flat_map Rle.decode_scanlines].
    rewrite <- app_assoc.
    pose proof (scan_loop_packets
                  ps (S (length (front ++ encode_row ps ++
                                 flat_map encode_row rows ++ rest)))
                  front (flat_map encode_row rows ++ rest)
                  (length front) 0 0 Hlegal (or_intror Hend)) as Hscan.
    cbn [Nat.add] in Hscan. rewrite Hlen in Hscan.
    rewrite Hscan by (rewrite ?length_app; lia).
    change (status_eqb PSD_OK PSD_OK) with true. cbn [negb].
    rewrite Nat.eqb_refl. cbn [negb].
    rewrite slice_middle.
    rewrite <- Hlen at 1.
    rewrite psd_rle_decode_scanline_packets by (try assumption; now right).
    cbn [row_status row_output].
    change (status_eqb PSD_OK PSD_OK) with true. cbn [negb].
    replace (length (front ++ encode_row ps ++ flat_map encode_row rows
                     ++ rest)
             <? length front + length (encode_row ps))%nat with false
      by (symmetry; apply Nat.ltb_ge; rewrite !length_app; lia).
    replace (front ++ encode_row ps ++ flat_map encode_row rows ++ rest)
      with ((front ++ encode_row ps) ++ flat_map encode_row rows ++ rest)
      by (rewrite <- app_assoc; reflexivity).
    replace (length front + length (encode_row ps))%nat
      with (length (front ++ encode_row ps)) by (rewrite length_app; lia).
    rewrite IH by assumption.
    rewrite !length_app, <- app_assoc. do 2 f_equal. lia.
Qed.

(** X18. An image of several PackBits scanlines decodes to its rows: when
    every scanline is written as legal packets that expand to [width]
    bytes and end in a data packet, [psd_rle_decode] on their
    concatenation returns [PSD_OK], the concatenation of the expanded
    rows ([scanline_count * width] bytes), and has consumed exactly the
    bytes of the scanlines; whatever follows them in the input is not
    looked at. *)
Theorem psd_rle_decode_scanlines :
  forall width rows rest,
    (0 < width)%nat ->
    forallb (scanline_packets width) rows = true ->
    Rle.psd_rle_decode (flat_map encode_row rows ++ rest) (length rows) width =
    Some (mk_row_result PSD_OK (length (flat_map encode_row rows))
                        (flat_map expand_row rows)) /\
    length (flat_map expand_row rows) = (length rows * width)%nat.
Proof.
  intros width rows rest Hw Hrows. split.
  - unfold Rle.psd_rle_decode.
    destruct rows as [|ps rows]; [reflexivity|].
    replace ((length (ps :: rows) =? 0)%nat || (width =? 0)%nat) with false
      by (symmetry; apply orb_false_iff; split; apply Nat.eqb_neq;
          cbn [length]; lia).
    apply (decode_scanlines_packets width (ps :: rows) [] rest [] Hw Hrows).
  - clear rest. induction rows as [|ps rows IH]; [reflexivity|].
    cbn [forallb] in Hrows. apply andb_true_iff in Hrows.
    destruct Hrows as [Hps Hrest].
    unfold scanline_packets in Hps.
    apply andb_true_iff in Hps. destruct Hps as [_ Hlen].
    apply Nat.eqb_eq in Hlen.
    cbn [flat_map length]. rewrite length_app, IH, Hlen by assumption. lia.
Qed.

Lemma psd_rle_decode_scanlines_witness :
  Rle.psd_rle_decode
    (flat_map encode_row [[Literal [1; 2]; Run 2 7]; [NoOp; Run 4 9]]
     ++ [0xFF])
    2 4 =
  Some (mk_row_result PSD_OK 8 [1; 2; 7; 7; 9; 9; 9; 9]) /\
  length (flat_map expand_row [[Literal [1; 2]; Run 2 7]; [NoOp; Run 4 9]])
    = 8%nat.
Proof.
  apply (psd_rle_decode_scanlines
           4 [[Literal [1; 2]; Run 2 7]; [NoOp; Run 4 9]] [0xFF]).
  - lia.
  - reflexivity.
Defined.

(** *** An RLE-compressed composite image *)

Lemma read_counts_rows :
  forall rows pre rest acc,
    Forall (fun ps => Z.of_nat (length (encode_row ps)) < 65536) rows ->
    0 <= acc ->
    acc + Z.of_nat (length (flat_map encode_row rows)) < 2 ^ 64 ->
    Composite.read_counts (length rows) 2
                          (stream_at pre (rle_row_counts rows ++ rest)) acc
    = (inr (acc + Z.of_nat (length (flat_map encode_row rows))),
       stream_at (pre ++ rle_row_counts rows) rest).
Proof.
  induction rows as [|ps rows IH]; intros pre rest acc Hsmall Hacc Hsum.
  - cbn [length Composite.read_counts rle_row_counts flat_map app].
    rewrite app_nil_r, Z.add_0_r. reflexivity.
  - inversion Hsmall as [|? ? Hps Hrows]; subst.
    cbn [flat_map] in Hsum. rewrite length_app in Hsum.
    cbn [length Composite.read_counts]. change (2 =? 2) with true. cbv iota.
    unfold rle_row_counts. cbn [flat_map]. fold (rle_row_counts rows).
    rewrite <- app_assoc.
    unfold Stream.psd_stream_read_be16.
    rewrite read_value_at by (rewrite be_bytes_length; reflexivity).
    rewrite read_be_u16_be_bytes by lia.
    change (2 ^ 64) with 18446744073709551616 in Hsum.
    unfold u64 at 1. rewrite Z.mod_small by lia.
    rewrite IH by (try assumption; change (2 ^ 64) with 18446744073709551616;
                   lia).
    rewrite length_app, <- !app_assoc. do 2 f_equal. lia.
Qed.

Lemma expanded_rows_length :
  forall width rows,
    forallb (scanline_packets width) rows = true ->
    length (flat_map expand_row rows) = (length rows * width)%nat.
Proof.
  intros width. induction rows as [|ps rows IH]; intros Hrows;
    [reflexivity|].
  cbn [forallb] in Hrows. apply andb_true_iff in Hrows.
  destruct Hrows as [Hps Hrest].
  unfold scanline_packets in Hps.
  apply andb_true_iff in Hps. destruct Hps as [_ Hlen].
  apply Nat.eqb_eq in Hlen.
  cbn [flat_map length]. rewrite length_app, IH, Hlen by assumption. lia.
Qed.

Lemma composite_sizes :
  forall doc,
    header_invariant doc ->
    let row :=
      if doc_depth doc =? 1 then Z.quot (u64 (doc_width doc + 7)) 8
      else u64 (doc_width doc
                * (if doc_depth doc =? 1 then 1
                   else Z.quot (doc_depth doc) 8)) in
    row = scanline_bytes doc /\
    0 < scanline_bytes doc <= 1200000 /\
    u64 (u64 (doc_channels doc * doc_height doc) * row)
      = planar_image_bytes doc /\
    0 < planar_image_bytes doc < 2 ^ 63 /\
    u32 (doc_height doc * doc_channels doc)
      = doc_height doc * doc_channels doc.
Proof.
  intros doc [Hc [Hd [Hw Hh]]]. cbv zeta.
  set (w := doc_width doc) in *. set (h := doc_height doc) in *.
  set (c := doc_channels doc) in *. set (d := doc_depth doc) in *.
  assert (Hw' : 1 <= w <= 300000) by (destruct (doc_is_psb doc); lia).
  assert (Hh' : 1 <= h <= 300000) by (destruct (doc_is_psb doc); lia).
  assert (Hrow : (if d =? 1 then Z.quot (u64 (w + 7)) 8
                  else u64 (w * (if d =? 1 then 1 else Z.quot d 8)))
                 = scanline_bytes doc /\ 0 < scanline_bytes doc <= 1200000).
  { unfold scanline_bytes. fold w d.
    destruct Hd as [-> | [-> | [-> | ->]]]; cbn [Z.eqb Pos.eqb].
    - unfold u64. rewrite Z.mod_small by lia.
      rewrite Z.quot_div_nonneg by lia. split; [reflexivity | div_lia].
    - change (Z.quot 8 8) with 1. change (8 / 8) with 1.
      unfold u64. rewrite Z.mod_small by lia. split; [reflexivity | lia].
    - change (Z.quot 16 8) with 2. change (16 / 8) with 2.
      unfold u64. rewrite Z.mod_small by lia. split; [reflexivity | lia].
    - change (Z.quot 32 8) with 4. change (32 / 8) with 4.
      unfold u64. rewrite Z.mod_small by lia. split; [reflexivity | lia]. }
  destruct Hrow as [Hrow Hsb]. rewrite Hrow.
  unfold planar_image_bytes. fold c h.
  set (sb := scanline_bytes doc) in *.
  assert (Hch : 1 <= c * h <= 16800000) by nia.
  assert (Hplanar : 0 < c * h * sb < 9223372036854775808) by nia.
  change (2 ^ 63) with 9223372036854775808.
  repeat split; try lia.
  - unfold u64. rewrite (Z.mod_small (c * h)) by lia.
    apply Z.mod_small. lia.
  - unfold u32. apply Z.mod_small. nia.
Qed.

(** X30. An RLE-compressed composite image is read back.  For a PSD
    document with a valid header whose image data section holds
    compression 1, the table of 2-byte byte counts and one PackBits row per
    scanline of every channel (each row legal packets that expand to one
    scanline and end in a data packet), [psd_parse_composite_image]
    returns [PSD_OK], keeps exactly the expanded rows in planar order as
    the image, stores the planar size as its length, and leaves the stream
    behind the last row. *)
Theorem rle_composite_image_roundtrip :
  forall alloc zlib size_t_bits doc pre rows rest,
    header_invariant doc ->
    doc_is_psb doc = false ->
    64 <= size_t_bits ->
    (forall size, malloc_ok alloc size = true) ->
    length rows = Z.to_nat (doc_height doc * doc_channels doc) ->
    forallb (scanline_packets (Z.to_nat (scanline_bytes doc))) rows = true ->
    Forall (fun ps => Z.of_nat (length (encode_row ps)) < 65536) rows ->
    Composite.psd_parse_composite_image
      alloc zlib size_t_bits (stream_at pre (rle_image_data rows ++ rest)) doc
    = Some (PSD_OK,
            mk_composite (Some (flat_map expand_row rows))
                         (planar_image_bytes doc) 1,
            stream_at (pre ++ rle_image_data rows) rest).
Proof.
  intros alloc zlib bits doc pre rows rest Hinv Hpsd Hbits Hgrant Hn Hrows
         Hsmall.
  destruct (composite_sizes doc Hinv) as [Hrow [Hsb [Hsize [Hplanar Hnum]]]].
  change (2 ^ 63) with 9223372036854775808 in Hplanar.
  assert (Hcast : forall v, 0 <= v < 18446744073709551616 ->
                            Composite.size_t_cast bits v = v).
  { intros v Hv. unfold Composite.size_t_cast. apply Z.mod_small.
    assert (Hpow : 2 ^ 64 <= 2 ^ bits) by (apply Z.pow_le_mono_r; lia).
    change (2 ^ 64) with 18446744073709551616 in Hpow. lia. }
  assert (Hu64 : forall v, Endian.psd_u64_to_size bits v = Some v).
  { intros v. unfold Endian.psd_u64_to_size.
    replace (bits <? 64) with false by (symmetry; apply Z.ltb_ge; lia).
    reflexivity. }
  pose proof (expanded_rows_length _ _ Hrows) as Hout.
  assert (Hcount : Z.of_nat (length rows)
                   = doc_height doc * doc_channels doc).
  { rewrite Hn. apply Z2Nat.id. destruct Hinv as [Hc [_ [Hw Hh]]].
    destruct (doc_is_psb doc); nia. }
  assert (Hexpanded : Z.of_nat (length (flat_map expand_row rows))
                      = planar_image_bytes doc).
  { rewrite Hout. unfold planar_image_bytes.
    rewrite Nat2Z.inj_mul, Hcount, Z2Nat.id by lia. lia. }
  assert (Hencoded : Z.of_nat (length (flat_map encode_row rows))
                     < 18446744073709551616).
  { assert (Hbound : forall l,
               Forall (fun ps => Z.of_nat (length (encode_row ps)) < 65536) l ->
               Z.of_nat (length (flat_map encode_row l))
               <= 65536 * Z.of_nat (length l)).
    { induction l as [|ps l IHl]; intros Hl; [cbn; lia|].
      inversion Hl; subst. cbn [flat_map length].
      rewrite length_app. specialize (IHl ltac:(assumption)). lia. }
    specialize (Hbound rows Hsmall).
    destruct Hinv as [Hc [_ [Hw Hh]]]. destruct (doc_is_psb doc); nia. }
  unfold Composite.psd_parse_composite_image, rle_image_data.
  unfold Stream.psd_stream_read_be16.
  rewrite <- (app_assoc [0; 1]).
  rewrite (read_value_at 2 _ pre [0; 1]) by reflexivity.
  change (read_be_u16 [0; 1] 0) with 1.
  change (1 >? 3) with false. cbv iota. cbv zeta.
  rewrite Hsize, Hrow, Hnum, Hpsd.
  rewrite (Hcast (planar_image_bytes doc)) by lia.
  rewrite Hgrant. cbn [negb].
  change (1 =? 0) with false. change (1 =? 1) with true. cbv iota.
  unfold Composite.decode_composite_rle.
  unfold Composite.psd_try_decode_composite_rle at 1.
  rewrite psd_stream_tell_at.
  rewrite (psd_stream_seek_at
             _ _ (pre ++ [0; 1])
             ((rle_row_counts rows ++ flat_map encode_row rows) ++ rest))
    by reflexivity.
  change (negb (2 =? 2) && negb (2 =? 4)) with false. cbv iota.
  rewrite <- Hcount, Nat2Z.id.
  rewrite <- (app_assoc (rle_row_counts rows)).
  rewrite read_counts_rows
    by (try assumption; try lia; change (2 ^ 64) with 18446744073709551616;
        lia).
  rewrite Z.add_0_l, Hu64, Hgrant. cbn [negb].
  rewrite psd_stream_read_at, Z.eqb_refl. cbn [negb].
  rewrite Hu64.
  rewrite Hcast by lia. rewrite Nat2Z.id.
  assert (Hdecode :
            Rle.psd_rle_decode (flat_map encode_row rows) (length rows)
                               (Z.to_nat (scanline_bytes doc))
            = Some (mk_row_result PSD_OK
                                  (length (flat_map encode_row rows))
                                  (flat_map expand_row rows))).
  { unfold Rle.psd_rle_decode.
    destruct rows as [|ps rows']; [reflexivity|].
    replace ((length (ps :: rows') =? 0)%nat
             || (Z.to_nat (scanline_bytes doc) =? 0)%nat) with false
      by (symmetry; apply orb_false_iff; split; apply Nat.eqb_neq;
          cbn [length]; lia).
    pose proof (decode_scanlines_packets
                  (Z.to_nat (scanline_bytes doc)) (ps :: rows') [] [] []
                  ltac:(lia) Hrows) as Hd.
    cbn [app length Nat.add] in Hd. rewrite app_nil_r in Hd. exact Hd. }
  rewrite Hdecode. cbn [row_status row_output].
  change (status_eqb PSD_OK PSD_OK) with true. cbn [negb].
  rewrite Hexpanded, Z.eqb_refl. cbn [negb].
  change (status_eqb PSD_OK PSD_OK) with true. cbv iota. cbn [negb].
  rewrite <- !app_assoc. reflexivity.
Qed.

Lemma rle_composite_image_roundtrip_witness :
  Composite.psd_parse_composite_image
    always_grant None 64
    (stream_at [] (rle_image_data rgb_2x1_rows ++ [0xFF])) rgb_2x1_document
  = Some (PSD_OK,
          mk_composite (Some (flat_map expand_row rgb_2x1_rows))
                       (planar_image_bytes rgb_2x1_document) 1,
          stream_at ([] ++ rle_image_data rgb_2x1_rows) [0xFF]).
Proof.
  apply (rle_composite_image_roundtrip
           always_grant None 64 rgb_2x1_document [] rgb_2x1_rows [0xFF]).
  - unfold header_invariant. cbn. lia.
  - reflexivity.
  - lia.
  - reflexivity.
  - reflexivity.
  - reflexivity.
  - repeat constructor.
Defined.
